(* ===== verification/_CoqProject ===== *)
-Q . S2P
Prelude.v
GoString.v
GoTime.v
Sha256.v
GoJson.v
GoNum.v
GoClock.v
GoFmt.v
Unstructured.v
Protected.v
Ai.v
Token.v
AuditChain.v
Types.v
Silence.v
DriftReport.v
Webhook.v
PromTrigger.v
Cluster.v
Fixers.v
TLSAnalyzer.v
Watcher.v
Slack.v
Routing.v
Alertmanager.v
Ticketing.v
OpenProject.v
Api.v
Builders.v
Rbac.v
Reconciler.v
Operator.v
OperatorStatus.v
Rendering.v
Permissions.v
Discovery.v
Endpoints.v
Netpol.v
NetpolAnalyzers.v
ManifestBridge.v
Redact.v
Snapshot.v
RbacDrift.v
DnsChain.v
GitOps.v
CertExpiry.v
