(* ===== verification/Prelude.v ===== *)
(** * Agentic SRE (srenix): a verification library

    srenix is a Go process that watches a Kubernetes cluster.  Probes and
    analyzers produce findings; fixers repair a narrow class of them; the
    findings become DriftReport CRs, Slack messages, Alertmanager alerts and
    tickets; signed links let a human approve an AI-proposed action or
    silence a finding; every consequential step goes into a hash-chained
    audit log.  This library models the parts where a mistake costs
    something, as executable definitions translated from the Go code under
    src/, and proves what makes them correct.

    ** How the parts fit

    A cycle of the watcher (src/internal/watcher/watcher.go, [runCycle] of
    Watcher.v) collects probe results and diagnostics (Types.v), drops what
    a Silence covers (Silence.v), lets the fixers act on the cluster
    (Fixers.v over Cluster.v, behind the namespace guard of Protected.v),
    compares the result with the findings seen before, posts what is new or
    due again with its signed links (Token.v), and reconciles the DriftReport
    CRs (DriftReport.v).  Cycles are started by events, by a webhook
    (Webhook.v) or by a new alert (PromTrigger.v).  Proposed actions pass
    the validators of Ai.v before they are signed.  AuditChain.v is the
    audit sink everything writes to.

    ** Files

    - Prelude.v: notations, tactics and lemmas shared by all files; the class
      [MapRange] is the order in which Go ranges over a map, which no theorem
      may depend on.
    - GoString, GoTime, GoClock, GoNum, GoFmt, GoJson, Sha256, Unstructured:
      what the program uses of Go's strings, time, strconv, base64, fmt,
      encoding/json, crypto/sha256 and hmac, and of apimachinery's
      unstructured objects, as functions that compute.
    - Protected.v: src/pkg/ai/protected.go and src/internal/fix/protected.go.
      The package-level state is [ExtraState].  Theorems: any sequence of
      calls leaves both guards equal to the floor plus the last configured
      extras ([boundary_refines]), and where the two guards differ.
    - Ai.v: src/pkg/ai/types.go, validate.go, validate_manifest.go.  What each
      validator accepts, exactly.
    - Token.v: src/pkg/ai/jwt.go, signer.go, silence_token.go,
      silence_link.go.  Sign/verify round trips with their windows, no forged
      claims under an ideal signature, the minted links.
    - AuditChain.v: src/pkg/audit/hash_chain.go.  The log stays verifiable
      under any writes and refusals, the verifier finds the first broken
      entry, tampering needs a SHA-256 collision, checkpoints anchor the tail
      at their cadence; a retried write with the same map breaks the chain.
    - Silence.v: src/pkg/silence/filter.go and status.go.
    - DriftReport.v: src/internal/report/driftreport.go.  [Reconcile_sync]:
      against any server that merges JSON patches, one cycle makes the stored
      CRs those of the findings, with the exception the theorem states.
    - Webhook.v: src/internal/server/webhook/handler.go; PromTrigger.v:
      src/internal/trigger/prom/client.go.
    - Cluster.v: the calls of src/internal/snapshot as a free monad [prog],
      its interpreter [run], a program logic [wp] in which every mutation is
      judged by the calls before it, and the dry-run mutator.
    - Fixers.v: the five fixers of src/internal/fix.  [fixers_allowed]:
      whatever the cluster answers, every mutation is one of five allowed
      ones in an unprotected namespace and the results report exactly those
      that went through; [dry_run_faithful]: a dry run reports the same.
    - Watcher.v: the seen map.  [posting_schedule]: each subject is posted by
      its own small automaton; [restart_quiet]: a restart posts nothing
      twice; [fixed_never_cleared] and [cloud_findings_flap]: two cases in
      which clearing goes wrong.
    - Slack.v, Routing.v, Alertmanager.v: src/internal/report/slack.go,
      slack_delta.go, routing.go, alertmanager.go.  [critical_messages]: the
      splitter loses and repeats nothing; [active_finding_posted]: a finding
      still there reaches its channel; [alert_fires_while_active]: an alert
      never lapses between cycles and resolves by itself.
    - Ticketing.v: src/internal/report/ticketing.go, ticketing_lifecycle.go
      over the [Sink] class (src/pkg/ticketing).  [ticket_lifecycle]: over
      any cycles the calls about a report are a run of an automaton.
      OpenProject.v: the one sink of src/pkg/ticketing/openproject.
    - Api.v: src/api/v1alpha1/agenticsre_types.go, the resource a user
      writes.  Builders.v, Rbac.v: src/internal/operator/builders.go,
      approval_builders.go, rbac_builders.go, every object the operator
      renders, and the flags src/cmd/srenix/main.go registers.  Rendering.v:
      the command lines are accepted ([operator_flags_accepted]), the parts
      of a workload refer to each other ([workloads_wired]), the protected
      namespaces survive the environment ([protected_env_roundtrip]).
    - Reconciler.v: src/internal/operator/reconciler.go over the class
      [Client], an API server any call of which may fail, having done its
      work or not.  Operator.v: the abstract [plan] of a resource;
      [reconcile_plan]: whatever fails, a reconcile does acts of the plan
      only; [reconcile_converges]: without an error it does all of them and
      a second one changes nothing; [no_orphan_bindings],
      [signing_key_stable], [replay_protection]: invariants of any run.
      OperatorStatus.v: [conditions_correct], and two shortcomings
      ([approval_leftovers], [binding_collision]); the concrete server [Mem].
      Permissions.v: the fixers' calls against the roles the operator grants
      ([fixer_permissions], [watcher_reads_only]).
    - Discovery.v, Endpoints.v: src/internal/probe/ingress_discovery.go,
      learnt_targets.go, endpoints.go over the class [Net].
      [endpoint_severity]: over any passes the findings follow from the
      history of probes; [readBoundedBody_terminates]: reading a body ends
      (its fuel is the 65536 bytes of the limit times the reads that may
      give nothing); [suppressed_failures], [retry_not_longer]: what may be
      held back, and a retry that is no longer than the first attempt;
      [discovered_correct], [targets_distinct]: whom the probe asks.
    - Netpol.v: src/pkg/netpol.  [proposal_admits]: the proposed policy,
      read as Kubernetes reads it, lets in exactly whom it says;
      [external_delivery]: and refuses outside traffic that a service sends
      to another port.  NetpolAnalyzers.v: netpol_proposer.go and the
      coverage check of security_drift.go ([proposer_batch],
      [coverage_agrees]).  ManifestBridge.v: src/pkg/ai/manifest_bridge.go;
      [bridge_safe], and [proposal_signable]: the proposer's text passes the
      validators of Ai.v and becomes the action that is signed.
    - Snapshot.v: what an analyzer reads during a run.  RbacDrift.v:
      src/internal/diagnose/rbac_drift.go.  [rbac_accounting]: each wildcard
      role and unbound account is reported once or counted as suppressed;
      [allowlist_unreadable]: the operator's role hides the allowlist.
      DnsChain.v: dns_chain_drift.go.  [dns_chain]: a host has a critical
      report exactly when its chain is broken; [cloudflare_failure]: what
      failing calls of Cloudflare do to the reports.
      GitOps.v: gitops_drift.go.  [flux_always_new]: its texts hold an age,
      so the watcher takes a known finding for a new one; [one_hint_kept].
      CertExpiry.v: cert_expiry.go.  [cert_expiry_panics]: when it panics.
    - Redact.v: src/pkg/ai/redact.go, with the text a leftmost greedy match
      leaves and the replacement of all matches.  [redacted_no_secret]:
      nothing the secret heuristics know is left in redacted text.
    - TLSAnalyzer.v: src/internal/diagnose/tls_secret_mismatch.go.
      [analyzer_matches_fixer]: it reports what the fixer of Fixers.v repairs.
    ** Conventions

    Byte strings are [string], 64-bit integers [Z] with their wrap-around or
    range written out, times nanoseconds since year 1.  Code that fails
    returns a sum or an option; code with package or object state takes and
    returns it.  Loops over lists and maps are folds, so there is no fuel
    except in the JSON decoder and the other parsers, whose fuel is the
    length of the text and is enough by construction.  External code is a
    class with laws (signatures, the API server, the YAML parser, X.509),
    and each theorem that uses such laws has a witness with a concrete
    instance.

    ** Not modelled

    The other probes and analyzers (src/internal/probe, diagnose), the cloud
    probes (src/internal/cloud) and the investigator are inputs of a cycle:
    they read the cluster and return findings.  Which events requeue a resource
    (SetupWithManager) is controller-runtime's.  The daily digest, the
    feeder and the resolution recorder are left for later work.  Command
    lines, HTTP and
    Kubernetes clients, informers, goroutines, leader election and health
    servers are I/O; deepcopy code is generated. *)

From stdpp Require Export base numbers list strings gmap sets option pretty sorting.
From stdpp Require Import options.

(** ** Scopes and tactics *)

Declare Scope srenix_scope.
Delimit Scope srenix_scope with srenix.

(** Byte-string equality as the boolean the Go code computes. *)
Notation "s '=s?' t" := (bool_decide (s =@{string} t))
  (at level 70, no associativity) : srenix_scope.
Notation "s '≠s?' t" := (negb (bool_decide (s =@{string} t)))
  (at level 70, no associativity) : srenix_scope.
Open Scope srenix_scope.

(** [split_ifs] does the case analysis on the conditions of a translated
    handler: booleans, [bool_decide]s, [decide]s and [match]es, simplifying
    after each split. *)
Ltac split_ifs :=
  repeat (case_bool_decide || case_decide || case_match || simplify_eq/=).

(** [lia] with division and remainder by constants. *)
Ltac dlia := Z.div_mod_to_equations; lia.

(** [bsolve] turns boolean guards into propositions and finishes. *)
Ltac bool_to_prop :=
  repeat match goal with
  | H : _ && _ = true |- _ => apply andb_true_iff in H; destruct H
  | H : _ && _ = false |- _ => apply andb_false_iff in H
  | H : _ || _ = true |- _ => apply orb_true_iff in H
  | H : _ || _ = false |- _ => apply orb_false_iff in H; destruct H
  | H : negb _ = true |- _ => apply negb_true_iff in H
  | H : negb _ = false |- _ => apply negb_false_iff in H
  | H : bool_decide _ = true |- _ => apply bool_decide_eq_true in H
  | H : bool_decide _ = false |- _ => apply bool_decide_eq_false in H
  | H : (_ <? _)%Z = true |- _ => apply Z.ltb_lt in H
  | H : (_ <? _)%Z = false |- _ => apply Z.ltb_ge in H
  | H : (_ <=? _)%Z = true |- _ => apply Z.leb_le in H
  | H : (_ <=? _)%Z = false |- _ => apply Z.leb_gt in H
  | H : (_ =? _)%Z = true |- _ => apply Z.eqb_eq in H
  | H : (_ =? _)%Z = false |- _ => apply Z.eqb_neq in H
  | H : (_ <? _)%nat = true |- _ => apply Nat.ltb_lt in H
  | H : (_ <? _)%nat = false |- _ => apply Nat.ltb_ge in H
  | H : (_ <=? _)%nat = true |- _ => apply Nat.leb_le in H
  | H : (_ <=? _)%nat = false |- _ => apply Nat.leb_gt in H
  end.

Create HintDb srenix.
Create Rewrite HintDb srenix.

(** ** Lists *)

Section lists.
Context {A B : Type}.
Implicit Types (l : list A) (f : A → bool).

(** Membership in a boolean filter, on stdpp's [∈]. *)
Lemma elem_of_bfilter f l x : x ∈ List.filter f l ↔ f x = true ∧ x ∈ l.
Proof. rewrite !list_elem_of_In, filter_In. tauto. Qed.

Lemma existsb_elem f l : existsb f l = true ↔ ∃ x, x ∈ l ∧ f x = true.
Proof. rewrite existsb_exists. by setoid_rewrite list_elem_of_In. Qed.

Lemma existsb_not_elem f l : existsb f l = false ↔ ∀ x, x ∈ l → f x = false.
Proof.
  rewrite <-not_true_iff_false, existsb_elem. split.
  - intros Hn x Hx. destruct (f x) eqn:E; [exfalso; eauto|done].
  - intros Hall (x & Hx & Hf). rewrite Hall in Hf; done.
Qed.

Lemma forallb_elem f l : forallb f l = true ↔ ∀ x, x ∈ l → f x = true.
Proof. rewrite forallb_forall. by setoid_rewrite list_elem_of_In. Qed.

(** Boolean filters commute with append and are idempotent. *)
Lemma bfilter_app f l1 l2 :
  List.filter f (l1 ++ l2) = List.filter f l1 ++ List.filter f l2.
Proof. apply List.filter_app. Qed.

Lemma bfilter_filter f g l :
  List.filter f (List.filter g l) = List.filter (λ x, g x && f x) l.
Proof.
  induction l as [|x l IH]; simpl; [done|]. destruct (g x); simpl; [|done].
  destruct (f x); by rewrite IH.
Qed.

Lemma bfilter_idem f l : List.filter f (List.filter f l) = List.filter f l.
Proof. induction l as [|x l IH]; simpl; [done|]. destruct (f x) eqn:E; simpl; [rewrite E|]; congruence. Qed.

Lemma bfilter_length f l : length (List.filter f l) ≤ length l.
Proof. induction l as [|x l IH]; simpl; [lia|]. destruct (f x); simpl; lia. Qed.

Lemma bfilter_true f l : (∀ x, x ∈ l → f x = true) → List.filter f l = l.
Proof.
  induction l as [|x l IH]; intros H; simpl; [done|].
  rewrite (H x) by set_solver. f_equal. apply IH. set_solver.
Qed.

Lemma bfilter_ext f g l :
  (∀ x, x ∈ l → f x = g x) → List.filter f l = List.filter g l.
Proof.
  induction l as [|x l IH]; intros H; simpl; [done|].
  rewrite (H x) by set_solver. rewrite IH by set_solver. done.
Qed.
End lists.

#[export] Hint Rewrite @bfilter_app @bfilter_idem : srenix.

(** ** Go's map iteration

    [for k, v := range m] visits the entries of [m] once each, in an order
    the language does not fix. *)

Class MapRange := {
  range : ∀ A : Type, gmap string A → list (string * A);
  range_perm : ∀ A (m : gmap string A), range A m ≡ₚ map_to_list m;
}.
#[global] Arguments range {_ _} _.

(** One such order, for the examples. *)
Program Definition key_order : MapRange := {| range := λ A m, map_to_list m |}.
Next Obligation. done. Qed.

Section map_range.
Context `{MR : MapRange} {A : Type}.
Implicit Type m : gmap string A.

Lemma elem_of_range m k x : (k, x) ∈ range m ↔ m !! k = Some x.
Proof. rewrite range_perm. apply elem_of_map_to_list. Qed.
Lemma NoDup_range_fst m : NoDup (range m).*1.
Proof. rewrite range_perm. apply NoDup_fst_map_to_list. Qed.
Lemma length_range m : length (range m) = size m.
Proof. rewrite range_perm. apply length_map_to_list. Qed.
End map_range.
