(* ===== verification/GoString.v ===== *)
(** * Go strings: the operations of package [strings] the program uses

    A Go string is a byte string: [string] holds its bytes and
    [String.length] is Go's [len].  [TrimSpace] knows all of Unicode's white
    space, as its UTF-8 byte sequences.  The case functions are those of the
    ASCII range; Go additionally consults the Unicode tables for bytes from
    0x80 on, which the model leaves unchanged. *)

From Stdlib Require Export Ascii.
From stdpp Require Import options.
From S2P Require Import Prelude.

Abbreviation len := String.length.
#[global] Arguments String.append !_ _ / : simpl nomatch.

(** ** Slices *)

(** [s[:n]] *)
Fixpoint stake (n : nat) (s : string) : string :=
  match n, s with
  | S n, String c s => String c (stake n s)
  | _, _ => ""
  end.

(** [s[n:]] *)
Fixpoint sdrop (n : nat) (s : string) : string :=
  match n, s with
  | S n, String _ s => sdrop n s
  | _, _ => s
  end.

Definition bytes (s : string) : list ascii := String.list_ascii_of_string s.
Definition of_bytes (l : list ascii) : string := String.string_of_list_ascii l.
Definition srev (s : string) : string := of_bytes (reverse (bytes s)).

Lemma bytes_of_bytes l : bytes (of_bytes l) = l.
Proof. apply String.list_ascii_of_string_of_list_ascii. Qed.
Lemma of_bytes_bytes s : of_bytes (bytes s) = s.
Proof. apply String.string_of_list_ascii_of_string. Qed.
Lemma bytes_app s t : bytes (s +:+ t) = bytes s ++ bytes t.
Proof. induction s as [|c s IH]; [done|]. simpl. f_equal. apply IH. Qed.
Lemma of_bytes_app l k : of_bytes (l ++ k) = of_bytes l +:+ of_bytes k.
Proof. induction l as [|c l IH]; [done|]. simpl. unfold of_bytes in *. by rewrite IH. Qed.
Lemma bytes_length s : length (bytes s) = len s.
Proof. induction s; simpl; auto. Qed.
Lemma of_bytes_length l : len (of_bytes l) = length l.
Proof. by rewrite <-bytes_length, bytes_of_bytes. Qed.
#[export] Instance bytes_inj : Inj (=) (=) bytes.
Proof. intros s t H. by rewrite <-(of_bytes_bytes s), H, of_bytes_bytes. Qed.

Lemma sapp_nil_r s : s +:+ "" = s.
Proof. induction s as [|c s IH]; [done|]. simpl. by rewrite IH. Qed.
Lemma sapp_assoc s t u : (s +:+ t) +:+ u = s +:+ t +:+ u.
Proof. apply (inj bytes). by rewrite !bytes_app, (assoc_L (++)). Qed.
Lemma sapp_length s t : len (s +:+ t) = len s + len t.
Proof. by rewrite <-!bytes_length, bytes_app, length_app. Qed.
#[export] Instance sapp_inj_l s : Inj (=) (=) (String.append s).
Proof. intros t u H. apply (f_equal bytes) in H. rewrite !bytes_app in H. by simplify_list_eq. Qed.
Lemma sapp_inj_r s t u : s +:+ u = t +:+ u → s = t.
Proof. intros H. apply (f_equal bytes) in H. rewrite !bytes_app in H. apply (inj bytes). by simplify_list_eq. Qed.

Lemma stake_sdrop n s : stake n s +:+ sdrop n s = s.
Proof. revert s; induction n as [|n IH]; intros [|c s]; try done. simpl. by rewrite IH. Qed.
Lemma stake_length n s : len (stake n s) = n `min` len s.
Proof. revert s; induction n as [|n IH]; intros [|c s]; simpl; try done. by rewrite IH. Qed.
Lemma stake_ge n s : len s ≤ n → stake n s = s.
Proof. revert s; induction n as [|n IH]; intros [|c s]; simpl; try done; [lia|]. intros; f_equal; apply IH; lia. Qed.
Lemma sdrop_app s t : sdrop (len s) (s +:+ t) = t.
Proof. by induction s. Qed.
Lemma stake_app s t : stake (len s) (s +:+ t) = s.
Proof. induction s as [|c s IH]; simpl; [by destruct t|]. by rewrite IH. Qed.

(** ** Prefixes, substrings, replacement *)

(** [strings.HasPrefix(s, p)] *)
Definition HasPrefix (s p : string) : bool := String.prefix p s.
(** [strings.TrimPrefix(s, p)] *)
Definition TrimPrefix (s p : string) : string :=
  if HasPrefix s p then sdrop (len p) s else s.
(** [strings.TrimSuffix(s, p)] *)
Definition TrimSuffix (s p : string) : string :=
  if String.prefix (srev p) (srev s) then stake (len s - len p) s else s.

(** [strings.Index(s, sub)], [None] for -1. *)
Fixpoint Index (s sub : string) : option nat :=
  if String.prefix sub s then Some 0 else
  match s with
  | "" => None
  | String _ s => S <$> Index s sub
  end.

(** [strings.Contains(s, sub)] *)
Definition Contains (s sub : string) : bool :=
  match Index s sub with Some _ => true | None => false end.

(** [strings.Replace(s, old, new, 1)] *)
Definition Replace1 (s old new : string) : string :=
  match Index s old with
  | Some i => stake i s +:+ new +:+ sdrop (i + len old) s
  | None => s
  end.

Lemma prefix_spec p s : String.prefix p s = true ↔ ∃ t, s = p +:+ t.
Proof.
  revert s. induction p as [|c p IH]; intros s; simpl.
  - split; [intros _; by exists s|]. by destruct s.
  - destruct s as [|d s]; simpl.
    + split; [done|]. by intros [t ?].
    + destruct (ascii_dec c d) as [->|Hne].
      * rewrite IH. split; intros [t Ht]; exists t.
        { by rewrite Ht. }
        { by simplify_eq/=. }
      * split; [done|]. intros [t ?]. by simplify_eq/=.
Qed.

#[global] Arguments String.prefix : simpl never.
Lemma HasPrefix_app p t : HasPrefix (p +:+ t) p = true.
Proof. apply prefix_spec. eauto. Qed.

Lemma Index_spec s sub i :
  Index s sub = Some i → ∃ u v, s = u +:+ sub +:+ v ∧ len u = i.
Proof.
  revert i. induction s as [|c s IH]; intros i; simpl.
  - destruct sub; simpl; [|done]. intros ?; simplify_eq. by exists "", "".
  - destruct (String.prefix sub (String c s)) eqn:E.
    + intros ?; simplify_eq. apply prefix_spec in E as [t Ht]. by exists "", t.
    + destruct (Index s sub) as [j|] eqn:Ej; simpl; [|done]. intros ?; simplify_eq.
      destruct (IH j eq_refl) as (u & v & -> & <-). by exists (String c u), v.
Qed.

Lemma Index_unfold s sub :
  Index s sub = if String.prefix sub s then Some 0 else
                match s with "" => None | String _ s' => S <$> Index s' sub end.
Proof. by destruct s. Qed.

Lemma Contains_spec s sub : Contains s sub = true ↔ ∃ u v, s = u +:+ sub +:+ v.
Proof.
  unfold Contains. split.
  - destruct (Index s sub) as [i|] eqn:E; [|done].
    intros _. apply Index_spec in E as (u & v & H & _). eauto.
  - intros (u & v & ->). induction u as [|c u IH]; rewrite Index_unfold.
    + assert (String.prefix sub ("" +:+ sub +:+ v) = true) as ->; [|done].
      apply prefix_spec. by exists v.
    + destruct (String.prefix sub _); [done|]. simpl. by destruct (Index (u +:+ sub +:+ v) sub).
Qed.

(** ** Case and white space *)

(** The byte value of a character. *)
Definition ord (c : ascii) : Z := Z.of_N (N_of_ascii c).
Definition chr (z : Z) : ascii := ascii_of_N (Z.to_N z).

Lemma ord_range c : (0 ≤ ord c < 256)%Z.
Proof. unfold ord. pose proof (N_ascii_bounded c). lia. Qed.
Lemma chr_ord c : chr (ord c) = c.
Proof. unfold chr, ord. by rewrite N2Z.id, ascii_N_embedding. Qed.
Lemma ord_chr z : (0 ≤ z < 256)%Z → ord (chr z) = z.
Proof. intros. unfold chr, ord. rewrite N_ascii_embedding by lia. lia. Qed.

Definition is_upper (c : ascii) : bool := ((65 <=? ord c) && (ord c <=? 90))%Z.
Definition is_lower (c : ascii) : bool := ((97 <=? ord c) && (ord c <=? 122))%Z.
Definition is_digit (c : ascii) : bool := ((48 <=? ord c) && (ord c <=? 57))%Z.
Definition is_space (c : ascii) : bool :=
  (((9 <=? ord c) && (ord c <=? 13)) || (ord c =? 32))%Z.

Definition lower (c : ascii) : ascii := if is_upper c then chr (ord c + 32) else c.
Definition upper (c : ascii) : ascii := if is_lower c then chr (ord c - 32) else c.

Fixpoint smap (f : ascii → ascii) (s : string) : string :=
  match s with "" => "" | String c s => String (f c) (smap f s) end.

(** [strings.ToLower], [strings.ToUpper] *)
Definition ToLower : string → string := smap lower.
Definition ToUpper : string → string := smap upper.
(** [strings.EqualFold] *)
Definition EqualFold (s t : string) : bool := ToLower s =s? ToLower t.

(** [strings.TrimLeftFunc], [strings.TrimRightFunc], [strings.TrimFunc] *)
Fixpoint TrimLeftFunc (f : ascii → bool) (s : string) : string :=
  match s with
  | "" => ""
  | String c s' => if f c then TrimLeftFunc f s' else s
  end.
Fixpoint TrimRightFunc (f : ascii → bool) (s : string) : string :=
  match s with
  | "" => ""
  | String c s' =>
      match TrimRightFunc f s' with
      | "" => if f c then "" else String c ""
      | t => String c t
      end
  end.
Definition TrimFunc (f : ascii → bool) (s : string) : string :=
  TrimRightFunc f (TrimLeftFunc f s).
(** The white space of two and of three bytes in UTF-8: U+0085, U+00A0,
    U+1680, U+2000 to U+200A, U+2028, U+2029, U+202F, U+205F, U+3000. *)
Definition is_space2 (a b : ascii) : bool :=
  ((ord a =? 194) && ((ord b =? 133) || (ord b =? 160)))%Z.
Definition is_space3 (a b c : ascii) : bool :=
  ((ord a =? 225) && (ord b =? 154) && (ord c =? 128)
   || (ord a =? 226) && (ord b =? 128)
      && ((128 <=? ord c) && (ord c <=? 138) || (ord c =? 168) || (ord c =? 169) || (ord c =? 175))
   || (ord a =? 226) && (ord b =? 129) && (ord c =? 159)
   || (ord a =? 227) && (ord b =? 128) && (ord c =? 128))%Z.

(** Dropping white space off the front, given how two and three bytes from
    the front on spell a white-space rune. *)
Fixpoint trim_front (sp2 : ascii → ascii → bool) (sp3 : ascii → ascii → ascii → bool)
    (s : string) : string :=
  match s with
  | "" => ""
  | String a s1 =>
      if is_space a then trim_front sp2 sp3 s1 else
      match s1 with
      | "" => s
      | String b s2 =>
          if sp2 a b then trim_front sp2 sp3 s2 else
          match s2 with
          | "" => s
          | String c s3 => if sp3 a b c then trim_front sp2 sp3 s3 else s
          end
      end
  end.
(** [strings.TrimSpace] *)
Definition TrimSpace (s : string) : string :=
  srev (trim_front (λ b a, is_space2 a b) (λ c b a, is_space3 a b c)
    (srev (trim_front is_space2 is_space3 s))).
(** [strings.Trim(s, "c")], [strings.TrimRight(s, "c")] for a one-byte cutset *)
Definition TrimByte (s : string) (c : ascii) : string := TrimFunc (λ d, bool_decide (d = c)) s.
Definition TrimRightByte (s : string) (c : ascii) : string := TrimRightFunc (λ d, bool_decide (d = c)) s.

Fixpoint sforallb (f : ascii → bool) (s : string) : bool :=
  match s with "" => true | String c s => f c && sforallb f s end.

Lemma sforallb_app f s t : sforallb f (s +:+ t) = sforallb f s && sforallb f t.
Proof. induction s as [|c s IH]; [done|]. simpl. by rewrite IH, andb_assoc. Qed.
Lemma smap_length f s : len (smap f s) = len s.
Proof. induction s; simpl; auto. Qed.

Lemma sforallb_TrimLeft f g s : sforallb f s = true → sforallb f (TrimLeftFunc g s) = true.
Proof. induction s as [|c s IH]; simpl; [done|]. intros [??]%andb_true_iff. destruct (g c); auto. simpl. by apply andb_true_iff. Qed.
Lemma sforallb_TrimRight f g s : sforallb f s = true → sforallb f (TrimRightFunc g s) = true.
Proof.
  induction s as [|c s IH]; simpl; [done|]. intros [Hc Hs]%andb_true_iff.
  specialize (IH Hs). destruct (TrimRightFunc g s) eqn:E.
  - destruct (g c); simpl; [done|]. by rewrite Hc.
  - simpl in *. by rewrite Hc, IH.
Qed.
Lemma TrimLeft_length f s : len (TrimLeftFunc f s) ≤ len s.
Proof. induction s as [|c s IH]; simpl; [lia|]. destruct (f c); simpl; lia. Qed.
Lemma trim_front_suffix sp2 sp3 s : ∃ p, s = p +:+ trim_front sp2 sp3 s.
Proof.
  remember (len s) as n eqn:E. assert (Hn : len s ≤ n) by lia. clear E.
  revert s Hn. induction n as [|n IH]; intros s Hn.
  { destruct s; simpl in *; [by exists ""|lia]. }
  destruct s as [|a s1]; [by exists ""|]. simpl in *.
  destruct (is_space a).
  { destruct (IH s1) as [p Hp]; [lia|]. exists (String a p). by rewrite Hp at 1. }
  destruct s1 as [|b s2]; [by exists ""|]. simpl in *.
  destruct (sp2 a b).
  { destruct (IH s2) as [p Hp]; [lia|]. exists (String a (String b p)). by rewrite Hp at 1. }
  destruct s2 as [|c s3]; [by exists ""|]. simpl in *.
  destruct (sp3 a b c); [|by exists ""].
  destruct (IH s3) as [p Hp]; [lia|].
  exists (String a (String b (String c p))). by rewrite Hp at 1.
Qed.
Lemma srev_app s t : srev (s +:+ t) = srev t +:+ srev s.
Proof. unfold srev. by rewrite bytes_app, reverse_app, of_bytes_app. Qed.
Lemma srev_involutive s : srev (srev s) = s.
Proof. unfold srev. by rewrite bytes_of_bytes, reverse_involutive, of_bytes_bytes. Qed.
Lemma srev_length s : len (srev s) = len s.
Proof. unfold srev. by rewrite of_bytes_length, length_reverse, bytes_length. Qed.
(** [TrimSpace s] is a substring of [s]. *)
Lemma TrimSpace_sub s : ∃ p q, s = p +:+ TrimSpace s +:+ q.
Proof.
  destruct (trim_front_suffix is_space2 is_space3 s) as [p Hp].
  set (t := trim_front is_space2 is_space3 s) in *.
  destruct (trim_front_suffix (λ b a, is_space2 a b) (λ c b a, is_space3 a b c) (srev t))
    as [q Hq].
  exists p, (srev q). rewrite Hp at 1. f_equal. unfold TrimSpace. fold t.
  set (u := trim_front _ _ (srev t)) in *.
  assert (E : srev (srev t) = srev u +:+ srev q) by (rewrite Hq at 1; apply srev_app).
  rewrite srev_involutive in E. exact E.
Qed.
Lemma TrimSpace_length s : len (TrimSpace s) ≤ len s.
Proof. destruct (TrimSpace_sub s) as (p & q & H). rewrite H at 2. rewrite !sapp_length. lia. Qed.
Lemma trim_front_length sp2 sp3 s : len (trim_front sp2 sp3 s) ≤ len s.
Proof. destruct (trim_front_suffix sp2 sp3 s) as [p Hp]. rewrite Hp at 2. rewrite sapp_length. lia. Qed.
Lemma trim_front_idem sp2 sp3 s : trim_front sp2 sp3 (trim_front sp2 sp3 s) = trim_front sp2 sp3 s.
Proof.
  remember (len s) as n eqn:E. assert (Hn : len s ≤ n) by lia. clear E.
  revert s Hn. induction n as [|n IH]; intros s Hn; [by destruct s; simpl in *; [|lia]|].
  destruct s as [|a s1]; [done|]. simpl in Hn. cbn [trim_front]. destruct (is_space a) eqn:Ea; [apply IH; lia|].
  destruct s1 as [|b s2]; [by cbn; rewrite Ea|]. simpl in Hn. destruct (sp2 a b) eqn:Eb; [apply IH; lia|].
  destruct s2 as [|c s3]; [by cbn; rewrite Ea, Eb|]. simpl in Hn. destruct (sp3 a b c) eqn:Ec; [apply IH; lia|].
  cbn. by rewrite Ea, Eb, Ec.
Qed.
(** What begins a string that begins with no white space does neither. *)
Lemma trim_front_prefix sp2 sp3 u v : trim_front sp2 sp3 (u +:+ v) = u +:+ v → trim_front sp2 sp3 u = u.
Proof.
  assert (Hl : ∀ t s', trim_front sp2 sp3 t = s' → len s' ≤ len t) by (intros t s' <-; apply trim_front_length).
  destruct u as [|a u1]; [done|]. cbn. destruct (is_space a); [intros H%Hl; cbn in H; lia|].
  destruct u1 as [|b u2]; [done|]. cbn. destruct (sp2 a b); [intros H%Hl; cbn in H; lia|].
  destruct u2 as [|c u3]; [done|]. cbn. destruct (sp3 a b c); [intros H%Hl; cbn in H; lia|done].
Qed.
Lemma TrimSpace_idem s : TrimSpace (TrimSpace s) = TrimSpace s.
Proof.
  set (t := trim_front is_space2 is_space3 s).
  set (B := trim_front (λ b a, is_space2 a b) (λ c b a, is_space3 a b c)).
  change (TrimSpace s) with (srev (B (srev t))).
  assert (HF : trim_front is_space2 is_space3 (srev (B (srev t))) = srev (B (srev t))).
  { destruct (trim_front_suffix (λ b a, is_space2 a b) (λ c b a, is_space3 a b c) (srev t)) as [q Hq]. fold B in Hq.
    apply (trim_front_prefix _ _ _ (srev q)). rewrite <-srev_app, <-Hq, srev_involutive. apply trim_front_idem. }
  unfold TrimSpace. rewrite HF, srev_involutive. fold B. f_equal. apply trim_front_idem.
Qed.
Lemma TrimSpace_nil : TrimSpace "" = "".
Proof. done. Qed.
Lemma sforallb_TrimSpace f s : sforallb f s = true → sforallb f (TrimSpace s) = true.
Proof.
  destruct (TrimSpace_sub s) as (p & q & H). rewrite H at 1.
  rewrite !sforallb_app, !andb_true_iff. tauto.
Qed.
Lemma TrimRight_length f s : len (TrimRightFunc f s) ≤ len s.
Proof. induction s as [|c s IH]; simpl; [lia|]. destruct (TrimRightFunc f s); [destruct (f c)|]; simpl in *; lia. Qed.

(** ** Splitting and joining *)

(** [strings.Split(s, "c")] for a one-byte separator; never empty. *)
Fixpoint Split (s : string) (c : ascii) : list string :=
  match s with
  | "" => [""]
  | String d s' =>
      if decide (d = c) then "" :: Split s' c else
      match Split s' c with
      | [] => [String d ""]
      | p :: ps => String d p :: ps
      end
  end.

(** [strings.SplitN(s, "c", n)] for n > 0. *)
Fixpoint SplitN (s : string) (c : ascii) (n : nat) : list string :=
  match n with
  | 0 => []
  | 1 => [s]
  | S m =>
      (fix go (acc s : string) : list string :=
         match s with
         | "" => [srev acc]
         | String d s' =>
             if decide (d = c) then srev acc :: SplitN s' c m
             else go (String d acc) s'
         end) "" s
  end.

(** [strings.Join] *)
Definition Join (l : list string) (sep : string) : string := String.concat sep l.

Lemma Join_one x sep : Join [x] sep = x.
Proof. done. Qed.
Lemma Join_cons x y l sep : Join (x :: y :: l) sep = x +:+ sep +:+ Join (y :: l) sep.
Proof. done. Qed.

(** The parts of a string without separator, and before one. *)
Lemma Split_none a c : sforallb (λ d, bool_decide (d ≠ c)) a = true → Split a c = [a].
Proof.
  induction a as [|d a IH]; [done|]. simpl. intros [Hd Ha]%andb_true_iff.
  apply bool_decide_eq_true in Hd. by rewrite decide_False, IH.
Qed.
Lemma Split_app a c t : sforallb (λ d, bool_decide (d ≠ c)) a = true →
  Split (a +:+ String c t) c = a :: Split t c.
Proof.
  induction a as [|d a IH]; simpl; [by rewrite decide_True|]. intros [Hd Ha]%andb_true_iff.
  apply bool_decide_eq_true in Hd. by rewrite decide_False, IH.
Qed.

(** The parts are what was joined. *)
Lemma Split_Join l c : l ≠ [] → Forall (λ x, sforallb (λ d, bool_decide (d ≠ c)) x = true) l → Split (Join l (String c "")) c = l.
Proof.
  intros Hl Hf. induction Hf as [|x l Hx Hf IH]; [done|]. destruct l as [|y l]; [by apply Split_none|].
  rewrite Join_cons. change (String c "" +:+ ?s) with (String c s). rewrite Split_app by done. by rewrite IH.
Qed.
Lemma Split_parts s c x : x ∈ Split s c → sforallb (λ d, bool_decide (d ≠ c)) x = true.
Proof.
  revert x. induction s as [|d s IH]; intros x; simpl; [by intros ->%list_elem_of_singleton|].
  case_decide as Hd; [intros [->|?]%elem_of_cons; auto|].
  destruct (Split s c) as [|p ps]; [by intros ->%list_elem_of_singleton; simpl; rewrite bool_decide_eq_true_2|].
  intros [->|Hx]%elem_of_cons; simpl; [|apply IH; by right].
  rewrite bool_decide_eq_true_2 by done. apply IH. by left.
Qed.

Lemma Split_nonempty s c : Split s c ≠ [].
Proof. destruct s as [|d s]; simpl; [done|]. case_decide; [done|]. by case_match. Qed.

(** ** Numbers *)

(** [strconv.Itoa], [%d] *)
Definition Itoa (z : Z) : string := pretty z.

(** ** Hexadecimal: package [encoding/hex] *)

Definition hex_digit (n : Z) : ascii :=
  if (n <? 10)%Z then chr (48 + n) else chr (87 + n).
Definition hex_byte (c : ascii) : list ascii :=
  [hex_digit (ord c / 16); hex_digit (ord c mod 16)]%Z.
(** [hex.EncodeToString] *)
Definition hex_encode (s : string) : string := of_bytes (bytes s ≫= hex_byte).

Definition hex_value (c : ascii) : option Z :=
  (if is_digit c then Some (ord c - 48)
   else if (97 <=? ord c) && (ord c <=? 102) then Some (ord c - 87)
   else if (65 <=? ord c) && (ord c <=? 70) then Some (ord c - 55)
   else None)%Z.
Fixpoint hex_decode_bytes (l : list ascii) : option (list ascii) :=
  match l with
  | [] => Some []
  | a :: b :: l =>
      x ← hex_value a; y ← hex_value b; r ← hex_decode_bytes l;
      Some (chr (16 * x + y) :: r)
  | [_] => None
  end.
(** [hex.DecodeString], [None] for the error. *)
Definition hex_decode (s : string) : option string := of_bytes <$> hex_decode_bytes (bytes s).

Lemma hex_value_digit n : (0 ≤ n < 16)%Z → hex_value (hex_digit n) = Some n.
Proof.
  intros Hn.
  assert (Forall (λ n, hex_value (hex_digit n) = Some n) (seqZ 0 16)) as H
    by (vm_compute; repeat constructor).
  rewrite Forall_forall in H. apply H, elem_of_seqZ. lia.
Qed.

Lemma hex_decode_encode s : hex_decode (hex_encode s) = Some s.
Proof.
  unfold hex_decode, hex_encode. rewrite bytes_of_bytes.
  assert (∀ l, hex_decode_bytes (l ≫= hex_byte) = Some l) as H.
  { induction l as [|c l IH]; [done|]. cbn [mbind list_bind hex_byte app hex_decode_bytes].
    pose proof (ord_range c).
    rewrite !hex_value_digit by (try apply Z.mod_pos_bound; try split; try apply Z.div_pos; try apply Z.div_lt_upper_bound; lia).
    simpl. rewrite IH. simpl. rewrite <-Z.div_mod by lia. by rewrite chr_ord. }
  rewrite H. simpl. by rewrite of_bytes_bytes.
Qed.

#[export] Instance hex_encode_inj : Inj (=) (=) hex_encode.
Proof. intros s t H. apply (inj Some). by rewrite <-!hex_decode_encode, H. Qed.
Lemma hex_encode_length s : len (hex_encode s) = 2 * len s.
Proof.
  unfold hex_encode. rewrite of_bytes_length, <-bytes_length.
  induction (bytes s) as [|c l IH]; [done|]. cbn [mbind list_bind hex_byte app length] in *. lia.
Qed.

(** ** Runes *)

(** [strings.ToLower] as far as an ASCII test of the result can tell: besides
    the ASCII capitals, the dotted capital I (U+0130) and the Kelvin sign
    (U+212A) have ASCII lower-case forms; other letters are left alone. *)
Fixpoint ToLowerFold (s : string) : string :=
  match s with
  | "" => ""
  | String c s1 =>
      match s1 with
      | String d s2 =>
          if ((ord c =? 196) && (ord d =? 176))%Z then String "i" (ToLowerFold s2)
          else
            match s2 with
            | String e s3 =>
                if ((ord c =? 226) && (ord d =? 132) && (ord e =? 170))%Z then String "k" (ToLowerFold s3)
                else String (lower c) (ToLowerFold s1)
            | "" => String (lower c) (ToLowerFold s1)
            end
      | "" => String (lower c) ""
      end
  end.

(** [strings.HasSuffix] *)
Definition HasSuffix (s suf : string) : bool :=
  (len suf <=? len s) && (sdrop (len s - len suf) s =s? suf).

(** The line break of Go's literals, and an empty line. *)
Definition nl : string := String (chr 10) "".
Definition para : string := nl +:+ nl.
(** What [strings.Builder] makes of a loop's writes. *)
Definition sconcat (l : list string) : string := foldr String.append "" l.

(** ** Sorting *)

Definition str_le (a b : string) : Prop := String.leb a b = true.
#[export] Instance str_le_dec a b : Decision (str_le a b).
Proof. unfold str_le. apply _. Defined.
(** [sort.Strings] *)
Definition sort_strings (l : list string) : list string := merge_sort str_le l.

Lemma str_le_refl s : str_le s s.
Proof. unfold str_le. by destruct (String.leb_total s s). Qed.
#[export] Instance str_le_total : Total str_le.
Proof. exact String.leb_total. Qed.
#[export] Instance str_le_antisymm : AntiSymm (=) str_le.
Proof. exact String.leb_antisym. Qed.
Lemma str_le_cons a s b t : str_le (String a s) (String b t) ↔ (N_of_ascii a < N_of_ascii b)%N ∨ a = b ∧ str_le s t.
Proof.
  unfold str_le, String.leb. cbn [String.compare]. unfold Ascii.compare.
  destruct (N.compare_spec (N_of_ascii a) (N_of_ascii b)) as [E|E|E].
  - apply (f_equal ascii_of_N) in E. rewrite !ascii_N_embedding in E. subst b. split; [by right|].
    intros [?|[_ H]]; [lia|exact H].
  - split; [by left|done].
  - split; [done|]. intros [?|[-> _]]; lia.
Qed.
#[export] Instance str_le_trans : Transitive str_le.
Proof.
  intros s. induction s as [|a s IH]; intros [|b t] [|c u]; try done. rewrite !str_le_cons.
  intros [?|[-> ?]] [?|[-> ?]]; [left; lia|by left|by left|right; eauto].
Qed.
(** Sorting forgets the order of what it is given. *)
Lemma sort_strings_perm l l' : l ≡ₚ l' → sort_strings l = sort_strings l'.
Proof.
  intros H. apply (StronglySorted_unique str_le); [apply StronglySorted_merge_sort; apply _..|].
  unfold sort_strings. by rewrite !merge_sort_Permutation.
Qed.
