(* ===== verification/GoTime.v ===== *)
(** * Go times and durations: the operations of package [time] the program uses

    A [Time] is the number of nanoseconds since Go's zero time,
    0001-01-01T00:00:00Z, so [IsZero] is [t = 0]; a [Duration] is a 64-bit
    signed number of nanoseconds.  [Sub] saturates, as in Go.  All the
    program's formatting is in UTC. *)

From stdpp Require Import options.
From S2P Require Import Prelude GoString.
Local Open Scope Z_scope.

Definition Time := Z.
Definition Duration := Z.

Definition Nanosecond : Duration := 1.
Definition Millisecond : Duration := 1000000.
Definition Second : Duration := 1000000000.
Definition Minute : Duration := 60 * Second.
Definition Hour : Duration := 60 * Minute.

Definition minDuration : Duration := - 2 ^ 63.
Definition maxDuration : Duration := 2 ^ 63 - 1.

Definition zeroTime : Time := 0.
Definition IsZero (t : Time) : bool := t =? 0.
(** [t.After(u)], [t.Before(u)] *)
Definition After (t u : Time) : bool := u <? t.
Definition Before (t u : Time) : bool := t <? u.
(** [t.Add(d)] *)
Definition Add (t : Time) (d : Duration) : Time := t + d.
(** [t.Sub(u)], saturated to the range of [Duration] *)
Definition Sub (t u : Time) : Duration := Z.max minDuration (Z.min maxDuration (t - u)).

(** Seconds from the zero time to 1970-01-01T00:00:00Z. *)
Definition unixToInternal : Z := 62135596800.
(** [t.Unix()], [t.UnixNano()], [time.Unix(s, 0)] *)
Definition Unix (t : Time) : Z := t / Second - unixToInternal.
Definition UnixNano (t : Time) : Z := t - unixToInternal * Second.
Definition FromUnix (s : Z) : Time := (s + unixToInternal) * Second.

(** Addition of [int64]s, which wraps around. *)
Definition wrap64 (z : Z) : Z := (z + 2 ^ 63) mod 2 ^ 64 - 2 ^ 63.
Definition add64 (x y : Z) : Z := wrap64 (x + y).
Lemma wrap64_id z : - 2 ^ 63 ≤ z < 2 ^ 63 → wrap64 z = z.
Proof. intros. unfold wrap64. rewrite Z.mod_small; lia. Qed.

Lemma Sub_exact t u : minDuration ≤ t - u ≤ maxDuration → Sub t u = t - u.
Proof. unfold Sub. lia. Qed.
Lemma Sub_range t u : minDuration ≤ Sub t u ≤ maxDuration.
Proof. unfold Sub, minDuration, maxDuration. lia. Qed.
Lemma Sub_ge t u d : d ≤ maxDuration → d ≤ t - u → d ≤ Sub t u.
Proof. unfold Sub. lia. Qed.
Lemma Sub_lt t u d : minDuration < d ≤ maxDuration → (Sub t u < d ↔ t - u < d).
Proof. unfold Sub. lia. Qed.
Lemma Unix_FromUnix s : Unix (FromUnix s) = s.
Proof. unfold Unix, FromUnix, Second. rewrite Z.div_mul by lia. lia. Qed.

(** ** Calendar *)

(** Year, month and day of a day number (0 is 0001-01-01), by the
    400-year cycles of the Gregorian calendar counted from 0000-03-01. *)
Definition year_of_era (doe : Z) : Z :=
  (doe - doe / 1460 + doe / 36524 - doe / 146096) / 365.
Definition days_before_year (yoe : Z) : Z := 365 * yoe + yoe / 4 - yoe / 100.
Definition civil_of_days (days : Z) : Z * Z * Z :=
  let z := days + 306 in
  let era := z / 146097 in
  let doe := z mod 146097 in
  let yoe := year_of_era doe in
  let doy := doe - days_before_year yoe in
  let mp := (5 * doy + 2) / 153 in
  let d := doy - (153 * mp + 2) / 5 + 1 in
  let m := if mp <? 10 then mp + 3 else mp - 9 in
  (yoe + era * 400 + (if m <=? 2 then 1 else 0), m, d).
Definition days_of_civil (y m d : Z) : Z :=
  let y' := if m <=? 2 then y - 1 else y in
  let era := y' / 400 in
  let yoe := y' mod 400 in
  let mp := if m <=? 2 then m + 9 else m - 3 in
  let doy := (153 * mp + 2) / 5 + d - 1 in
  era * 146097 + days_before_year yoe + doy - 306.

(** ** Formatting *)

Fixpoint zeros (n : nat) : string :=
  match n with O => "" | S n => String "0" (zeros n) end.
(** Decimal, zero-padded to [w] digits. *)
Definition pad (w : nat) (z : Z) : string :=
  let s := Itoa z in zeros (w - len s) +:+ s.

Definition clock (t : Time) : Z * Z * Z :=
  let s := t / Second in (s / 3600 mod 24, s / 60 mod 60, s mod 60).
Definition date (t : Time) : Z * Z * Z := civil_of_days (t / (24 * Hour)).

(** [t.UTC().Format(time.RFC3339)] *)
Definition FormatRFC3339 (t : Time) : string :=
  let '(y, mo, d) := date t in
  let '(h, mi, s) := clock t in
  pad 4 y +:+ "-" +:+ pad 2 mo +:+ "-" +:+ pad 2 d +:+ "T" +:+
  pad 2 h +:+ ":" +:+ pad 2 mi +:+ ":" +:+ pad 2 s +:+ "Z".

(** Fraction of [time.RFC3339Nano]: trailing zeros removed, nothing when 0. *)
Definition frac (t : Time) : string :=
  let f := TrimRightByte (pad 9 (t mod Second)) "0" in
  if f =s? "" then "" else "." +:+ f.
(** [t.UTC().Format(time.RFC3339Nano)] *)
Definition FormatRFC3339Nano (t : Time) : string :=
  let '(y, mo, d) := date t in
  let '(h, mi, s) := clock t in
  pad 4 y +:+ "-" +:+ pad 2 mo +:+ "-" +:+ pad 2 d +:+ "T" +:+
  pad 2 h +:+ ":" +:+ pad 2 mi +:+ ":" +:+ pad 2 s +:+ frac t +:+ "Z".
(** [t.UTC().Format("2006-01-02 15:04:05 UTC")] *)
Definition FormatUTC (t : Time) : string :=
  let '(y, mo, d) := date t in
  let '(h, mi, s) := clock t in
  pad 4 y +:+ "-" +:+ pad 2 mo +:+ "-" +:+ pad 2 d +:+ " " +:+
  pad 2 h +:+ ":" +:+ pad 2 mi +:+ ":" +:+ pad 2 s +:+ " UTC".

(** [t.UTC().Format("2006-01-02 15:04 UTC")] and
    [t.UTC().Format("2006-01-02T15:04:05Z")], which is RFC 3339 in UTC. *)
Definition FormatMinuteUTC (t : Time) : string :=
  let '(y, mo, d) := date t in
  let '(h, mi, s) := clock t in
  pad 4 y +:+ "-" +:+ pad 2 mo +:+ "-" +:+ pad 2 d +:+ " " +:+ pad 2 h +:+ ":" +:+ pad 2 mi +:+ " UTC".

(** [d.String()]: hours, minutes and seconds, the fraction without trailing
    zeros; below a second the unit that fits. *)
Definition dur_frac (w : nat) (z : Z) : string :=
  let f := TrimRightByte (pad w z) "0" in if f =s? "" then "" else "." +:+ f.
Definition Duration_String (d : Duration) : string :=
  let u := Z.abs d in
  (if d <? 0 then "-" else "") +:+
  (if u =? 0 then "0s"
   else if u <? 1000 then Itoa u +:+ "ns"
   else if u <? 1000000 then Itoa (u / 1000) +:+ dur_frac 3 (u mod 1000) +:+ "µs"
   else if u <? Second then Itoa (u / 1000000) +:+ dur_frac 6 (u mod 1000000) +:+ "ms"
   else
     let secs := u / Second in
     (if secs / 60 =? 0 then "" else
        (if secs / 3600 =? 0 then "" else Itoa (secs / 3600) +:+ "h") +:+ Itoa (secs / 60 mod 60) +:+ "m") +:+
     Itoa (secs mod 60) +:+ dur_frac 9 (u mod Second) +:+ "s").
Example duration_hms : Duration_String (90 * Minute + 1500 * Millisecond) = "1h30m1.5s".
Proof. reflexivity. Qed.
Example duration_ms : Duration_String (1500 * 1000) = "1.5ms".
Proof. reflexivity. Qed.

Example format_epoch : FormatRFC3339 (FromUnix 0) = "1970-01-01T00:00:00Z".
Proof. reflexivity. Qed.
Example format_leap : FormatUTC (FromUnix 1709210096) = "2024-02-29 12:34:56 UTC".
Proof. reflexivity. Qed.
Example format_nano : FormatRFC3339Nano (FromUnix 1767225600 + 120000000) = "2026-01-01T00:00:00.12Z".
Proof. reflexivity. Qed.
