(* ===== verification/Sha256.v ===== *)
(** * SHA-256 and HMAC-SHA-256: packages [crypto/sha256] and [crypto/hmac]

    FIPS 180-4 on byte strings, with 32-bit words as [Z] reduced modulo
    2^32 after every addition. *)

From stdpp Require Import options.
From S2P Require Import Prelude GoString.
Local Open Scope Z_scope.

Definition mask32 : Z := 4294967295.
Definition add32 (x y : Z) : Z := Z.land (x + y) mask32.
Definition not32 (x : Z) : Z := Z.lxor x mask32.
Definition rotr (n x : Z) : Z :=
  Z.lor (Z.shiftr x n) (Z.land (Z.shiftl x (32 - n)) mask32).

(** The largest [r < 2^b] with [r^n <= x], one bit at a time from the top. *)
Fixpoint root_from (b : nat) (n x r : Z) : Z :=
  match b with
  | O => r
  | S b =>
      let r' := r + 2 ^ Z.of_nat b in
      root_from b n x (if r' ^ n <=? x then r' else r)
  end.
(** The first 32 bits of the fractional part of the [n]-th root of [p]. *)
Definition frac_root (n p : Z) : Z := root_from 37 n (p * 2 ^ (32 * n)) 0 mod 2 ^ 32.

Definition primes : list Z :=
  filter (λ p, forallb (λ d, negb (p mod d =? 0)) (seqZ 2 (p - 2)) = true) (seqZ 2 310).

(** The round constants come from the cube roots of the first 64 primes, the
    initial state from the square roots of the first eight. *)
Definition K : list Z := Eval vm_compute in frac_root 3 <$> primes.
Definition H0 : list Z := Eval vm_compute in frac_root 2 <$> take 8 primes.

Definition ssig0 (x : Z) : Z := Z.lxor (Z.lxor (rotr 7 x) (rotr 18 x)) (Z.shiftr x 3).
Definition ssig1 (x : Z) : Z := Z.lxor (Z.lxor (rotr 17 x) (rotr 19 x)) (Z.shiftr x 10).
Definition bsig0 (x : Z) : Z := Z.lxor (Z.lxor (rotr 2 x) (rotr 13 x)) (rotr 22 x).
Definition bsig1 (x : Z) : Z := Z.lxor (Z.lxor (rotr 6 x) (rotr 11 x)) (rotr 25 x).
Definition Ch (x y z : Z) : Z := Z.lxor (Z.land x y) (Z.land (not32 x) z).
Definition Maj (x y z : Z) : Z := Z.lxor (Z.lxor (Z.land x y) (Z.land x z)) (Z.land y z).

(** Message schedule, newest word first. *)
Fixpoint schedule (n : nat) (w : list Z) : list Z :=
  match n with
  | O => w
  | S n =>
      schedule n
        (add32 (add32 (ssig1 (nth 1 w 0)) (nth 6 w 0))
               (add32 (ssig0 (nth 14 w 0)) (nth 15 w 0)) :: w)
  end.

Definition round (st : list Z) (kw : Z * Z) : list Z :=
  match st with
  | [a; b; c; d; e; f; g; h] =>
      let t1 := add32 (add32 h (bsig1 e)) (add32 (Ch e f g) (add32 kw.1 kw.2)) in
      let t2 := add32 (bsig0 a) (Maj a b c) in
      [add32 t1 t2; a; b; c; add32 d t1; e; f; g]
  | _ => st
  end.

Definition compress (h block : list Z) : list Z :=
  let w := rev (schedule 48 (rev block)) in
  zip_with add32 h (foldl round h (zip K w)).

(** Big-endian words of a byte list. *)
Fixpoint words (l : list Z) : list Z :=
  match l with
  | a :: b :: c :: d :: l => (((a * 256 + b) * 256 + c) * 256 + d) :: words l
  | _ => []
  end.

(** [n] bytes of [z], big-endian. *)
Fixpoint be_bytes (n : nat) (z : Z) : list Z :=
  match n with
  | O => []
  | S n => z / 256 ^ Z.of_nat n mod 256 :: be_bytes n z
  end.

Definition padding (n : Z) : list Z :=
  0x80 :: replicate (Z.to_nat ((55 - n) mod 64)) 0 ++ be_bytes 8 (8 * n).

Fixpoint blocks (n : nat) (ws h : list Z) : list Z :=
  match n with
  | O => h
  | S n => blocks n (drop 16 ws) (compress h (take 16 ws))
  end.

(** [sha256.Sum256], as the 32 bytes of the digest. *)
Definition Sum256 (s : string) : string :=
  let m := ord <$> bytes s in
  let n := Z.of_nat (length m) in
  let ws := words (m ++ padding n) in
  of_bytes (chr <$> (blocks (length ws / 16) ws H0 ≫= be_bytes 4)).

Lemma be_bytes_length n z : length (be_bytes n z) = n.
Proof. induction n; simpl; auto. Qed.

Lemma round_length st kw : length st = 8%nat → length (round st kw) = 8%nat.
Proof. by intros; destruct st as [|? [|? [|? [|? [|? [|? [|? [|? []]]]]]]]]. Qed.
Lemma rounds_length l st : length st = 8%nat → length (foldl round st l) = 8%nat.
Proof. revert st; induction l; simpl; auto using round_length. Qed.
Lemma compress_length h b : length h = 8%nat → length (compress h b) = 8%nat.
Proof. intros Hh. unfold compress. by rewrite length_zip_with, rounds_length, Hh. Qed.
Lemma blocks_length n ws h : length h = 8%nat → length (blocks n ws h) = 8%nat.
Proof. revert ws h; induction n; simpl; auto using compress_length. Qed.

(** Digests are 32 bytes. *)
Lemma Sum256_length s : len (Sum256 s) = 32%nat.
Proof.
  unfold Sum256. rewrite of_bytes_length, length_fmap.
  generalize (blocks_length (length (words ((ord <$> bytes s) ++ padding (Z.of_nat (length (ord <$> bytes s))))) / 16)
    (words ((ord <$> bytes s) ++ padding (Z.of_nat (length (ord <$> bytes s))))) H0 eq_refl).
  generalize (blocks (length (words ((ord <$> bytes s) ++ padding (Z.of_nat (length (ord <$> bytes s))))) / 16)
    (words ((ord <$> bytes s) ++ padding (Z.of_nat (length (ord <$> bytes s))))) H0).
  intros l Hl. destruct l as [|? [|? [|? [|? [|? [|? [|? [|? []]]]]]]]]; try done.
Qed.

(** [hex.EncodeToString(sum[:])] of [sha256.Sum256(s)]. *)
Definition sha256_hex (s : string) : string := hex_encode (Sum256 s).

Example sha256_abc :
  sha256_hex "abc" = "ba7816bf8f01cfea414140de5dae2223b00361a396177a9cb410ff61f20015ad".
Proof. vm_compute. reflexivity. Qed.

(** ** HMAC (RFC 2104, block size 64) *)

Definition hmac_key (key : string) : list Z :=
  let k := ord <$> bytes (if decide (len key ≤ 64)%nat then key else Sum256 key) in
  k ++ replicate (64 - length k) 0.
Definition xor_key (k : list Z) (x : Z) : string := of_bytes ((λ b, chr (Z.lxor b x)) <$> k).

(** [hmac.New(sha256.New, key)] fed with [msg] and summed. *)
Definition hmac_sha256 (key msg : string) : string :=
  let k := hmac_key key in
  Sum256 (xor_key k 0x5c +:+ Sum256 (xor_key k 0x36 +:+ msg)).

Example hmac_test :
  hex_encode (hmac_sha256 "key" "The quick brown fox jumps over the lazy dog")
  = "f7bc83f430538424b13298e6aa6fb143ef4d59a14946175997479dbc2d1a3cd8".
Proof. vm_compute. reflexivity. Qed.
