(* ===== verification/GoJson.v ===== *)
(** * Go's encoding/json

    [Marshal] is [json.Marshal] on the values the program marshals: object
    members in the order given (a struct gives its declaration order, a map
    its sorted keys), HTML escaping on, invalid UTF-8 replaced by U+FFFD.
    [Unmarshal] is the decoder into [any], with the scanner's grammar.  The
    round trip [Unmarshal_Marshal] holds on values whose strings are valid UTF-8. *)

From stdpp Require Import options.
From S2P Require Import Prelude GoString.

Local Open Scope Z_scope.

(** A value handed to [json.Marshal].  Numbers are kept as the literal that
    is printed; [JUnsupported] stands for a Go value the encoder refuses
    (a channel, a function, a NaN). *)
Inductive json :=
  | JNull
  | JBool (b : bool)
  | JNum (lit : string)
  | JStr (s : string)
  | JArr (l : list json)
  | JObj (l : list (string * json))
  | JUnsupported.

(** ** UTF-8 *)

Definition between (lo hi : Z) (c : ascii) : bool := (lo <=? ord c) && (ord c <=? hi).
Definition is_cont : ascii → bool := between 128 191.

(** The number of bytes that follow the lead byte [c] in the valid encoding
    at the front of [String c s]; [None] when [utf8.DecodeRune] answers
    RuneError of width one. *)
Definition utf8_tail (c : ascii) (s : string) : option nat :=
  if between 0 127 c then Some 0%nat
  else if between 194 223 c then
    match s with
    | String a _ => if is_cont a then Some 1%nat else None
    | _ => None
    end
  else if between 224 239 c then
    match s with
    | String a (String b _) =>
        if between (if ord c =? 224 then 160 else 128) (if ord c =? 237 then 159 else 191) a
           && is_cont b
        then Some 2%nat else None
    | _ => None
    end
  else if between 240 244 c then
    match s with
    | String a (String b (String d _)) =>
        if between (if ord c =? 240 then 144 else 128) (if ord c =? 244 then 143 else 191) a
           && is_cont b && is_cont d
        then Some 3%nat else None
    | _ => None
    end
  else None.

(** [utf8.ValidString] *)
Fixpoint valid_go (skip : nat) (s : string) : bool :=
  match s with
  | "" => (skip =? 0)%nat
  | String c s =>
      match skip with
      | S k => valid_go k s
      | O => match utf8_tail c s with Some n => valid_go n s | None => false end
      end
  end.
Definition ValidString (s : string) : bool := valid_go 0 s.

(** ** The encoder *)

Definition runeError : string := of_bytes [chr 239; chr 191; chr 189].
Definition quote : ascii := chr 34.
Definition backslash : ascii := chr 92.

Definition u00 (c : ascii) : string :=
  String backslash ("u00" +:+ of_bytes (hex_byte c)).

(** The escape of an ASCII byte inside a string, HTML escaping on. *)
Definition escape_ascii (c : ascii) : string :=
  let z := ord c in
  if (z =? 34) || (z =? 92) then String backslash (String c "")
  else if z =? 8 then String backslash "b"
  else if z =? 12 then String backslash "f"
  else if z =? 10 then String backslash "n"
  else if z =? 13 then String backslash "r"
  else if z =? 9 then String backslash "t"
  else if (z <? 32) || (z =? 60) || (z =? 62) || (z =? 38) then u00 c
  else String c "".

(** U+2028 and U+2029, which the encoder always escapes. *)
Definition is_linesep (c : ascii) (s : string) : option ascii :=
  match s with
  | String a (String b _) =>
      if (ord c =? 226) && (ord a =? 128) then
        if ord b =? 168 then Some "8"%char
        else if ord b =? 169 then Some "9"%char else None
      else None
  | _ => None
  end.

(** [appendString], byte by byte: [copy] bytes of the current rune are still
    to be copied, [drop] bytes of an escaped one to be skipped. *)
Fixpoint enc_str (copy drop : nat) (s : string) : string :=
  match s with
  | "" => ""
  | String c s =>
      match drop, copy with
      | S d, _ => enc_str 0 d s
      | O, S k => String c (enc_str k 0 s)
      | O, O =>
          match utf8_tail c s with
          | None => String backslash "ufffd" +:+ enc_str 0 0 s
          | Some O => escape_ascii c +:+ enc_str 0 0 s
          | Some n =>
              match is_linesep c s with
              | Some x => String backslash "u202" +:+ String x (enc_str 0 2 s)
              | None => String c (enc_str n 0 s)
              end
          end
      end
  end.

Definition encode_string (s : string) : string :=
  String quote (enc_str 0 0 s +:+ String quote "").

Definition comma_sep (l : list string) : string := Join l ",".

Fixpoint encode (v : json) : string :=
  match v with
  | JNull => "null"
  | JBool b => if b then "true" else "false"
  | JNum lit => lit
  | JStr s => encode_string s
  | JArr l => "[" +:+ comma_sep (encode <$> l) +:+ "]"
  | JObj l =>
      "{" +:+ comma_sep ((λ kv, encode_string kv.1 +:+ ":" +:+ encode kv.2) <$> l) +:+ "}"
  | JUnsupported => ""
  end.

Fixpoint supported (v : json) : bool :=
  match v with
  | JUnsupported => false
  | JArr l => forallb supported l
  | JObj l => forallb (λ kv, supported kv.2) l
  | _ => true
  end.

(** [json.Marshal]: an error when a value inside is refused. *)
Definition Marshal (v : json) : option string :=
  if supported v then Some (encode v) else None.

(** A Go map is marshalled with its keys sorted. *)
Definition key_le (a b : string * json) : Prop := String.leb a.1 b.1 = true.
#[export] Instance key_le_dec a b : Decision (key_le a b).
Proof. unfold key_le. apply _. Defined.
Definition JMap (m : gmap string json) : json := JObj (merge_sort key_le (map_to_list m)).

(** An integer value. *)
Definition JInt (z : Z) : json := JNum (Itoa z).

(** ** The decoder *)

(** The scanner's number grammar, as a deterministic automaton. *)
Inductive num_st := N0 | NNeg | NZero | NInt | NDot | NFrac | NE | NESign | NExp.
Definition is_e (c : ascii) : bool := (ord c =? 101) || (ord c =? 69).
Definition num_step (q : num_st) (c : ascii) : option num_st :=
  match q with
  | N0 => if ord c =? 45 then Some NNeg else if ord c =? 48 then Some NZero
          else if is_digit c then Some NInt else None
  | NNeg => if ord c =? 48 then Some NZero else if is_digit c then Some NInt else None
  | NZero => if ord c =? 46 then Some NDot else if is_e c then Some NE else None
  | NInt => if is_digit c then Some NInt else if ord c =? 46 then Some NDot
            else if is_e c then Some NE else None
  | NDot => if is_digit c then Some NFrac else None
  | NFrac => if is_digit c then Some NFrac else if is_e c then Some NE else None
  | NE => if (ord c =? 43) || (ord c =? 45) then Some NESign
          else if is_digit c then Some NExp else None
  | NESign | NExp => if is_digit c then Some NExp else None
  end.
Definition num_accept (q : num_st) : bool :=
  match q with NZero | NInt | NFrac | NExp => true | _ => false end.
Fixpoint num_run (q : num_st) (s : string) : bool :=
  match s with
  | "" => num_accept q
  | String c s => match num_step q c with Some q => num_run q s | None => false end
  end.
Definition valid_number (s : string) : bool := num_run N0 s.

Definition num_char (c : ascii) : bool :=
  is_digit c || is_e c || (ord c =? 43) || (ord c =? 45) || (ord c =? 46).
(** The longest run of number characters, and what follows. *)
Fixpoint span_num (s : string) : string * string :=
  match s with
  | "" => ("", "")
  | String c s' =>
      if num_char c then let '(a, b) := span_num s' in (String c a, b) else ("", s)
  end.

(** [utf8.AppendRune]. *)
Definition encode_rune (r : Z) : string :=
  if r <? 128 then of_bytes [chr r]
  else if r <? 2048 then of_bytes [chr (192 + r / 64); chr (128 + r mod 64)]
  else if r <? 65536 then
    if (55296 <=? r) && (r <=? 57343) then runeError
    else of_bytes [chr (224 + r / 4096); chr (128 + r / 64 mod 64); chr (128 + r mod 64)]
  else of_bytes [chr (240 + r / 262144); chr (128 + r / 4096 mod 64);
                 chr (128 + r / 64 mod 64); chr (128 + r mod 64)].

(** A hexadecimal digit of either case. *)
Definition hex_val (c : ascii) : option Z :=
  let z := ord c in
  if (48 <=? z) && (z <=? 57) then Some (z - 48)
  else if (97 <=? z) && (z <=? 102) then Some (z - 87)
  else if (65 <=? z) && (z <=? 70) then Some (z - 55) else None.
(** [getu4] after the backslash-u. *)
Definition hex4 (a b c d : ascii) : option Z :=
  x ← hex_val a; y ← hex_val b; z ← hex_val c; w ← hex_val d;
  Some (x * 4096 + y * 256 + z * 16 + w).

Definition is_surrogate (r : Z) : bool := (55296 <=? r) && (r <=? 57343).
(** [utf16.DecodeRune] *)
Definition utf16_pair (r1 r2 : Z) : option Z :=
  if (55296 <=? r1) && (r1 <=? 56319) && ((56320 <=? r2) && (r2 <=? 57343))
  then Some ((r1 - 55296) * 1024 + (r2 - 56320) + 65536) else None.

Definition unescape_ascii (c : ascii) : option ascii :=
  let z := ord c in
  if (z =? 34) || (z =? 92) || (z =? 47) then Some c
  else if z =? 98 then Some (chr 8)
  else if z =? 102 then Some (chr 12)
  else if z =? 110 then Some (chr 10)
  else if z =? 114 then Some (chr 13)
  else if z =? 116 then Some (chr 9) else None.

(** [unquote] on the input after the opening quote: the string and the rest
    after the closing one.  [copy] bytes of a multi-byte rune remain. *)
Fixpoint dec_str (copy : nat) (s : string) : option (string * string) :=
  match s with
  | "" => None
  | String c s =>
      match copy with
      | S k => '(t, r) ← dec_str k s; Some (String c t, r)
      | O =>
          if ord c =? 34 then Some ("", s)
          else if ord c =? 92 then
            match s with
            | String "u" (String a (String b (String d (String e s5)))) =>
                r1 ← hex4 a b d e;
                if is_surrogate r1 then
                  match s5 with
                  | String "\" (String "u" (String a' (String b' (String d' (String e' s11))))) =>
                      match hex4 a' b' d' e' ≫= utf16_pair r1 with
                      | Some r => '(t, x) ← dec_str 0 s11; Some (encode_rune r +:+ t, x)
                      | None => '(t, x) ← dec_str 0 s5; Some (runeError +:+ t, x)
                      end
                  | _ => '(t, x) ← dec_str 0 s5; Some (runeError +:+ t, x)
                  end
                else '(t, x) ← dec_str 0 s5; Some (encode_rune r1 +:+ t, x)
            | String x s1 =>
                y ← unescape_ascii x; '(t, r) ← dec_str 0 s1; Some (String y t, r)
            | "" => None
            end
          else if ord c <? 32 then None
          else
            match utf8_tail c s with
            | Some n => '(t, r) ← dec_str n s; Some (String c t, r)
            | None => '(t, r) ← dec_str 0 s; Some (runeError +:+ t, r)
            end
      end
  end.

Definition is_ws (c : ascii) : bool := (ord c =? 32) || (ord c =? 9) || (ord c =? 10) || (ord c =? 13).
Definition skip_ws : string → string := TrimLeftFunc is_ws.

(** The literal [w] at the front. *)
Definition expect (w s : string) : option string :=
  if HasPrefix s w then Some (sdrop (len w) s) else None.

(** One value, the elements of an array and the members of an object; the
    last two start after the opening bracket. *)
Fixpoint parse (fuel : nat) (s : string) : option (json * string) :=
  match fuel with
  | O => None
  | S n =>
      match skip_ws s with
      | "" => None
      | String c s' =>
          if ord c =? 34 then '(t, r) ← dec_str 0 s'; Some (JStr t, r)
          else if ord c =? 91 then
            match skip_ws s' with
            | String "]" r => Some (JArr [], r)
            | _ => '(l, r) ← parse_elems n s'; Some (JArr l, r)
            end
          else if ord c =? 123 then
            match skip_ws s' with
            | String "}" r => Some (JObj [], r)
            | _ => '(l, r) ← parse_members n s'; Some (JObj l, r)
            end
          else if ord c =? 110 then r ← expect "ull" s'; Some (JNull, r)
          else if ord c =? 116 then r ← expect "rue" s'; Some (JBool true, r)
          else if ord c =? 102 then r ← expect "alse" s'; Some (JBool false, r)
          else
            let '(lit, r) := span_num (String c s') in
            if valid_number lit then Some (JNum lit, r) else None
      end
  end
with parse_elems (fuel : nat) (s : string) : option (list json * string) :=
  match fuel with
  | O => None
  | S n =>
      '(v, r) ← parse n s;
      match skip_ws r with
      | String "]" r => Some ([v], r)
      | String "," r => '(l, r) ← parse_elems n r; Some (v :: l, r)
      | _ => None
      end
  end
with parse_members (fuel : nat) (s : string) : option (list (string * json) * string) :=
  match fuel with
  | O => None
  | S n =>
      match skip_ws s with
      | "" => None
      | String c s =>
          if ord c =? 34 then
            '(k, r) ← dec_str 0 s;
            match skip_ws r with
            | String ":" r =>
                '(v, r) ← parse n r;
                match skip_ws r with
                | String "}" r => Some ([(k, v)], r)
                | String "," r => '(l, r) ← parse_members n r; Some ((k, v) :: l, r)
                | _ => None
                end
            | _ => None
            end
          else None
      end
  end.

(** [json.Unmarshal] into [any]: one value and trailing white space only. *)
Definition Unmarshal (s : string) : option json :=
  '(v, r) ← parse (2 * len s + 2)%nat s;
  if skip_ws r =s? "" then Some v else None.

(** Writing JSON in the examples: an apostrophe stands for the quote. *)
Definition dq : string → string := smap (λ c, if ord c =? 39 then quote else c).

Example Marshal_ex :
  Marshal (JObj [("b", JArr [JInt 3; JNull; JBool true]); ("<", JStr "a&b")]) =
  Some (dq "{'b':[3,null,true],'\u003c':'a\u0026b'}").
Proof. vm_compute. reflexivity. Qed.
Example Unmarshal_ex :
  Unmarshal (dq " {'b' : [3, null ,true],'\u003C':'a\u0026b\t'} ") =
  Some (JObj [("b", JArr [JNum "3"; JNull; JBool true]); ("<", JStr ("a&b" +:+ String (chr 9) ""))]).
Proof. vm_compute. reflexivity. Qed.

(** ** The round trip *)

(** A value that survives encoding: supported, its strings valid UTF-8 and
    its literals numbers. *)
Fixpoint wf_json (v : json) : bool :=
  match v with
  | JNum lit => valid_number lit
  | JStr s => ValidString s
  | JArr l => forallb wf_json l
  | JObj l => forallb (λ kv, ValidString kv.1 && wf_json kv.2) l
  | JUnsupported => false
  | _ => true
  end.

Section json_induction.
Variable P : json → Prop.
Hypothesis HNull : P JNull.
Hypothesis HBool : ∀ b, P (JBool b).
Hypothesis HNum : ∀ s, P (JNum s).
Hypothesis HStr : ∀ s, P (JStr s).
Hypothesis HArr : ∀ l, Forall P l → P (JArr l).
Hypothesis HObj : ∀ l, Forall (λ kv, P kv.2) l → P (JObj l).
Hypothesis HUns : P JUnsupported.
Fixpoint json_rect' (v : json) : P v.
Proof using All.
  destruct v as [|b|lit|s|l|l|].
  - exact HNull.
  - apply HBool.
  - apply HNum.
  - apply HStr.
  - apply HArr. induction l as [|v l IH]; constructor; [apply json_rect'|exact IH].
  - apply HObj. induction l as [|v l IH]; constructor; [apply json_rect'|exact IH].
  - exact HUns.
Qed.
End json_induction.

Lemma dec_escape c s :
  ord c < 128 →
  dec_str 0 (escape_ascii c +:+ s) = '(t, r) ← dec_str 0 s; Some (String c t, r).
Proof.
  intros Hc. destruct c as [[] [] [] [] [] [] [] []];
    first [reflexivity | exfalso; revert Hc; vm_compute; discriminate].
Qed.

Lemma valid_go_drop d s : valid_go d s = true →
  enc_str 0 d s = enc_str 0 0 (sdrop d s) ∧ valid_go 0 (sdrop d s) = true.
Proof.
  revert s. induction d as [|d IH]; intros [|c s] H; try done. apply IH, H.
Qed.

Lemma utf8_tail_enc c s n r : utf8_tail c s = Some n →
  utf8_tail c (enc_str n 0 s +:+ r) = Some n.
Proof.
  unfold utf8_tail. intros H.
  destruct (between 0 127 c); [by simplify_eq|].
  destruct (between 194 223 c).
  { destruct s as [|a s]; [done|]. destruct (is_cont a) eqn:Ea; simplify_eq/=. by rewrite Ea. }
  destruct (between 224 239 c).
  { destruct s as [|a [|b s]]; try done. destruct (_ && _) eqn:Eab in H; simplify_eq/=. by rewrite Eab. }
  destruct (between 240 244 c); [|done].
  destruct s as [|a [|b [|d s]]]; try done. destruct (_ && _ && _) eqn:Eab in H; simplify_eq/=. by rewrite Eab.
Qed.

Lemma sdrop_two c a b s : is_linesep c (String a (String b s)) = Some "8"%char ∨
    is_linesep c (String a (String b s)) = Some "9"%char →
  c = chr 226 ∧ a = chr 128 ∧ (b = chr 168 ∨ b = chr 169).
Proof.
  unfold is_linesep. intros H.
  assert (E : ord c = 226 ∧ ord a = 128 ∧ (ord b = 168 ∨ ord b = 169)).
  { destruct H as [H|H]; repeat case_match; simplify_eq; bool_to_prop; lia. }
  destruct E as (Hc & Ha & Hb).
  rewrite <-(chr_ord c), <-(chr_ord a), <-(chr_ord b), Hc, Ha.
  destruct Hb as [->| ->]; auto.
Qed.

Lemma dec_u2028 t :
  dec_str 0 (String backslash (String "u" (String "2" (String "0" (String "2" (String "8" t)))))) =
  '(u, r) ← dec_str 0 t; Some (String (chr 226) (String (chr 128) (String (chr 168) u)), r).
Proof. reflexivity. Qed.
Lemma dec_u2029 t :
  dec_str 0 (String backslash (String "u" (String "2" (String "0" (String "2" (String "9" t)))))) =
  '(u, r) ← dec_str 0 t; Some (String (chr 226) (String (chr 128) (String (chr 169) u)), r).
Proof. reflexivity. Qed.

(** Decoding what [enc_str] wrote gives the string back. *)
Lemma dec_enc_str s : ∀ k r, valid_go k s = true →
  dec_str k (enc_str k 0 s +:+ String quote r) = Some (s, r).
Proof.
  induction s as [s IH] using (well_founded_induction (Wf_nat.well_founded_ltof _ len)).
  unfold Wf_nat.ltof in IH. intros k r Hv.
  destruct s as [|c s]. { destruct k; [done|discriminate]. }
  destruct k as [|k]; simpl in Hv.
  2:{ simpl. rewrite IH; [done|simpl; lia|done]. }
  destruct (utf8_tail c s) as [n|] eqn:E; [|done]. cbn [enc_str]. rewrite E.
  destruct n as [|n].
  { rewrite sapp_assoc, dec_escape.
    - rewrite IH; [done|simpl; lia|done].
    - revert E. unfold utf8_tail. repeat case_match; try done. intros _.
      unfold between in *. bool_to_prop. lia. }
  destruct (is_linesep c s) as [x|] eqn:El.
  - destruct s as [|a [|b s]]; try discriminate.
    assert (Hx : x = "8"%char ∨ x = "9"%char).
    { revert El. unfold is_linesep. case_match; [|done]. case_match; [intros [=]; auto|].
      case_match; [intros [=]; auto|done]. }
    destruct (sdrop_two c a b s) as (-> & -> & Hb); [rewrite El; destruct Hx; subst; auto|].
    assert (n = 1%nat) as -> by (destruct Hb as [->| ->]; vm_compute in E; congruence).
    change (enc_str 0 2 _) with (enc_str 0 0 s).
    assert (Hs : dec_str 0 (enc_str 0 0 s +:+ String quote r) = Some (s, r)).
    { apply IH; [simpl; lia|]. exact Hv. }
    destruct Hb as [->| ->]; vm_compute in El; injection El as <-;
      rewrite sapp_assoc; cbn [String.append]; [rewrite dec_u2028|rewrite dec_u2029]; by rewrite Hs.
  - cbn [String.append dec_str].
    assert (Hc : 127 < ord c).
    { revert E. unfold utf8_tail. destruct (between 0 127 c) eqn:Eb; [done|intros _].
      pose proof (ord_range c). unfold between in Eb. bool_to_prop. lia. }
    destruct (Z.eqb_spec (ord c) 34); [lia|]. destruct (Z.eqb_spec (ord c) 92); [lia|].
    destruct (Z.ltb_spec (ord c) 32); [lia|].
    rewrite utf8_tail_enc, IH by (try done; simpl; lia). done.
Qed.

Lemma dec_encode_string s r : ValidString s = true →
  dec_str 0 (enc_str 0 0 s +:+ String quote r) = Some (s, r).
Proof. apply dec_enc_str. Qed.

(** The input after a value: nothing, or a byte no number goes on with. *)
Definition delimited (r : string) : Prop :=
  match r with "" => True | String c _ => num_char c = false end.

Lemma num_run_chars q s : num_run q s = true → sforallb num_char s = true.
Proof.
  revert q. induction s as [|c s IH]; intros q; [done|]. simpl.
  destruct (num_step q c) as [q'|] eqn:E; [|done]. intros H.
  apply andb_true_iff. split; [|eauto].
  unfold num_char, is_e, is_digit. unfold num_step, is_e, is_digit in E.
  rewrite !orb_true_iff, !andb_true_iff, !Z.eqb_eq, !Z.leb_le.
  destruct q; repeat match goal with
  | H : context [if ?b then _ else _] |- _ => destruct b eqn:?
  end; simplify_eq; bool_to_prop; lia.
Qed.

Lemma span_num_app lit r : sforallb num_char lit = true → delimited r →
  span_num (lit +:+ r) = (lit, r).
Proof.
  intros Hl Hr. induction lit as [|c lit IH]; simpl in *.
  - destruct r as [|c r]; [done|]. simpl in Hr |- *. by rewrite Hr.
  - apply andb_true_iff in Hl as [-> Hl]. by rewrite IH.
Qed.

(** Every encoding starts with a byte that is not white space and is not a
    closing bracket. *)
Definition starts (s : string) : Prop :=
  match s with
  | "" => False
  | String c _ => is_ws c = false ∧ ord c ≠ 93 ∧ ord c ≠ 125
  end.

Lemma starts_app s t : starts s → starts (s +:+ t).
Proof. by destruct s. Qed.
Lemma skip_ws_starts s : starts s → skip_ws s = s.
Proof. destruct s as [|c s]; [done|]. intros [H _]. unfold skip_ws. simpl. by rewrite H. Qed.

Lemma valid_number_head lit : valid_number lit = true →
  ∃ c s, lit = String c s ∧ (ord c = 45 ∨ is_digit c = true).
Proof.
  destruct lit as [|c s]; [done|]. unfold valid_number. simpl. intros H.
  exists c, s. split; [done|]. destruct (Z.eqb_spec (ord c) 45); [auto|].
  destruct (Z.eqb_spec (ord c) 48) as [E|E]; [unfold is_digit; rewrite E; auto|].
  destruct (is_digit c); [auto|done].
Qed.

Lemma encode_starts v : wf_json v = true → starts (encode v).
Proof.
  destruct v as [|[]|lit|s|l|l|]; intros H; try done; try (vm_compute; repeat split; congruence).
  simpl in *. destruct (valid_number_head lit H) as (c & s & -> & Hc).
  unfold starts, is_ws, is_digit in *. destruct Hc as [->|Hc]; [done|].
  bool_to_prop. rewrite !orb_false_iff, !Z.eqb_neq. lia.
Qed.

Fixpoint jsize (v : json) : nat :=
  match v with
  | JArr l => S (list_sum ((λ v, S (jsize v)) <$> l))
  | JObj l => S (list_sum ((λ kv, S (jsize kv.2)) <$> l))
  | _ => 1
  end.

Definition parses (v : json) : Prop :=
  wf_json v = true → ∀ fuel r, (jsize v ≤ fuel)%nat → delimited r →
  parse fuel (encode v +:+ r) = Some (v, r).

Lemma parse_num lit : parses (JNum lit).
Proof.
  intros Hv [|n] r Hf Hr; [simpl in Hf; lia|].
  pose proof (encode_starts (JNum lit) Hv) as Hs. cbn [encode wf_json parse] in *.
  rewrite skip_ws_starts by by apply starts_app.
  destruct (valid_number_head lit Hv) as (c & s & -> & Hc). cbn [String.append].
  assert (Hne : ord c ≠ 34 ∧ ord c ≠ 91 ∧ ord c ≠ 123 ∧ ord c ≠ 110 ∧ ord c ≠ 116 ∧ ord c ≠ 102).
  { unfold is_digit in Hc. destruct Hc as [Hc|Hc]; bool_to_prop; lia. }
  destruct Hne as (H1 & H2 & H3 & H4 & H5 & H6).
  apply Z.eqb_neq in H1, H2, H3, H4, H5, H6. rewrite H1, H2, H3, H4, H5, H6.
  change (String c (s +:+ r)) with (String c s +:+ r).
  rewrite span_num_app; [|by eapply num_run_chars|done]. by rewrite Hv.
Qed.

Lemma parse_str s : parses (JStr s).
Proof.
  intros Hv [|n] r Hf Hr; [simpl in Hf; lia|]. cbn [encode encode_string String.append parse].
  rewrite skip_ws_starts by (vm_compute; repeat split; congruence).
  change (ord quote =? 34) with true. cbv iota.
  rewrite sapp_assoc. cbn [String.append]. by rewrite dec_encode_string.
Qed.

Lemma skip_ws_char c s : is_ws c = false → skip_ws (String c s) = String c s.
Proof. unfold skip_ws. simpl. by intros ->. Qed.

Lemma sum_fmap_cons {A} (f : A → nat) x l :
  list_sum (f <$> x :: l) = (f x + list_sum (f <$> l))%nat.
Proof. done. Qed.

Lemma parse_elems_ok l : Forall parses l → l ≠ [] → forallb wf_json l = true →
  ∀ fuel r, (list_sum ((λ v, S (jsize v)) <$> l) ≤ fuel)%nat →
  parse_elems fuel (comma_sep (encode <$> l) +:+ String "]" r) = Some (l, r).
Proof.
  unfold comma_sep.
  induction 1 as [|v l Hv Hl IH]; intros Hne Hw fuel r Hf; [done|].
  destruct fuel as [|n]; [simpl in Hf; lia|]. cbn [forallb] in Hw.
  rewrite sum_fmap_cons in Hf. rewrite fmap_cons. apply andb_true_iff in Hw as [Hw1 Hw2].
  destruct l as [|w l]; cbn [parse_elems].
  - rewrite Join_one, (Hv Hw1) by (try done; lia). done.
  - rewrite fmap_cons, Join_cons, <-fmap_cons, !sapp_assoc.
    rewrite (Hv Hw1) by (try done; lia). cbn [mbind option_bind String.append].
    rewrite skip_ws_char by done. cbv iota. rewrite IH by (done || lia). done.
Qed.

Definition encode_member (kv : string * json) : string :=
  encode_string kv.1 +:+ ":" +:+ encode kv.2.

Lemma parse_members_ok l : Forall (λ kv, parses kv.2) l → l ≠ [] →
  forallb (λ kv, ValidString kv.1 && wf_json kv.2) l = true →
  ∀ fuel r, (list_sum ((λ kv, S (jsize kv.2)) <$> l) ≤ fuel)%nat →
  parse_members fuel (comma_sep (encode_member <$> l) +:+ String "}" r) = Some (l, r).
Proof.
  unfold comma_sep.
  induction 1 as [|[k v] l Hv Hl IH]; intros Hne Hw fuel r Hf; [done|].
  destruct fuel as [|n]; [simpl in Hf; lia|]. cbn [forallb fst snd] in *.
  rewrite sum_fmap_cons in Hf. rewrite fmap_cons. cbn [snd] in Hf.
  apply andb_true_iff in Hw as [[Hk Hw1]%andb_true_iff Hw2].
  assert (Hstep : ∀ t, ∃ t', encode_member (k, v) +:+ t = String quote t' ∧
    dec_str 0 t' = Some (k, String ":" (encode v +:+ t))).
  { intros t. eexists. split.
    - unfold encode_member, encode_string. cbn [fst snd String.append]. reflexivity.
    - rewrite ?sapp_assoc. cbn [String.append]. rewrite ?sapp_assoc. cbn [String.append].
      by apply dec_encode_string. }
  destruct l as [|w l]; cbn [parse_members].
  - rewrite Join_one. destruct (Hstep (String "}" r)) as (t' & -> & E).
    rewrite skip_ws_char by done. change (ord quote =? 34) with true. cbv iota. rewrite E.
    cbn [mbind option_bind]. rewrite skip_ws_char by done. cbv iota.
    rewrite (Hv Hw1) by (try done; lia). done.
  - rewrite fmap_cons, Join_cons, <-fmap_cons, sapp_assoc.
    set (t := (_ +:+ _) +:+ String "}" r). destruct (Hstep t) as (t' & -> & E).
    rewrite skip_ws_char by done. change (ord quote =? 34) with true. cbv iota. rewrite E.
    cbn [mbind option_bind]. rewrite skip_ws_char by done. cbv iota. unfold t.
    rewrite sapp_assoc. cbn [String.append].
    rewrite (Hv Hw1) by (try done; lia). cbn [mbind option_bind].
    rewrite skip_ws_char by done. cbv iota. rewrite IH by (done || lia). done.
Qed.

Lemma Join_starts x l sep : starts x → starts (Join (x :: l) sep).
Proof. destruct l; [done|]. rewrite Join_cons. apply starts_app. Qed.

Lemma parse_arr l : Forall parses l → parses (JArr l).
Proof.
  intros Hl Hw [|n] r Hf Hr; [simpl in Hf; lia|]. cbn [encode parse wf_json jsize] in *.
  rewrite !sapp_assoc. cbn [String.append]. rewrite skip_ws_char by done.
  change (ord "[" =? 34) with false. change (ord "[" =? 91) with true. cbv iota.
  destruct l as [|v l]; [done|].
  assert (Hs : starts (comma_sep (encode <$> v :: l) +:+ String "]" r)).
  { apply starts_app, Join_starts, encode_starts. by apply andb_true_iff in Hw as []. }
  rewrite (parse_elems_ok (v :: l)) by (done || lia). cbn [mbind option_bind].
  rewrite skip_ws_starts by done. revert Hs. unfold starts.
  destruct (_ +:+ String "]" r) as [|c s]; [done|]. intros (_ & H & _).
  destruct c as [[] [] [] [] [] [] [] []]; try reflexivity. by destruct H.
Qed.

Lemma parse_obj l : Forall (λ kv, parses kv.2) l → parses (JObj l).
Proof.
  intros Hl Hw [|n] r Hf Hr; [simpl in Hf; lia|]. cbn [encode parse wf_json jsize] in *.
  change (λ kv : string * json, encode_string kv.1 +:+ ":" +:+ encode kv.2) with encode_member.
  rewrite !sapp_assoc. cbn [String.append]. rewrite skip_ws_char by done.
  change (ord "{" =? 34) with false. change (ord "{" =? 91) with false.
  change (ord "{" =? 123) with true. cbv iota.
  destruct l as [|kv l]; [done|].
  assert (Hs : starts (comma_sep (encode_member <$> kv :: l) +:+ String "}" r)).
  { apply starts_app, Join_starts. vm_compute. repeat split; congruence. }
  rewrite (parse_members_ok (kv :: l)) by (done || lia). cbn [mbind option_bind].
  rewrite skip_ws_starts by done. revert Hs. unfold starts.
  destruct (_ +:+ String "}" r) as [|c s]; [done|]. intros (_ & _ & H).
  destruct c as [[] [] [] [] [] [] [] []]; try reflexivity. by destruct H.
Qed.

Lemma expect_app w r : expect w (w +:+ r) = Some r.
Proof. unfold expect. by rewrite HasPrefix_app, sdrop_app. Qed.

Lemma parse_encode v : parses v.
Proof.
  induction v using json_rect'.
  - intros _ [|n] r Hf Hr; [simpl in Hf; lia|].
    change (parse (S n) (encode JNull +:+ r)) with
      (r ← expect "ull" ("ull" +:+ r); Some (JNull, r)). by rewrite expect_app.
  - intros _ [|n] r Hf Hr; [simpl in Hf; lia|]. destruct b.
    + change (parse (S n) (encode (JBool true) +:+ r)) with
        (r ← expect "rue" ("rue" +:+ r); Some (JBool true, r)). by rewrite expect_app.
    + change (parse (S n) (encode (JBool false) +:+ r)) with
        (r ← expect "alse" ("alse" +:+ r); Some (JBool false, r)). by rewrite expect_app.
  - apply parse_num.
  - apply parse_str.
  - by apply parse_arr.
  - by apply parse_obj.
  - done.
Qed.

Lemma jsize_Join {A} (f : A → string) (g : A → json) l :
  Forall (λ x, (jsize (g x) ≤ 2 * len (f x))%nat) l →
  (list_sum ((λ x, S (jsize (g x))) <$> l) ≤ 2 * len (Join (f <$> l) ",") + 1)%nat.
Proof.
  induction 1 as [|x l Hx Hl IH]; [simpl; lia|]. rewrite sum_fmap_cons, fmap_cons.
  destruct l as [|y l]; [rewrite Join_one; simpl; lia|].
  rewrite (fmap_cons f y l), Join_cons, <-(fmap_cons f), !sapp_length.
  change (len ",") with 1%nat. lia.
Qed.

Lemma jsize_encode v : wf_json v = true → (jsize v ≤ 2 * len (encode v))%nat.
Proof.
  induction v as [|b|lit|s|l IH|l IH|] using json_rect'; intros Hw; cbn [jsize encode].
  - simpl. lia.
  - destruct b; simpl; lia.
  - destruct (valid_number_head lit Hw) as (c & s & -> & _). simpl. lia.
  - simpl. lia.
  - rewrite !sapp_length. simpl len. unfold comma_sep.
    pose proof (jsize_Join encode id l) as H. ospecialize (H _); [|simpl in H; lia].
    cbn [wf_json] in Hw. rewrite forallb_elem in Hw. rewrite Forall_forall in IH |- *.
    intros v Hv. specialize (IH v Hv (Hw v Hv)). simpl. lia.
  - change (λ kv : string * json, encode_string kv.1 +:+ ":" +:+ encode kv.2) with encode_member.
    rewrite !sapp_length. change (len "{") with 1%nat. change (len "}") with 1%nat. unfold comma_sep.
    pose proof (jsize_Join encode_member snd l) as H. ospecialize (H _); [|lia].
    cbn [wf_json] in Hw. rewrite forallb_elem in Hw. rewrite Forall_forall in IH |- *.
    intros kv Hkv. specialize (Hw kv Hkv). apply andb_true_iff in Hw as [_ Hw].
    specialize (IH kv Hkv Hw). unfold encode_member. rewrite !sapp_length. simpl. lia.
  - done.
Qed.

(** Decoding an encoding gives the value back. *)
Lemma Unmarshal_encode v : wf_json v = true → Unmarshal (encode v) = Some v.
Proof.
  intros Hw. unfold Unmarshal. pose proof (jsize_encode v Hw).
  pose proof (parse_encode v Hw (2 * len (encode v) + 2)%nat "" ltac:(lia) I) as H'.
  rewrite sapp_nil_r in H'. by rewrite H'.
Qed.

Lemma wf_supported v : wf_json v = true → supported v = true.
Proof.
  induction v as [|b|lit|s|l IH|l IH|] using json_rect'; cbn [wf_json supported]; try done;
  rewrite !forallb_elem; rewrite Forall_forall in IH.
  - auto.
  - intros H x Hx. specialize (H x Hx). apply andb_true_iff in H as [_ H]. eauto.
Qed.

Lemma Unmarshal_Marshal v : wf_json v = true → Marshal v ≫= Unmarshal = Some v.
Proof. intros Hw. unfold Marshal. rewrite wf_supported by done. by apply Unmarshal_encode. Qed.

Lemma encode_inj v w : wf_json v = true → wf_json w = true → encode v = encode w → v = w.
Proof.
  intros Hv Hw E. apply Unmarshal_encode in Hv, Hw. rewrite E in Hv. congruence.
Qed.
