(* ===== verification/GoNum.v ===== *)
(** * strconv and encoding/base64

    [ParseInt] is [strconv.ParseInt(s, 10, 64)], the inverse of [Itoa];
    the base64 codec is [base64.RawURLEncoding], the alphabet of a JWS. *)

From stdpp Require Import options.
From S2P Require Import Prelude GoString GoTime GoJson.

Local Open Scope Z_scope.

(** ** Decimal integers *)

Definition digit_val (c : ascii) : option Z := if is_digit c then Some (ord c - 48) else None.

Fixpoint digits_val (acc : Z) (s : string) : option Z :=
  match s with
  | "" => Some acc
  | String c s => d ← digit_val c; digits_val (acc * 10 + d) s
  end.

Definition minInt64 : Z := - 2 ^ 63.
Definition maxInt64 : Z := 2 ^ 63 - 1.
Definition in_int64 (z : Z) : bool := (minInt64 <=? z) && (z <=? maxInt64).

(** [strconv.ParseInt(s, 10, 64)]: an optional sign and at least one digit,
    inside the 64-bit range. *)
Definition ParseInt (s : string) : option Z :=
  let '(neg, ds) :=
    match s with
    | String c t => if ord c =? 45 then (true, t) else if ord c =? 43 then (false, t) else (false, s)
    | "" => (false, s)
    end in
  if ds =s? "" then None else
  n ← digits_val 0 ds;
  let z := if neg : bool then - n else n in
  if in_int64 z then Some z else None.

Lemma digit_val_pretty x : (x < 10)%N → digit_val (pretty_N_char x) = Some (Z.of_N x).
Proof.
  intros H. assert (x = 0 ∨ x = 1 ∨ x = 2 ∨ x = 3 ∨ x = 4 ∨ x = 5 ∨ x = 6 ∨ x = 7 ∨ x = 8 ∨ x = 9)%N by lia.
  destruct_or?; subst; reflexivity.
Qed.

Lemma is_digit_pretty x : (x < 10)%N → is_digit (pretty_N_char x) = true.
Proof. intros H%digit_val_pretty. unfold digit_val in H. by destruct (is_digit _). Qed.

Lemma digits_val_go x s : (0 < x)%N →
  digits_val 0 (pretty_N_go x s) = digits_val (Z.of_N x) s.
Proof.
  revert s. induction x as [x IH] using (well_founded_induction N.lt_wf_0). intros s Hx.
  rewrite pretty_N_go_step by done.
  assert (Hd : digits_val (Z.of_N (x `div` 10)) (String (pretty_N_char (x `mod` 10)) s)
    = digits_val (Z.of_N x) s).
  { cbn [digits_val]. rewrite digit_val_pretty by (apply N.mod_lt; lia). cbn [mbind option_bind].
    f_equal. rewrite (N.div_mod x 10) at 3 by lia. lia. }
  destruct (decide (x `div` 10 = 0)%N) as [E|E].
  - rewrite E in *. by rewrite pretty_N_go_0.
  - rewrite IH; [done|by apply N.div_lt|by apply N.neq_0_lt_0].
Qed.

Lemma digits_val_pretty_N x : digits_val 0 (pretty x) = Some (Z.of_N x).
Proof.
  unfold pretty, pretty_N. case_decide as H; [by subst|]. rewrite digits_val_go by lia. done.
Qed.

Lemma pretty_N_go_digits x s : sforallb is_digit s = true → sforallb is_digit (pretty_N_go x s) = true.
Proof.
  revert s. induction x as [x IH] using (well_founded_induction N.lt_wf_0). intros s Hs.
  destruct (decide (x = 0)%N) as [->|Hx]; [done|]. rewrite pretty_N_go_step by lia.
  apply IH; [apply N.div_lt; lia|]. simpl. rewrite is_digit_pretty; [done|]. apply N.mod_lt; lia.
Qed.
Lemma pretty_N_digits (x : N) : sforallb is_digit (pretty x) = true.
Proof. unfold pretty, pretty_N. case_decide; [done|]. by apply pretty_N_go_digits. Qed.

(** A positive number is printed without a leading zero. *)
Lemma num_run_go q x s : q = N0 ∨ q = NNeg → (0 < x)%N →
  num_run q (pretty_N_go x s) = num_run NInt s.
Proof.
  intros Hq. revert s. induction x as [x IH] using (well_founded_induction N.lt_wf_0). intros s Hx.
  rewrite pretty_N_go_step by done. destruct (decide (x `div` 10 = 0)%N) as [E|E].
  - rewrite E, pretty_N_go_0. apply N.div_small_iff in E; [|lia].
    rewrite N.mod_small by done. cbn [num_run].
    assert (x = 1 ∨ x = 2 ∨ x = 3 ∨ x = 4 ∨ x = 5 ∨ x = 6 ∨ x = 7 ∨ x = 8 ∨ x = 9)%N by lia.
    destruct Hq; destruct_or?; subst; reflexivity.
  - rewrite IH; [|by apply N.div_lt|by apply N.neq_0_lt_0]. cbn [num_run num_step].
    by rewrite is_digit_pretty by (apply N.mod_lt; lia).
Qed.

Lemma Itoa_pos p : Itoa (Z.pos p) = pretty_N_go (N.pos p) "".
Proof. reflexivity. Qed.
Lemma Itoa_neg p : Itoa (Z.neg p) = String "-" (pretty_N_go (N.pos p) "").
Proof. reflexivity. Qed.

Lemma valid_number_Itoa z : valid_number (Itoa z) = true.
Proof.
  unfold valid_number. destruct z as [|p|p]; [done|rewrite Itoa_pos|rewrite Itoa_neg].
  - rewrite num_run_go; auto; done.
  - cbn [num_run num_step]. change (ord "-" =? 45) with true. cbv iota.
    rewrite num_run_go; auto; done.
Qed.

Lemma ParseInt_Itoa z : in_int64 z = true → ParseInt (Itoa z) = Some z.
Proof.
  intros Hz.
  assert (Hp : ∀ p, ∃ c t, pretty_N_go (N.pos p) "" = String c t ∧ is_digit c = true).
  { intros p. pose proof (pretty_N_go_digits (N.pos p) "" eq_refl) as H.
    destruct (pretty_N_go (N.pos p) "") as [|c t] eqn:E.
    - pose proof (digits_val_go (N.pos p) "" eq_refl) as D. by rewrite E in D.
    - apply andb_true_iff in H as [H _]. eauto. }
  unfold ParseInt. destruct z as [|p|p]; [done|rewrite Itoa_pos|rewrite Itoa_neg].
  - destruct (Hp p) as (c & t & E & Hc). pose proof (digits_val_go (N.pos p) "" eq_refl) as D.
    rewrite E in *. unfold is_digit in Hc. apply andb_true_iff in Hc as [Hc _]. apply Z.leb_le in Hc.
    destruct (Z.eqb_spec (ord c) 45); [lia|]. destruct (Z.eqb_spec (ord c) 43); [lia|].
    rewrite D. rewrite bool_decide_false by done. cbn. by rewrite Hz.
  - destruct (Hp p) as (c & t & E & Hc). pose proof (digits_val_go (N.pos p) "" eq_refl) as D.
    change (ord "-" =? 45) with true. cbv iota.
    rewrite D. rewrite E, bool_decide_false by done. cbn [mbind option_bind digits_val].
    change (- Z.of_N (N.pos p)) with (Z.neg p). by rewrite Hz.
Qed.

(** ** Text that is valid UTF-8 *)

Lemma valid_go_app k s t : valid_go k s = true → valid_go 0 t = true → valid_go k (s +:+ t) = true.
Proof.
  revert k. induction s as [|c s IH]; intros k Hs Ht.
  - simpl in *. destruct k; [done|discriminate].
  - destruct k as [|k]; simpl in *; [|by apply IH].
    destruct (utf8_tail c s) as [n|] eqn:E; [|done].
    assert (utf8_tail c (s +:+ t) = Some n) as ->; [|by apply IH].
    clear IH Hs Ht. revert E. unfold utf8_tail.
    destruct (between 0 127 c); [done|].
    destruct (between 194 223 c); [by destruct s|].
    destruct (between 224 239 c); [by destruct s as [|a [|b s]]|].
    destruct (between 240 244 c); [by destruct s as [|a [|b [|d s]]]|done].
Qed.

(** ASCII text. *)
Definition is_ascii (s : string) : bool := sforallb (between 0 127) s.
Lemma is_ascii_valid s : is_ascii s = true → ValidString s = true.
Proof.
  unfold is_ascii, ValidString. induction s as [|c s IH]; [done|]. simpl.
  intros [Hc Hs]%andb_true_iff. unfold utf8_tail. rewrite Hc. auto.
Qed.
Lemma is_ascii_app s t : is_ascii (s +:+ t) = is_ascii s && is_ascii t.
Proof. apply sforallb_app. Qed.
Lemma Itoa_ascii z : is_ascii (Itoa z) = true.
Proof.
  pose proof (num_run_chars _ _ (valid_number_Itoa z)) as Hc. unfold is_ascii.
  induction (Itoa z) as [|c s IH]; [done|]. simpl in *. apply andb_true_iff in Hc as [Hc Hs].
  rewrite IH, andb_true_r by done. unfold between. unfold num_char, is_e, is_digit in Hc.
  rewrite !orb_true_iff, !andb_true_iff, !Z.leb_le, !Z.eqb_eq in Hc.
  apply andb_true_iff; split; apply Z.leb_le; lia.
Qed.
Lemma Itoa_valid z : ValidString (Itoa z) = true.
Proof. apply is_ascii_valid, Itoa_ascii. Qed.
Lemma pad_ascii w z : is_ascii (pad w z) = true.
Proof.
  unfold pad. rewrite is_ascii_app, Itoa_ascii, andb_true_r.
  induction (w - len (Itoa z))%nat as [|n IH]; [done|]. simpl. apply IH.
Qed.
Lemma FormatRFC3339_ascii t : is_ascii (FormatRFC3339 t) = true.
Proof.
  unfold FormatRFC3339. destruct (date t) as [[y mo] d], (clock t) as [[h mi] s].
  by rewrite !is_ascii_app, !pad_ascii.
Qed.
Lemma FormatRFC3339_valid t : ValidString (FormatRFC3339 t) = true.
Proof. apply is_ascii_valid, FormatRFC3339_ascii. Qed.

(** ** base64.RawURLEncoding *)

Definition b64_digit (n : Z) : ascii :=
  if n <? 26 then chr (65 + n) else if n <? 52 then chr (71 + n)
  else if n <? 62 then chr (n - 4) else if n =? 62 then "-"%char else "_"%char.

Definition b64_value (c : ascii) : option Z :=
  let z := ord c in
  if is_upper c then Some (z - 65) else if is_lower c then Some (z - 71)
  else if is_digit c then Some (z + 4) else if z =? 45 then Some 62
  else if z =? 95 then Some 63 else None.

Fixpoint b64_encode_bytes (l : list ascii) : list ascii :=
  match l with
  | [] => []
  | [a] => let x := ord a * 16 in [b64_digit (x / 64); b64_digit (x mod 64)]
  | [a; b] =>
      let x := (ord a * 256 + ord b) * 4 in
      [b64_digit (x / 4096); b64_digit (x / 64 mod 64); b64_digit (x mod 64)]
  | a :: b :: c :: l =>
      let x := ord a * 65536 + ord b * 256 + ord c in
      b64_digit (x / 262144) :: b64_digit (x / 4096 mod 64) ::
      b64_digit (x / 64 mod 64) :: b64_digit (x mod 64) :: b64_encode_bytes l
  end.
(** [b64.EncodeToString] *)
Definition b64_encode (s : string) : string := of_bytes (b64_encode_bytes (bytes s)).

(** The decoder ignores CR and LF and, not being strict, the unused bits of
    the last digit. *)
Fixpoint b64_decode_bytes (l : list ascii) : option (list ascii) :=
  match l with
  | [] => Some []
  | [a] => None
  | [a; b] => x ← b64_value a; y ← b64_value b; Some [chr ((x * 64 + y) / 16)]
  | [a; b; c] =>
      x ← b64_value a; y ← b64_value b; z ← b64_value c;
      let n := (x * 4096 + y * 64 + z) / 4 in Some [chr (n / 256); chr (n mod 256)]
  | a :: b :: c :: d :: l =>
      x ← b64_value a; y ← b64_value b; z ← b64_value c; w ← b64_value d;
      let n := x * 262144 + y * 4096 + z * 64 + w in
      r ← b64_decode_bytes l;
      Some (chr (n / 65536) :: chr (n / 256 mod 256) :: chr (n mod 256) :: r)
  end.
Definition is_nl (c : ascii) : bool := (ord c =? 10) || (ord c =? 13).
(** [b64.DecodeString] *)
Definition b64_decode (s : string) : option string :=
  of_bytes <$> b64_decode_bytes (List.filter (λ c, negb (is_nl c)) (bytes s)).

(** [base64.StdEncoding.DecodeString]: groups of four, the last one padded
    with one or two equals signs. *)
Definition b64_url_char (c : ascii) : ascii :=
  let z := ord c in
  if z =? 43 then "-"%char else if z =? 47 then "_"%char
  else if (z =? 45) || (z =? 95) then "="%char else c.
Definition b64_std_decode (s : string) : option string :=
  let l := List.filter (λ c, negb (is_nl c)) (bytes s) in
  if negb (Z.of_nat (length l) mod 4 =? 0) then None else
  let r := reverse l in
  let r :=
    match r with
    | a :: b :: r' => if ord a =? 61 then if ord b =? 61 then r' else b :: r' else r
    | _ => r
    end in
  of_bytes <$> b64_decode_bytes (b64_url_char <$> reverse r).
(** [base64.StdEncoding.EncodeToString] *)
Definition b64_std_char (c : ascii) : ascii :=
  let z := ord c in if z =? 45 then "+"%char else if z =? 95 then "/"%char else c.
Definition b64_std_encode (s : string) : string :=
  let l := b64_std_char <$> b64_encode_bytes (bytes s) in
  of_bytes (l ++ replicate (Z.to_nat (- Z.of_nat (length l) mod 4)) "="%char).
Example b64_std_ex : b64_std_decode "aGk/Pg==" = Some "hi?>" ∧ b64_std_decode "aGk_Pg==" = None ∧
  b64_std_encode "hi?>" = "aGk/Pg==" ∧ b64_std_encode "hi" = "aGk=" ∧ b64_std_encode "hi?" = "aGk/".
Proof. vm_compute. done. Qed.

Definition b64_char (c : ascii) : bool :=
  is_upper c || is_lower c || is_digit c || (ord c =? 45) || (ord c =? 95).

Lemma b64_digit_ok n : 0 ≤ n < 64 →
  b64_value (b64_digit n) = Some n ∧ b64_char (b64_digit n) = true.
Proof.
  intros H.
  assert (HF : forallb (λ n, bool_decide (b64_value (b64_digit n) = Some n) && b64_char (b64_digit n))
    (seqZ 0 64) = true) by (vm_compute; reflexivity).
  rewrite forallb_elem in HF. specialize (HF n ltac:(apply elem_of_seqZ; lia)).
  apply andb_true_iff in HF as [HF ?]. by apply bool_decide_eq_true in HF.
Qed.
Lemma b64_value_digit n : 0 ≤ n < 64 → b64_value (b64_digit n) = Some n.
Proof. apply b64_digit_ok. Qed.

Lemma list_ind3 {A} (P : list A → Prop) :
  P [] → (∀ a, P [a]) → (∀ a b, P [a; b]) →
  (∀ a b c l, P l → P (a :: b :: c :: l)) → ∀ l, P l.
Proof.
  intros H0 H1 H2 H3. fix IH 1. intros [|a [|b [|c l]]]; [done|apply H1|apply H2|].
  apply H3, IH.
Qed.

(** Regrouping digits, and splitting off bytes. *)
Lemma regroup2 x : x / 64 * 64 + x mod 64 = x.
Proof. Z.to_euclidean_division_equations; lia. Qed.
Lemma regroup3 x : x / 4096 * 4096 + x / 64 mod 64 * 64 + x mod 64 = x.
Proof. Z.to_euclidean_division_equations; lia. Qed.
Lemma regroup4 x : x / 262144 * 262144 + x / 4096 mod 64 * 4096 + x / 64 mod 64 * 64 + x mod 64 = x.
Proof. Z.to_euclidean_division_equations; lia. Qed.
Lemma high_byte x y : 0 ≤ y < 256 → (x * 256 + y) / 256 = x.
Proof. intros. Z.to_euclidean_division_equations; lia. Qed.
Lemma low_byte x y : 0 ≤ y < 256 → (x * 256 + y) mod 256 = y.
Proof. intros. Z.to_euclidean_division_equations; lia. Qed.

(** The six-bit groups of a byte group are in range. *)
Ltac b64_range :=
  match goal with
  | |- 0 ≤ _ mod _ < _ => apply Z.mod_pos_bound; lia
  | |- 0 ≤ _ / _ < _ => split; [apply Z.div_pos|apply Z.div_lt_upper_bound]; lia
  end.

Lemma b64_decode_encode_bytes l : b64_decode_bytes (b64_encode_bytes l) = Some l.
Proof.
  induction l as [|a|a b|a b c l IH] using list_ind3; [done| | |];
    pose proof (ord_range a); try pose proof (ord_range b); try pose proof (ord_range c);
    cbn [b64_encode_bytes b64_decode_bytes];
    rewrite !b64_value_digit by b64_range;
    cbn [mbind option_bind].
  - by rewrite regroup2, Z.div_mul, chr_ord by lia.
  - rewrite regroup3, Z.div_mul by lia. by rewrite (high_byte _ (ord b)), (low_byte _ (ord b)), !chr_ord by lia.
  - rewrite IH. cbn [mbind option_bind]. rewrite regroup4.
    replace (ord a * 65536 + ord b * 256 + ord c) with ((ord a * 256 + ord b) * 256 + ord c) by lia.
    rewrite (high_byte (ord a * 256 + ord b)), (low_byte (ord a * 256 + ord b)) by lia.
    rewrite (low_byte (ord a)) by lia.
    replace (((ord a * 256 + ord b) * 256 + ord c) / 65536) with (ord a)
      by (Z.to_euclidean_division_equations; lia).
    by rewrite !chr_ord.
Qed.

Lemma b64_encode_chars l : forallb b64_char (b64_encode_bytes l) = true.
Proof.
  induction l as [|a|a b|a b c l IH] using list_ind3; [done| | |];
    pose proof (ord_range a); try pose proof (ord_range b); try pose proof (ord_range c);
    cbn [b64_encode_bytes forallb]; rewrite ?andb_true_iff;
    repeat split; try done; apply b64_digit_ok; b64_range.
Qed.

Lemma b64_decode_encode s : b64_decode (b64_encode s) = Some s.
Proof.
  unfold b64_decode, b64_encode. rewrite bytes_of_bytes, bfilter_true.
  - by rewrite b64_decode_encode_bytes; simpl; rewrite of_bytes_bytes.
  - intros c Hc. pose proof (b64_encode_chars (bytes s)) as H. rewrite forallb_elem in H.
    specialize (H c Hc). unfold b64_char, is_upper, is_lower, is_digit, is_nl in *.
    rewrite !orb_true_iff, !andb_true_iff, !Z.leb_le, !Z.eqb_eq in H.
    rewrite negb_true_iff, orb_false_iff, !Z.eqb_neq. lia.
Qed.
