(* ===== verification/GoClock.v ===== *)
(** * time.Parse with time.RFC3339

    [Parse_Format]: a time before the year 10000 that is formatted and parsed
    again comes back cut to the second.

    The strict grammar of the standard library's fast path: fixed-width
    fields, an optional fraction after a point, and Z or a numeric offset.
    The few other forms the slow path forgives are refused here. *)

From stdpp Require Import options.
From S2P Require Import Prelude GoString GoTime GoNum.
Local Open Scope Z_scope.

Definition is_leap (y : Z) : bool := (y mod 4 =? 0) && (negb (y mod 100 =? 0) || (y mod 400 =? 0)).
Definition daysIn (m y : Z) : Z :=
  if m =? 2 then if is_leap y then 29 else 28
  else if (m =? 4) || (m =? 6) || (m =? 9) || (m =? 11) then 30 else 31.

(** [parseUint] on the [n] bytes from [i] on. *)
Definition field (s : string) (i n : nat) (lo hi : Z) : option Z :=
  x ← digits_val 0 (stake n (sdrop i s));
  if (lo <=? x) && (x <=? hi) then Some x else None.
Definition byte_at (s : string) (i : nat) (c : ascii) : bool := stake 1 (sdrop i s) =s? String c "".

Fixpoint span_digits (s : string) : string * string :=
  match s with
  | String c t => if is_digit c then let '(d, r) := span_digits t in (String c d, r) else ("", s)
  | "" => ("", "")
  end.
(** The fraction in nanoseconds, digits after the ninth dropped. *)
Definition nanos (d : string) : Z := default 0 (digits_val 0 (stake 9 (d +:+ "000000000"))).

Definition parse_zone (s : string) : option Z :=
  if s =s? "Z" then Some 0
  else if negb (len s =? 6)%nat then None
  else
    hr ← field s 1 2 0 23; mm ← field s 4 2 0 59;
    if (byte_at s 0 "-" || byte_at s 0 "+") && byte_at s 3 ":"
    then Some ((if byte_at s 0 "-" then -1 else 1) * ((hr * 60 + mm) * 60)) else None.

Definition ParseRFC3339 (s : string) : option Time :=
  if (len s <? 19)%nat then None else
  y ← field s 0 4 0 9999; mo ← field s 5 2 1 12; d ← field s 8 2 1 (daysIn mo y);
  h ← field s 11 2 0 23; mi ← field s 14 2 0 59; sec ← field s 17 2 0 59;
  if byte_at s 4 "-" && byte_at s 7 "-" && byte_at s 10 "T" && byte_at s 13 ":" && byte_at s 16 ":" then
    let r := sdrop 19 s in
    let '(nsec, r) :=
      match r with
      | String c (String d0 _ as t) =>
          if (ord c =? 46) && is_digit d0 then let '(ds, r) := span_digits t in (nanos ds, r) else (0, r)
      | _ => (0, r)
      end in
    zone ← parse_zone r;
    Some ((days_of_civil y mo d * 86400 + h * 3600 + mi * 60 + sec - zone) * Second + nsec)
  else None.

Example parse_utc : ParseRFC3339 "2024-02-29T12:34:56Z" = Some (FromUnix 1709210096).
Proof. vm_compute. reflexivity. Qed.
Example parse_zone_ex : ParseRFC3339 "2024-02-29T14:34:56.5+02:00" = Some (FromUnix 1709210096 + 500 * Millisecond).
Proof. vm_compute. reflexivity. Qed.
Example parse_bad : ParseRFC3339 "2023-02-29T12:34:56Z" = None.
Proof. vm_compute. reflexivity. Qed.

(** ** The round trip with FormatRFC3339 *)

Lemma pretty_go_length w : ∀ x s, (x < 10 ^ N.of_nat w)%N → (len (pretty_N_go x s) ≤ w + len s)%nat.
Proof.
  induction w as [|w IH]; intros x s Hx.
  - assert (x = 0%N) as -> by (cbn in Hx; lia). by rewrite pretty_N_go_0.
  - destruct (decide (x = 0%N)) as [->|]; [rewrite pretty_N_go_0; lia|].
    rewrite pretty_N_go_step by lia. etransitivity; [apply IH|cbn; lia].
    apply N.Div0.div_lt_upper_bound. rewrite Nat2N.inj_succ, N.pow_succ_r' in Hx. lia.
Qed.
Lemma Itoa_length w z : 0 ≤ z < 10 ^ Z.of_nat w → (0 < w)%nat → (len (Itoa z) ≤ w)%nat.
Proof.
  intros Hz Hw. destruct z as [|p|p]; [cbn; lia| |lia]. rewrite Itoa_pos.
  etransitivity; [apply (pretty_go_length w)|cbn; lia].
  apply N2Z.inj_lt. rewrite N2Z.inj_pow, nat_N_Z. lia.
Qed.
Lemma zeros_length n : len (zeros n) = n.
Proof. induction n; cbn; [done|by f_equal]. Qed.
Lemma pad_length w z : 0 ≤ z < 10 ^ Z.of_nat w → (0 < w)%nat → len (pad w z) = w.
Proof.
  intros Hz Hw. unfold pad. rewrite sapp_length, zeros_length. pose proof (Itoa_length w z Hz Hw). lia.
Qed.
Lemma digits_val_zeros n s : digits_val 0 (zeros n +:+ s) = digits_val 0 s.
Proof. induction n; [done|exact IHn]. Qed.
Lemma digits_val_pad w z : 0 ≤ z → digits_val 0 (pad w z) = Some z.
Proof.
  intros Hz. unfold pad. rewrite digits_val_zeros. destruct z as [|p|p]; [done| |lia].
  rewrite Itoa_pos. by rewrite digits_val_go.
Qed.
Lemma pad2 z : 0 ≤ z < 100 → ∃ a b, pad 2 z = String a (String b "") ∧ digits_val 0 (String a (String b "")) = Some z.
Proof.
  intros Hz. pose proof (pad_length 2 z Hz ltac:(lia)) as Hl. pose proof (digits_val_pad 2 z ltac:(lia)) as Hd.
  destruct (pad 2 z) as [|a [|b []]]; try discriminate Hl. eauto.
Qed.
Lemma pad4 z : 0 ≤ z < 10000 → ∃ a b c d, pad 4 z = String a (String b (String c (String d ""))) ∧
  digits_val 0 (String a (String b (String c (String d "")))) = Some z.
Proof.
  intros Hz. pose proof (pad_length 4 z Hz ltac:(lia)) as Hl. pose proof (digits_val_pad 4 z ltac:(lia)) as Hd.
  destruct (pad 4 z) as [|a [|b [|c [|d []]]]]; try discriminate Hl. eauto 6.
Qed.

(** A day of the 400-year cycle lies in the year [year_of_era] gives it. *)
Lemma year_bounds doe : 0 ≤ doe < 146097 →
  0 ≤ year_of_era doe < 400 ∧ days_before_year (year_of_era doe) ≤ doe ∧ doe ≤ days_before_year (year_of_era doe) + 365 .
Proof.
  intros H. unfold year_of_era, days_before_year.
  assert (doe / 146096 = 0 ∨ doe = 146096) as [E|E] by dlia; [|subst; vm_compute; split_and!; congruence].
  rewrite E. 
  assert (0 <= doe / 36524 < 4) as Hb by dlia.
  remember (doe / 36524)  as b eqn:Eb. remember (doe / 1460) as a eqn:Ea.
  assert (b = 0 ∨ b = 1 ∨ b = 2 ∨ b = 3) as Hb' by lia.
  remember ((doe - a + b - 0) / 365) as y eqn:Ey.
  assert (0 <= y < 400) by dlia.
  assert (0 <= y / 100 < 4) as Hc by dlia. remember (y/100) as c eqn:Ec.
  assert (c = 0 ∨ c = 1 ∨ c = 2 ∨ c = 3) as Hc' by lia.
  destruct Hb' as [->|[->|[->| ->]]], Hc' as [->|[->|[->| ->]]]; split_and!; first [lia|dlia].
Qed.

(** Facts checked day by day and year by year. *)
Definition month_of_doy (doy : Z) : Z := let mp := (5 * doy + 2) / 153 in if mp <? 10 then mp + 3 else mp - 9.
Definition day_of_doy (doy : Z) : Z := doy - (153 * ((5 * doy + 2) / 153) + 2) / 5 + 1.
Definition doy_ok (doy : Z) : bool :=
  let m := month_of_doy doy in let d := day_of_doy doy in
  (1 <=? m) && (m <=? 12) && (1 <=? d) &&
  (d <=? (if m =? 2 then if doy =? 365 then 29 else 28 else daysIn m 1)) &&
  ((if m <=? 2 then m + 9 else m - 3) =? (5 * doy + 2) / 153) &&
  (Bool.eqb (m <=? 2) (306 <=? doy)).
Lemma all_doy_ok : forallb doy_ok (seqZ 0 366) = true.
Proof. vm_compute. reflexivity. Qed.
Definition leap_ok (yoe : Z) : bool :=
  negb (year_of_era (days_before_year yoe + 365) =? yoe) || is_leap (yoe + 1).
Lemma all_leap_ok : forallb leap_ok (seqZ 0 400) = true.
Proof. vm_compute. reflexivity. Qed.
Lemma is_leap_era era y : is_leap (y + era * 400) = is_leap y.
Proof.
  unfold is_leap. f_equal; [|f_equal; [f_equal|]]; f_equal; dlia.
Qed.

Lemma date_spec days : 0 ≤ days < days_of_civil 10000 1 1 →
  let '(y, m, d) := civil_of_days days in
  0 ≤ y ≤ 9999 ∧ 1 ≤ m ≤ 12 ∧ 1 ≤ d ≤ daysIn m y ∧ days_of_civil y m d = days.
Proof.
  intros Hd. change (days_of_civil 10000 1 1) with 3652059 in Hd. unfold civil_of_days. set (z := days + 306) in *.
  assert (Hz : z = 146097 * (z / 146097) + z mod 146097 ∧ 0 ≤ z mod 146097 < 146097) by dlia.
  remember (z / 146097) as era eqn:Eera. remember (z mod 146097) as doe eqn:Edoe. clear Eera Edoe.
  destruct Hz as [Hz Hdoe]. pose proof (year_bounds doe Hdoe) as (Hy & Hlo & Hhi).
  remember (year_of_era doe) as yoe eqn:Ey. remember (doe - days_before_year yoe) as doy eqn:Edoy.
  assert (Hdoy : 0 ≤ doy ≤ 365) by lia.
  fold (month_of_doy doy). fold (day_of_doy doy).
  pose proof (proj1 (forallb_elem _ _) all_doy_ok doy ltac:(apply elem_of_seqZ; lia)) as Hok.
  pose proof (proj1 (forallb_elem _ _) all_leap_ok yoe ltac:(apply elem_of_seqZ; lia)) as Hleap.
  unfold doy_ok, leap_ok in *. bool_to_prop. apply Bool.eqb_prop in H0.
  set (m := month_of_doy doy) in *. set (d := day_of_doy doy) in *.
  split; [|split; [lia|split; [split; [done|]|]]].
  - destruct (Z.leb_spec m 2), (Z.leb_spec 306 doy); try done;
      [|unfold days_before_year in *; dlia]. unfold days_before_year in *; dlia.
  - unfold daysIn in *. destruct (Z.eqb_spec m 2) as [E2|]; [|done].
    rewrite E2. cbn [Z.leb Z.compare Pos.compare Pos.compare_cont]. replace (yoe + era * 400 + 1) with (yoe + 1 + era * 400) by lia.
    rewrite is_leap_era. destruct (Z.eqb_spec doy 365) as [E365|]; [|destruct (is_leap _); lia].
    destruct Hleap as [Hl| ->]; [|done]. exfalso. apply negb_true_iff, Z.eqb_neq in Hl. apply Hl.
    transitivity (year_of_era doe); [|done]. f_equal. lia.
  - unfold days_of_civil.
    replace ((if m <=? 2 then yoe + era * 400 + (if m <=? 2 then 1 else 0) - 1
      else yoe + era * 400 + (if m <=? 2 then 1 else 0))) with (yoe + era * 400) by (destruct (m <=? 2); lia).
    rewrite H1. rewrite Z.div_add, Z.mod_add, Z.div_small, Z.mod_small by lia.
    unfold d, day_of_doy. lia.
Qed.

(** Times up to the year 9999 survive to the second. *)
Definition year10000 : Time := days_of_civil 10000 1 1 * (24 * Hour).
Lemma daysIn_le m y : daysIn m y ≤ 31.
Proof. unfold daysIn. repeat case_match; lia. Qed.
Lemma field_ok s i n lo hi x : digits_val 0 (stake n (sdrop i s)) = Some x → lo ≤ x ≤ hi → field s i n lo hi = Some x.
Proof.
  intros Hd Hx. unfold field. rewrite Hd. cbn [mbind option_bind].
  by rewrite (proj2 (Z.leb_le lo x)), (proj2 (Z.leb_le x hi)) by lia.
Qed.
Lemma pad_fields y mo d h mi sec : 0 ≤ y < 10000 → 1 ≤ mo ≤ 12 → 1 ≤ d ≤ daysIn mo y → 0 ≤ h < 24 →
  0 ≤ mi < 60 → 0 ≤ sec < 60 →
  ParseRFC3339 (pad 4 y +:+ "-" +:+ pad 2 mo +:+ "-" +:+ pad 2 d +:+ "T" +:+
    pad 2 h +:+ ":" +:+ pad 2 mi +:+ ":" +:+ pad 2 sec +:+ "Z") =
  Some ((days_of_civil y mo d * 86400 + h * 3600 + mi * 60 + sec) * Second).
Proof.
  intros Hy Hmo Hd Hh Hmi Hsec. pose proof (daysIn_le mo y).
  destruct (pad4 y ltac:(lia)) as (y1 & y2 & y3 & y4 & -> & Ey).
  destruct (pad2 mo ltac:(lia)) as (m1 & m2 & -> & Em). destruct (pad2 d ltac:(lia)) as (d1 & d2 & -> & Ed).
  destruct (pad2 h ltac:(lia)) as (h1 & h2 & -> & Eh). destruct (pad2 mi ltac:(lia)) as (i1 & i2 & -> & Ei).
  destruct (pad2 sec ltac:(lia)) as (s1 & s2 & -> & Es).
  cbn [String.append]. unfold ParseRFC3339. cbn [String.length Nat.ltb Nat.leb]. cbv iota.
  rewrite (field_ok _ 0 4 _ _ y); [|cbn [stake sdrop]; exact Ey|lia]. cbn [mbind option_bind].
  rewrite (field_ok _ 5 2 _ _ mo); [|cbn [stake sdrop]; exact Em|lia]. cbn [mbind option_bind].
  rewrite (field_ok _ 8 2 _ _ d); [|cbn [stake sdrop]; exact Ed|lia]. cbn [mbind option_bind].
  rewrite (field_ok _ 11 2 _ _ h); [|cbn [stake sdrop]; exact Eh|lia]. cbn [mbind option_bind].
  rewrite (field_ok _ 14 2 _ _ mi); [|cbn [stake sdrop]; exact Ei|lia]. cbn [mbind option_bind].
  rewrite (field_ok _ 17 2 _ _ sec); [|cbn [stake sdrop]; exact Es|lia]. cbn [mbind option_bind].
  unfold byte_at. cbn [stake sdrop].
  rewrite !bool_decide_eq_true_2 by done. cbn [andb]. 
  change (parse_zone "Z") with (Some 0). cbn [mbind option_bind]. by rewrite Z.sub_0_r, Z.add_0_r.
Qed.
Lemma Parse_Format t : 0 ≤ t < year10000 → ParseRFC3339 (FormatRFC3339 t) = Some (t / Second * Second).
Proof.
  intros Ht. unfold FormatRFC3339, date, clock.
  pose proof (date_spec (t / (24 * Hour))) as Hd.
  assert (Hday : 0 ≤ t / (24 * Hour) < days_of_civil 10000 1 1).
  { unfold year10000 in Ht. split; [apply Z.div_pos; [lia|done]|]. apply Z.div_lt_upper_bound; [done|lia]. }
  specialize (Hd Hday). destruct (civil_of_days _) as [[y mo] d]. destruct Hd as (Hy & Hmo & Hdd & Hciv).
  rewrite pad_fields by (lia || apply Z.mod_pos_bound; lia). do 2 f_equal. rewrite Hciv.
  set (s := t / Second).
  replace (t / (24 * Hour)) with (s / 86400); [dlia|]. unfold s. rewrite Z.div_div by done. done.
Qed.
