(* ===== verification/GoFmt.v ===== *)
(** * fmt's %q

    [Quote] is [strconv.Quote].  A valid rune from U+0080 on is taken to be
    printable; Go escapes the unprintable ones, as the \u form JSON shares
    or, above U+FFFF, as \U.  [dec_Quote] says when a quoted string is also a
    JSON string of the same value, [Broken_Quote] when it is not JSON at all. *)

From stdpp Require Import options.
From S2P Require Import Prelude GoString GoJson.

Local Open Scope Z_scope.

Definition hex_escape (c : ascii) : string := String backslash (String "x" (of_bytes (hex_byte c))).

(** [appendEscapedRune] for a rune below U+0080. *)
Definition quote_ascii (c : ascii) : string :=
  let z := ord c in
  if (z =? 34) || (z =? 92) then String backslash (String c "")
  else if (32 <=? z) && (z <=? 126) then String c ""
  else if z =? 7 then String backslash "a"
  else if z =? 8 then String backslash "b"
  else if z =? 12 then String backslash "f"
  else if z =? 10 then String backslash "n"
  else if z =? 13 then String backslash "r"
  else if z =? 9 then String backslash "t"
  else if z =? 11 then String backslash "v"
  else hex_escape c.

Fixpoint quote_body (copy : nat) (s : string) : string :=
  match s with
  | "" => ""
  | String c s =>
      match copy with
      | S k => String c (quote_body k s)
      | O =>
          match utf8_tail c s with
          | None => hex_escape c +:+ quote_body 0 s
          | Some O => quote_ascii c +:+ quote_body 0 s
          | Some n => String c (quote_body n s)
          end
      end
  end.
Definition Quote (s : string) : string := String quote (quote_body 0 s +:+ String quote "").

(** The bytes whose Go escape is not a JSON escape. *)
Definition go_only (c : ascii) : bool :=
  let z := ord c in
  ((z <? 32) && negb ((z =? 8) || (z =? 9) || (z =? 10) || (z =? 12) || (z =? 13))) || (z =? 127).
(** Text that %q writes as JSON would read it. *)
Definition quotable (s : string) : bool := ValidString s && sforallb (λ c, negb (go_only c)) s.

Lemma dec_quote_ascii c s : ord c < 128 → go_only c = false →
  dec_str 0 (quote_ascii c +:+ s) = '(t, r) ← dec_str 0 s; Some (String c t, r).
Proof.
  intros Hc Hg. destruct c as [[] [] [] [] [] [] [] []];
    first [reflexivity | exfalso; revert Hc Hg; vm_compute; intros; discriminate].
Qed.

Lemma utf8_tail_quote c s n r : utf8_tail c s = Some n →
  utf8_tail c (quote_body n s +:+ r) = Some n.
Proof.
  unfold utf8_tail. intros H.
  destruct (between 0 127 c); [by simplify_eq|].
  destruct (between 194 223 c).
  { destruct s as [|a s]; [done|]. destruct (is_cont a) eqn:Ea; simplify_eq/=. by rewrite Ea. }
  destruct (between 224 239 c).
  { destruct s as [|a [|b s]]; try done. destruct (_ && _) eqn:Eab in H; simplify_eq/=. by rewrite Eab. }
  destruct (between 240 244 c); [|done].
  destruct s as [|a [|b [|d s]]]; try done. destruct (_ && _ && _) eqn:Eab in H; simplify_eq/=. by rewrite Eab.
Qed.

Lemma utf8_tail_lead c s n : utf8_tail c s = Some n →
  (n = 0%nat ∧ ord c < 128) ∨ ((0 < n)%nat ∧ 128 <= ord c).
Proof.
  unfold utf8_tail. pose proof (ord_range c). destruct (between 0 127 c) eqn:E.
  - intros [= <-]. unfold between in E. bool_to_prop. left. lia.
  - intros Hn. right. unfold between in E. rewrite andb_false_iff, !Z.leb_gt in E.
    assert (n ≠ 0%nat); [|lia]. revert Hn.
    destruct (between 194 223 c); [destruct s as [|a s]; [done|]; destruct (is_cont a); congruence|].
    destruct (between 224 239 c); [destruct s as [|a [|b s]]; try done; destruct (_ && _); congruence|].
    destruct (between 240 244 c); [|done].
    destruct s as [|a [|b [|d s]]]; try done; destruct (_ && _ && _); congruence.
Qed.

Lemma dec_quote_body s : ∀ k r, valid_go k s = true → sforallb (λ c, negb (go_only c)) s = true →
  dec_str k (quote_body k s +:+ String quote r) = Some (s, r).
Proof.
  induction s as [|c s IH]; intros k r Hv Hg.
  { by destruct k. }
  simpl in Hg. apply andb_true_iff in Hg as [Hc Hg]. apply negb_true_iff in Hc.
  destruct k as [|k]; simpl in Hv; [|simpl; by rewrite IH].
  destruct (utf8_tail c s) as [n|] eqn:E; [|done]. cbn [quote_body]. rewrite E.
  destruct (utf8_tail_lead _ _ _ E) as [[-> Hlt]|[Hn Hge]].
  - rewrite sapp_assoc, dec_quote_ascii by done. by rewrite IH.
  - destruct n as [|n]; [lia|]. cbn [String.append dec_str].
    destruct (Z.eqb_spec (ord c) 34); [lia|]. destruct (Z.eqb_spec (ord c) 92); [lia|].
    destruct (Z.ltb_spec (ord c) 32); [lia|]. rewrite utf8_tail_quote by done. by rewrite IH.
Qed.

(** JSON reads a quotable string back from its %q form. *)
Lemma dec_Quote s r : quotable s = true →
  dec_str 0 (quote_body 0 s +:+ String quote r) = Some (s, r).
Proof. intros [Hv Hg]%andb_true_iff. by apply dec_quote_body. Qed.

(** ** Sprintf'd JSON

    The program writes some request bodies with Sprintf: an object whose
    members are [%q] and [%d] verbs.  [obj_body] is that text from the
    members already rendered; [Rendered v s] says that [s] is JSON for [v]. *)

Definition render_member (kv : string * string) : string := Quote kv.1 +:+ ":" +:+ kv.2.
Definition obj_body (l : list (string * string)) : string :=
  "{" +:+ Join (render_member <$> l) "," +:+ "}".

Definition Rendered (v : json) (s : string) : Prop :=
  (jsize v ≤ 2 * len s)%nat ∧
  ∀ fuel r, (jsize v ≤ fuel)%nat → delimited r → parse fuel (s +:+ r) = Some (v, r).

Lemma Unmarshal_rendered v s : Rendered v s → Unmarshal s = Some v.
Proof.
  intros [Hl Hp]. unfold Unmarshal. specialize (Hp (2 * len s + 2)%nat "" ltac:(lia) I).
  rewrite sapp_nil_r in Hp. by rewrite Hp.
Qed.

Lemma Rendered_encode v : wf_json v = true → Rendered v (encode v).
Proof. intros Hw. split; [by apply jsize_encode|]. intros. by apply parse_encode. Qed.

Lemma Rendered_Quote s : quotable s = true → Rendered (JStr s) (Quote s).
Proof.
  intros Hs. split; [cbn; lia|]. intros [|n] r Hf _; [simpl in Hf; lia|].
  cbn [Quote String.append parse]. rewrite skip_ws_char by done.
  change (ord quote =? 34) with true. cbv iota. rewrite sapp_assoc. cbn [String.append].
  by rewrite dec_Quote.
Qed.

Definition member_ok (kv : string * json) (ks : string * string) : Prop :=
  kv.1 = ks.1 ∧ quotable ks.1 = true ∧ Rendered kv.2 ks.2.

Lemma parse_rendered_members l ms : Forall2 member_ok l ms → l ≠ [] →
  ∀ fuel r, (list_sum ((λ kv, S (jsize kv.2)) <$> l) ≤ fuel)%nat →
  parse_members fuel (Join (render_member <$> ms) "," +:+ String "}" r) = Some (l, r).
Proof.
  induction 1 as [|[k v] [k' s] l ms (Hk & Hq & Hl & Hp) HF IH]; intros Hne fuel r Hf; [done|].
  cbn [fst snd] in *. subst k'. destruct fuel as [|n]; [simpl in Hf; lia|].
  rewrite sum_fmap_cons in Hf. cbn [snd] in Hf. rewrite fmap_cons.
  assert (Hstep : ∀ t, ∃ t', render_member (k, s) +:+ t = String quote t' ∧
    dec_str 0 t' = Some (k, String ":" (s +:+ t))).
  { intros t. unfold render_member. eexists. split; [reflexivity|]. cbn [fst snd]. rewrite ?sapp_assoc. cbn [String.append].
    by apply dec_Quote. }
  destruct HF as [|kv ks l ms]; cbn [parse_members].
  - rewrite fmap_nil, Join_one. destruct (Hstep (String "}" r)) as (t' & -> & E).
    rewrite skip_ws_char by done. change (ord quote =? 34) with true. cbv iota. rewrite E.
    cbn [mbind option_bind]. rewrite skip_ws_char by done. cbv iota.
    rewrite Hp by (try done; lia). done.
  - rewrite fmap_cons, Join_cons, <-fmap_cons, sapp_assoc.
    match goal with |- context [skip_ws (_ +:+ ?X)] => set (t := X) end.
    destruct (Hstep t) as (t' & -> & E).
    rewrite skip_ws_char by done. change (ord quote =? 34) with true. cbv iota. rewrite E.
    cbn [mbind option_bind]. rewrite skip_ws_char by done. cbv iota. unfold t.
    rewrite sapp_assoc. cbn [String.append].
    rewrite Hp by (try done; lia). cbn [mbind option_bind].
    rewrite skip_ws_char by done. cbv iota. rewrite IH by (done || lia). done.
Qed.

Lemma rendered_size l ms : Forall2 member_ok l ms →
  (list_sum ((λ kv, S (jsize kv.2)) <$> l)
   ≤ 2 * len (Join (render_member <$> ms) ","))%nat.
Proof.
  induction 1 as [|[k v] [k' s] l ms (Hk & Hq & Hl & Hp) HF IH]; [done|].
  rewrite sum_fmap_cons, fmap_cons. cbn [fst snd] in *.
  destruct ms as [|m ms].
  - inversion HF; subst. rewrite !fmap_nil, Join_one. unfold render_member. rewrite !sapp_length. cbn [fst snd]. cbn [list_sum fold_right String.length]. lia.
  - rewrite fmap_cons, Join_cons, <-fmap_cons, !sapp_length. unfold render_member at 1. rewrite !sapp_length. cbn [fst snd String.length]. lia.
Qed.

Lemma Rendered_obj l ms : Forall2 member_ok l ms → l ≠ [] → Rendered (JObj l) (obj_body ms).
Proof.
  intros HF Hne. pose proof (rendered_size _ _ HF) as Hs. unfold obj_body. split.
  { cbn [jsize]. rewrite !sapp_length. cbn [String.length]. lia. }
  intros [|n] r Hf Hr; [simpl in Hf; lia|]. cbn [jsize] in Hf.
  rewrite !sapp_assoc. cbn [parse String.append]. rewrite skip_ws_char by done.
  change (ord "{" =? 34) with false. change (ord "{" =? 91) with false.
  change (ord "{" =? 123) with true. cbv iota.
  pose proof (parse_rendered_members _ _ HF Hne n r ltac:(lia)) as E.
  destruct HF as [|kv [k s] l ms ? HF]; [done|]. rewrite fmap_cons in *.
  assert (∃ t, Join (render_member (k, s) :: (render_member <$> ms)) "," +:+ String "}" r
    = String quote t) as [t Et].
  { destruct ms; [rewrite fmap_nil, Join_one|rewrite fmap_cons, Join_cons]; by eexists. }
  rewrite Et in *. rewrite E. by rewrite skip_ws_char.
Qed.

Example quote_esc : Quote (String (chr 27) "[0m") = String quote (String backslash "x1b[0m") +:+ String quote "".
Proof. reflexivity. Qed.

(** ** Text JSON cannot read back

    A byte that Go escapes its own way, or an invalid byte, makes the whole
    body invalid JSON. *)

Definition Broken (s : string) : Prop :=
  ∀ fuel r, (2 * len s ≤ fuel)%nat → parse fuel (s +:+ r) = None.

Lemma dec_hex_escape c s : dec_str 0 (hex_escape c +:+ s) = None.
Proof. reflexivity. Qed.

Lemma dec_go_only c s : ord c < 128 → go_only c = true → dec_str 0 (quote_ascii c +:+ s) = None.
Proof.
  intros Hc Hg. destruct c as [[] [] [] [] [] [] [] []];
    first [reflexivity | exfalso; revert Hc Hg; vm_compute; intros; discriminate].
Qed.

Lemma utf8_tail_le c s n : utf8_tail c s = Some n → (n ≤ len s)%nat.
Proof.
  unfold utf8_tail. destruct (between 0 127 c); [intros [= <-]; lia|].
  destruct (between 194 223 c).
  { destruct s as [|a s]; [done|]. destruct (is_cont a); [|done]. intros [= <-]. cbn. lia. }
  destruct (between 224 239 c).
  { destruct s as [|a [|b s]]; try done. destruct (_ && _); [|done]. intros [= <-]. cbn. lia. }
  destruct (between 240 244 c); [|done].
  destruct s as [|a [|b [|d s]]]; try done. destruct (_ && _ && _); [|done]. intros [= <-]. cbn. lia.
Qed.

Lemma go_only_high c : 128 <= ord c → go_only c = false.
Proof.
  intros. unfold go_only. destruct (Z.ltb_spec (ord c) 32); [lia|]. destruct (Z.eqb_spec (ord c) 127); [lia|done].
Qed.

Lemma utf8_tail_conts c s n : utf8_tail c s = Some n →
  sforallb (λ c, negb (go_only c)) (stake n s) = true.
Proof.
  unfold utf8_tail.
  assert (Hc : ∀ lo hi a, 128 <= lo → between lo hi a = true → negb (go_only a) = true).
  { intros lo hi a Hlo Ha. rewrite go_only_high; [done|]. unfold between in Ha. bool_to_prop. lia. }
  assert (Hc' : ∀ (b : bool) lo hi a, 128 <= lo → between (if b then lo else 128) hi a = true →
    negb (go_only a) = true).
  { intros b lo hi a Hlo. apply Hc. by destruct b. }
  destruct (between 0 127 c); [by intros [= <-]|].
  destruct (between 194 223 c).
  { destruct s as [|a s]; [done|]. destruct (is_cont a) eqn:Ea; [|done]. intros [= <-].
    cbn [stake sforallb]. by rewrite (Hc _ _ a ltac:(done) Ea). }
  destruct (between 224 239 c).
  { destruct s as [|a [|b s]]; try done. destruct (_ && _) eqn:Eab in |- *; [|done]. intros [= <-].
    apply andb_true_iff in Eab as [Ea Eb]. cbn [stake sforallb].
    apply Hc' in Ea; [|done]. apply Hc in Eb; [|done]. by rewrite Ea, Eb. }
  destruct (between 240 244 c); [|done].
  destruct s as [|a [|b [|d s]]]; try done. destruct (_ && _ && _) eqn:Eab in |- *; [|done].
  intros [= <-]. rewrite !andb_true_iff in Eab. destruct Eab as [[Ea Eb] Ed]. cbn [stake sforallb].
  apply Hc' in Ea; [|done]. apply Hc in Eb, Ed; try done. by rewrite Ea, Eb, Ed.
Qed.

Lemma dec_quote_bad s : ∀ k r, (k ≤ len s)%nat →
  valid_go k s && sforallb (λ c, negb (go_only c)) s = false →
  (k = 0%nat ∨ sforallb (λ c, negb (go_only c)) (stake k s) = true) →
  dec_str k (quote_body k s +:+ String quote r) = None.
Proof.
  induction s as [|c s IH]; intros k r Hk Hb Hpre.
  { destruct k; [done|simpl in Hk; lia]. }
  destruct k as [|k].
  - cbn [valid_go sforallb quote_body] in *. destruct (utf8_tail c s) as [n|] eqn:E.
    2:{ by rewrite sapp_assoc, dec_hex_escape. }
    pose proof (utf8_tail_le _ _ _ E) as Hn.
    destruct (utf8_tail_lead _ _ _ E) as [[-> Hlt]|[Hn0 Hge]].
    + rewrite sapp_assoc. destruct (go_only c) eqn:Eg; [by apply dec_go_only|].
      rewrite dec_quote_ascii by done. rewrite IH by (try done; auto; lia). done.
    + rewrite go_only_high in Hb by done. destruct n as [|n]; [lia|].
      cbn [String.append dec_str].
      destruct (Z.eqb_spec (ord c) 34); [lia|]. destruct (Z.eqb_spec (ord c) 92); [lia|].
      destruct (Z.ltb_spec (ord c) 32); [lia|]. rewrite utf8_tail_quote by done.
      rewrite IH; [done|lia|done|]. right. clear IH Hb Hpre Hk Hn0.
      by eapply utf8_tail_conts.
  - destruct Hpre as [|Hpre]; [done|]. cbn [stake sforallb valid_go quote_body String.append dec_str String.length] in *.
    apply andb_true_iff in Hpre as [Hc Hpre]. rewrite Hc in Hb. cbn [andb] in Hb.
    rewrite IH; [done|lia|done|auto].
Qed.

Lemma Broken_Quote s : quotable s = false → Broken (Quote s).
Proof.
  intros Hs [|n] r Hf; [cbn in Hf; lia|].
  cbn [Quote String.append parse]. rewrite skip_ws_char by done.
  change (ord quote =? 34) with true. cbv iota. rewrite sapp_assoc. cbn [String.append].
  rewrite dec_quote_bad; [done|lia|done|auto].
Qed.

Lemma Unmarshal_broken s : Broken s → Unmarshal s = None.
Proof.
  intros Hs. unfold Unmarshal. specialize (Hs (2 * len s + 2)%nat "" ltac:(lia)).
  rewrite sapp_nil_r in Hs. by rewrite Hs.
Qed.

(** The first member that is broken breaks the object. *)
Lemma broken_members l ms k s rest : Forall2 member_ok l ms → quotable k = true → Broken s →
  ∀ fuel r, (2 * len (Join (render_member <$> ms ++ (k, s) :: rest) ",") ≤ fuel)%nat →
  parse_members fuel (Join (render_member <$> ms ++ (k, s) :: rest) "," +:+ r) = None.
Proof.
  intros HF Hk Hs. induction HF as [|[k1 v1] [k2 s2] l ms (E1 & Hq & Hl & Hp) HF IH]; intros fuel r Hf.
  - cbn [app] in *. rewrite fmap_cons in *.
    assert (∃ t, Join (render_member (k, s) :: (render_member <$> rest)) "," =
      render_member (k, s) +:+ t) as [t E].
    { destruct rest as [|m rest]; [exists ""; by rewrite sapp_nil_r|]. rewrite fmap_cons, Join_cons. by eexists. }
    rewrite E in *. clear E. unfold render_member in *. cbn [fst snd] in *.
    rewrite !sapp_length in Hf. destruct fuel as [|n]; [cbn in Hf; lia|].
    rewrite !sapp_assoc. cbn [parse_members Quote String.append]. rewrite skip_ws_char by done.
    change (ord quote =? 34) with true. cbv iota. rewrite sapp_assoc. cbn [String.append].
    rewrite dec_Quote by done. cbn [mbind option_bind]. rewrite skip_ws_char by done. cbv iota.
    rewrite Hs; [done|]. cbn in Hf. lia.
  - cbn [fst snd] in *. subst k2. cbn [app] in *. rewrite fmap_cons in *.
    assert (E : Join (render_member (k1, s2) :: (render_member <$> ms ++ (k, s) :: rest)) "," =
      render_member (k1, s2) +:+ "," +:+ Join (render_member <$> ms ++ (k, s) :: rest) ",").
    { destruct ms; cbn [app]; by rewrite fmap_cons, Join_cons. }
    rewrite E in *. clear E. set (t := Join _ _) in *.
    rewrite !sapp_length in Hf. unfold render_member in *. cbn [fst snd] in *. rewrite !sapp_length in Hf.
    destruct fuel as [|n]; [cbn in Hf; lia|]. rewrite !sapp_assoc. cbn [parse_members Quote String.append].
    rewrite skip_ws_char by done.
    change (ord quote =? 34) with true. cbv iota. rewrite sapp_assoc. cbn [String.append].
    rewrite dec_Quote by done. cbn [mbind option_bind]. rewrite skip_ws_char by done. cbv iota.
    cbn [String.length] in Hf.
    rewrite Hp by (try done; lia). cbn [mbind option_bind]. rewrite skip_ws_char by done. cbv iota.
    rewrite IH; [done|lia].
Qed.

Lemma Broken_obj l ms k s rest : Forall2 member_ok l ms → quotable k = true → Broken s →
  Broken (obj_body (ms ++ (k, s) :: rest)).
Proof.
  intros HF Hk Hs [|n] r Hf; [cbn in Hf; lia|]. unfold obj_body in *. rewrite !sapp_length in Hf.
  pose proof (broken_members _ _ _ _ rest HF Hk Hs n ("}" +:+ r)) as E. rewrite !sapp_assoc.
  cbn [parse String.append]. rewrite skip_ws_char by done.
  change (ord "{" =? 34) with false. change (ord "{" =? 91) with false.
  change (ord "{" =? 123) with true. cbv iota.
  assert (∃ t, Join (render_member <$> ms ++ (k, s) :: rest) "," = String quote t) as [t Et].
  { destruct ms as [|m ms]; cbn [app]; rewrite fmap_cons; unfold render_member at 1;
      [destruct rest as [|m' rest]|destruct ms as [|m' ms]]; cbn [app];
      rewrite ?fmap_nil, ?Join_one, ?fmap_cons, ?Join_cons; by eexists. }
  rewrite Et in *. cbn [String.append] in *. rewrite skip_ws_char by done. cbv iota. rewrite E; [done|].
  cbn in *. lia.
Qed.

(** [%v] of a string slice. *)
Definition print_slice (l : list string) : string := "[" +:+ Join l " " +:+ "]".
