(* ===== verification/Unstructured.v ===== *)
(** * Unstructured objects: k8s.io/apimachinery's unstructured.Unstructured

    A Kubernetes object is its JSON value.  The accessors are the ones the
    program calls; each answers the zero value where the path is missing or
    holds a value of another type, as the callers ignore the error. *)

From stdpp Require Import options.
From S2P Require Import Prelude GoString GoJson GoNum.
Local Open Scope Z_scope.

Fixpoint jassoc (k : string) (l : list (string * json)) : option json :=
  match l with
  | [] => None
  | (k', v) :: l => if String.eqb k' k then Some v else jassoc k l
  end.
Definition jmember (k : string) (j : json) : option json :=
  match j with JObj l => jassoc k l | _ => None end.
(** [m["k"]] on a value that may not be a map. *)
Fixpoint jpath (path : list string) (j : json) : option json :=
  match path with
  | [] => Some j
  | k :: path => v ← jmember k j; jpath path v
  end.

Definition as_string (j : option json) : string := match j with Some (JStr s) => s | _ => "" end.
Definition NestedString (j : json) (path : list string) : string := as_string (jpath path j).
Definition NestedBool (j : json) (path : list string) : bool :=
  match jpath path j with Some (JBool b) => b | _ => false end.
(** A JSON integer in the 64-bit range decodes to an int64. *)
Definition NestedInt64 (j : json) (path : list string) : Z :=
  match jpath path j with
  | Some (JNum lit) => default 0 (ParseInt lit)
  | _ => 0
  end.
Definition NestedSlice (j : json) (path : list string) : list json :=
  match jpath path j with Some (JArr l) => l | _ => [] end.
Definition is_string (j : json) : bool := match j with JStr _ => true | _ => false end.
Definition NestedStringSlice (j : json) (path : list string) : list string :=
  match jpath path j with
  | Some (JArr l) => if forallb is_string l then (λ v, as_string (Some v)) <$> l else []
  | _ => []
  end.
(** A map with a value that is not a string counts as no map. *)
Definition NestedStringMap (j : json) (path : list string) : list (string * string) :=
  match jpath path j with
  | Some (JObj l) =>
      if forallb (λ kv, is_string kv.2) l then (λ kv, (kv.1, as_string (Some kv.2))) <$> l else []
  | _ => []
  end.
Fixpoint lookup_str (k : string) (l : list (string * string)) : option string :=
  match l with
  | [] => None
  | (k', v) :: l => if String.eqb k' k then Some v else lookup_str k l
  end.

Definition GetName (j : json) : string := NestedString j ["metadata"; "name"].
Definition GetNamespace (j : json) : string := NestedString j ["metadata"; "namespace"].
Definition GetAnnotations (j : json) : list (string * string) := NestedStringMap j ["metadata"; "annotations"].
Definition GetLabels (j : json) : list (string * string) := NestedStringMap j ["metadata"; "labels"].

Record OwnerReference := mkOwner { o_Kind : string; o_Name : string }.
(** An entry that is not a map makes the whole list none. *)
Definition owner_of (j : json) : option OwnerReference :=
  match j with
  | JObj _ => Some (mkOwner (NestedString j ["kind"]) (NestedString j ["name"]))
  | _ => None
  end.
Definition GetOwnerReferences (j : json) : list OwnerReference :=
  default [] (mapM owner_of (NestedSlice j ["metadata"; "ownerReferences"])).

(** ** JSON merge patches (RFC 7386), as the API server applies them *)

Fixpoint jset (k : string) (v : json) (l : list (string * json)) : list (string * json) :=
  match l with
  | [] => [(k, v)]
  | (k', v') :: l => if String.eqb k' k then (k, v) :: l else (k', v') :: jset k v l
  end.
Definition jremove (k : string) (l : list (string * json)) : list (string * json) :=
  List.filter (λ kv, negb (String.eqb kv.1 k)) l.
Definition jmembers (j : option json) : list (string * json) :=
  match j with Some (JObj l) => l | _ => [] end.
Fixpoint merge_patch (patch : json) (target : option json) : json :=
  match patch with
  | JObj ms =>
      JObj ((fix go (ms : list (string * json)) (acc : list (string * json)) :=
               match ms with
               | [] => acc
               | (k, v) :: ms =>
                   go ms (match v with JNull => jremove k acc | _ => jset k (merge_patch v (jassoc k acc)) acc end)
               end) ms (jmembers target))
  | _ => patch
  end.
(** A merge patch of the status subresource changes nothing else. *)
Definition patch_status (body obj : json) : json :=
  match obj, jmember "status" body with
  | JObj l, Some v => JObj (jset "status" (merge_patch v (jassoc "status" l)) l)
  | _, _ => obj
  end.

Lemma jassoc_jset k v l : jassoc k (jset k v l) = Some v.
Proof.
  induction l as [|[k' v'] l IH]; cbn; [by rewrite String.eqb_refl|].
  destruct (String.eqb k' k) eqn:E; cbn; [by rewrite String.eqb_refl|]. by rewrite E.
Qed.
Lemma jassoc_jset_ne k k' v l : k ≠ k' → jassoc k (jset k' v l) = jassoc k l.
Proof.
  intros Hk. induction l as [|[k1 v1] l IH]; cbn.
  - by rewrite (proj2 (String.eqb_neq k' k)).
  - destruct (String.eqb k1 k') eqn:E; cbn; [|by rewrite IH].
    apply String.eqb_eq in E as ->. by rewrite (proj2 (String.eqb_neq k' k)).
Qed.
Lemma patch_status_path body obj p : hd "" p ≠ "status" → p ≠ [] → jpath p (patch_status body obj) = jpath p obj.
Proof.
  intros Hh Hp. destruct p as [|k p]; [done|]. cbn in Hh. unfold patch_status.
  destruct obj as [| | | | |l|]; try done. destruct (jmember "status" body); [|done].
  cbn [jpath jmember mbind option_bind]. by rewrite jassoc_jset_ne.
Qed.
Lemma patch_status_name body obj : GetName (patch_status body obj) = GetName obj.
Proof. unfold GetName, NestedString. by rewrite patch_status_path. Qed.
