(* ===== verification/Protected.v ===== *)
(** * Protected namespaces: pkg/ai/protected.go and the floors

    The no-touch boundary is the compiled-in floor plus the namespaces the
    operator appends.  The package variables [extraProtected], [extraList]
    and [extraLoaded] are the record [ExtraState]; each function of the file
    takes the state and the value of the environment variable and returns
    the new state, as the code does under [extraMu]. *)

From stdpp Require Import options.
From S2P Require Import Prelude GoString.

(** The package state behind [extraMu]. *)
Record ExtraState := mkExtraState {
  extraProtected : gset string;
  extraList : list string;
  extraLoaded : bool;
}.
(** The zero values of the package variables. *)
Definition extraInit : ExtraState := mkExtraState ∅ [] false.

(** The floor of pkg/ai/validate.go. *)
Definition ProtectedNamespaces : gset string :=
  {[ "kube-system"; "kube-public"; "kube-node-lease"; "rook-ceph"; "vault";
     "external-secrets"; "cnpg-system"; "calico-system"; "tigera-operator";
     "agentic-sre" ]}.

(** The body of the loop, [seen] being the map of the code. *)
Fixpoint parse_extra (seen : gset string) (parts : list string) : list string :=
  match parts with
  | [] => []
  | part :: parts =>
      let ns := TrimSpace part in
      if ns =s? "" then parse_extra seen parts
      else if decide (ns ∈ seen) then parse_extra seen parts
      else ns :: parse_extra ({[ns]} ∪ seen) parts
  end.
Definition ParseProtectedNamespacesExtra (raw : string) : list string :=
  parse_extra ∅ (Split raw ",").

Definition buildExtraSet (raw : string) : list string * gset string :=
  let list := ParseProtectedNamespacesExtra raw in (list, list_to_set list).

Definition SetExtraProtectedNamespaces (namespaces : list string) (st : ExtraState) : ExtraState :=
  let '(list, set) := buildExtraSet (Join namespaces ",") in
  mkExtraState set list true.

(** [env] is the value of SRENIX_PROTECTED_NAMESPACES_EXTRA. *)
Definition LoadExtraProtectedNamespacesFromEnv (env : string) (st : ExtraState) : ExtraState :=
  SetExtraProtectedNamespaces [env] st.

Definition loadExtraFromEnvIfUnloaded (env : string) (st : ExtraState) : gset string * ExtraState :=
  let st' :=
    if extraLoaded st then st
    else let '(list, set) := buildExtraSet env in mkExtraState set list true in
  (extraProtected st', st').

Definition extraProtectedSet (env : string) (st : ExtraState) : gset string * ExtraState :=
  if extraLoaded st then (extraProtected st, st)
  else loadExtraFromEnvIfUnloaded env st.

Definition IsExtraProtectedNamespace (env : string) (ns : string) (st : ExtraState)
    : bool * ExtraState :=
  if ns =s? "" then (false, st)
  else let '(set, st) := extraProtectedSet env st in (bool_decide (ns ∈ set), st).

Definition ExtraProtectedNamespaces (env : string) (st : ExtraState) : list string * ExtraState :=
  let '(_, st) := extraProtectedSet env st in (extraList st, st).

(** The guard of pkg/ai/validate.go. *)
Definition IsProtectedNamespace (env : string) (ns : string) (st : ExtraState) : bool * ExtraState :=
  if ns =s? "" then (false, st)
  else if bool_decide (ns ∈ ProtectedNamespaces) then (true, st)
  else IsExtraProtectedNamespace env ns st.

(** The floor and the guard of internal/fix/protected.go. *)
Definition fix_protectedNamespaces : gset string :=
  {[ "kube-system"; "kube-public"; "kube-node-lease"; "rook-ceph"; "vault";
     "external-secrets"; "cnpg-system" ]}.
Definition fix_IsProtectedNamespace (env : string) (ns : string) (st : ExtraState)
    : bool * ExtraState :=
  if ns =s? "" then (false, st)
  else if bool_decide (ns ∈ fix_protectedNamespaces) then (true, st)
  else IsExtraProtectedNamespace env ns st.

(** ** Parsing *)

Lemma elem_of_parse_extra ns seen parts :
  ns ∈ parse_extra seen parts ↔ ns ≠ "" ∧ ns ∉ seen ∧ ∃ p, p ∈ parts ∧ TrimSpace p = ns.
Proof.
  revert seen. induction parts as [|p parts IH]; intros seen; simpl; [set_solver|].
  case_bool_decide as Hp; [|case_decide as Hs].
  - rewrite IH. set_solver.
  - rewrite IH. set_solver.
  - rewrite elem_of_cons, IH. set_unfold. destruct (decide (ns = TrimSpace p)); naive_solver.
Qed.

Lemma NoDup_parse_extra seen parts : NoDup (parse_extra seen parts).
Proof.
  revert seen. induction parts as [|p parts IH]; intros seen; simpl; [constructor|].
  case_bool_decide; [done|]. case_decide; [done|]. constructor; [|done].
  rewrite elem_of_parse_extra. set_solver.
Qed.

Lemma parse_extra_sublist seen parts : parse_extra seen parts `sublist_of` (TrimSpace <$> parts).
Proof.
  revert seen. induction parts as [|p parts IH]; intros seen; simpl; [constructor|].
  case_bool_decide; [by constructor|]. case_decide; by constructor.
Qed.

(** A list that is parsed already is parsed as it is. *)
Lemma parse_extra_parsed seen l : NoDup l → Forall (λ x, x ≠ "" ∧ TrimSpace x = x ∧ x ∉ seen) l → parse_extra seen l = l.
Proof.
  revert seen. induction l as [|x l IH]; intros seen Hnd Hf; [done|]. apply NoDup_cons in Hnd as [Hx Hnd].
  apply Forall_cons in Hf as [(Hne & Ht & Hs) Hf]. cbn [parse_extra]. rewrite Ht, bool_decide_eq_false_2, decide_False by done.
  f_equal. apply IH; [done|]. rewrite list.Forall_forall in Hf |- *. intros y Hy. destruct (Hf y Hy) as (? & ? & ?).
  split_and!; [done..|]. intros [->%elem_of_singleton|?]%elem_of_union; done.
Qed.
Lemma ParseExtra_Join raw : ParseProtectedNamespacesExtra (Join (ParseProtectedNamespacesExtra raw) ",") =
  ParseProtectedNamespacesExtra raw.
Proof.
  set (l := ParseProtectedNamespacesExtra raw). destruct (decide (l = [])) as [->|Hl]; [by vm_compute|].
  assert (Hel : ∀ x, x ∈ l → x ≠ "" ∧ TrimSpace x = x ∧ sforallb (λ d, bool_decide (d ≠ ","%char)) x = true).
  { intros x (Hne & _ & p & Hp & <-)%elem_of_parse_extra. split_and!; [done|apply TrimSpace_idem|].
    by eapply sforallb_TrimSpace, Split_parts. }
  unfold ParseProtectedNamespacesExtra at 1. rewrite Split_Join; [|done|].
  - apply parse_extra_parsed; [apply NoDup_parse_extra|]. apply list.Forall_forall. intros x Hx.
    destruct (Hel x Hx) as (? & ? & _). split_and!; [done..|apply not_elem_of_empty].
  - apply list.Forall_forall. intros x Hx. by apply Hel.
Qed.

(** [ParseProtectedNamespacesExtra] lists exactly the non-empty trimmed
    entries of the comma-separated value, each once, in their order. *)
Theorem parse_extra_correct raw :
  (∀ ns, ns ∈ ParseProtectedNamespacesExtra raw ↔
    ns ≠ "" ∧ ∃ p, p ∈ Split raw "," ∧ TrimSpace p = ns) ∧
  NoDup (ParseProtectedNamespacesExtra raw) ∧
  ParseProtectedNamespacesExtra raw `sublist_of` (TrimSpace <$> Split raw ",").
Proof.
  unfold ParseProtectedNamespacesExtra. split; [|split].
  - intros ns. rewrite elem_of_parse_extra. set_solver.
  - apply NoDup_parse_extra.
  - apply parse_extra_sublist.
Qed.

(** ** The boundary *)

(** The extras a lookup in [st] consults. *)
Definition extras (env : string) (st : ExtraState) : gset string := (extraProtectedSet env st).1.
(** What a lookup answers. *)
Definition protects (env : string) (st : ExtraState) (ns : string) : bool :=
  (IsProtectedNamespace env ns st).1.
Definition fix_protects (env : string) (st : ExtraState) (ns : string) : bool :=
  (fix_IsProtectedNamespace env ns st).1.

Lemma IsExtra_spec env ns st :
  (IsExtraProtectedNamespace env ns st).1 = true ↔ ns ≠ "" ∧ ns ∈ extras env st.
Proof.
  unfold IsExtraProtectedNamespace, extras. case_bool_decide; [by split; [|intros []]|].
  destruct (extraProtectedSet env st) as [set st']. simpl. rewrite bool_decide_eq_true. tauto.
Qed.

Lemma protects_spec env st ns :
  protects env st ns = true ↔ ns ≠ "" ∧ (ns ∈ ProtectedNamespaces ∨ ns ∈ extras env st).
Proof.
  unfold protects, IsProtectedNamespace. case_bool_decide as He; [by split; [|intros []]|].
  case_bool_decide as Hf; [by split; [split; [|left]|]|]. rewrite IsExtra_spec.
  split; [intros [? ?]; auto|intros [? [?|?]]; done || auto].
Qed.
Lemma fix_protects_spec env st ns :
  fix_protects env st ns = true ↔ ns ≠ "" ∧ (ns ∈ fix_protectedNamespaces ∨ ns ∈ extras env st).
Proof.
  unfold fix_protects, fix_IsProtectedNamespace. case_bool_decide as He; [by split; [|intros []]|].
  case_bool_decide as Hf; [by split; [split; [|left]|]|]. rewrite IsExtra_spec.
  split; [intros [? ?]; auto|intros [? [?|?]]; done || auto].
Qed.

(** The calls the process makes on the package state. *)
Inductive extra_op :=
  | OpSet (namespaces : list string)
  | OpLoadEnv
  | OpQuery (ns : string)
  | OpFixQuery (ns : string)
  | OpList.
Definition extra_step (env : string) (st : ExtraState) (op : extra_op) : ExtraState :=
  match op with
  | OpSet l => SetExtraProtectedNamespaces l st
  | OpLoadEnv => LoadExtraProtectedNamespacesFromEnv env st
  | OpQuery ns => (IsProtectedNamespace env ns st).2
  | OpFixQuery ns => (fix_IsProtectedNamespace env ns st).2
  | OpList => (ExtraProtectedNamespaces env st).2
  end.

(** The contract: the boundary is a function of the last explicit
    configuration, the environment standing in when there is none. *)
Definition spec_step (env : string) (cfg : option string) (op : extra_op) : option string :=
  match op with
  | OpSet l => Some (Join l ",")
  | OpLoadEnv => Some env
  | _ => cfg
  end.
Definition spec_extras (env : string) (cfg : option string) : gset string :=
  list_to_set (ParseProtectedNamespacesExtra (default env cfg)).

(** The concrete state [st] behaves as [cfg]. *)
Definition extra_rel (env : string) (st : ExtraState) (cfg : option string) : Prop :=
  extras env st = spec_extras env cfg ∧ (extraLoaded st = false → cfg = None).

Lemma extraProtectedSet_idem env st : extras env (extraProtectedSet env st).2 = extras env st.
Proof. unfold extras, extraProtectedSet, loadExtraFromEnvIfUnloaded. destruct st as [? ? []]; done. Qed.
Lemma extraProtectedSet_loaded env st : extraLoaded (extraProtectedSet env st).2 = true.
Proof. unfold extraProtectedSet, loadExtraFromEnvIfUnloaded. destruct st as [? ? []]; done. Qed.

Lemma rel_lookup env st cfg : extra_rel env st cfg → extra_rel env (extraProtectedSet env st).2 cfg.
Proof.
  intros [H1 H2]. split; [by rewrite extraProtectedSet_idem|]. by rewrite extraProtectedSet_loaded.
Qed.
Lemma IsExtra_state env ns st :
  (IsExtraProtectedNamespace env ns st).2 = st ∨
  (IsExtraProtectedNamespace env ns st).2 = (extraProtectedSet env st).2.
Proof.
  unfold IsExtraProtectedNamespace. case_bool_decide; [by left|right].
  by destruct (extraProtectedSet env st).
Qed.

Lemma extra_step_refines env st cfg op :
  extra_rel env st cfg → extra_rel env (extra_step env st op) (spec_step env cfg op).
Proof.
  intros Hr. pose proof (rel_lookup _ _ _ Hr) as Hl.
  destruct op as [l| |ns|ns|]; cbn [extra_step spec_step].
  - by split.
  - unfold LoadExtraProtectedNamespacesFromEnv. split; [|done].
    unfold SetExtraProtectedNamespaces. by rewrite Join_one.
  - unfold IsProtectedNamespace. case_bool_decide; [done|]. case_bool_decide; [done|].
    by destruct (IsExtra_state env ns st) as [->| ->].
  - unfold fix_IsProtectedNamespace. case_bool_decide; [done|]. case_bool_decide; [done|].
    by destruct (IsExtra_state env ns st) as [->| ->].
  - unfold ExtraProtectedNamespaces. by destruct (extraProtectedSet env st).
Qed.

Lemma extra_run_refines env ops st cfg :
  extra_rel env st cfg →
  extra_rel env (foldl (extra_step env) st ops) (foldl (spec_step env) cfg ops).
Proof.
  revert st cfg. induction ops as [|op ops IH]; intros st cfg Hr; [done|].
  apply IH. by apply extra_step_refines.
Qed.

(** C35: after any sequence of configuration calls and lookups, from the
    process's initial state, both guards answer as the contract says: their
    floor, plus the extras of the last explicit configuration, or of the
    environment when there was none; so no call can remove a floor entry,
    and no lookup ever changes the boundary. *)
Theorem boundary_refines env ops ns :
  let st := foldl (extra_step env) extraInit ops in
  let cfg := foldl (spec_step env) None ops in
  (protects env st ns = true ↔
    ns ≠ "" ∧ (ns ∈ ProtectedNamespaces ∨ ns ∈ spec_extras env cfg)) ∧
  (fix_protects env st ns = true ↔
    ns ≠ "" ∧ (ns ∈ fix_protectedNamespaces ∨ ns ∈ spec_extras env cfg)).
Proof.
  intros st cfg. destruct (extra_run_refines env ops extraInit None) as [E _]; [by split|].
  fold st cfg in E. by rewrite protects_spec, fix_protects_spec, E.
Qed.

(** The propositional core of the comparison. *)
Lemma guards_logic (E P F T X : Prop) `{!Decision F, !Decision X, !Decision E} (a f : bool) :
  (P ↔ F ∨ T) → (T → ¬ F ∧ ¬ E) → (a = true ↔ ¬ E ∧ (P ∨ X)) → (f = true ↔ ¬ E ∧ (F ∨ X)) →
  a ≠ f ↔ T ∧ ¬ X.
Proof.
  intros HP HT Ha Hf. destruct (decide E), (decide F), (decide X); destruct a, f;
  try (assert (true = true) by done; tauto);
  (split; [intros Hne; try done; try tauto|intros [? ?]; try done; try tauto]);
  try (assert (false = true) by tauto; done).
Qed.
Lemma guard_false (E P X : Prop) `{!Decision E, !Decision P, !Decision X} (b : bool) :
  (b = true ↔ ¬ E ∧ (P ∨ X)) → b = false ↔ E ∨ ¬ P ∧ ¬ X.
Proof.
  intros Hb. destruct b; split; try done.
  - intros H. assert (true = true) as Ht%Hb by done. tauto.
  - intros _. destruct (decide E), (decide P), (decide X); try tauto; assert (false = true) by tauto; done.
Qed.

(** The two act-side guards agree on every namespace but the three that
    only the AI floor holds, where the fixers' guard lets the action through
    unless the operator listed the namespace. *)
Theorem guards_differ env st ns :
  protects env st ns ≠ fix_protects env st ns ↔
  ns ∈ ({[ "calico-system"; "tigera-operator"; "agentic-sre" ]} : gset string) ∧
  ns ∉ extras env st.
Proof.
  assert (Hfloor : ns ∈ ProtectedNamespaces ↔ ns ∈ fix_protectedNamespaces ∨
    ns ∈ ({[ "calico-system"; "tigera-operator"; "agentic-sre" ]} : gset string)).
  { unfold ProtectedNamespaces, fix_protectedNamespaces. set_unfold. tauto. }
  assert (Hdisj : ns ∈ ({[ "calico-system"; "tigera-operator"; "agentic-sre" ]} : gset string) →
    ns ∉ fix_protectedNamespaces ∧ ns ≠ "").
  { unfold fix_protectedNamespaces. set_unfold. intros [[->| ->]| ->]; naive_solver. }
  exact (guards_logic _ _ _ _ _ _ _ Hfloor Hdisj (protects_spec env st ns) (fix_protects_spec env st ns)).
Qed.
