(* ===== verification/Ai.v ===== *)
(** * Proposals and their validation: pkg/ai

    The data model of types.go, the validators of validate.go and
    validate_manifest.go.  The YAML parser and the accessors of the
    Kubernetes unstructured object, and [url.Parse], are the operations of
    the classes [YamlApi] and [UrlApi]: what the validators read through
    them.  An error is its sentinel, wrapped with the arguments of the
    [fmt.Errorf] that wraps it. *)

From stdpp Require Import options.
From S2P Require Import Prelude GoString GoTime Protected.

(** ** types.go *)

Definition Tier := string.
Definition TierOff : Tier := "off".
Definition TierT0 : Tier := "t0".
Definition TierT1 : Tier := "t1".
Definition TierT2 : Tier := "t2".
Definition TierT3 : Tier := "t3".

Definition Tier_IsValid (t : Tier) : bool :=
  bool_decide (t ∈ [TierOff; TierT0; TierT1; TierT2; TierT3]).
Definition Tier_AllowsProposals (t : Tier) : bool :=
  (t =s? TierT1) || (t =s? TierT2) || (t =s? TierT3).

Definition ActionKind := string.
Definition ActionDeletePod : ActionKind := "DeletePod".
Definition ActionDeleteJob : ActionKind := "DeleteJob".
Definition ActionPatchDeployment : ActionKind := "PatchDeployment".
Definition ActionDeleteCertRequest : ActionKind := "DeleteCertRequest".
Definition ActionDeleteACMEOrder : ActionKind := "DeleteACMEOrder".
Definition ActionPatchProbe : ActionKind := "PatchProbe".
Definition ActionApplyManifest : ActionKind := "ApplyManifest".
Definition ActionProposePullRequest : ActionKind := "ProposePullRequest".

Definition ActionKind_IsValid (ak : ActionKind) : bool :=
  bool_decide (ak ∈ [ActionDeletePod; ActionDeleteJob; ActionPatchDeployment;
    ActionDeleteCertRequest; ActionDeleteACMEOrder; ActionApplyManifest;
    ActionProposePullRequest; ActionPatchProbe]).

Record ObjectRef := mkObjectRef {
  or_Kind : string;
  or_Namespace : string;
  or_Name : string;
}.
#[export] Instance ObjectRef_eq_dec : EqDecision ObjectRef.
Proof. solve_decision. Defined.
Definition ObjectRef_String (o : ObjectRef) : string :=
  or_Kind o +:+ "/" +:+ or_Namespace o +:+ "/" +:+ or_Name o.

Record RollbackInfo := mkRollbackInfo {
  rb_Description : string;
  rb_ActionKind : ActionKind;
  rb_Target : ObjectRef;
  rb_SnapshotRef : string;
}.

Record AIProposedAction := mkAIProposedAction {
  ActionID : string;
  PlanID : string;
  StepN : Z;
  PrerequisiteActionID : string;
  a_Tier : Tier;
  a_ActionKind : ActionKind;
  a_Target : ObjectRef;
  PatchPayload : string;
  ManifestYAML : string;
  PullRequestURL : string;
  a_Rationale : string;
  Rollback : RollbackInfo;
  DiagnosticSubject : string;
  a_CreatedAt : Time;
  a_ExpiresAt : Time;
}.

Record EnrichedDiagnostic := mkEnrichedDiagnostic {
  Enrichment : string;
  RelatedSignals : list string;
}.
Definition MaxEnrichmentChars : nat := 500.
Definition MaxRelatedSignals : nat := 5.

Record ApprovedAction := mkApprovedAction {
  Proposal : AIProposedAction;
  Approver : string;
  ApprovedAt : Time;
  SourceIP : string;
}.
Record DualApproval := mkDualApproval { d_First : ApprovedAction; d_Second : ApprovedAction }.
Definition MinT3Delay : Duration := (30 * Minute)%Z.

Record VaultRunbook := mkVaultRunbook {
  RunbookID : string;
  VaultPath : string;
  KeyNames : list string;
  CommandTemplate : string;
  ManualSteps : list string;
  r_Rationale : string;
  r_CreatedAt : Time;
  r_ExpiresAt : Time;
}.

(** The sentinels of types.go and validate_manifest.go. *)
Inductive sentinel :=
  | ErrInvalidActionKind | ErrMissingRollback | ErrEmptyTarget | ErrProtectedNamespace
  | ErrSecretValueInOutput | ErrInvalidVaultPath | ErrInvalidTier | ErrTokenExpired
  | ErrTokenReplay | ErrTokenInvalid | ErrSameApprover | ErrT3DelayNotElapsed
  | ErrEnrichmentTooLong | ErrPullRequestURLEmpty | ErrPullRequestURLInvalid
  | ErrManifestEmpty | ErrManifestParseFailed | ErrManifestKindNotAllowed
  | ErrManifestMissingMetadata | ErrManifestProtectedNS | ErrManifestDangerousShape
  | ErrManifestMissingAPIVersion.
#[export] Instance sentinel_eq_dec : EqDecision sentinel.
Proof. solve_decision. Defined.

(** An error value: what [errors.Is] finds, and the arguments of the wrapper. *)
Record error := mkError { err_is : sentinel; err_args : list string }.
Definition sen (e : sentinel) : error := mkError e [].

(** A chain of early returns: [None] is Go's nil error. *)
Definition orelse (e : option error) (k : option error) : option error :=
  match e with Some _ => e | None => k end.
Notation "'if!' b 'return' e 'else' k" := (if (b : bool) then Some e else k)
  (at level 200, b at level 100, e at level 100, k at level 200) : srenix_scope.

(** ** The libraries the validators read through *)

Class UrlApi := {
  URL : Type;
  url_Parse : string → option URL;
  u_Scheme : URL → string;
  u_Host : URL → string;
}.

(** [yaml_Unmarshal] into a map: [None] an error, [Some None] the nil map.
    [node] is a value inside the object. *)
Class YamlApi := {
  object : Type;
  node : Type;
  yaml_Unmarshal : string → option (option object);
  GetAPIVersion : object → string;
  GetKind : object → string;
  GetName : object → string;
  GetNamespace : object → string;
  NestedStringSlice : object → list string → list string;
  NestedSlice : object → list string → list node * bool;
  asMap : node → option object;
  NestedString : object → list string → string * bool;
}.

(** ** validate_manifest.go *)

Definition AllowedManifestKinds : gset string := {[ "NetworkPolicy" ]}.

Definition isSafeIPBlockCIDR (cidr : string) : bool := TrimSpace cidr =s? "0.0.0.0/0".

Section manifest.
Context `{YamlApi}.

(** The inner loop over [from]. *)
Fixpoint scan_from (from : list node) : option error :=
  match from with
  | [] => None
  | f :: from =>
      match asMap f with
      | None => scan_from from
      | Some fMap =>
          let '(cidr, found) := NestedString fMap ["ipBlock"; "cidr"] in
          if negb found then scan_from from
          else if negb (isSafeIPBlockCIDR cidr) then Some (mkError ErrManifestDangerousShape [cidr])
          else scan_from from
      end
  end.
(** The outer loop over [ingress]. *)
Fixpoint scan_ingress (ingress : list node) : option error :=
  match ingress with
  | [] => None
  | ir :: ingress =>
      match asMap ir with
      | None => scan_ingress ingress
      | Some irMap => orelse (scan_from (NestedSlice irMap ["from"]).1) (scan_ingress ingress)
      end
  end.

Definition validateNetworkPolicyShape (u : object) : option error :=
  if! GetAPIVersion u ≠s? "networking.k8s.io/v1"
  return mkError ErrManifestDangerousShape [GetAPIVersion u] else
  if! existsb (λ pt, pt =s? "Egress") (NestedStringSlice u ["spec"; "policyTypes"])
  return sen ErrManifestDangerousShape else
  let '(egress, found) := NestedSlice u ["spec"; "egress"] in
  if! found && (0 <? length egress)%nat return sen ErrManifestDangerousShape else
  scan_ingress (NestedSlice u ["spec"; "ingress"]).1.

Definition ValidateManifest (protected : string → bool) (yamlBytes : string) : option error :=
  if! (len yamlBytes =? 0)%nat return sen ErrManifestEmpty else
  match yaml_Unmarshal yamlBytes with
  | None | Some None => Some (sen ErrManifestParseFailed)
  | Some (Some u) =>
      if! GetAPIVersion u =s? "" return sen ErrManifestMissingAPIVersion else
      if! GetKind u =s? "" return sen ErrManifestKindNotAllowed else
      if! bool_decide (GetKind u ∉ AllowedManifestKinds)
      return mkError ErrManifestKindNotAllowed [GetKind u] else
      if! GetName u =s? "" return sen ErrManifestMissingMetadata else
      let ns := GetNamespace u in
      if! ns =s? "" return sen ErrManifestMissingMetadata else
      if! protected ns return mkError ErrManifestProtectedNS [ns] else
      if GetKind u =s? "NetworkPolicy" then validateNetworkPolicyShape u
      else Some (mkError ErrManifestKindNotAllowed [GetKind u])
  end.
End manifest.

(** ** validate.go *)

Definition validatePullRequestURL `{UrlApi} (s : string) : option error :=
  if! TrimSpace s =s? "" return sen ErrPullRequestURLEmpty else
  match url_Parse s with
  | None => Some (sen ErrPullRequestURLInvalid)
  | Some u =>
      if! u_Scheme u ≠s? "https" return sen ErrPullRequestURLInvalid else
      if! u_Host u =s? "" return sen ErrPullRequestURLInvalid else
      None
  end.

Section validate.
Context `{UrlApi, YamlApi} (env : string) (st : ExtraState).

Definition validateStructural (a : AIProposedAction) : option error :=
  let kind := a_ActionKind a in
  if! negb (ActionKind_IsValid kind) return sen ErrInvalidActionKind else
  if! (or_Kind (a_Target a) =s? "") || (or_Namespace (a_Target a) =s? "") || (or_Name (a_Target a) =s? "")
  return sen ErrEmptyTarget else
  if! protects env st (or_Namespace (a_Target a)) return sen ErrProtectedNamespace else
  if! (0 <? len (PatchPayload a))%nat && (kind ≠s? ActionPatchDeployment) && (kind ≠s? ActionPatchProbe)
  return sen ErrInvalidActionKind else
  if! (kind =s? ActionPatchProbe) &&
      ((len (PatchPayload a) =? 0)%nat ||
       negb (bool_decide (or_Kind (a_Target a) ∈ ["Deployment"; "StatefulSet"; "DaemonSet"])))
  return sen ErrInvalidActionKind else
  if! (0 <? len (ManifestYAML a))%nat && (kind ≠s? ActionApplyManifest)
  return sen ErrInvalidActionKind else
  orelse
    (if kind =s? ActionApplyManifest then ValidateManifest (protects env st) (ManifestYAML a) else None)
  (if! (0 <? len (PullRequestURL a))%nat && (kind ≠s? ActionProposePullRequest)
   return sen ErrInvalidActionKind else
   orelse
     (if kind =s? ActionProposePullRequest then validatePullRequestURL (PullRequestURL a) else None)
   (if! IsZero (a_CreatedAt a) || IsZero (a_ExpiresAt a) || negb (After (a_ExpiresAt a) (a_CreatedAt a))
    return sen ErrTokenExpired else
    if! negb (Tier_IsValid (a_Tier a)) || negb (Tier_AllowsProposals (a_Tier a))
    return sen ErrInvalidTier else
    None)).

Definition Validate (a : AIProposedAction) : option error :=
  orelse (validateStructural a)
  (if! TrimSpace (rb_Description (Rollback a)) =s? "" return sen ErrMissingRollback else None).

Definition ValidateForExecution (a : AIProposedAction) : option error := validateStructural a.
End validate.

(** The pointer receiver is truncated in place: the new value is returned. *)
Definition EnrichedDiagnostic_Validate (e : EnrichedDiagnostic) : option error * EnrichedDiagnostic :=
  if (MaxEnrichmentChars <? len (Enrichment e))%nat then (Some (sen ErrEnrichmentTooLong), e)
  else if (MaxRelatedSignals <? length (RelatedSignals e))%nat
  then (None, mkEnrichedDiagnostic (Enrichment e) (take MaxRelatedSignals (RelatedSignals e)))
  else (None, e).

Definition ValidateT3DualApproval (d : DualApproval) : option error :=
  if! (Approver (d_First d) =s? "") || (Approver (d_Second d) =s? "") return sen ErrTokenInvalid else
  if! Approver (d_First d) =s? Approver (d_Second d) return sen ErrSameApprover else
  if! (Sub (ApprovedAt (d_Second d)) (ApprovedAt (d_First d)) <? MinT3Delay)%Z
  return sen ErrT3DelayNotElapsed else
  None.

(** *** The secret heuristics *)

(** The regular expressions of [secretHeuristics] are sequences of bounded
    repetitions of a byte class and of word boundaries. *)
Inductive item :=
  | Rep (p : ascii → bool) (min : nat) (max : option nat)
  | WB.
Definition is_word (c : ascii) : bool := is_upper c || is_lower c || is_digit c || bool_decide (c = "_"%char).
Definition word_at (c : option ascii) : bool := match c with Some c => is_word c | None => false end.
Definition first (s : string) : option ascii := match s with "" => None | String c _ => Some c end.

(** [rep p k min max prev s]: some number of bytes of [p] allowed by the
    bounds, then [k], told the byte before it. *)
Fixpoint rep (p : ascii → bool) (k : option ascii → string → bool) (min : nat) (max : option nat)
    (prev : option ascii) (s : string) {struct s} : bool :=
  if (if (min =? 0)%nat then k prev s else false) then true else
  match s with
  | "" => false
  | String c s =>
      if bool_decide (max ≠ Some 0) && p c
      then rep p k (pred min) (pred <$> max) (Some c) s else false
  end.
(** A match of the items at the front of [s], [prev] being the byte before. *)
Fixpoint match_here (re : list item) (prev : option ascii) (s : string) : bool :=
  match re with
  | [] => true
  | WB :: re => if xorb (word_at prev) (word_at (first s)) then match_here re prev s else false
  | Rep p min max :: re => rep p (match_here re) min max prev s
  end.
Fixpoint match_from (re : list item) (prev : option ascii) (s : string) : bool :=
  if match_here re prev s then true else
  match s with "" => false | String c s => match_from re (Some c) s end.
(** [Regexp.MatchString] *)
Definition MatchString (re : list item) (s : string) : bool := match_from re None s.

Definition chars (cs : string) (c : ascii) : bool := bool_decide (c ∈ bytes cs).
Definition lit (w : string) : list item := (λ c, Rep (λ d, bool_decide (d = c)) 1 (Some 1)) <$> bytes w.
Definition alnum (c : ascii) : bool := is_upper c || is_lower c || is_digit c.
Definition hexdigit (c : ascii) : bool := is_digit c || chars "abcdefABCDEF" c.
Definition alnum_ (cs : string) (c : ascii) : bool := alnum c || chars cs c.

Definition secretHeuristics : list (list item) :=
  [ [Rep (alnum_ "+/") 40 None; Rep (chars "=") 0 (Some 2)];
    [WB; Rep hexdigit 32 None; WB];
    WB :: lit "hvs." ++ [Rep (alnum_ "_-") 20 None; WB];
    WB :: lit "eyJ" ++ [Rep (alnum_ "_-") 1 None] ++ lit "." ++ [Rep (alnum_ "_-") 1 None]
      ++ lit "." ++ [Rep (alnum_ "_-") 1 None; WB];
    WB :: lit "ghp_" ++ [Rep alnum 20 None; WB];
    WB :: lit "gho_" ++ [Rep alnum 20 None; WB];
    WB :: lit "ghs_" ++ [Rep alnum 20 None; WB];
    WB :: lit "AKIA" ++ [Rep (λ c, is_upper c || is_digit c) 16 None; WB];
    WB :: lit "xox" ++ [Rep (chars "bpoa") 1 (Some 1)] ++ lit "-" ++ [Rep (alnum_ "-") 20 None; WB] ].

Definition ContainsSecretLike (s : string) : bool := existsb (λ re, MatchString re s) secretHeuristics.

Definition nl : string := String (chr 10) "".

(** The builder of VaultRunbook.Validate. *)
Definition runbook_text (r : VaultRunbook) : string :=
  CommandTemplate r +:+ nl +:+ r_Rationale r +:+ nl +:+
  String.concat "" ((λ ms, ms +:+ nl) <$> ManualSteps r) +:+
  String.concat "" ((λ kn, kn +:+ nl) <$> KeyNames r).

Definition VaultRunbook_Validate (r : VaultRunbook) : option error :=
  if! TrimSpace (VaultPath r) =s? "" return sen ErrInvalidVaultPath else
  if! (length (KeyNames r) =? 0)%nat return sen ErrMissingRollback else
  if! negb (Contains (CommandTemplate r) "${VALUE") return sen ErrSecretValueInOutput else
  if! ContainsSecretLike (runbook_text r) return sen ErrSecretValueInOutput else
  if! IsZero (r_CreatedAt r) || IsZero (r_ExpiresAt r) || negb (After (r_ExpiresAt r) (r_CreatedAt r))
  return sen ErrTokenExpired else
  None.

(** ** Lemmas on chains of early returns *)

Lemma guard_none {E} (b : bool) (e : E) k :
  (if b then Some e else k) = None ↔ b = false ∧ k = None.
Proof. destruct b; naive_solver. Qed.
Lemma orelse_none e k : orelse e k = None ↔ e = None ∧ k = None.
Proof. destruct e; naive_solver. Qed.
#[export] Hint Rewrite @guard_none orelse_none : srenix.
Lemma window_none (c e : Time) :
  IsZero c || IsZero e || negb (After e c) = false ↔ c ≠ 0%Z ∧ e ≠ 0%Z ∧ (c < e)%Z.
Proof.
  unfold IsZero, After. rewrite !orb_false_iff, !Z.eqb_neq, negb_false_iff, Z.ltb_lt. tauto.
Qed.

(** ** What the validators promise *)

Section promise.
Context `{UrlApi, YamlApi} (env : string) (st : ExtraState).

(** A manifest the approval may apply: a NetworkPolicy of the right
    version, outside the protected namespaces, that restricts no egress
    and opens ingress from no block but the whole internet. *)
Record safe_policy (u : object) : Prop := {
  sp_version : GetAPIVersion u = "networking.k8s.io/v1";
  sp_kind : GetKind u = "NetworkPolicy";
  sp_name : GetName u ≠ "";
  sp_namespace : GetNamespace u ≠ "" ∧ protects env st (GetNamespace u) = false;
  sp_types : "Egress" ∉ NestedStringSlice u ["spec"; "policyTypes"];
  sp_egress : (NestedSlice u ["spec"; "egress"]).2 = true →
    (NestedSlice u ["spec"; "egress"]).1 = [];
  sp_cidrs : ∀ ir irMap f fMap cidr,
    ir ∈ (NestedSlice u ["spec"; "ingress"]).1 → asMap ir = Some irMap →
    f ∈ (NestedSlice irMap ["from"]).1 → asMap f = Some fMap →
    NestedString fMap ["ipBlock"; "cidr"] = (cidr, true) → TrimSpace cidr = "0.0.0.0/0";
}.

(** An action that may be executed once approved. *)
Record executable (a : AIProposedAction) : Prop := {
  ex_kind : a_ActionKind a ∈ [ActionDeletePod; ActionDeleteJob; ActionPatchDeployment;
    ActionDeleteCertRequest; ActionDeleteACMEOrder; ActionApplyManifest;
    ActionProposePullRequest; ActionPatchProbe];
  ex_target : or_Kind (a_Target a) ≠ "" ∧ or_Namespace (a_Target a) ≠ "" ∧ or_Name (a_Target a) ≠ "";
  ex_namespace : or_Namespace (a_Target a) ∉ ProtectedNamespaces ∧
    or_Namespace (a_Target a) ∉ extras env st;
  ex_payload : PatchPayload a ≠ "" →
    a_ActionKind a = ActionPatchDeployment ∨ a_ActionKind a = ActionPatchProbe;
  ex_probe : a_ActionKind a = ActionPatchProbe → PatchPayload a ≠ "" ∧
    or_Kind (a_Target a) ∈ ["Deployment"; "StatefulSet"; "DaemonSet"];
  ex_yaml : ManifestYAML a ≠ "" → a_ActionKind a = ActionApplyManifest;
  ex_manifest : a_ActionKind a = ActionApplyManifest → ManifestYAML a ≠ "" ∧
    ∃ u, yaml_Unmarshal (ManifestYAML a) = Some (Some u) ∧ safe_policy u;
  ex_url : PullRequestURL a ≠ "" → a_ActionKind a = ActionProposePullRequest;
  ex_pr : a_ActionKind a = ActionProposePullRequest → TrimSpace (PullRequestURL a) ≠ "" ∧
    ∃ u, url_Parse (PullRequestURL a) = Some u ∧ u_Scheme u = "https" ∧ u_Host u ≠ "";
  ex_window : a_CreatedAt a ≠ 0%Z ∧ a_ExpiresAt a ≠ 0%Z ∧ (a_CreatedAt a < a_ExpiresAt a)%Z;
  ex_tier : a_Tier a ∈ [TierT1; TierT2; TierT3];
}.

Lemma scan_from_none from : scan_from from = None ↔
  ∀ f fMap cidr, f ∈ from → asMap f = Some fMap →
    NestedString fMap ["ipBlock"; "cidr"] = (cidr, true) → TrimSpace cidr = "0.0.0.0/0".
Proof.
  induction from as [|f from IH]; simpl; [set_solver|]. setoid_rewrite elem_of_cons.
  destruct (asMap f) as [fMap|] eqn:Em.
  2:{ rewrite IH. split; intros Hall f' fMap' cidr' Hin; [|by eauto].
      destruct Hin as [->|Hin]; [congruence|eauto]. }
  destruct (NestedString fMap _) as [cidr found] eqn:En.
  assert (Hf : (found = true → TrimSpace cidr = "0.0.0.0/0") ∧ scan_from from = None ↔
    (if negb found then scan_from from
     else if negb (isSafeIPBlockCIDR cidr) then Some (mkError ErrManifestDangerousShape [cidr])
     else scan_from from) = None).
  { unfold isSafeIPBlockCIDR. destruct found; simpl; [case_bool_decide|]; naive_solver. }
  rewrite <-Hf, IH. split.
  - intros [Hh Hall] f' fMap' cidr' [->|Hin] Hm Hn; [|eauto].
    rewrite Em in Hm. simplify_eq. rewrite En in Hn. simplify_eq. by apply Hh.
  - intros Hall. split; [|by eauto]. intros ->. by eapply Hall; eauto.
Qed.

Lemma scan_ingress_none ingress : scan_ingress ingress = None ↔
  ∀ ir irMap f fMap cidr, ir ∈ ingress → asMap ir = Some irMap →
    f ∈ (NestedSlice irMap ["from"]).1 → asMap f = Some fMap →
    NestedString fMap ["ipBlock"; "cidr"] = (cidr, true) → TrimSpace cidr = "0.0.0.0/0".
Proof.
  induction ingress as [|ir l IH]; simpl; [set_solver|]. setoid_rewrite elem_of_cons.
  destruct (asMap ir) as [irMap|] eqn:Em.
  - rewrite orelse_none, scan_from_none, IH. split.
    + intros [Hh Hall] ir' irMap' f fMap cidr [->|Hin] Hm Hf Hfm Hn; [|by eauto].
      simplify_eq. eauto.
    + intros Hall. split; eauto.
  - rewrite IH. split; intros Hall ir' irMap' f fMap cidr Hin; [|by eauto].
    destruct Hin as [->|Hin]; [congruence|eauto].
Qed.

Lemma ValidateManifest_none y : ValidateManifest (protects env st) y = None ↔
  y ≠ "" ∧ ∃ u, yaml_Unmarshal y = Some (Some u) ∧ safe_policy u.
Proof.
  unfold ValidateManifest, AllowedManifestKinds. rewrite guard_none.
  assert (Hy : (len y =? 0)%nat = false ↔ y ≠ "") by (rewrite Nat.eqb_neq; by destruct y).
  rewrite Hy. destruct (yaml_Unmarshal y) as [[u|]|]; [|naive_solver|naive_solver].
  assert (Hs : ∀ A B, (A ↔ B) → (y ≠ "" ∧ A) ↔ (y ≠ "" ∧ B)) by tauto. apply Hs. clear Hs Hy.
  trans (safe_policy u); [|naive_solver]. rewrite !guard_none.
  destruct (decide (GetKind u = "NetworkPolicy")) as [Ek|Ek].
  2:{ rewrite (bool_decide_eq_false_2 (GetKind u = "NetworkPolicy")) by done.
      split; [naive_solver|by intros []]. }
  rewrite (bool_decide_eq_true_2 (GetKind u = "NetworkPolicy")) by done.
  unfold validateNetworkPolicyShape.
  destruct (NestedSlice u ["spec"; "egress"]) as [egress found] eqn:Ee.
  rewrite !guard_none, scan_ingress_none, existsb_not_elem, negb_false_iff,
    andb_false_iff, !bool_decide_eq_false, bool_decide_eq_true, Nat.ltb_ge.
  split.
  - intros (Hv & _ & _ & Hn & Hns & Hp & Hv' & Ht & He & Hc). split; auto.
    + intros Hin. specialize (Ht _ Hin). by rewrite bool_decide_eq_false in Ht.
    + rewrite Ee. simpl. intros ->. destruct He; [done|]. destruct egress; simpl in *; [done|lia].
  - intros [Hv Hk Hn [Hns Hp] Ht He Hc]. rewrite Ee in He. simpl in He.
    rewrite Hv, Hk. repeat split; auto; try done; [set_solver| |].
    + intros pt Hin. rewrite bool_decide_eq_false. by intros ->.
    + destruct found; [|by left]. right. by rewrite He.
Qed.
Lemma len_pos (s : string) : (0 <? len s)%nat = false ↔ s = "".
Proof. rewrite Nat.ltb_ge. destruct s; simpl; split; try done; lia. Qed.
Lemma len_zero (s : string) : (len s =? 0)%nat = false ↔ s ≠ "".
Proof. rewrite Nat.eqb_neq. destruct s; simpl; split; try done; lia. Qed.

Lemma validatePullRequestURL_none s : validatePullRequestURL s = None ↔
  TrimSpace s ≠ "" ∧ ∃ u, url_Parse s = Some u ∧ u_Scheme u = "https" ∧ u_Host u ≠ "".
Proof.
  unfold validatePullRequestURL. rewrite guard_none, bool_decide_eq_false.
  destruct (url_Parse s) as [u|]; [|naive_solver].
  rewrite !guard_none, negb_false_iff, bool_decide_eq_true, bool_decide_eq_false. naive_solver.
Qed.

Lemma unpaired (s k k' : string) :
  (0 <? len s)%nat && (k ≠s? k') = false ↔ (s ≠ "" → k = k').
Proof.
  rewrite andb_false_iff, len_pos, negb_false_iff, bool_decide_eq_true.
  destruct (decide (s = "")); tauto.
Qed.
Lemma when_none (k k' : string) (e : option error) :
  (if k =s? k' then e else None) = None ↔ (k = k' → e = None).
Proof. case_bool_decide; tauto. Qed.

Lemma validateStructural_none a : validateStructural env st a = None ↔ executable a.
Proof.
  unfold validateStructural.
  rewrite !guard_none, !orelse_none, !guard_none, !orelse_none, !guard_none.
  rewrite !unpaired, !when_none, ValidateManifest_none, validatePullRequestURL_none, window_none.
  unfold ActionKind_IsValid, Tier_IsValid, Tier_AllowsProposals.
  rewrite !orb_false_iff, !negb_false_iff, !orb_true_iff, !bool_decide_eq_true, !bool_decide_eq_false.
  assert (Hp : protects env st (or_Namespace (a_Target a)) = false ↔
    or_Namespace (a_Target a) = "" ∨ or_Namespace (a_Target a) ∉ ProtectedNamespaces ∧
    or_Namespace (a_Target a) ∉ extras env st).
  { apply guard_false; [apply _..|]. apply protects_spec. }
  assert (Hpay : (0 <? len (PatchPayload a))%nat && (a_ActionKind a ≠s? ActionPatchDeployment)
    && (a_ActionKind a ≠s? ActionPatchProbe) = false ↔ (PatchPayload a ≠ "" →
    a_ActionKind a = ActionPatchDeployment ∨ a_ActionKind a = ActionPatchProbe)).
  { rewrite !andb_false_iff, len_pos, !negb_false_iff, !bool_decide_eq_true.
    destruct (decide (PatchPayload a = "")); tauto. }
  assert (Hpr : (a_ActionKind a =s? ActionPatchProbe) && ((len (PatchPayload a) =? 0)%nat ||
    negb (bool_decide (or_Kind (a_Target a) ∈ ["Deployment"; "StatefulSet"; "DaemonSet"]))) = false ↔
    (a_ActionKind a = ActionPatchProbe → PatchPayload a ≠ "" ∧
     or_Kind (a_Target a) ∈ ["Deployment"; "StatefulSet"; "DaemonSet"])).
  { rewrite andb_false_iff, orb_false_iff, len_zero, negb_false_iff, bool_decide_eq_true, bool_decide_eq_false.
    destruct (decide (a_ActionKind a = ActionPatchProbe)); tauto. }
  rewrite Hp, Hpay, Hpr. clear Hp Hpay Hpr.
  assert (Ht : a_Tier a ∈ [TierOff; TierT0; TierT1; TierT2; TierT3] ∧
    ((a_Tier a = TierT1 ∨ a_Tier a = TierT2) ∨ a_Tier a = TierT3) ↔ a_Tier a ∈ [TierT1; TierT2; TierT3]).
  { set_unfold. tauto. }
  split.
  - intros (H1 & [[H2 H3] H4] & H5 & H6 & H7 & H8 & H9 & H10 & H11 & H12 & H13 & _).
    split; try done; [by destruct H5|]. by apply Ht.
  - intros [H1 (H2 & H3 & H4) H5 H6 H7 H8 H9 H10 H11 H12 H13]. apply Ht in H13.
    repeat (split; [done || by right|]). done.
Qed.

End promise.

(** An accepted dual approval has two non-empty, distinct approvers, the
    second at least thirty minutes after the first, and every such pair is
    accepted. *)
Theorem dual_approval_correct d :
  ValidateT3DualApproval d = None ↔
  Approver (d_First d) ≠ "" ∧ Approver (d_Second d) ≠ "" ∧ Approver (d_First d) ≠ Approver (d_Second d) ∧
  (30 * Minute ≤ ApprovedAt (d_Second d) - ApprovedAt (d_First d))%Z.
Proof.
  unfold ValidateT3DualApproval.
  rewrite !guard_none, orb_false_iff, !bool_decide_eq_false, Z.ltb_ge.
  pose proof (Sub_lt (ApprovedAt (d_Second d)) (ApprovedAt (d_First d)) MinT3Delay ltac:(by vm_compute)) as Hs.
  unfold MinT3Delay in *. split.
  - intros ([? ?] & ? & Hge & _). repeat split; auto. lia.
  - intros (? & ? & ? & Hge). repeat split; auto. lia.
Qed.

(** ** No secret survives the runbook validator *)

(** A byte that is no word byte ends whatever the items matched: seen from
    them it is the end of the text. *)
Definition ends_word (t : string) : Prop := word_at (first t) = false.

(** The matchers branch lazily; as boolean connectives they read: *)
Lemma rep_nil p k min max prev : rep p k min max prev "" = (min =? 0)%nat && k prev "".
Proof. simpl. destruct (_ =? _)%nat; [|done]. by destruct (k prev ""). Qed.
Lemma rep_cons p k min max prev c s : rep p k min max prev (String c s) =
  ((min =? 0)%nat && k prev (String c s)) ||
  (bool_decide (max ≠ Some 0) && p c && rep p k (pred min) (pred <$> max) (Some c) s).
Proof. reflexivity. Qed.
Lemma match_from_cons re prev c s :
  match_from re prev (String c s) = match_here re prev (String c s) || match_from re (Some c) s.
Proof. reflexivity. Qed.
Lemma match_here_from re prev s : match_here re prev s = true → match_from re prev s = true.
Proof. destruct s; simpl; by intros ->. Qed.

Lemma rep_here p k min max prev s :
  (min =? 0)%nat && k prev s = true → rep p k min max prev s = true.
Proof. destruct s; rewrite ?rep_nil, ?rep_cons; by intros ->. Qed.

Lemma rep_app p k k' min max prev prev' s t :
  (∀ q q' s, word_at q = word_at q' → k q s = true → k' q' (s +:+ t) = true) →
  word_at prev = word_at prev' →
  rep p k min max prev s = true → rep p k' min max prev' (s +:+ t) = true.
Proof.
  intros Hk. revert min max prev prev'.
  induction s as [|c s IH]; intros min max prev prev' Hp H.
  - rewrite rep_nil in H. apply andb_true_iff in H as [H1 H2].
    apply (Hk prev prev' "" Hp) in H2. apply rep_here. by rewrite H1.
  - rewrite rep_cons in H. apply orb_true_iff in H as [H|H].
    + apply andb_true_iff in H as [H1 H2]. apply (Hk prev prev' _ Hp) in H2.
      apply rep_here. by rewrite H1.
    + cbn [String.append]. rewrite rep_cons. apply orb_true_iff. right.
      apply andb_true_iff in H as [-> H]. by apply (IH _ _ (Some c)).
Qed.

Lemma match_here_app re prev prev' s t :
  ends_word t → word_at prev = word_at prev' →
  match_here re prev s = true → match_here re prev' (s +:+ t) = true.
Proof.
  intros Ht. revert prev prev' s. induction re as [|[p mn mx|] re IH]; intros prev prev' s Hp H; [done| |].
  - simpl in *. eapply rep_app; [|done|done]. intros q q' s' Hq. by apply IH.
  - simpl in *. rewrite <-Hp. destruct (xorb _ _) eqn:H1; [|done]. apply (IH _ _ _ Hp) in H.
    destruct s; simpl in *; [unfold ends_word in Ht; by rewrite Ht, H1, H|by rewrite H1, H].
Qed.

Lemma match_from_app re prev prev' s t :
  ends_word t → word_at prev = word_at prev' →
  match_from re prev s = true → match_from re prev' (s +:+ t) = true.
Proof.
  intros Ht. revert prev prev'. induction s as [|c s IH]; intros prev prev' Hp H.
  - apply match_here_from, (match_here_app _ prev prev' "" t Ht Hp). simpl in H. by destruct (match_here re prev "").
  - rewrite match_from_cons in H. cbn [String.append]. rewrite match_from_cons.
    apply orb_true_iff in H as [H|H]; apply orb_true_iff.
    + left. by apply (match_here_app _ prev prev' (String c s) t).
    + right. by apply (IH (Some c)).
Qed.

Fixpoint last_of (prev : option ascii) (u : string) : option ascii :=
  match u with "" => prev | String c u => last_of (Some c) u end.
Lemma match_from_prefix re prev u s :
  match_from re (last_of prev u) s = true → match_from re prev (u +:+ s) = true.
Proof.
  revert prev. induction u as [|c u IH]; intros prev H; [done|].
  cbn [String.append]. rewrite match_from_cons, IH by done. apply orb_true_r.
Qed.

(** A secret inside a field is found in the aggregated text. *)
Lemma ContainsSecretLike_embed u s t :
  word_at (last_of None u) = false → ends_word t →
  ContainsSecretLike s = true → ContainsSecretLike (u +:+ s +:+ t) = true.
Proof.
  unfold ContainsSecretLike. rewrite !existsb_elem. intros Hu Ht (re & Hre & Hm).
  exists re. split; [done|]. apply match_from_prefix.
  by apply (match_from_app re None).
Qed.

Lemma last_of_nl prev u : last_of prev (u +:+ nl) = Some (chr 10).
Proof. revert prev. by induction u; intros; simpl in *. Qed.

Lemma concat_cons (y : string) l : String.concat "" (y :: l) = y +:+ String.concat "" l.
Proof. destruct l; simpl; [by rewrite sapp_nil_r|done]. Qed.
Lemma concat_app (l k : list string) :
  String.concat "" (l ++ k) = String.concat "" l +:+ String.concat "" k.
Proof.
  induction l as [|x l IH]; [done|]. cbn [app]. by rewrite !concat_cons, IH, sapp_assoc.
Qed.

(** The lines of the aggregated text. *)
Definition lines (l : list string) : string := String.concat "" ((λ s, s +:+ nl) <$> l).

Lemma lines_split l x : x ∈ l →
  ∃ u v, lines l = u +:+ x +:+ nl +:+ v ∧ (u = "" ∨ ∃ u', u = u' +:+ nl).
Proof.
  unfold lines. induction l as [|y l IH]; [by intros ?%elem_of_nil|]. rewrite fmap_cons, concat_cons.
  intros [->|Hx]%elem_of_cons.
  - exists "", (String.concat "" ((λ s, s +:+ nl) <$> l)). rewrite sapp_assoc. auto.
  - destruct (IH Hx) as (u & v & -> & Hu). exists ((y +:+ nl) +:+ u), v.
    rewrite !sapp_assoc. split; [done|]. right. destruct Hu as [->|[u' ->]].
    + exists y. by rewrite sapp_nil_r.
    + exists (y +:+ nl +:+ u'). by rewrite !sapp_assoc.
Qed.

Lemma runbook_text_lines r :
  runbook_text r = lines ([CommandTemplate r; r_Rationale r] ++ ManualSteps r ++ KeyNames r).
Proof.
  unfold runbook_text, lines. rewrite !fmap_app, !concat_app, !fmap_cons, !concat_cons. simpl.
  by rewrite !sapp_assoc, ?sapp_nil_r.
Qed.

(** An accepted runbook has a path, a key name, the placeholder and a
    real expiry window, and none of its command, rationale, steps and key
    names contains, on its own, a match of the secret heuristics. *)
Theorem runbook_no_secret r :
  VaultRunbook_Validate r = None →
  TrimSpace (VaultPath r) ≠ "" ∧ KeyNames r ≠ [] ∧
  Contains (CommandTemplate r) "${VALUE" = true ∧
  (r_CreatedAt r < r_ExpiresAt r)%Z ∧
  ∀ s, s ∈ [CommandTemplate r; r_Rationale r] ++ ManualSteps r ++ KeyNames r →
    ContainsSecretLike s = false.
Proof.
  unfold VaultRunbook_Validate.
  rewrite !guard_none, negb_false_iff, bool_decide_eq_false, Nat.eqb_neq, window_none.
  intros (Hp & Hk & Hc & Hs & (_ & _ & Hw) & _).
  repeat split; auto; [by destruct (KeyNames r)|].
  intros s Hin. apply not_true_is_false. intros Hsec.
  destruct (lines_split _ s Hin) as (u & v & E & Hu).
  rewrite runbook_text_lines, E, ContainsSecretLike_embed in Hs; try done.
  destruct Hu as [->|[u' ->]]; [done|]. by rewrite last_of_nl.
Qed.

(** An accepted enrichment has at most 500 bytes and, after the call, at
    most five related signals, the first ones it came with. *)
Theorem enrichment_bounded e e' :
  EnrichedDiagnostic_Validate e = (None, e') →
  len (Enrichment e') ≤ 500 ∧ length (RelatedSignals e') ≤ 5 ∧
  Enrichment e' = Enrichment e ∧ RelatedSignals e' `prefix_of` RelatedSignals e.
Proof.
  unfold EnrichedDiagnostic_Validate, MaxEnrichmentChars, MaxRelatedSignals.
  destruct (Nat.ltb_spec 500 (len (Enrichment e))) as [|H1]; [done|].
  destruct (Nat.ltb_spec 5 (length (RelatedSignals e))) as [|H2]; intros [= <-].
  - cbn [Enrichment RelatedSignals]. rewrite length_take. repeat split; try lia.
    exists (drop 5 (RelatedSignals e)). by rewrite take_drop.
  - repeat split; try lia; try done.
Qed.

(** ** Concrete inputs *)

Definition sample_runbook (path : string) : VaultRunbook :=
  mkVaultRunbook "rb-7" path ["password"] "vault kv patch secret/app password=${VALUE_1}"
    ["rotate the key first"] "the key is missing" (FromUnix 1700000000) (FromUnix 1700005400).

Lemma runbook_no_secret_witness :
  VaultRunbook_Validate (sample_runbook "secret/app") = None ∧
  ContainsSecretLike "rotate the key first" = false.
Proof.
  assert (H : VaultRunbook_Validate (sample_runbook "secret/app") = None) by (vm_compute; reflexivity).
  split; [exact H|].
  apply (runbook_no_secret (sample_runbook "secret/app") H). cbn. set_solver.
Defined.

(** The path is not part of the text that is scanned. *)
Lemma runbook_path_unscanned :
  let r := sample_runbook "secret/hvs.CAESIJ0123456789abcdefghij" in
  VaultRunbook_Validate r = None ∧ ContainsSecretLike (VaultPath r) = true.
Proof. vm_compute. split; reflexivity. Qed.

Definition sample_enrichment : EnrichedDiagnostic :=
  mkEnrichedDiagnostic "the image tag does not exist" ["a"; "b"; "c"; "d"; "e"; "f"].
Lemma enrichment_bounded_witness :
  let e' := mkEnrichedDiagnostic "the image tag does not exist" ["a"; "b"; "c"; "d"; "e"] in
  EnrichedDiagnostic_Validate sample_enrichment = (None, e') ∧
  len (Enrichment e') ≤ 500 ∧ length (RelatedSignals e') ≤ 5 ∧
  Enrichment e' = Enrichment sample_enrichment ∧
  RelatedSignals e' `prefix_of` RelatedSignals sample_enrichment.
Proof.
  intros e'. assert (H : EnrichedDiagnostic_Validate sample_enrichment = (None, e')) by reflexivity.
  split; [exact H|]. apply (enrichment_bounded sample_enrichment e' H).
Defined.

(** A YAML reader that knows one manifest, and a URL parser that splits off
    the scheme. *)
Definition sample_yaml : YamlApi := {|
  object := bool; node := unit;
  yaml_Unmarshal y := if y =s? "policy" then Some (Some true) else None;
  GetAPIVersion _ := "networking.k8s.io/v1"; GetKind _ := "NetworkPolicy";
  GetName _ := "default-deny"; GetNamespace _ := "shop";
  NestedStringSlice _ _ := ["Ingress"]; NestedSlice _ _ := ([], false);
  asMap _ := None; NestedString _ _ := ("", false) |}.
Definition sample_url : UrlApi := {|
  URL := string; url_Parse s := Some s;
  u_Scheme s := if HasPrefix s "https://" then "https" else "";
  u_Host s := TrimPrefix s "https://" |}.
Definition sample_action (kind ns yaml url : string) : AIProposedAction :=
  mkAIProposedAction "act-1" "" 0 "" TierT1 kind (mkObjectRef "Pod" ns "web-0") "" yaml url
    "crash loop" (mkRollbackInfo "the controller recreates it" "" (mkObjectRef "" "" "") "")
    "Pod/shop/web-0" (FromUnix 1700000000) (FromUnix 1700000900).
Definition sample_validate (env : string) : AIProposedAction → option error :=
  @Validate sample_url sample_yaml env extraInit.

Example validate_pod : sample_validate "" (sample_action ActionDeletePod "shop" "" "") = None.
Proof. vm_compute. reflexivity. Qed.
Example validate_vault :
  sample_validate "" (sample_action ActionDeletePod "vault" "" "") = Some (sen ErrProtectedNamespace).
Proof. vm_compute. reflexivity. Qed.
Example validate_extra :
  sample_validate " pay , shop" (sample_action ActionDeletePod "shop" "" "") = Some (sen ErrProtectedNamespace).
Proof. vm_compute. reflexivity. Qed.
Example validate_manifest :
  sample_validate "" (sample_action ActionApplyManifest "shop" "policy" "") = None.
Proof. vm_compute. reflexivity. Qed.
Example validate_pr_http :
  sample_validate "" (sample_action ActionProposePullRequest "shop" "" "http://git/pr/1")
  = Some (sen ErrPullRequestURLInvalid).
Proof. vm_compute. reflexivity. Qed.
