(* ===== verification/Token.v ===== *)
(** * Signed links: pkg/ai/jwt.go, signer.go, silence_token.go, silence_link.go

    Approval and silence tokens are compact JWS strings: the base64 of a
    header and of the claims' JSON, signed with Ed25519.  The signature
    scheme is the class [Ed25519], with its documented law
    ([ed25519_Law]); everything else (JSON, base64, the splitting and the
    checks of expiry) is computed. *)

From stdpp Require Import options.
From S2P Require Import Prelude GoString GoTime GoJson GoNum Ai.

Local Open Scope Z_scope.

(** crypto/ed25519 on byte strings. *)
Class Ed25519 := {
  Sign : string → string → string;
  Verify : string → string → string → bool;
  Public : string → string;
}.
Class Ed25519_Law `{Ed25519} := {
  Verify_Sign priv m : len priv = 64%nat → Verify (Public priv) m (Sign priv m) = true;
  Public_length priv : len priv = 64%nat → len (Public priv) = 32%nat;
}.
Definition PrivateKeySize : nat := 64.
Definition PublicKeySize : nat := 32.

(** ** Claims and their JSON *)

Record TokenClaims := mkTokenClaims {
  Issuer : string;
  Audience : string;
  Subject : string;
  JTI : string;
  IssuedAt : Z;
  ExpiresAt : Z;
  NotBefore : Z;
  t_Tier : Tier;
  t_ActionKind : string;
  t_Target : ObjectRef;
  t_RunbookID : string;
  ApprovalSlot : Z;
  DiagSubject : string;
}.

Definition SilenceScope := string.
Definition SilenceScopeSubject : SilenceScope := "subject".
Definition SilenceScopeClass : SilenceScope := "class".

Record SilenceTokenClaims := mkSilenceTokenClaims {
  s_Issuer : string;
  s_Audience : string;
  s_JTI : string;
  s_IssuedAt : Z;
  s_ExpiresAt : Z;
  Scope : SilenceScope;
  Source : string;
  s_Subject : string;
  MessagePattern : string;
  UntilUnix : Z;
}.

(** A member dropped by omitempty when the value is zero. *)
Definition omit_str (k v : string) : list (string * json) := if v =s? "" then [] else [(k, JStr v)].
Definition omit_int (k : string) (v : Z) : list (string * json) := if v =? 0 then [] else [(k, JInt v)].

Definition ref_json (o : ObjectRef) : json :=
  JObj [("kind", JStr (or_Kind o)); ("namespace", JStr (or_Namespace o)); ("name", JStr (or_Name o))].
(** A struct member is never empty for omitempty. *)
Definition claims_json (c : TokenClaims) : json :=
  JObj ([("iss", JStr (Issuer c)); ("aud", JStr (Audience c)); ("sub", JStr (Subject c));
         ("jti", JStr (JTI c)); ("iat", JInt (IssuedAt c)); ("exp", JInt (ExpiresAt c))]
    ++ omit_int "nbf" (NotBefore c)
    ++ [("tier", JStr (t_Tier c))]
    ++ omit_str "action_kind" (t_ActionKind c)
    ++ [("target", ref_json (t_Target c))]
    ++ omit_str "runbook_id" (t_RunbookID c)
    ++ omit_int "slot" (ApprovalSlot c)
    ++ omit_str "diag_subject" (DiagSubject c)).
Definition silence_json (c : SilenceTokenClaims) : json :=
  JObj ([("iss", JStr (s_Issuer c)); ("aud", JStr (s_Audience c)); ("jti", JStr (s_JTI c));
         ("iat", JInt (s_IssuedAt c)); ("exp", JInt (s_ExpiresAt c)); ("scope", JStr (Scope c));
         ("source", JStr (Source c)); ("subject", JStr (s_Subject c))]
    ++ omit_str "msg" (MessagePattern c)
    ++ [("until", JInt (UntilUnix c))]).

(** The decoder finds a struct field by its exact name, else by folded case;
    an unknown member is ignored. *)
Definition field_of (names : list string) (k : string) : string :=
  if existsb (String.eqb k) names then k
  else match List.find (EqualFold k) names with Some n => n | None => "" end.
(** The values assigned to field [f], in the order of the members. *)
Definition members (names : list string) (f : string) (l : list (string * json)) : list json :=
  snd <$> List.filter (λ kv, String.eqb (field_of names kv.1) f) l.

(** [null] leaves the field as it is; a value of another type is an error. *)
Definition get_str (cur : option string) (v : json) : option string :=
  match v with JStr s => cur ≫= λ _, Some s | JNull => cur | _ => None end.
Definition get_int (cur : option Z) (v : json) : option Z :=
  match v with JNum lit => cur ≫= λ _, ParseInt lit | JNull => cur | _ => None end.
Definition str_field (names : list string) (l : list (string * json)) (f : string) : option string :=
  foldl get_str (Some "") (members names f l).
Definition int_field (names : list string) (l : list (string * json)) (f : string) : option Z :=
  foldl get_int (Some 0) (members names f l).

Definition ref_names : list string := ["kind"; "namespace"; "name"].
(** A struct inside is filled by each of its objects in turn. *)
Fixpoint obj_members (vs : list json) : option (list (string * json)) :=
  match vs with
  | [] => Some []
  | JObj l :: vs => k ← obj_members vs; Some (l ++ k)
  | JNull :: vs => obj_members vs
  | _ => None
  end.
Definition ref_field (names : list string) (l : list (string * json)) (f : string) : option ObjectRef :=
  m ← obj_members (members names f l);
  kind ← str_field ref_names m "kind"; ns ← str_field ref_names m "namespace";
  name ← str_field ref_names m "name";
  Some (mkObjectRef kind ns name).

Definition claims_names : list string :=
  ["iss"; "aud"; "sub"; "jti"; "iat"; "exp"; "nbf"; "tier"; "action_kind"; "target";
   "runbook_id"; "slot"; "diag_subject"].
Definition claims_of (l : list (string * json)) : option TokenClaims :=
  iss ← str_field claims_names l "iss"; aud ← str_field claims_names l "aud";
  sub ← str_field claims_names l "sub"; jti ← str_field claims_names l "jti";
  iat ← int_field claims_names l "iat"; exp ← int_field claims_names l "exp";
  nbf ← int_field claims_names l "nbf"; tier ← str_field claims_names l "tier";
  kind ← str_field claims_names l "action_kind"; target ← ref_field claims_names l "target";
  rid ← str_field claims_names l "runbook_id"; slot ← int_field claims_names l "slot";
  diag ← str_field claims_names l "diag_subject";
  Some (mkTokenClaims iss aud sub jti iat exp nbf tier kind target rid slot diag).

Definition silence_names : list string :=
  ["iss"; "aud"; "jti"; "iat"; "exp"; "scope"; "source"; "subject"; "msg"; "until"].
Definition silence_of (l : list (string * json)) : option SilenceTokenClaims :=
  iss ← str_field silence_names l "iss"; aud ← str_field silence_names l "aud";
  jti ← str_field silence_names l "jti"; iat ← int_field silence_names l "iat";
  exp ← int_field silence_names l "exp"; scope ← str_field silence_names l "scope";
  source ← str_field silence_names l "source"; sub ← str_field silence_names l "subject";
  msg ← str_field silence_names l "msg"; until ← int_field silence_names l "until";
  Some (mkSilenceTokenClaims iss aud jti iat exp scope source sub msg until).

(** [json.Unmarshal] into a struct; [null] leaves it zero. *)
Definition Unmarshal_into {A} (build : list (string * json) → option A) (s : string) : option A :=
  match Unmarshal s with
  | Some (JObj l) => build l
  | Some JNull => build []
  | _ => None
  end.

(** ** Signing and verifying *)

(** The errors of the token functions besides the sentinels. *)
Inductive token_error :=
  | BadPrivateKeySize | BadPublicKeySize | MarshalFailed
  | Sentinel (e : sentinel)
  | MissingActionID | MissingExpiresAt | MissingRunbookID | InvalidSlot (slot : Z)
  | MissingSource | MissingBaseURL | InvalidBaseURL.
Definition result (A : Type) := sum token_error A.

Section token.
Context `{Ed25519}.

Definition header_json (kid : string) : json :=
  JMap (<["alg" := JStr "EdDSA"]> (<["typ" := JStr "JWT"]> (<["kid" := JStr kid]> ∅))).

(** The body SignToken and SignSilenceToken share. *)
Definition sign_jws (priv kid : string) (payload : json) : result string :=
  if negb (len priv =? PrivateKeySize)%nat then inl BadPrivateKeySize else
  match Marshal (header_json kid), Marshal payload with
  | Some hBytes, Some pBytes =>
      let signingInput := b64_encode hBytes +:+ "." +:+ b64_encode pBytes in
      inr (signingInput +:+ "." +:+ b64_encode (Sign priv signingInput))
  | _, _ => inl MarshalFailed
  end.
Definition SignToken (priv kid : string) (claims : TokenClaims) : result string :=
  sign_jws priv kid (claims_json claims).
Definition SignSilenceToken (priv kid : string) (claims : SilenceTokenClaims) : result string :=
  sign_jws priv kid (silence_json claims).

(** The steps VerifyToken and VerifySilenceToken share, up to the claims. *)
Definition verify_jws {A} (build : list (string * json) → option A) (pub token : string) : result A :=
  if negb (len pub =? PublicKeySize)%nat then inl BadPublicKeySize else
  match Split token "." with
  | [encH; encP; encS] =>
      match b64_decode encS with
      | None => inl (Sentinel ErrTokenInvalid)
      | Some sig =>
          if negb (Verify pub (encH +:+ "." +:+ encP) sig) then inl (Sentinel ErrTokenInvalid) else
          match b64_decode encP ≫= Unmarshal_into build with
          | None => inl (Sentinel ErrTokenInvalid)
          | Some claims => inr claims
          end
      end
  | _ => inl (Sentinel ErrTokenInvalid)
  end.

(** [now] is [time.Now().Unix()]. *)
Definition VerifyToken (now : Z) (pub token : string) : result TokenClaims :=
  match verify_jws claims_of pub token with
  | inl e => inl e
  | inr claims =>
      if (0 <? ExpiresAt claims) && (ExpiresAt claims <? now) then inl (Sentinel ErrTokenExpired)
      else if (0 <? NotBefore claims) && (now <? NotBefore claims) then inl (Sentinel ErrTokenExpired)
      else inr claims
  end.
Definition VerifySilenceToken (now : Z) (pub token : string) : result SilenceTokenClaims :=
  match verify_jws silence_of pub token with
  | inl e => inl e
  | inr claims =>
      if (0 <? s_ExpiresAt claims) && (s_ExpiresAt claims <? now) then inl (Sentinel ErrTokenExpired)
      else inr claims
  end.

(** *** signer.go *)

Record SignerImpl := mkSigner { kid : string; priv : string }.
Definition NewSigner (KeyID PrivateKey : string) : result SignerImpl :=
  if negb (len PrivateKey =? PrivateKeySize)%nat then inl BadPrivateKeySize
  else inr (mkSigner (if KeyID =s? "" then "default-1" else KeyID) PrivateKey).

Definition proposal_claims (now : Time) (p : AIProposedAction) : TokenClaims :=
  mkTokenClaims "srenix/approval-server" "srenix/executor" (ActionID p) (ActionID p)
    (Unix now) (Unix (a_ExpiresAt p)) 0 (a_Tier p) (a_ActionKind p) (a_Target p) "" 0
    (DiagnosticSubject p).
Definition SignProposal (now : Time) (s : SignerImpl) (p : AIProposedAction) : result string :=
  if ActionID p =s? "" then inl MissingActionID
  else if IsZero (a_ExpiresAt p) then inl MissingExpiresAt
  else SignToken (priv s) (kid s) (proposal_claims now p).

Definition runbook_claims (now : Time) (r : VaultRunbook) (slot : Z) : TokenClaims :=
  let nbf := if slot =? 2 then Unix (Add now MinT3Delay) else Unix now in
  mkTokenClaims "srenix/approval-server" "srenix/executor" (RunbookID r)
    (RunbookID r +:+ "-slot" +:+ Itoa slot) (Unix now) (Unix (r_ExpiresAt r)) nbf
    TierT3 "" (mkObjectRef "" "" "") (RunbookID r) slot "".
Definition SignRunbookApproval (now : Time) (s : SignerImpl) (r : VaultRunbook) (slot : Z)
    : result string :=
  if RunbookID r =s? "" then inl MissingRunbookID
  else if negb (slot =? 1) && negb (slot =? 2) then inl (InvalidSlot slot)
  else if IsZero (r_ExpiresAt r) then inl MissingExpiresAt
  else SignToken (priv s) (kid s) (runbook_claims now r slot).
End token.

(** ** silence_link.go *)

(** What silenceURL does with package net/url: the path and the token
    parameter are set on the parsed base. *)
Class SilenceUrlApi := {
  BaseURL : Type;
  base_Parse : string → option BaseURL;
  b_Path : BaseURL → string;
  b_String : BaseURL → string → string → string;  
}.

Record SilenceLinkRequest := mkSilenceLinkRequest {
  lr_Source : string;
  lr_Subject : string;
  lr_MessagePattern : string;
  ShortDur : Duration;
  LongDur : Duration;
}.
Record SilenceLinks := mkSilenceLinks { SubjectURL : string; ClassURL : string }.

(** The loop of sanitizeJTI. *)
Fixpoint sanitize_jti (prevDash : bool) (s : string) : string :=
  match s with
  | "" => ""
  | String c s =>
      if is_lower c || is_digit c then String c (sanitize_jti false s)
      else if is_upper c then String (chr (ord c + 32)) (sanitize_jti false s)
      else if prevDash then sanitize_jti true s
      else String "-" (sanitize_jti true s)
  end.
Definition sanitizeJTI : string → string := sanitize_jti false.

Definition joinURLPath (a b : string) : string :=
  if a =s? "" then b else
  let a := TrimSuffix a "/" in
  if HasPrefix b "/" then a +:+ b else a +:+ "/" +:+ b.

Definition clickBuffer : Duration := 7 * 24 * Hour.

Definition subject_claims (req : SilenceLinkRequest) (now : Time) : SilenceTokenClaims :=
  mkSilenceTokenClaims "srenix/approval-server" "srenix/silence"
    ("sil-subj-" +:+ sanitizeJTI (lr_Source req) +:+ "-" +:+ sanitizeJTI (lr_Subject req)
       +:+ "-" +:+ Itoa (UnixNano now))
    (Unix now) (Unix (Add now (add64 (ShortDur req) clickBuffer)))
    SilenceScopeSubject (lr_Source req) (lr_Subject req) (lr_MessagePattern req)
    (Unix (Add now (ShortDur req))).
Definition class_claims (req : SilenceLinkRequest) (now : Time) : SilenceTokenClaims :=
  mkSilenceTokenClaims "srenix/approval-server" "srenix/silence"
    ("sil-class-" +:+ sanitizeJTI (lr_Source req) +:+ "-" +:+ Itoa (UnixNano now))
    (Unix now) (Unix (Add now (add64 (LongDur req) clickBuffer)))
    SilenceScopeClass (lr_Source req) "" (lr_MessagePattern req)
    (Unix (Add now (LongDur req))).

Section links.
Context `{Ed25519, SilenceUrlApi}.

Definition silenceURL (baseURL token : string) : result string :=
  match base_Parse baseURL with
  | None => inl InvalidBaseURL
  | Some u => inr (b_String u (joinURLPath (b_Path u) "/silence") token)
  end.

Definition MintSilenceLinks (priv kid baseURL : string) (req : SilenceLinkRequest) (now : Time)
    : result SilenceLinks :=
  if lr_Source req =s? "" then inl MissingSource
  else if baseURL =s? "" then inl MissingBaseURL else
  match SignSilenceToken priv kid (subject_claims req now) with
  | inl e => inl e
  | inr subjectTok =>
  match SignSilenceToken priv kid (class_claims req now) with
  | inl e => inl e
  | inr classTok =>
  match silenceURL baseURL subjectTok with
  | inl e => inl e
  | inr subjectURL =>
  match silenceURL baseURL classTok with
  | inl e => inl e
  | inr classURL => inr (mkSilenceLinks subjectURL classURL)
  end end end end.
End links.

(** ** The round trip of the claims *)

Lemma members_app names f l k : members names f (l ++ k) = members names f l ++ members names f k.
Proof. unfold members. by rewrite bfilter_app, fmap_app. Qed.

(** Well-formed claims: valid UTF-8 and 64-bit integers, what a Go value of
    the type holds when its strings are text. *)
Definition wf_ref (o : ObjectRef) : bool :=
  ValidString (or_Kind o) && ValidString (or_Namespace o) && ValidString (or_Name o).
Definition wf_claims (c : TokenClaims) : bool :=
  ValidString (Issuer c) && ValidString (Audience c) && ValidString (Subject c) && ValidString (JTI c)
  && in_int64 (IssuedAt c) && in_int64 (ExpiresAt c) && in_int64 (NotBefore c)
  && ValidString (t_Tier c) && ValidString (t_ActionKind c) && wf_ref (t_Target c)
  && ValidString (t_RunbookID c) && in_int64 (ApprovalSlot c) && ValidString (DiagSubject c).
Definition wf_silence (c : SilenceTokenClaims) : bool :=
  ValidString (s_Issuer c) && ValidString (s_Audience c) && ValidString (s_JTI c)
  && in_int64 (s_IssuedAt c) && in_int64 (s_ExpiresAt c) && ValidString (Scope c)
  && ValidString (Source c) && ValidString (s_Subject c) && ValidString (MessagePattern c)
  && in_int64 (UntilUnix c).

Ltac and_true :=
  repeat match goal with H : _ && _ = true |- _ => apply andb_true_iff in H as [? ?] end.

Lemma get_int_JInt z cur : in_int64 z = true → cur ≠ None → get_int cur (JInt z) = Some z.
Proof. intros Hz Hc. destruct cur; [|done]. simpl. by rewrite ParseInt_Itoa. Qed.

Definition wf_members (l : list (string * json)) : bool :=
  forallb (λ kv, ValidString kv.1 && wf_json kv.2) l.
Lemma wf_omit_str k v : ValidString k = true → ValidString v = true → wf_members (omit_str k v) = true.
Proof. intros Hk Hv. unfold omit_str. case_bool_decide; [done|]. simpl. by rewrite Hk, Hv. Qed.
Lemma wf_omit_int k z : ValidString k = true → wf_members (omit_int k z) = true.
Proof.
  intros Hk. unfold omit_int. destruct (z =? 0); [done|]. simpl. by rewrite Hk, valid_number_Itoa.
Qed.
Lemma wf_cons k v l : ValidString k = true → wf_json v = true → wf_members l = true →
  wf_members ((k, v) :: l) = true.
Proof. intros Hk Hv Hl. simpl. by rewrite Hk, Hv. Qed.
Lemma wf_app l k : wf_members l = true → wf_members k = true → wf_members (l ++ k) = true.
Proof. intros Hl Hk. unfold wf_members. by rewrite forallb_app, andb_true_iff. Qed.
Lemma wf_JInt z : wf_json (JInt z) = true.
Proof. apply valid_number_Itoa. Qed.
Lemma wf_ref_json o : wf_ref o = true → wf_json (ref_json o) = true.
Proof. unfold wf_ref. intros. and_true. apply wf_cons; [done|done|]. by do 2 (apply wf_cons; try done). Qed.
#[local] Hint Resolve wf_omit_str wf_omit_int wf_cons wf_app wf_JInt wf_ref_json : srenix.

Lemma wf_claims_json c : wf_claims c = true → wf_json (claims_json c) = true.
Proof.
  unfold wf_claims. intros. and_true.
  change (wf_members ([("iss", JStr (Issuer c)); ("aud", JStr (Audience c)); ("sub", JStr (Subject c));
         ("jti", JStr (JTI c)); ("iat", JInt (IssuedAt c)); ("exp", JInt (ExpiresAt c))]
    ++ omit_int "nbf" (NotBefore c) ++ [("tier", JStr (t_Tier c))]
    ++ omit_str "action_kind" (t_ActionKind c) ++ [("target", ref_json (t_Target c))]
    ++ omit_str "runbook_id" (t_RunbookID c) ++ omit_int "slot" (ApprovalSlot c)
    ++ omit_str "diag_subject" (DiagSubject c)) = true).
  auto 30 with srenix.
Qed.
Lemma wf_silence_json c : wf_silence c = true → wf_json (silence_json c) = true.
Proof.
  unfold wf_silence. intros. and_true.
  change (wf_members ([("iss", JStr (s_Issuer c)); ("aud", JStr (s_Audience c)); ("jti", JStr (s_JTI c));
         ("iat", JInt (s_IssuedAt c)); ("exp", JInt (s_ExpiresAt c)); ("scope", JStr (Scope c));
         ("source", JStr (Source c)); ("subject", JStr (s_Subject c))]
    ++ omit_str "msg" (MessagePattern c) ++ [("until", JInt (UntilUnix c))]) = true).
  auto 30 with srenix.
Qed.

(** What a decoder finds of a member that omitempty may have dropped. *)
Lemma members_omit_str names f k v : members names f (omit_str k v) =
  if String.eqb (field_of names k) f then (if v =s? "" then [] else [JStr v]) else [].
Proof. unfold omit_str, members. case_bool_decide; simpl; by destruct (String.eqb _ _). Qed.
Lemma members_omit_int names f k z : members names f (omit_int k z) =
  if String.eqb (field_of names k) f then (if z =? 0 then [] else [JInt z]) else [].
Proof. unfold omit_int, members. destruct (z =? 0); simpl; by destruct (String.eqb _ _). Qed.
Lemma str_omitted v : foldl get_str (Some "") (if v =s? "" then [] else [JStr v]) = Some v.
Proof. by case_bool_decide; subst. Qed.
Lemma int_omitted z : in_int64 z = true → foldl get_int (Some 0) (if z =? 0 then [] else [JInt z]) = Some z.
Proof. intros Hz. destruct (Z.eqb_spec z 0); subst; [done|]. by apply get_int_JInt. Qed.

(** [str_field]s and [int_field]s of the members an encoder wrote. *)
Ltac field_of_members :=
  repeat match goal with x := _ |- _ => subst x end;
  unfold str_field, int_field, ref_field;
  rewrite ?members_app, ?members_omit_str, ?members_omit_int;
  cbn -[get_int JInt foldl]; rewrite ?app_nil_r;
  try first [apply str_omitted | by apply int_omitted | by apply get_int_JInt | reflexivity].

Lemma claims_of_json c : wf_claims c = true →
  Unmarshal_into claims_of (encode (claims_json c)) = Some c.
Proof.
  intros Hw. unfold Unmarshal_into. rewrite Unmarshal_encode by by apply wf_claims_json.
  unfold wf_claims in Hw. and_true. unfold claims_json at 1.
  set (l := _ ++ _). unfold claims_of.
  assert (str_field claims_names l "iss" = Some (Issuer c)) as -> by field_of_members.
  assert (str_field claims_names l "aud" = Some (Audience c)) as -> by field_of_members.
  assert (str_field claims_names l "sub" = Some (Subject c)) as -> by field_of_members.
  assert (str_field claims_names l "jti" = Some (JTI c)) as -> by field_of_members.
  assert (int_field claims_names l "iat" = Some (IssuedAt c)) as -> by field_of_members.
  assert (int_field claims_names l "exp" = Some (ExpiresAt c)) as -> by field_of_members.
  assert (int_field claims_names l "nbf" = Some (NotBefore c)) as -> by field_of_members.
  assert (str_field claims_names l "tier" = Some (t_Tier c)) as -> by field_of_members.
  assert (str_field claims_names l "action_kind" = Some (t_ActionKind c)) as -> by field_of_members.
  assert (ref_field claims_names l "target" = Some (t_Target c)) as ->
    by (field_of_members; by destruct (t_Target c)).
  assert (str_field claims_names l "runbook_id" = Some (t_RunbookID c)) as -> by field_of_members.
  assert (int_field claims_names l "slot" = Some (ApprovalSlot c)) as -> by field_of_members.
  assert (str_field claims_names l "diag_subject" = Some (DiagSubject c)) as -> by field_of_members.
  by destruct c.
Qed.

Lemma silence_of_json c : wf_silence c = true →
  Unmarshal_into silence_of (encode (silence_json c)) = Some c.
Proof.
  intros Hw. unfold Unmarshal_into. rewrite Unmarshal_encode by by apply wf_silence_json.
  unfold wf_silence in Hw. and_true. unfold silence_json at 1.
  set (l := _ ++ _). unfold silence_of.
  assert (str_field silence_names l "iss" = Some (s_Issuer c)) as -> by field_of_members.
  assert (str_field silence_names l "aud" = Some (s_Audience c)) as -> by field_of_members.
  assert (str_field silence_names l "jti" = Some (s_JTI c)) as -> by field_of_members.
  assert (int_field silence_names l "iat" = Some (s_IssuedAt c)) as -> by field_of_members.
  assert (int_field silence_names l "exp" = Some (s_ExpiresAt c)) as -> by field_of_members.
  assert (str_field silence_names l "scope" = Some (Scope c)) as -> by field_of_members.
  assert (str_field silence_names l "source" = Some (Source c)) as -> by field_of_members.
  assert (str_field silence_names l "subject" = Some (s_Subject c)) as -> by field_of_members.
  assert (str_field silence_names l "msg" = Some (MessagePattern c)) as -> by field_of_members.
  assert (int_field silence_names l "until" = Some (UntilUnix c)) as -> by field_of_members.
  by destruct c.
Qed.

(** ** The tokens *)

Lemma b64_no_dot s : sforallb (λ d, bool_decide (d ≠ "."%char)) (b64_encode s) = true.
Proof.
  assert (Hl : ∀ l, sforallb (λ d, bool_decide (d ≠ "."%char)) (of_bytes l) =
    forallb (λ d, bool_decide (d ≠ "."%char)) l) by (induction l; simpl; congruence).
  unfold b64_encode. rewrite Hl. pose proof (b64_encode_chars (bytes s)) as Hc.
  rewrite forallb_elem in *. intros c Hin. specialize (Hc c Hin).
  apply bool_decide_eq_true. intros ->. by vm_compute in Hc.
Qed.

Lemma header_supported k : Marshal (header_json k) = Some (encode (header_json k)).
Proof.
  unfold Marshal, header_json, JMap. cbn [supported].
  assert (Hf : ∀ l : list (string * json), (∀ kv, kv ∈ l → supported kv.2 = true) →
    forallb (λ kv, supported kv.2) l = true) by (intros l Hl; by apply forallb_elem).
  rewrite Hf; [done|]. intros [k' v].
  rewrite merge_sort_Permutation, elem_of_map_to_list, !lookup_insert_Some, lookup_empty. simpl.
  naive_solver.
Qed.

Section signed.
Context `{Ed25519, !Ed25519_Law}.

(** What a verifier makes of a token of [sign_jws]. *)
Lemma verify_sign {A} (build : list (string * json) → option A) (priv kid : string) l tok :
  sign_jws priv kid (JObj l) = inr tok →
  verify_jws build (Public priv) tok =
    match Unmarshal_into build (encode (JObj l)) with
    | Some c => inr c
    | None => inl (Sentinel ErrTokenInvalid)
    end.
Proof using All.
  unfold sign_jws. destruct (Nat.eqb_spec (len priv) PrivateKeySize) as [Hp|]; [|done]. simpl negb.
  cbv iota. rewrite header_supported. unfold Marshal at 1.
  destruct (supported (JObj l)); [|done].
  pose proof (b64_no_dot (encode (header_json kid))) as Hh.
  pose proof (b64_no_dot (encode (JObj l))) as Hpd.
  pose proof (b64_decode_encode (encode (JObj l))) as Hdec.
  remember (b64_encode (encode (header_json kid))) as h eqn:Eh.
  remember (b64_encode (encode (JObj l))) as p eqn:Ep. clear Eh Ep.
  intros Ht%(inj inr). subst tok. unfold verify_jws. rewrite Public_length by done. simpl negb. cbv iota.
  rewrite !sapp_assoc. cbn [String.append].
  rewrite Split_app by done. rewrite Split_app by done.
  rewrite Split_none by apply b64_no_dot. rewrite b64_decode_encode.
  change (h +:+ "." +:+ p) with (h +:+ String "." p). rewrite Verify_Sign by done. simpl negb. cbv iota.
  rewrite Hdec. done.
Qed.

Lemma sign_jws_total priv kid payload :
  len priv = 64%nat → supported payload = true → ∃ tok, sign_jws priv kid payload = inr tok.
Proof.
  intros Hp Hs. unfold sign_jws, PrivateKeySize. rewrite Hp, header_supported. simpl.
  unfold Marshal. rewrite Hs. eauto.
Qed.

Lemma token_verified priv kid c :
  len priv = 64%nat → wf_claims c = true →
  ∃ tok, SignToken priv kid c = inr tok ∧ ∀ now,
    VerifyToken now (Public priv) tok =
      if bool_decide ((ExpiresAt c ≤ 0 ∨ now ≤ ExpiresAt c) ∧ (NotBefore c ≤ 0 ∨ NotBefore c ≤ now))
      then inr c else inl (Sentinel ErrTokenExpired).
Proof using All.
  intros Hp Hw.
  destruct (sign_jws_total priv kid (claims_json c)) as [tok Ht];
    [done|by apply wf_supported, wf_claims_json|].
  exists tok. split; [done|]. intros now. unfold VerifyToken.
  rewrite (verify_sign claims_of _ _ _ _ Ht). change (JObj _) with (claims_json c).
  rewrite claims_of_json by done.
  destruct (Z.ltb_spec 0 (ExpiresAt c)), (Z.ltb_spec (ExpiresAt c) now),
    (Z.ltb_spec 0 (NotBefore c)), (Z.ltb_spec now (NotBefore c)); simpl;
    case_bool_decide; try done; lia.
Qed.

Lemma silence_verified priv kid c :
  len priv = 64%nat → wf_silence c = true →
  ∃ tok, SignSilenceToken priv kid c = inr tok ∧ ∀ now,
    VerifySilenceToken now (Public priv) tok =
      if bool_decide (s_ExpiresAt c ≤ 0 ∨ now ≤ s_ExpiresAt c)
      then inr c else inl (Sentinel ErrTokenExpired).
Proof using All.
  intros Hp Hw.
  destruct (sign_jws_total priv kid (silence_json c)) as [tok Ht];
    [done|by apply wf_supported, wf_silence_json|].
  exists tok. split; [done|]. intros now. unfold VerifySilenceToken.
  rewrite (verify_sign silence_of _ _ _ _ Ht). change (JObj _) with (silence_json c).
  rewrite silence_of_json by done.
  destruct (Z.ltb_spec 0 (s_ExpiresAt c)), (Z.ltb_spec (s_ExpiresAt c) now); simpl;
    case_bool_decide; try done; lia.
Qed.


(** A runbook approval for either slot is signed whenever the runbook
    has an identifier and an expiry; the token is accepted from the moment
    of signing for slot 1 and from thirty minutes later for slot 2, up to
    the runbook's expiry, and its identifier differs between the slots. *)
Theorem runbook_slots s r slot now t :
  len (priv s) = 64%nat → RunbookID r ≠ "" → ValidString (RunbookID r) = true →
  slot = 1 ∨ slot = 2 → 0 < Unix now → in_int64 (Unix now + 1800) = true →
  0 < Unix (r_ExpiresAt r) → in_int64 (Unix (r_ExpiresAt r)) = true →
  ∃ tok c, SignRunbookApproval now s r slot = inr tok ∧
    JTI c = RunbookID r +:+ "-slot" +:+ Itoa slot ∧ t_RunbookID c = RunbookID r ∧ ApprovalSlot c = slot ∧
    VerifyToken t (Public (priv s)) tok =
      if bool_decide (Unix now + 1800 * (slot - 1) ≤ t ≤ Unix (r_ExpiresAt r))
      then inr c else inl (Sentinel ErrTokenExpired).
Proof using All.
  intros Hp Hid Hv Hslot Hnow Hr Hexp Hrexp.
  assert (Hn : NotBefore (runbook_claims now r slot) = Unix now + 1800 * (slot - 1)).
  { unfold runbook_claims. cbn [NotBefore]. destruct Hslot as [->| ->]; cbn [Z.eqb Pos.eqb]; [lia|].
    unfold Unix, Add. change MinT3Delay with (1800 * Second).
    rewrite Z.div_add by done. lia. }
  assert (in_int64 (Unix now) = true ∧ in_int64 (Unix now + 1800 * (slot - 1)) = true ∧
    in_int64 slot = true) as (Hi1 & Hi2 & Hi3).
  { unfold in_int64, minInt64, maxInt64 in *. rewrite !andb_true_iff, !Z.leb_le in *. lia. }
  assert (Hw : wf_claims (runbook_claims now r slot) = true).
  { unfold wf_claims. rewrite Hn. cbn [runbook_claims Issuer Audience Subject JTI IssuedAt ExpiresAt
      t_Tier t_ActionKind t_Target t_RunbookID ApprovalSlot DiagSubject].
    assert (ValidString (RunbookID r +:+ "-slot" +:+ Itoa slot) = true) as ->.
    { destruct Hslot as [->| ->]; by apply valid_go_app. }
    by rewrite Hv, Hrexp, Hi1, Hi2, Hi3. }
  destruct (token_verified (priv s) (kid s) _ Hp Hw) as (tok & Ht & Hver).
  exists tok, (runbook_claims now r slot). unfold SignRunbookApproval.
  rewrite bool_decide_eq_false_2 by done.
  destruct (IsZero (r_ExpiresAt r)) eqn:Hz.
  { exfalso. unfold IsZero in Hz. apply Z.eqb_eq in Hz. rewrite Hz in Hexp. by vm_compute in Hexp. }
  split; [by destruct Hslot as [->| ->]|]. repeat split; [done..|].
  rewrite Hver, Hn. change (ExpiresAt (runbook_claims now r slot)) with (Unix (r_ExpiresAt r)).
  repeat case_bool_decide; try done; destruct Hslot; lia.
Qed.
End signed.

Section forged.
Context `{Ed25519}.

Lemma window_inr now c c' :
  (if (0 <? ExpiresAt c') && (ExpiresAt c' <? now) then inl (Sentinel ErrTokenExpired)
   else if (0 <? NotBefore c') && (now <? NotBefore c') then inl (Sentinel ErrTokenExpired)
   else inr c') = (inr c : result TokenClaims) →
  c = c' ∧ (ExpiresAt c ≤ 0 ∨ now ≤ ExpiresAt c) ∧ (NotBefore c ≤ 0 ∨ NotBefore c ≤ now).
Proof.
  destruct (_ && _) eqn:E1; [done|]. destruct (_ && _) eqn:E2 in |- *; [done|].
  intros ?. simplify_eq. rewrite andb_false_iff, !Z.ltb_ge in E1, E2. tauto.
Qed.

(** The signing input of a payload. *)
Definition signing_input (kid : string) (payload : json) : string :=
  b64_encode (encode (header_json kid)) +:+ "." +:+ b64_encode (encode payload).

(** When the scheme lets through, for a public key, only messages that
    were signed for some claims of a list, a verifier returns only claims
    of that list and only inside their window: no part of a token can be
    changed into claims nobody signed. *)
Theorem no_forged_claims now pub tok (minted : list TokenClaims) c :
  (∀ m sig, Verify pub m sig = true → ∃ kid c', c' ∈ minted ∧ m = signing_input kid (claims_json c')) →
  (∀ c', c' ∈ minted → wf_claims c' = true) →
  VerifyToken now pub tok = inr c →
  c ∈ minted ∧ (ExpiresAt c ≤ 0 ∨ now ≤ ExpiresAt c) ∧ (NotBefore c ≤ 0 ∨ NotBefore c ≤ now).
Proof.
  intros Hforge Hwf. unfold VerifyToken, verify_jws.
  destruct (negb (len pub =? PublicKeySize)%nat); [done|].
  pose proof (Split_parts tok "."%char) as Hparts.
  destruct (Split tok ".") as [|h [|p [|sg [|]]]]; try done.
  destruct (b64_decode sg) as [sig|]; [|done].
  destruct (Verify pub (h +:+ "." +:+ p) sig) eqn:Hv; [|done]. simpl negb. cbv iota.
  destruct (Hforge _ _ Hv) as (k & c' & Hc' & Em).
  assert (Ep : p = b64_encode (encode (claims_json c'))).
  { apply (f_equal (λ m, Split m ".")) in Em. unfold signing_input in Em.
    pose proof (b64_no_dot (encode (header_json k))) as Hd1.
    pose proof (b64_no_dot (encode (claims_json c'))) as Hd2.
    remember (b64_encode (encode (header_json k))) as eh eqn:Eh.
    remember (b64_encode (encode (claims_json c'))) as ep eqn:Eep. clear Eh Eep.
    cbn [String.append] in Em.
    rewrite !Split_app, !Split_none in Em by (done || (apply Hparts; set_solver)).
    by simplify_eq. }
  rewrite Ep, b64_decode_encode. cbn [mbind option_bind]. rewrite claims_of_json by auto.
  intros Hc. apply window_inr in Hc as [-> Hc]. by split.
Qed.
End forged.

Section minted.
Context `{Ed25519, !Ed25519_Law, SilenceUrlApi}.

Lemma sanitize_valid b s : ValidString (sanitize_jti b s) = true.
Proof using Type.
  unfold ValidString. revert b. induction s as [|c s IH]; intros b; [done|]. simpl.
  assert (Hone : ∀ d t, between 0 127 d = true → valid_go 0 t = true → valid_go 0 (String d t) = true).
  { intros d t Hd Ht. simpl. unfold utf8_tail. by rewrite Hd. }
  assert (Hb : ∀ z, 0 ≤ z ≤ 127 → between 0 127 (chr z) = true).
  { intros z Hz. unfold between. rewrite ord_chr by lia. apply andb_true_iff. split; apply Z.leb_le; lia. }
  destruct (is_lower c || is_digit c) eqn:E1.
  { unfold is_lower, is_digit in E1. rewrite orb_true_iff, !andb_true_iff, !Z.leb_le in E1.
    apply Hone; [|done]. rewrite <-(chr_ord c). apply Hb. lia. }
  destruct (is_upper c) eqn:E2.
  { unfold is_upper in E2. rewrite andb_true_iff, !Z.leb_le in E2. apply Hone; [|done]. apply Hb. lia. }
  destruct b; [done|]. by apply Hone.
Qed.

Lemma Unix_add_le now d e : d ≤ e → Unix (Add now d) ≤ Unix (Add now e).
Proof using Type. intros. unfold Unix, Add. apply Z.sub_le_mono_r, Z.div_le_mono; [done|lia]. Qed.

(** A link's token expires a week after the window it promises. *)
Lemma click_window now d : 0 ≤ d < 2 ^ 60 → 0 < Unix now < 2 ^ 60 →
  Unix (Add now (add64 d clickBuffer)) = Unix (Add now d) + 604800 ∧
  in_int64 (Unix now) = true ∧ in_int64 (Unix (Add now (add64 d clickBuffer))) = true ∧
  in_int64 (Unix (Add now d)) = true.
Proof using Type.
  intros Hd Hn. unfold add64. rewrite wrap64_id by (change clickBuffer with 604800000000000; lia).
  assert (E : Unix (Add now (d + clickBuffer)) = Unix (Add now d) + 604800).
  { unfold Unix, Add. change clickBuffer with (604800 * Second).
    rewrite Z.add_assoc, Z.div_add by done. lia. }
  assert (Hb : Unix now ≤ Unix (Add now d) ≤ Unix now + 2 ^ 60).
  { split.
    - trans (Unix (Add now 0)); [|apply Unix_add_le; lia].
      unfold Add. by rewrite Z.add_0_r.
    - trans (Unix (Add now (2 ^ 60 * Second))); [apply Unix_add_le; change Second with 1000000000; lia|].
      unfold Unix, Add. rewrite Z.div_add by done. lia. }
  rewrite E. unfold in_int64, minInt64, maxInt64. rewrite !andb_true_iff, !Z.leb_le. lia.
Qed.

(** Requests whose strings are text, minted at a time and for windows in range. *)
Definition wf_request (req : SilenceLinkRequest) : bool :=
  ValidString (lr_Source req) && ValidString (lr_Subject req) && ValidString (lr_MessagePattern req).

Lemma wf_subject_claims req now : wf_request req = true → 0 ≤ ShortDur req < 2 ^ 60 →
  0 < Unix now < 2 ^ 60 → wf_silence (subject_claims req now) = true.
Proof using Type.
  unfold wf_request. intros Hw Hd Hn. and_true. destruct (click_window now _ Hd Hn) as (_ & H1' & H2' & H3').
  unfold wf_silence, subject_claims. cbn [s_Issuer s_Audience s_JTI s_IssuedAt s_ExpiresAt Scope
    Source s_Subject MessagePattern UntilUnix].
  rewrite H1', H2', H3'. repeat (apply andb_true_iff; split); try done.
  apply (valid_go_app 0 "sil-subj-"); [done|].
  apply valid_go_app; [apply sanitize_valid|]. apply (valid_go_app 0 "-"); [done|].
  apply valid_go_app; [apply sanitize_valid|]. apply (valid_go_app 0 "-"); [done|apply Itoa_valid].
Qed.
Lemma wf_class_claims req now : wf_request req = true → 0 ≤ LongDur req < 2 ^ 60 →
  0 < Unix now < 2 ^ 60 → wf_silence (class_claims req now) = true.
Proof using Type.
  unfold wf_request. intros Hw Hd Hn. and_true. destruct (click_window now _ Hd Hn) as (_ & H1' & H2' & H3').
  unfold wf_silence, class_claims. cbn [s_Issuer s_Audience s_JTI s_IssuedAt s_ExpiresAt Scope
    Source s_Subject MessagePattern UntilUnix].
  rewrite H1', H2', H3'. repeat (apply andb_true_iff; split); try done.
  apply (valid_go_app 0 "sil-class-"); [done|].
  apply valid_go_app; [apply sanitize_valid|]. apply (valid_go_app 0 "-"); [done|apply Itoa_valid].
Qed.

(** A signed silence token gives its claims back up to its expiry. *)
Lemma silence_token_valid priv kid c :
  len priv = 64%nat → wf_silence c = true →
  ∃ tok, SignSilenceToken priv kid c = inr tok ∧
    ∀ t, t ≤ s_ExpiresAt c → VerifySilenceToken t (Public priv) tok = inr c.
Proof using All.
  intros Hp Hw. destruct (silence_verified priv kid c Hp Hw) as (tok & Ht & Hv).
  exists tok. split; [done|]. intros t Hle. by rewrite Hv, bool_decide_eq_true_2 by auto.
Qed.

(** Minting links for a finding succeeds, and each token carries exactly
    the matcher and the window the link promises: the subject link the
    finding's source and subject for the short window, the class link the
    source alone for the long one; and each stays clickable for the whole
    of its window, and for a week after it. *)
Theorem minted_links priv kid baseURL req now :
  len priv = 64%nat → lr_Source req ≠ "" → baseURL ≠ "" → is_Some (base_Parse baseURL) →
  wf_request req = true → 0 ≤ ShortDur req < 2 ^ 60 → 0 ≤ LongDur req < 2 ^ 60 →
  0 < Unix now < 2 ^ 60 →
  ∃ u subjectTok classTok,
    base_Parse baseURL = Some u ∧
    MintSilenceLinks priv kid baseURL req now = inr (mkSilenceLinks
      (b_String u (joinURLPath (b_Path u) "/silence") subjectTok)
      (b_String u (joinURLPath (b_Path u) "/silence") classTok)) ∧
    (∀ t, t ≤ Unix (Add now (ShortDur req)) + 604800 →
      ∃ c, VerifySilenceToken t (Public priv) subjectTok = inr c ∧
        Scope c = SilenceScopeSubject ∧ Source c = lr_Source req ∧ s_Subject c = lr_Subject req ∧
        MessagePattern c = lr_MessagePattern req ∧ UntilUnix c = Unix (Add now (ShortDur req))) ∧
    (∀ t, t ≤ Unix (Add now (LongDur req)) + 604800 →
      ∃ c, VerifySilenceToken t (Public priv) classTok = inr c ∧
        Scope c = SilenceScopeClass ∧ Source c = lr_Source req ∧ s_Subject c = "" ∧
        MessagePattern c = lr_MessagePattern req ∧ UntilUnix c = Unix (Add now (LongDur req))).
Proof using All.
  intros Hp Hsrc Hbase [u Hu] Hw Hs Hl Hn.
  destruct (silence_token_valid priv kid _ Hp (wf_subject_claims _ _ Hw Hs Hn)) as (tok1 & Ht1 & Hv1).
  destruct (silence_token_valid priv kid _ Hp (wf_class_claims _ _ Hw Hl Hn)) as (tok2 & Ht2 & Hv2).
  destruct (click_window now _ Hs Hn) as [Es _], (click_window now _ Hl Hn) as [El _].
  exists u, tok1, tok2. split; [done|]. unfold MintSilenceLinks, silenceURL.
  rewrite !bool_decide_eq_false_2 by done. rewrite Ht1, Ht2, Hu. split; [done|].
  split; intros t Ht; eexists; (split; [apply Hv1 || apply Hv2|done]); cbn [s_ExpiresAt subject_claims class_claims]; lia.
Qed.
End minted.

(** ** Concrete instances *)

(** A signature that is the key followed by the message. *)
Definition toy_ed25519 : Ed25519 := {|
  Sign priv m := stake 32 priv +:+ m;
  Verify pub m sig := sig =s? pub +:+ m;
  Public priv := stake 32 priv |}.
Lemma toy_law : @Ed25519_Law toy_ed25519.
Proof.
  split; cbn [Verify Sign Public toy_ed25519].
  - intros priv m _. by rewrite bool_decide_eq_true_2.
  - intros priv Hp. by rewrite stake_length, Hp.
Qed.
Definition toy_url : SilenceUrlApi := {|
  BaseURL := string;
  base_Parse s := if HasPrefix s "https://" then Some s else None;
  b_Path _ := "";
  b_String u p t := u +:+ p +:+ "?token=" +:+ t |}.
Definition key16 : string := "0123456789abcdef".
Definition toy_priv : string := key16 +:+ key16 +:+ key16 +:+ key16.
Definition toy_now : Time := FromUnix 1700000000.
Definition toy_target : ObjectRef := mkObjectRef "Pod" "shop" "web-0".
Definition toy_claims : TokenClaims :=
  mkTokenClaims "srenix/approval-server" "srenix/executor" "act-1" "act-1" 1700000000 1700000900 0
    TierT1 ActionDeletePod toy_target "" 0 "Pod/shop/web-0".
Definition toy_silence : SilenceTokenClaims :=
  mkSilenceTokenClaims "srenix/approval-server" "srenix/silence" "sil-1" 1700000000 1700000900
    SilenceScopeSubject "pods" "Pod/shop/web-0" "" 1700086400.
Definition toy_runbook : VaultRunbook :=
  mkVaultRunbook "rb-7" "secret/app" ["password"] "vault kv patch secret/app password=${VALUE_1}"
    [] "the key is missing" toy_now (Add toy_now (90 * Minute)).
Definition toy_request : SilenceLinkRequest :=
  mkSilenceLinkRequest "pods" "Pod/shop/web-0" "" (24 * Hour) (2160 * Hour).


Lemma runbook_slots_witness :
  ∃ tok c, @SignRunbookApproval toy_ed25519 toy_now (mkSigner "k" toy_priv) toy_runbook 2 = inr tok ∧
    JTI c = "rb-7-slot2" ∧ t_RunbookID c = "rb-7" ∧ ApprovalSlot c = 2 ∧
    @VerifyToken toy_ed25519 1700001799 (@Public toy_ed25519 toy_priv) tok =
      if bool_decide (Unix toy_now + 1800 * (2 - 1) ≤ 1700001799 ≤ Unix (r_ExpiresAt toy_runbook))
      then inr c else inl (Sentinel ErrTokenExpired).
Proof.
  apply (@runbook_slots toy_ed25519 toy_law (mkSigner "k" toy_priv) toy_runbook 2 toy_now 1700001799);
    first [right; reflexivity | discriminate | vm_compute; reflexivity].
Defined.

(** The scheme that lets through one message alone. *)
Definition one_message (m0 : string) : Ed25519 := {|
  Sign _ m := m; Verify _ m _ := m =s? m0; Public p := p |}.
Definition only_toy : Ed25519 :=
  one_message (signing_input "k" (claims_json toy_claims)).
Definition toy_pub : string := key16 +:+ key16.
Definition toy_token : string := signing_input "k" (claims_json toy_claims) +:+ ".c2ln".

Lemma no_forged_claims_witness :
  @VerifyToken only_toy 1700000500 toy_pub toy_token = inr toy_claims ∧
  toy_claims ∈ [toy_claims] ∧
  (ExpiresAt toy_claims ≤ 0 ∨ 1700000500 ≤ ExpiresAt toy_claims) ∧
  (NotBefore toy_claims ≤ 0 ∨ NotBefore toy_claims ≤ 1700000500).
Proof.
  assert (Hv : @VerifyToken only_toy 1700000500 toy_pub toy_token = inr toy_claims)
    by (vm_compute; reflexivity).
  split; [exact Hv|].
  apply (@no_forged_claims only_toy 1700000500 toy_pub toy_token [toy_claims] toy_claims); [| |exact Hv].
  - intros m sig Hm. exists "k", toy_claims. split; [by left|].
    by apply bool_decide_eq_true in Hm.
  - intros c' ->%list_elem_of_singleton. vm_compute. reflexivity.
Defined.

Lemma minted_links_witness :
  ∃ u subjectTok classTok,
    @base_Parse toy_url "https://a.example" = Some u ∧
    @MintSilenceLinks toy_ed25519 toy_url toy_priv "k" "https://a.example" toy_request toy_now =
      inr (mkSilenceLinks
        (@b_String toy_url u (joinURLPath (@b_Path toy_url u) "/silence") subjectTok)
        (@b_String toy_url u (joinURLPath (@b_Path toy_url u) "/silence") classTok)) ∧
    (∀ t, t ≤ Unix (Add toy_now (ShortDur toy_request)) + 604800 →
      ∃ c, @VerifySilenceToken toy_ed25519 t (@Public toy_ed25519 toy_priv) subjectTok = inr c ∧
        Scope c = SilenceScopeSubject ∧ Source c = "pods" ∧ s_Subject c = "Pod/shop/web-0" ∧
        MessagePattern c = "" ∧ UntilUnix c = Unix (Add toy_now (ShortDur toy_request))) ∧
    (∀ t, t ≤ Unix (Add toy_now (LongDur toy_request)) + 604800 →
      ∃ c, @VerifySilenceToken toy_ed25519 t (@Public toy_ed25519 toy_priv) classTok = inr c ∧
        Scope c = SilenceScopeClass ∧ Source c = "pods" ∧ s_Subject c = "" ∧
        MessagePattern c = "" ∧ UntilUnix c = Unix (Add toy_now (LongDur toy_request))).
Proof.
  apply (@minted_links toy_ed25519 toy_law toy_url toy_priv "k" "https://a.example" toy_request toy_now);
    first [discriminate | vm_compute; reflexivity
      | vm_compute; split; [discriminate|reflexivity] | split; vm_compute; reflexivity
      | eexists; vm_compute; reflexivity].
Defined.
