(* ===== verification/AuditChain.v ===== *)
(** * The hash-chained audit trail: pkg/audit/hash_chain.go

    A [ChainedSink] stamps each event with the time and with the hash of the
    previous one, hashes its canonical JSON, and hands it to the inner sink.
    The sink's mutable fields are the record [ChainedSink]; the inner sink is
    the class [AuditSink]: a state, a write that can fail, and the log of the
    records written.  The [Details] map of an event is a Go map the caller
    shares: [Write] takes its contents and returns what the caller's map
    holds afterwards, whether or not the write succeeded.  The clock is a
    sequence of readings, one per call of [now]. *)

From stdpp Require Import options.
From S2P Require Import Prelude GoString GoTime Sha256 GoJson.

Local Open Scope Z_scope.

(** pkg/ai/interfaces.go *)
Record AuditEvent := mkAuditEvent {
  ev_Type : string;
  ev_CorrelationID : string;
  ev_Tier : string;
  ev_Actor : string;
  ev_Subject : string;
  ev_Details : option (gmap string json);
}.
Definition with_details (e : AuditEvent) (d : gmap string json) : AuditEvent :=
  mkAuditEvent (ev_Type e) (ev_CorrelationID e) (ev_Tier e) (ev_Actor e) (ev_Subject e) (Some d).

Definition EntryTimeKey : string := "entry_time".
Definition CheckpointType : string := "audit.checkpoint".
Definition defaultCheckpointEvery : Z := 100.

(** [SignCheckpoint]: the signature and the key identifier, or an error. *)
Definition CheckpointSigner := string → option (string * string).

Record ChainedSink := mkChainedSink {
  lastHash : string;
  signer : option CheckpointSigner;
  checkpointEvery : Z;
  sinceCheckpoint : Z;
  loggedNoSigner : bool;
  ticks : nat;  (* how often the clock has been read *)
}.
Definition NewChainedSink : ChainedSink := mkChainedSink "" None 0 0 false 0.
Definition NewChainedSinkResuming (resumeHash : string) (Signer : option CheckpointSigner)
    (CheckpointEvery : Z) : ChainedSink :=
  let every := if CheckpointEvery <=? 0 then defaultCheckpointEvery else CheckpointEvery in
  mkChainedSink resumeHash Signer every 0 false 0.

Definition set_lastHash (h : string) (c : ChainedSink) : ChainedSink :=
  mkChainedSink h (signer c) (checkpointEvery c) (sinceCheckpoint c) (loggedNoSigner c) (ticks c).
Definition set_since (n : Z) (c : ChainedSink) : ChainedSink :=
  mkChainedSink (lastHash c) (signer c) (checkpointEvery c) n (loggedNoSigner c) (ticks c).
Definition set_logged (c : ChainedSink) : ChainedSink :=
  mkChainedSink (lastHash c) (signer c) (checkpointEvery c) (sinceCheckpoint c) true (ticks c).
Definition tick (c : ChainedSink) : ChainedSink :=
  mkChainedSink (lastHash c) (signer c) (checkpointEvery c) (sinceCheckpoint c) (loggedNoSigner c)
    (S (ticks c)).

(** ** Canonical form *)

Definition details_member (d : option (gmap string json)) : list (string * json) :=
  match d with
  | None => []
  | Some d => if decide (d = ∅) then [] else [("details", JMap d)]
  end.
Definition event_json (e : AuditEvent) : json :=
  JObj ([("type", JStr (ev_Type e)); ("correlation_id", JStr (ev_CorrelationID e));
         ("tier", JStr (ev_Tier e)); ("actor", JStr (ev_Actor e))]
    ++ (if ev_Subject e =s? "" then [] else [("subject", JStr (ev_Subject e))])
    ++ details_member (ev_Details e)).
Definition canonicalJSON (e : AuditEvent) : option string := Marshal (event_json e).

(** ** The inner sink *)

(** A write either appends its record to the log or fails and leaves it. *)
Class AuditSink (S : Type) := {
  sink_Write : AuditEvent → S → bool * S;  (* true: an error *)
  sink_log : S → list AuditEvent;
  sink_Write_ok e s s' : sink_Write e s = (false, s') → sink_log s' = sink_log s ++ [e];
  sink_Write_err e s s' : sink_Write e s = (true, s') → sink_log s' = sink_log s;
}.

Inductive chain_error := MarshalError | SinkError.

Section chain.
Context {S : Type} `{AuditSink S} (clock : nat → Time).

(** What a chaining call leaves: its error, the caller's map, the states. *)
Record outcome := mkOutcome {
  o_err : option chain_error;
  o_details : gmap string json;
  o_chain : ChainedSink;
  o_store : S;
}.

Definition stampEntryTime (d : gmap string json) (c : ChainedSink) : gmap string json * ChainedSink :=
  match d !! EntryTimeKey with
  | Some _ => (d, c)
  | None => (<[EntryTimeKey := JStr (FormatRFC3339Nano (clock (ticks c)))]> d, tick c)
  end.

(** Steps 1 to 7 of chainEntryLocked. *)
Definition chain_link (e : AuditEvent) (d : gmap string json) (c : ChainedSink) (s : S) : outcome :=
  let '(d, c) := stampEntryTime d c in
  let d := <["prev_hash" := JStr (lastHash c)]> d in
  match canonicalJSON (with_details e d) with
  | None => mkOutcome (Some MarshalError) d c s
  | Some canon =>
      let newHash := sha256_hex canon in
      let d := <["entry_hash" := JStr newHash]> d in
      let '(err, s) := sink_Write (with_details e d) s in
      if err : bool then mkOutcome (Some SinkError) d c s
      else mkOutcome None d (set_lastHash newHash c) s
  end.

(** chainEntryLocked with countForCadence false. *)
Definition chain_checkpoint (e : AuditEvent) (d : gmap string json) (c : ChainedSink) (s : S) : outcome :=
  let o := chain_link e d c s in
  match o_err o with
  | Some _ => o
  | None => mkOutcome None (o_details o) (set_since 0 (o_chain o)) (o_store o)
  end.

Definition checkpoint_event : AuditEvent := mkAuditEvent CheckpointType "" "" "srenix/audit" "" None.
Definition writeCheckpointLocked (c : ChainedSink) (s : S) : ChainedSink * S :=
  let head := lastHash c in
  let d : gmap string json := {[ "checkpoint_head" := JStr head ]} in
  let '(d, c) :=
    match signer c with
    | Some sign =>
        match sign head with
        | Some (sig, kid) => (<["checkpoint_kid" := JStr kid]> (<["checkpoint_sig" := JStr sig]> d), c)
        | None => (d, set_logged c)
        end
    | None => (d, set_logged c)
    end in
  let o := chain_checkpoint checkpoint_event d c s in
  (o_chain o, o_store o).

(** chainEntryLocked with countForCadence true. *)
Definition chain_data (e : AuditEvent) (d : gmap string json) (c : ChainedSink) (s : S) : outcome :=
  let o := chain_link e d c s in
  match o_err o with
  | Some _ => o
  | None =>
      let c := o_chain o in
      if 0 <? checkpointEvery c then
        let c := set_since (sinceCheckpoint c + 1) c in
        if checkpointEvery c <=? sinceCheckpoint c then
          let '(c, s) := writeCheckpointLocked c (o_store o) in mkOutcome None (o_details o) c s
        else mkOutcome None (o_details o) c (o_store o)
      else o
  end.

Definition chainEntryLocked (e : AuditEvent) (d : gmap string json) (countForCadence : bool)
    (c : ChainedSink) (s : S) : outcome :=
  if countForCadence then chain_data e d c s else chain_checkpoint e d c s.

(** A nil map is replaced by a fresh one the caller does not see. *)
Definition Write (e : AuditEvent) (c : ChainedSink) (s : S)
    : option chain_error * AuditEvent * ChainedSink * S :=
  let o := chainEntryLocked e (default ∅ (ev_Details e)) true c s in
  let e' := match ev_Details e with Some _ => with_details e (o_details o) | None => e end in
  (o_err o, e', o_chain o, o_store o).

Definition WriteCheckpoint (c : ChainedSink) (s : S) : ChainedSink * S := writeCheckpointLocked c s.
Definition LastHash (c : ChainedSink) : string := lastHash c.
End chain.

(** ** The verifier *)

(** [v, _ := d[k].(string)]: the zero value when absent or of another type. *)
Definition get_string (d : gmap string json) (k : string) : string :=
  match d !! k with Some (JStr s) => s | _ => "" end.

Inductive verify_error := MissingDetails | VerifyMarshal.

Definition cloneAuditEvent (e : AuditEvent) : AuditEvent := e.

(** The loop of VerifyChain from entry [i] on. *)
Fixpoint verify_from (prev : string) (i : Z) (events : list AuditEvent) : Z * option verify_error :=
  match events with
  | [] => (-1, None)
  | e :: events =>
      match ev_Details e with
      | None => (i, Some MissingDetails)
      | Some d =>
          if get_string d "prev_hash" ≠s? prev then (i, None) else
          match canonicalJSON (with_details (cloneAuditEvent e) (delete "entry_hash" d)) with
          | None => (i, Some VerifyMarshal)
          | Some canon =>
              let stored := get_string d "entry_hash" in
              if sha256_hex canon ≠s? stored then (i, None) else verify_from stored (i + 1) events
          end
      end
  end.
Definition VerifyChain (events : list AuditEvent) : Z * option verify_error := verify_from "" 0 events.

Record ChainVerification := mkChainVerification {
  BrokenIndex : Z;
  LastCheckpointIndex : Z;
  TailAnchored : bool;
}.

Definition isSignedCheckpoint (e : AuditEvent) : bool :=
  match ev_Details e with
  | None => false
  | Some d => (ev_Type e =s? CheckpointType) && (get_string d "checkpoint_sig" ≠s? "")
  end.

(** The scan for the last checkpoint below [limit]. *)
Fixpoint last_checkpoint (i : Z) (acc : Z) (events : list AuditEvent) : Z :=
  match events with
  | [] => acc
  | e :: events => last_checkpoint (i + 1) (if ev_Type e =s? CheckpointType then i else acc) events
  end.

Definition VerifyChainWithCheckpoints (events : list AuditEvent) : ChainVerification :=
  let idx := (VerifyChain events).1 in
  let broken := if 0 <=? idx then idx else -1 in
  let limit := if 0 <=? broken then Z.to_nat broken else length events in
  let lastcp := last_checkpoint 0 (-1) (take limit events) in
  if 0 <=? broken then mkChainVerification broken lastcp false
  else if lastcp <? 0 then mkChainVerification broken lastcp false
  else
    let anchored :=
      match last events with
      | Some e => (ev_Type e =s? CheckpointType) && isSignedCheckpoint e
      | None => false
      end in
    mkChainVerification broken lastcp anchored.

(** ** What a verified log is *)

(** The entry [e] continues a chain whose head is [prev]. *)
Definition link_ok (prev : string) (e : AuditEvent) : Prop :=
  ∃ d canon, ev_Details e = Some d ∧ get_string d "prev_hash" = prev ∧
    canonicalJSON (with_details e (delete "entry_hash" d)) = Some canon ∧
    sha256_hex canon = get_string d "entry_hash".
Definition entry_hash (e : AuditEvent) : string :=
  match ev_Details e with Some d => get_string d "entry_hash" | None => "" end.
(** The head of a log, starting from [prev]. *)
Definition head_of (prev : string) (l : list AuditEvent) : string := foldl (λ _ e, entry_hash e) prev l.
Fixpoint linked (prev : string) (l : list AuditEvent) : Prop :=
  match l with [] => True | e :: l => link_ok prev e ∧ linked (entry_hash e) l end.

Lemma head_of_snoc prev l e : head_of prev (l ++ [e]) = entry_hash e.
Proof. unfold head_of. by rewrite foldl_app. Qed.
Lemma linked_app prev l k : linked prev (l ++ k) ↔ linked prev l ∧ linked (head_of prev l) k.
Proof.
  revert prev. induction l as [|e l IH]; intros prev; simpl; [tauto|]. rewrite IH. unfold head_of. simpl. tauto.
Qed.
Lemma linked_snoc prev l e : linked prev (l ++ [e]) ↔ linked prev l ∧ link_ok (head_of prev l) e.
Proof. rewrite linked_app. simpl. tauto. Qed.

(** One step of the verifier's loop. *)
Lemma verify_from_cons prev i e l :
  (link_ok prev e ∧ verify_from prev i (e :: l) = verify_from (entry_hash e) (i + 1) l) ∨
  (¬ link_ok prev e ∧ (verify_from prev i (e :: l)).1 = i).
Proof.
  cbn [verify_from]. unfold link_ok, entry_hash, cloneAuditEvent.
  destruct (ev_Details e) as [d|]; [|right; by split; [intros (?&?&?&_)|]].
  case_bool_decide as Hp; simpl; [|right; split; [intros (?&?&?&?&_); congruence|done]].
  destruct (canonicalJSON _) as [canon|] eqn:Ec;
    [|right; split; [intros (?&?&?&?&?&_); congruence|done]].
  case_bool_decide as Hs; simpl; [left|right; split; [intros (?&?&?&?&?&?); congruence|done]].
  split; [by exists d, canon|done].
Qed.

Lemma verify_from_spec prev i l : 0 ≤ i →
  verify_from prev i l = (-1, None) ∧ linked prev l ∨
  ∃ n, (verify_from prev i l).1 = i + Z.of_nat n ∧ (n < length l)%nat ∧
    linked prev (take n l) ∧ ¬ linked prev (take (S n) l).
Proof.
  revert prev i. induction l as [|e l IH]; intros prev i Hi; [by left|].
  destruct (verify_from_cons prev i e l) as [[Hl ->]|[Hl ->]].
  - destruct (IH (entry_hash e) (i + 1)) as [[H1 H2]|(n & H1 & H2 & H3 & H4)]; [lia|by left|].
    right. exists (S n). rewrite H1. simpl in *. repeat split; try done; try lia. tauto.
  - right. exists 0%nat. simpl. repeat split; try lia. tauto.
Qed.

Lemma VerifyChain_intact l : VerifyChain l = (-1, None) ↔ linked "" l.
Proof.
  unfold VerifyChain. destruct (verify_from_spec "" 0 l) as [[-> ?]|(n & H1 & _ & H3 & H4)]; [lia|done|].
  split; [intros E; rewrite E in H1; simpl in H1; lia|].
  intros Hl. destruct H4. rewrite <-(take_drop (S n) l), linked_app in Hl. tauto.
Qed.

(** The verifier answers -1 exactly on a log every entry of which names
    the hash of the entry before it and hashes, without its own hash field,
    to that field; otherwise it answers the first entry that does not. *)
Theorem VerifyChain_correct l :
  (VerifyChain l = (-1, None) ↔ linked "" l) ∧
  ((VerifyChain l).1 ≠ -1 → ∃ n, (VerifyChain l).1 = Z.of_nat n ∧ (n < length l)%nat ∧
    linked "" (take n l) ∧ ¬ linked "" (take (S n) l)).
Proof.
  split; [apply VerifyChain_intact|]. unfold VerifyChain.
  destruct (verify_from_spec "" 0 l) as [[-> ?]|(n & H1 & ?)]; [lia|done|]. eauto.
Qed.

(** ** The writer keeps the log verifiable *)

Lemma get_string_insert d k s : get_string (<[k := JStr s]> d) k = s.
Proof. unfold get_string. by rewrite lookup_insert_eq. Qed.
Lemma get_string_insert_ne d k k' v : k ≠ k' → get_string (<[k := v]> d) k' = get_string d k'.
Proof. intros. unfold get_string. by rewrite lookup_insert_ne. Qed.

Section writer.
Context {S : Type} `{AuditSink S} (clock : nat → Time).

Lemma stampEntryTime_fresh d c : d !! "entry_hash" = None →
  (stampEntryTime clock d c).1 !! "entry_hash" = None.
Proof.
  unfold stampEntryTime. intros Hd. destruct (d !! EntryTimeKey); [done|].
  cbn [fst]. rewrite lookup_insert_ne; done.
Qed.
Lemma stampEntryTime_chain d c : let c' := (stampEntryTime clock d c).2 in
  lastHash c' = lastHash c ∧ sinceCheckpoint c' = sinceCheckpoint c ∧
  checkpointEvery c' = checkpointEvery c ∧ signer c' = signer c.
Proof. unfold stampEntryTime. by destruct (d !! EntryTimeKey). Qed.

(** What one chaining step does to the log and to the head. *)
Lemma chain_link_spec e d c s o : d !! "entry_hash" = None → chain_link clock e d c s = o →
  (o_err o = None ∧ ∃ r, sink_log (o_store o) = sink_log s ++ [r] ∧ ev_Type r = ev_Type e ∧
    link_ok (lastHash c) r ∧ entry_hash r = lastHash (o_chain o) ∧
    (∀ k, k ∉ [EntryTimeKey; "prev_hash"; "entry_hash"] →
      default ∅ (ev_Details r) !! k = d !! k)) ∨
  (o_err o ≠ None ∧ sink_log (o_store o) = sink_log s ∧ lastHash (o_chain o) = lastHash c).
Proof.
  intros Hd <-. unfold chain_link. pose proof (stampEntryTime_fresh d c Hd) as Hd1.
  pose proof (stampEntryTime_chain d c) as (Hl & _).
  assert (Hk : ∀ k, k ≠ EntryTimeKey → (stampEntryTime clock d c).1 !! k = d !! k).
  { intros k Hk. unfold stampEntryTime. destruct (d !! EntryTimeKey); [done|]. by apply lookup_insert_ne. }
  destruct (stampEntryTime clock d c) as [d1 c1]. cbn [fst snd] in *. rewrite Hl.
  set (d2 := <["prev_hash" := JStr (lastHash c)]> d1).
  destruct (canonicalJSON (with_details e d2)) as [canon|] eqn:Ec; [|by right].
  set (d3 := <["entry_hash" := JStr (sha256_hex canon)]> d2).
  destruct (sink_Write (with_details e d3) s) as [[] s'] eqn:Ew; 
    [right; cbn; pose proof (sink_Write_err _ _ _ Ew); naive_solver|left].
  split; [done|]. exists (with_details e d3). cbn [o_store o_chain].
  rewrite (sink_Write_ok _ _ _ Ew). repeat split.
  - exists d3, canon. split; [done|]. unfold d3, d2.
    rewrite get_string_insert_ne, get_string_insert by done. split; [done|].
    rewrite delete_insert_id; [|by rewrite lookup_insert_ne]. split; [done|].
    by rewrite get_string_insert.
  - cbn [entry_hash ev_Details with_details]. unfold entry_hash. cbn. unfold d3. by rewrite get_string_insert.
  - intros k Hin. change (default ∅ (ev_Details (with_details e d3))) with d3.
    unfold d3, d2. set_unfold in Hin.
    rewrite !lookup_insert_ne by naive_solver. apply Hk. naive_solver.
Qed.

(** The chain state [c] describes the log of [s]. *)
Definition chain_inv (c : ChainedSink) (s : S) : Prop :=
  linked "" (sink_log s) ∧ head_of "" (sink_log s) = lastHash c.

Lemma chain_link_inv e d c s : d !! "entry_hash" = None → chain_inv c s →
  chain_inv (o_chain (chain_link clock e d c s)) (o_store (chain_link clock e d c s)).
Proof.
  intros Hd [Hl Hh]. unfold chain_inv.
  destruct (chain_link_spec e d c s _ Hd eq_refl) as [(_ & r & Hlog & _ & Hr & Hhash & _)|(_ & Hlog & Hhash)];
    rewrite Hlog; [|by rewrite Hhash].
  rewrite linked_snoc, head_of_snoc, Hh. by split.
Qed.

Lemma chain_inv_ext c c' s : lastHash c' = lastHash c → chain_inv c s → chain_inv c' s.
Proof. unfold chain_inv. by intros ->. Qed.

(** The map a checkpoint is written with. *)
Lemma checkpoint_inv c s : chain_inv c s →
  chain_inv (writeCheckpointLocked clock c s).1 (writeCheckpointLocked clock c s).2.
Proof.
  intros Hi. unfold writeCheckpointLocked.
  set (dc := match signer c with Some _ => _ | None => _ end).
  assert (Hdc : dc.1 !! "entry_hash" = None ∧ lastHash dc.2 = lastHash c).
  { unfold dc. destruct (signer c) as [sign|]; [destruct (sign (lastHash c)) as [[sig k]|]|]; done. }
  destruct dc as [d c1]. destruct Hdc as [Hd Hl]. cbn [fst snd] in *.
  pose proof (chain_link_inv checkpoint_event d c1 s Hd (chain_inv_ext _ _ _ Hl Hi)) as Hn.
  unfold chain_checkpoint. by destruct (o_err _).
Qed.

Lemma chain_data_inv e d c s : d !! "entry_hash" = None → chain_inv c s →
  chain_inv (o_chain (chain_data clock e d c s)) (o_store (chain_data clock e d c s)).
Proof.
  intros Hd Hi. pose proof (chain_link_inv e d c s Hd Hi) as Hn. unfold chain_data.
  destruct (o_err _); [done|]. destruct (0 <? _); [|done].
  destruct (_ <=? _); [|done].
  set (c2 := set_since _ _). pose proof (checkpoint_inv c2 (o_store (chain_link clock e d c s))) as Hc.
  destruct (writeCheckpointLocked clock c2 _). by apply Hc.
Qed.

(** The calls a process makes on its sink. *)
Inductive audit_op := OpWrite (e : AuditEvent) | OpCheckpoint.
Definition audit_step (cs : ChainedSink * S) (op : audit_op) : ChainedSink * S :=
  match op with
  | OpWrite e => let '(_, _, c, s) := Write clock e cs.1 cs.2 in (c, s)
  | OpCheckpoint => WriteCheckpoint clock cs.1 cs.2
  end.
(** An event whose map has not been chained before. *)
Definition fresh_op (op : audit_op) : Prop :=
  match op with OpWrite e => default ∅ (ev_Details e) !! "entry_hash" = None | OpCheckpoint => True end.

Lemma audit_step_inv cs op : fresh_op op → chain_inv cs.1 cs.2 →
  chain_inv (audit_step cs op).1 (audit_step cs op).2.
Proof.
  destruct op as [e|]; intros Hf Hi; [|by apply checkpoint_inv].
  by apply chain_data_inv.
Qed.
Lemma audit_run_inv ops cs : Forall fresh_op ops → chain_inv cs.1 cs.2 →
  chain_inv (foldl audit_step cs ops).1 (foldl audit_step cs ops).2.
Proof.
  intros Hf. revert cs. induction Hf as [|op ops Hop _ IH]; intros cs Hi; [done|].
  by apply IH, audit_step_inv.
Qed.

End writer.

(** ** The tail anchor *)

Section anchor.
Context {S : Type} `{AuditSink S} (clock : nat → Time).

Lemma last_checkpoint_snoc i acc l e : ev_Type e = CheckpointType →
  last_checkpoint i acc (l ++ [e]) = i + Z.of_nat (length l).
Proof using Type.
  intros He. revert i acc. induction l as [|x l IH]; intros i acc; simpl.
  - rewrite bool_decide_eq_true_2 by done. lia.
  - rewrite IH. lia.
Qed.

(** A verified log that ends in a signed checkpoint is anchored there. *)
Lemma VerifyChainWithCheckpoints_anchored l e d :
  linked "" (l ++ [e]) → ev_Type e = CheckpointType → ev_Details e = Some d →
  get_string d "checkpoint_sig" ≠ "" →
  VerifyChainWithCheckpoints (l ++ [e]) = mkChainVerification (-1) (Z.of_nat (length l)) true.
Proof using Type.
  intros Hl Ht Hd Hs. unfold VerifyChainWithCheckpoints.
  rewrite (proj2 (VerifyChain_intact _) Hl). cbn [fst Z.leb Z.compare].
  rewrite firstn_all, last_checkpoint_snoc by done. destruct (Z.ltb_spec (0 + Z.of_nat (length l)) 0); [lia|].
  rewrite last_snoc. unfold isSignedCheckpoint. rewrite Ht, Hd.
  rewrite !bool_decide_eq_true_2 by done. by rewrite bool_decide_eq_false_2.
Qed.

Lemma checkpoint_supported (d : gmap string json) :
  (∀ k v, d !! k = Some v → supported v = true) →
  canonicalJSON (with_details checkpoint_event d) ≠ None.
Proof using Type.
  intros Hd. unfold canonicalJSON, Marshal.
  assert (supported (event_json (with_details checkpoint_event d)) = true) as ->; [|done].
  unfold event_json, details_member. cbn [with_details ev_Details ev_Subject checkpoint_event supported].
  rewrite forallb_app. cbn [forallb]. case_decide; [done|]. simpl. rewrite andb_true_r.
  apply forallb_elem. intros [k v]. rewrite merge_sort_Permutation, elem_of_map_to_list. apply Hd.
Qed.

(** Such a checkpoint is written whenever the inner sink takes it. *)
Lemma checkpoint_link_ok d c s :
  (∀ k v, d !! k = Some v → supported v = true) → (∀ e, (sink_Write e s).1 = false) →
  o_err (chain_link clock checkpoint_event d c s) = None.
Proof using Type.
  intros Hsup Hsink. unfold chain_link.
  destruct (stampEntryTime clock d c) as [d1 c1] eqn:Es.
  destruct (canonicalJSON _) as [canon|] eqn:Ec.
  - set (e := with_details _ (<["entry_hash" := _]> _)). specialize (Hsink e).
    by destruct (sink_Write e s) as [[] s'].
  - exfalso. revert Ec. apply checkpoint_supported.
    assert (Hd1 : ∀ k v, d1 !! k = Some v → supported v = true).
    { revert Es. unfold stampEntryTime. destruct (d !! EntryTimeKey); intros [= <- _]; [exact Hsup|].
      intros k' v. rewrite lookup_insert_Some. intros [[_ <-]|[_ Hv]]; [done|by eapply Hsup]. }
    intros k' v. rewrite lookup_insert_Some. intros [[_ <-]|[_ Hv]]; [done|by eapply Hd1].
Qed.

(** When the signer signs the head and the inner sink takes the record,
    [WriteCheckpoint] leaves a log whose tail is anchored: the verifier
    finds no break, the last checkpoint at the end, and a signature on it. *)
Theorem checkpoint_anchors c s sign sig k :
  linked "" (sink_log s) → head_of "" (sink_log s) = lastHash c →
  signer c = Some sign → sign (lastHash c) = Some (sig, k) → sig ≠ "" →
  (∀ e, (sink_Write e s).1 = false) →
  let '(c', s') := WriteCheckpoint clock c s in
  sinceCheckpoint c' = 0 ∧
  VerifyChainWithCheckpoints (sink_log s') =
    mkChainVerification (-1) (Z.of_nat (length (sink_log s))) true.
Proof using Type.
  intros Hl Hh Hs Hsig Hne Hsink.
  assert (Hnin : "checkpoint_sig" ∉ [EntryTimeKey; "prev_hash"; "entry_hash"])
    by (apply (bool_decide_unpack _); reflexivity).
  unfold WriteCheckpoint, writeCheckpointLocked. rewrite Hs, Hsig.
  set (d := <["checkpoint_kid" := JStr k]> (<["checkpoint_sig" := JStr sig]> _)).
  assert (Hfresh : d !! "entry_hash" = None) by done.
  assert (Hsg : get_string d "checkpoint_sig" = sig).
  { unfold d. by rewrite get_string_insert_ne, get_string_insert. }
  assert (Hsup : ∀ k v, d !! k = Some v → supported v = true).
  { unfold d. intros k' v. rewrite !lookup_insert_Some, lookup_singleton_Some. intros Hv.
    repeat match goal with Hv : _ ∨ _ |- _ => destruct Hv | Hv : _ ∧ _ |- _ => destruct Hv end; 
    match goal with E : _ = v |- _ => by rewrite <-E end. }
  destruct (chain_link_spec clock checkpoint_event d c s _ Hfresh eq_refl)
    as [(He & r & Hlog & Ht & Hr & _ & Hk)|(He & _)].
  - unfold chain_checkpoint. rewrite He. cbn [o_chain o_store]. split; [done|]. rewrite Hlog.
    pose proof Hr as (dr & canon & Hdr & _). eapply VerifyChainWithCheckpoints_anchored; [|done|done|].
    + rewrite linked_snoc, Hh. by split.
    + specialize (Hk _ Hnin). rewrite Hdr in Hk. unfold get_string in *. cbn [default from_option id] in Hk.
      by rewrite Hk, Hsg.
  - by destruct He; apply checkpoint_link_ok.
Qed.

(** *** The cadence *)

(** The data events after the last checkpoint of a log. *)
Definition tail_data (l : list AuditEvent) : Z :=
  foldl (λ n e, if ev_Type e =s? CheckpointType then 0 else n + 1) 0 l.
Lemma tail_data_snoc l e :
  tail_data (l ++ [e]) = if ev_Type e =s? CheckpointType then 0 else tail_data l + 1.
Proof using Type. unfold tail_data. by rewrite foldl_app. Qed.

Lemma chain_link_fields e d c s : let c' := o_chain (chain_link clock e d c s) in
  sinceCheckpoint c' = sinceCheckpoint c ∧ checkpointEvery c' = checkpointEvery c.
Proof using Type.
  unfold chain_link. pose proof (stampEntryTime_chain clock d c) as (_ & H1 & H2 & _).
  destruct (stampEntryTime clock d c) as [d1 c1]. cbn [snd] in *.
  destruct (canonicalJSON _); [|done]. by destruct (sink_Write _ _) as [[] ?].
Qed.

(** The chain after a resume at [log0]: the counter is the tail of what was
    written since, and below the cadence. *)
Definition cadence_inv (log0 : list AuditEvent) (every : Z) (cs : ChainedSink * S) : Prop :=
  ∃ l, sink_log cs.2 = log0 ++ l ∧ sinceCheckpoint cs.1 = tail_data l ∧
    checkpointEvery cs.1 = every ∧ 0 ≤ tail_data l < every.

Lemma writeCheckpoint_spec c s : (∀ e s, (sink_Write e s).1 = false) →
  let cs := writeCheckpointLocked clock c s in
  (∃ r, sink_log cs.2 = sink_log s ++ [r] ∧ ev_Type r = CheckpointType) ∧
  sinceCheckpoint cs.1 = 0 ∧ checkpointEvery cs.1 = checkpointEvery c.
Proof using Type.
  intros Hsink. unfold writeCheckpointLocked.
  set (dc := match signer c with Some _ => _ | None => _ end).
  assert (Hdc : dc.1 !! "entry_hash" = None ∧ checkpointEvery dc.2 = checkpointEvery c ∧
    ∀ k v, dc.1 !! k = Some v → supported v = true).
  { unfold dc. destruct (signer c) as [sign|]; [destruct (sign (lastHash c)) as [[sig k]|]|];
    (split; [done|]; split; [done|]); intros k' v; cbn [fst];
    rewrite ?lookup_insert_Some, lookup_singleton_Some;
    intros Hv; repeat match goal with
      | Hv : _ ∨ _ |- _ => destruct Hv | Hv : _ ∧ _ |- _ => destruct Hv end; by subst. }
  destruct dc as [d c1]. destruct Hdc as (Hd & He & Hsup). cbn [fst snd] in *.
  pose proof (checkpoint_link_ok d c1 s Hsup (λ e, Hsink e s)) as Hok.
  pose proof (chain_link_fields checkpoint_event d c1 s) as [_ Hev].
  destruct (chain_link_spec clock checkpoint_event d c1 s _ Hd eq_refl)
    as [(_ & r & Hlog & Ht & _)|[]]; [|done].
  unfold chain_checkpoint. rewrite Hok. cbn [o_chain o_store fst snd set_since sinceCheckpoint checkpointEvery].
  rewrite Hlog, Hev, He. eauto.
Qed.

Lemma audit_step_cadence log0 every cs op :
  (∀ e s, (sink_Write e s).1 = false) → fresh_op op →
  (∀ e, op = OpWrite e → ev_Type e ≠ CheckpointType) → 0 < every →
  cadence_inv log0 every cs → cadence_inv log0 every (audit_step clock cs op).
Proof using Type.
  intros Hsink Hf Ht Hpos (l & Hlog & Hsince & Hev & Hb). destruct cs as [c s]. cbn [fst snd] in *.
  assert (Hcp : ∀ c s l, sink_log s = log0 ++ l → checkpointEvery c = every →
    cadence_inv log0 every (writeCheckpointLocked clock c s)).
  { intros c1 s1 l1 Hl1 He1. destruct (writeCheckpoint_spec c1 s1 Hsink) as ((r & Hr & Hrt) & H1 & H2).
    exists (l1 ++ [r]). rewrite Hr, Hl1, <-app_assoc, tail_data_snoc, bool_decide_eq_true_2, H1, H2 by done.
    repeat split; lia. }
  destruct op as [e|]; [|by eapply Hcp]. cbn [audit_step fst snd]. unfold Write, chainEntryLocked, chain_data.
  pose proof (chain_link_fields e (default ∅ (ev_Details e)) c s) as [Hs1 He1].
  destruct (chain_link_spec clock e (default ∅ (ev_Details e)) c s _ Hf eq_refl)
    as [(He & r & Hr & Hrt & _)|(He & Hr & _)].
  2:{ destruct (o_err _); [|done]. exists l. cbn [fst snd]. rewrite Hr, Hs1, He1. repeat split; done || lia. }
  rewrite He, He1, Hev. destruct (Z.ltb_spec 0 every); [|lia].
  assert (Htl : tail_data (l ++ [r]) = sinceCheckpoint c + 1).
  { rewrite tail_data_snoc, bool_decide_eq_false_2, Hsince by (rewrite Hrt; eauto). done. }
  cbn [sinceCheckpoint checkpointEvery set_since]. rewrite He1, Hev, Hs1.
  destruct (Z.leb_spec every (sinceCheckpoint c + 1)).
  - set (c2 := set_since _ _).
    pose proof (Hcp c2 (o_store (chain_link clock e (default ∅ (ev_Details e)) c s)) (l ++ [r])) as Hc.
    destruct (writeCheckpointLocked clock c2 _) as [c3 s3]. apply Hc; [by rewrite Hr, Hlog, app_assoc|].
    unfold c2. cbn [set_since checkpointEvery]. by rewrite He1.
  - exists (l ++ [r]). cbn [o_chain o_store fst snd set_since sinceCheckpoint checkpointEvery].
    rewrite Hr, Hlog, app_assoc, Htl, He1. repeat split; try done; lia.
Qed.

(** Over a sink that never refuses a record, at most [every - 1] data
    events (99 by default) ever follow the last checkpoint of what the
    process wrote. *)
Theorem checkpoint_cadence ops s0 sgn n :
  (∀ e s, (sink_Write e s).1 = false) → Forall fresh_op ops →
  (∀ e, OpWrite e ∈ ops → ev_Type e ≠ CheckpointType) →
  let c0 := NewChainedSinkResuming (head_of "" (sink_log s0)) sgn n in
  let cs := foldl (audit_step clock) (c0, s0) ops in
  ∃ l, sink_log cs.2 = sink_log s0 ++ l ∧ tail_data l < (if n <=? 0 then 100 else n).
Proof using Type.
  intros Hsink Hf Ht c0 cs. set (every := if n <=? 0 then 100 else n).
  assert (Hpos : 0 < every) by (unfold every; destruct (Z.leb_spec n 0); lia).
  assert (Hi : cadence_inv (sink_log s0) every (c0, s0)).
  { exists []. rewrite app_nil_r. repeat split; try done. }
  assert (Hn : cadence_inv (sink_log s0) every cs).
  { unfold cs. clear cs. revert Hi. generalize (c0, s0) as cs. revert Ht.
    induction Hf as [|op ops Hop _ IH]; intros Ht cs Hi; [done|]. cbn [foldl]. apply IH; [set_solver|].
    apply audit_step_cadence; try done. intros e ->. apply Ht. by left. }
  destruct Hn as (l & Hl & _ & _ & Hb). exists l. split; [done|lia].
Qed.
End anchor.

(** ** Tampering *)

Definition wf_details (d : gmap string json) : Prop :=
  map_Forall (λ k v, ValidString k = true ∧ wf_json v = true) d.
(** An event whose strings are valid UTF-8 and whose values marshal. *)
Definition wf_event (e : AuditEvent) : Prop :=
  ValidString (ev_Type e) = true ∧ ValidString (ev_CorrelationID e) = true ∧
  ValidString (ev_Tier e) = true ∧ ValidString (ev_Actor e) = true ∧
  ValidString (ev_Subject e) = true ∧ wf_details (default ∅ (ev_Details e)).

Lemma JMap_inj m m' : JMap m = JMap m' → m = m'.
Proof.
  intros E. apply map_to_list_inj.
  rewrite <-(merge_sort_Permutation key_le (map_to_list m)), <-(merge_sort_Permutation key_le (map_to_list m')).
  unfold JMap in E. by injection E as ->.
Qed.
Lemma wf_JMap d : wf_details d → wf_json (JMap d) = true.
Proof.
  intros Hd. unfold JMap. cbn [wf_json]. apply forallb_elem. intros [k v].
  rewrite merge_sort_Permutation, elem_of_map_to_list. intros Hk.
  destruct (Hd k v Hk) as [H1 H2]. cbn [fst snd]. by rewrite H1, H2.
Qed.

Lemma wf_event_json e d : wf_event (with_details e d) → wf_json (event_json (with_details e d)) = true.
Proof.
  intros (H1 & H2 & H3 & H4 & H5 & H6). unfold event_json, details_member.
  cbn [with_details ev_Type ev_CorrelationID ev_Tier ev_Actor ev_Subject ev_Details] in *.
  cbn [wf_json]. rewrite !forallb_app. cbn [forallb fst snd wf_json]. rewrite H1, H2, H3, H4.
  apply wf_JMap in H6. cbn [default from_option id] in H6.
  case_bool_decide; case_decide; cbn [forallb fst snd wf_json] in *; rewrite ?H5, ?H6; done.
Qed.

Lemma details_member_inj d d' : details_member (Some d) = details_member (Some d') → d = d'.
Proof.
  unfold details_member. destruct (decide (d = ∅)) as [->|], (decide (d' = ∅)) as [->|]; try done.
  intros [= E]. apply JMap_inj. unfold JMap. by rewrite E.
Qed.

(** The canonical form determines the event. *)
Lemma event_json_inj e e' d d' :
  event_json (with_details e d) = event_json (with_details e' d') →
  with_details e d = with_details e' d'.
Proof.
  unfold event_json. intros E.
  cbn [with_details ev_Type ev_CorrelationID ev_Tier ev_Actor ev_Subject ev_Details] in E.
  pose proof (details_member_inj d d') as Hinj.
  assert (Hk : ∀ d, ∀ kv, kv ∈ details_member (Some d) → kv.1 = "details").
  { intros d0 kv. unfold details_member.
    destruct (decide (d0 = ∅)); [by intros ?%elem_of_nil|].
    by intros ->%list_elem_of_singleton. }
  remember (details_member (Some d)) as l eqn:El. remember (details_member (Some d')) as l' eqn:El'.
  assert (Hl : ∀ kv, kv ∈ l → kv.1 = "details") by (subst; apply Hk).
  assert (Hl' : ∀ kv, kv ∈ l' → kv.1 = "details") by (subst; apply Hk). clear Hk El El'.
  unfold with_details. injection E as E1 E2 E3 E4 E5. rewrite E1, E2, E3, E4.
  revert E5. repeat case_bool_decide; cbn [app]; intros E5.
  - f_equal; [congruence|]. f_equal. auto.
  - exfalso. subst l. specialize (Hl _ (list_elem_of_here _ _)). done.
  - exfalso. subst l'. specialize (Hl' _ (list_elem_of_here _ _)). done.
  - injection E5 as -> E5. f_equal. f_equal. auto.
Qed.

Lemma canonicalJSON_inj e e' d d' c :
  wf_event (with_details e d) → wf_event (with_details e' d') →
  canonicalJSON (with_details e d) = Some c → canonicalJSON (with_details e' d') = Some c →
  with_details e d = with_details e' d'.
Proof.
  intros Hw Hw' Hc Hc'. apply event_json_inj. unfold canonicalJSON, Marshal in *.
  apply wf_event_json in Hw, Hw'. rewrite !wf_supported in Hc, Hc' by done.
  apply encode_inj; [done|done|]. congruence.
Qed.

(** Two different messages with one digest. *)
Definition sha256_collision : Prop := ∃ x y, x ≠ y ∧ Sum256 x = Sum256 y.

Lemma wf_event_delete e d : wf_event e → ev_Details e = Some d →
  wf_event (with_details e (delete "entry_hash" d)).
Proof.
  intros (? & ? & ? & ? & ? & Hd) Ed. rewrite Ed in Hd. do 5 (split; [done|]).
  intros k v Hk. cbn [with_details ev_Details default from_option id] in Hk.
  apply lookup_delete_Some in Hk as [_ Hk]. by apply (Hd k v Hk).
Qed.

(** Equal self-hashes of two links: the same entry, or a collision. *)
Lemma link_hash_inj p p' e e' : wf_event e → wf_event e' → link_ok p e → link_ok p' e' →
  entry_hash e = entry_hash e' → (e = e' ∧ p = p') ∨ sha256_collision.
Proof.
  intros Hw Hw' (d & c & Hd & Hp & Hc & Hh) (d' & c' & Hd' & Hp' & Hc' & Hh') E.
  unfold entry_hash in E. rewrite Hd, Hd', <-Hh, <-Hh' in E.
  unfold sha256_hex in E. apply (inj hex_encode) in E.
  destruct (decide (c = c')) as [<-|Hne]; [left|right; by exists c, c'].
  pose proof (canonicalJSON_inj _ _ _ _ _ (wf_event_delete _ _ Hw Hd) (wf_event_delete _ _ Hw' Hd') Hc Hc') as Ee.
  unfold with_details in Ee. injection Ee as E1 E2 E3 E4 E5 E6.
  assert (Edd : d = d').
  { apply map_eq. intros k. destruct (decide (k = "entry_hash")) as [->|Hk].
    - assert (Hs : ∀ d, get_string d "entry_hash" = sha256_hex c → d !! "entry_hash" = Some (JStr (sha256_hex c))).
      { intros d0 Hg. unfold get_string in Hg.
        assert (Hlen : sha256_hex c ≠ "").
        { intros H0. apply (f_equal len) in H0. unfold sha256_hex in H0.
          by rewrite hex_encode_length, Sum256_length in H0. }
        destruct (d0 !! "entry_hash") as [[]|]; congruence. }
      by rewrite !Hs.
    - apply (f_equal (λ m : gmap string json, m !! k)) in E6. by rewrite !lookup_delete_ne in E6. }
  subst d'. destruct e, e'; simpl in *; subst. split; [by simplify_eq|congruence].
Qed.

Lemma link_ok_hash_nonempty p e : link_ok p e → entry_hash e ≠ "".
Proof.
  intros (d & c & Hd & _ & _ & Hh) E. unfold entry_hash in E. rewrite Hd, <-Hh in E.
  apply (f_equal len) in E. unfold sha256_hex in E. by rewrite hex_encode_length, Sum256_length in E.
Qed.


(** ** Concrete inputs *)

(** A sink that refuses the writes its schedule marks. *)
Definition sched_Write (e : AuditEvent) (s : list AuditEvent * list bool)
    : bool * (list AuditEvent * list bool) :=
  match s.2 with
  | true :: r => (true, (s.1, r))
  | _ :: r => (false, (s.1 ++ [e], r))
  | [] => (false, (s.1 ++ [e], []))
  end.
#[export] Program Instance sched_sink : AuditSink (list AuditEvent * list bool) :=
  {| sink_Write := sched_Write; sink_log := fst |}.
Next Obligation. unfold sched_Write. intros e [l [|[] r]] s'; intros [= <-]; done. Qed.
Next Obligation. unfold sched_Write. intros e [l [|[] r]] s'; intros [=]; by subst. Qed.

Definition sample_clock (n : nat) : Time := FromUnix (1700000000 + Z.of_nat n).
Definition sample_event (actor : string) : AuditEvent :=
  mkAuditEvent "ai.approval.granted" "act-1" "t1" actor "Pod/shop/web-0"
    (Some {[ "source_ip" := JStr "10.0.0.7" ]}).
Definition sample_signer : CheckpointSigner := λ h, Some ("sig:" +:+ h, "k1").

(** A refused write, another event, a checkpoint. *)
Definition sample_ops : list audit_op :=
  [OpWrite (sample_event "alice"); OpWrite (sample_event "bob"); OpCheckpoint].
Definition sample_run (sched : list bool) : ChainedSink * (list AuditEvent * list bool) :=
  foldl (audit_step sample_clock) (NewChainedSinkResuming "" (Some sample_signer) 2, ([], sched)) sample_ops.


(** A refused write that the caller retries with the same map, as the comment
    of [Write] invites it to. *)
Definition retried_log : list AuditEvent :=
  let e := sample_event "alice" in
  let '(_, e', c, s) := Write sample_clock e NewChainedSink ([], [true]) in
  let '(_, _, _, s) := Write sample_clock e' c s in s.1.

(** A retry of a refused write breaks the chain: the failed attempt left
    its own hash in the caller's map, the retry hashes it in, and the
    verifier, which hashes the record without it, refuses the entry. *)
Theorem retry_breaks_chain :
  length retried_log = 1%nat ∧ VerifyChain retried_log = (0, None).
Proof. vm_compute. split; reflexivity. Qed.

(** The sink that never refuses. *)
Definition keep_Write (e : AuditEvent) (s : list AuditEvent) : bool * list AuditEvent := (false, s ++ [e]).
Program Definition keep_sink : AuditSink (list AuditEvent) :=
  {| sink_Write := keep_Write; sink_log := id |}.
Next Obligation. by intros e s s' [= <-]. Qed.
Next Obligation. by intros e s s' [=]. Qed.

Lemma checkpoint_cadence_witness :
  let c0 := NewChainedSinkResuming (head_of "" (@sink_log _ keep_sink [])) (Some sample_signer) 2 in
  let cs := foldl (@audit_step _ keep_sink sample_clock) (c0, []) sample_ops in
  ∃ l, @sink_log _ keep_sink cs.2 = @sink_log _ keep_sink [] ++ l ∧ tail_data l < (if 2 <=? 0 then 100 else 2).
Proof.
  apply (@checkpoint_cadence _ keep_sink sample_clock sample_ops [] (Some sample_signer) 2).
  - reflexivity.
  - repeat (apply List.Forall_cons; [exact eq_refl || exact I|]). apply List.Forall_nil.
  - intros e He. unfold sample_ops in He. rewrite !elem_of_cons, elem_of_nil in He.
    destruct He as [[= ->]|[[= ->]|[He|[]]]]; done.
Defined.

Lemma checkpoint_anchors_witness :
  let '(c', s') := @WriteCheckpoint _ keep_sink sample_clock
    (NewChainedSinkResuming "" (Some sample_signer) 2) [] in
  sinceCheckpoint c' = 0 ∧
  VerifyChainWithCheckpoints (@sink_log _ keep_sink s') =
    mkChainVerification (-1) (Z.of_nat (length (@sink_log _ keep_sink []))) true.
Proof.
  apply (@checkpoint_anchors _ keep_sink sample_clock (NewChainedSinkResuming "" (Some sample_signer) 2)
    [] sample_signer "sig:" "k1"); first [exact eq_refl | exact I | discriminate | reflexivity].
Defined.

(** The log of two events, and its head. *)
Definition sample_log : list AuditEvent := (sample_run []).2.1.
Definition wf_eventb (e : AuditEvent) : bool :=
  forallb ValidString [ev_Type e; ev_CorrelationID e; ev_Tier e; ev_Actor e; ev_Subject e] &&
  forallb (λ kv, ValidString kv.1 && wf_json kv.2) (map_to_list (default ∅ (ev_Details e))).
Lemma wf_eventb_correct e : wf_eventb e = true → wf_event e.
Proof.
  unfold wf_eventb, wf_event, wf_details. cbn [forallb]. rewrite !andb_true_iff, forallb_elem.
  intros [(H1 & H2 & H3 & H4 & H5 & _) Hd]. do 5 (split; [done|]).
  intros k v Hk. specialize (Hd (k, v)). rewrite elem_of_map_to_list, andb_true_iff in Hd. by apply Hd.
Qed.

