(* ===== verification/Types.v ===== *)
(** * The exchange types: pkg/probe, pkg/diagnose, pkg/fix

    What probes, analyzers and fixers hand to the watcher, the reporters and
    the silence filter. *)

From stdpp Require Import options.
From S2P Require Import Prelude GoString.

(** pkg/probe/types.go *)
Definition SeverityInfo : string := "info".
Definition SeverityWarning : string := "warning".
Definition SeverityCritical : string := "critical".

Record Finding := mkFinding {
  f_Component : string;
  f_Severity : string;
  f_Message : string;
  f_Remediation : string;
  f_Investigation : string;
}.
Record ComponentResult := mkComponentResult {
  cr_Component : string;
  cr_Status : string;
  cr_Detail : string;
}.
Record ProbeResult := mkProbeResult {
  pr_Component : ComponentResult;
  pr_Findings : list Finding;
}.

(** pkg/diagnose/types.go *)
Record Diagnostic := mkDiagnostic {
  d_Subject : string;
  d_Message : string;
  d_Remediation : string;
  d_Severity : string;
  d_Source : string;
  d_Enrichment : string;
  d_Investigation : string;
  d_ProposedActionID : string;
  d_ProposedRunbookID : string;
  d_ProposedPolicyYAML : string;
  d_ProposedPolicyKind : string;
}.
#[export] Instance Diagnostic_eq_dec : EqDecision Diagnostic.
Proof. solve_decision. Defined.

(** pkg/fix/types.go *)
Record Action := mkAction { ac_Description : string; ac_Object : string }.
Record SkipReason := mkSkipReason { sk_Object : string; sk_Reason : string }.
Record FixResult := mkFixResult {
  Fixer : string;
  Actions : list Action;
  Skipped : list SkipReason;
  Refused : string;
}.
#[export] Instance Action_eq_dec : EqDecision Action.
Proof. solve_decision. Defined.
#[export] Instance SkipReason_eq_dec : EqDecision SkipReason.
Proof. solve_decision. Defined.
#[export] Instance FixResult_eq_dec : EqDecision FixResult.
Proof. solve_decision. Defined.
