(* ===== verification/Silence.v ===== *)
(** * Silences: pkg/silence and api/v1alpha1/silence_types.go

    The pure filter of filter.go, and the status writer of status.go as the
    sequence of patches it sends: the writer reads nothing back between
    them, so the API server is a predicate that says which patch it
    refuses. *)

From stdpp Require Import options.
From S2P Require Import Prelude GoString GoTime GoJson GoNum Types.

Local Open Scope Z_scope.

Record SilenceMatcher := mkSilenceMatcher {
  m_Source : string;
  m_Subject : string;
  m_Severity : string;
  m_MessagePattern : string;
}.
Record SilenceSpec := mkSilenceSpec {
  Matcher : SilenceMatcher;
  Until : Time;
  Reason : string;
  CreatedBy : string;
}.
Record SilenceStatus := mkSilenceStatus {
  Active : bool;
  MatchCount : Z;
  LastMatchAt : option Time;
}.
Record Silence := mkSilence {
  sl_Namespace : string;
  sl_Name : string;
  Spec : SilenceSpec;
  Status : SilenceStatus;
}.

(** ** filter.go *)

Definition Matches (s : Silence) (d : Diagnostic) (now : Time) : bool :=
  if negb (After (Until (Spec s)) now) then false else
  let m := Matcher (Spec s) in
  if (m_Source m =s? "") && (m_Subject m =s? "") && (m_Severity m =s? "") && (m_MessagePattern m =s? "")
  then false else
  if (m_Source m ≠s? "") && (m_Source m ≠s? d_Source d) then false else
  if (m_Subject m ≠s? "") && (m_Subject m ≠s? d_Subject d) then false else
  if (m_Severity m ≠s? "") && (m_Severity m ≠s? d_Severity d) then false else
  if (m_MessagePattern m ≠s? "") && negb (Contains (d_Message d) (m_MessagePattern m)) then false else
  true.

Definition anyMatch (silences : list Silence) (d : Diagnostic) (now : Time) : bool :=
  existsb (λ s, Matches s d now) silences.
Definition MatchesAny (silences : list Silence) (d : Diagnostic) (now : Time) : bool :=
  anyMatch silences d now.

Definition Filter (diags : list Diagnostic) (silences : list Silence) (now : Time) : list Diagnostic :=
  if (length silences =? 0)%nat then diags
  else List.filter (λ d, negb (anyMatch silences d now)) diags.

Definition silence_key (s : Silence) : string := sl_Namespace s +:+ "/" +:+ sl_Name s.
(** The inner loop of CountMatches for one silence. *)
Definition count_one (s : Silence) (now : Time) (counts : gmap string Z) (diags : list Diagnostic)
    : gmap string Z :=
  foldl (λ counts d,
    if Matches s d now then <[silence_key s := default 0 (counts !! silence_key s) + 1]> counts
    else counts) counts diags.
Definition CountMatches (diags : list Diagnostic) (silences : list Silence) (now : Time) : gmap string Z :=
  if (length silences =? 0)%nat || (length diags =? 0)%nat then ∅
  else foldl (λ counts s, count_one s now counts diags) ∅ silences.

(** ** status.go *)

Record status_patch := mkStatusPatch { sp_ns : string; sp_name : string; sp_body : string }.

Definition status_json (s : Silence) (active : bool) (matchedThisCycle : Z) (now : Time) : json :=
  JMap (<["status" := JMap (
    if 0 <? matchedThisCycle then
      <["lastMatchAt" := JStr (FormatRFC3339 now)]>
      (<["matchCount" := JInt (wrap64 (MatchCount (Status s) + matchedThisCycle))]>
      (<["active" := JBool active]> ∅))
    else <["active" := JBool active]> ∅)]> ∅).

(** One turn of the loop: nothing to do, a body that does not marshal, or a
    patch. *)
Inductive turn := NoChange | MarshalFails | Send (p : status_patch).
Definition status_update (counts : gmap string Z) (now : Time) (s : Silence) : turn :=
  let active := After (Until (Spec s)) now in
  let matchedThisCycle := default 0 (counts !! silence_key s) in
  if Bool.eqb (Active (Status s)) active && (matchedThisCycle =? 0) then NoChange
  else
    match Marshal (status_json s active matchedThisCycle now) with
    | None => MarshalFails
    | Some body => Send (mkStatusPatch (sl_Namespace s) (sl_Name s) body)
    end.

(** The patches sent, the number that succeeded, the keys of the failures;
    [refuse] says which patch the API server refuses. *)
Fixpoint UpdateStatuses (refuse : status_patch → bool) (silences : list Silence)
    (counts : gmap string Z) (now : Time) : list status_patch * nat * list string :=
  match silences with
  | [] => ([], 0%nat, [])
  | s :: silences =>
      let '(sent, patched, errs) := UpdateStatuses refuse silences counts now in
      match status_update counts now s with
      | NoChange => (sent, patched, errs)
      | MarshalFails => (sent, patched, silence_key s :: errs)
      | Send p =>
          if refuse p then (p :: sent, patched, silence_key s :: errs)
          else (p :: sent, Datatypes.S patched, errs)
      end
  end.

(** ** What a silence suppresses *)

(** A matcher field, empty for any value. *)
Definition field_matches (m v : string) : Prop := m = "" ∨ m = v.
Record suppresses (s : Silence) (d : Diagnostic) (now : Time) : Prop := {
  su_open : now < Until (Spec s);
  su_some : ¬ (m_Source (Matcher (Spec s)) = "" ∧ m_Subject (Matcher (Spec s)) = "" ∧
    m_Severity (Matcher (Spec s)) = "" ∧ m_MessagePattern (Matcher (Spec s)) = "");
  su_source : field_matches (m_Source (Matcher (Spec s))) (d_Source d);
  su_subject : field_matches (m_Subject (Matcher (Spec s))) (d_Subject d);
  su_severity : field_matches (m_Severity (Matcher (Spec s))) (d_Severity d);
  su_message : ∃ u v, d_Message d = u +:+ m_MessagePattern (Matcher (Spec s)) +:+ v;
}.

Lemma then_false (b k : bool) : (if b then false else k) = true ↔ b = false ∧ k = true.
Proof. destruct b; naive_solver. Qed.
Lemma field_guard m v : (m ≠s? "") && (m ≠s? v) = false ↔ field_matches m v.
Proof.
  unfold field_matches. rewrite andb_false_iff, !negb_false_iff, !bool_decide_eq_true. tauto.
Qed.

Lemma Matches_spec s d now : Matches s d now = true ↔ suppresses s d now.
Proof.
  unfold Matches, After.
  rewrite !then_false, !field_guard, negb_false_iff, Z.ltb_lt.
  rewrite !andb_false_iff, !bool_decide_eq_false, !negb_false_iff, bool_decide_eq_true, Contains_spec.
  set (m := Matcher (Spec s)).
  assert (Hm : m_MessagePattern m = "" → ∃ u v, d_Message d = u +:+ m_MessagePattern m +:+ v).
  { intros ->. by exists "", (d_Message d). }
  split.
  - intros (H1 & H2 & H3 & H4 & H5 & H6 & _). split; try done; fold m; tauto.
  - intros [H1 H2 H3 H4 H5 H6]. fold m in H2, H3, H4, H5, H6.
    destruct (decide (m_Source m = "")), (decide (m_Subject m = "")), (decide (m_Severity m = "")); tauto.
Qed.

Lemma anyMatch_spec silences d now :
  anyMatch silences d now = true ↔ ∃ s, s ∈ silences ∧ suppresses s d now.
Proof. unfold anyMatch. rewrite existsb_elem. by setoid_rewrite Matches_spec. Qed.

Lemma bfilter_sublist {A} (f : A → bool) l : List.filter f l `sublist_of` l.
Proof. induction l as [|x l IH]; simpl; [done|]. destruct (f x); by constructor. Qed.

(** C28: [Filter] keeps, in their order, exactly the diagnostics that no open
    silence with a non-empty matcher matches in every non-empty field;
    filtering by more silences only removes more. *)
Theorem Filter_correct diags silences now :
  (∀ d, d ∈ Filter diags silences now ↔
    d ∈ diags ∧ ¬ ∃ s, s ∈ silences ∧ suppresses s d now) ∧
  Filter diags silences now `sublist_of` diags ∧
  (∀ more, Filter diags (silences ++ more) now = Filter (Filter diags silences now) more now).
Proof.
  assert (E : ∀ diags silences, Filter diags silences now =
    List.filter (λ d, negb (anyMatch silences d now)) diags).
  { intros ds [|s l]; unfold Filter; simpl; [|done]. symmetry. by apply bfilter_true. }
  split; [|split].
  - intros d. rewrite E, elem_of_bfilter, negb_true_iff, <-not_true_iff_false, anyMatch_spec. tauto.
  - rewrite E. apply bfilter_sublist.
  - intros more. rewrite !E, bfilter_filter. apply bfilter_ext. intros d _.
    unfold anyMatch. by rewrite existsb_app, negb_orb.
Qed.

(** ** The counts *)

Definition matched_by (diags : list Diagnostic) (now : Time) (s : Silence) : Z :=
  Z.of_nat (length (List.filter (λ d, Matches s d now) diags)).

Lemma matched_by_nonneg diags now s : 0 ≤ matched_by diags now s.
Proof. unfold matched_by. lia. Qed.
Lemma matched_by_cons d ds now s :
  matched_by (d :: ds) now s = (if Matches s d now then 1 else 0) + matched_by ds now s.
Proof. unfold matched_by. cbn [List.filter]. destruct (Matches s d now); cbn [length]; lia. Qed.

Lemma count_one_spec s now counts diags k :
  count_one s now counts diags !! k =
    if decide (k = silence_key s ∧ 0 < matched_by diags now s)
    then Some (default 0 (counts !! k) + matched_by diags now s) else counts !! k.
Proof.
  unfold count_one. revert counts. induction diags as [|d ds IH]; intros counts.
  { cbn [foldl]. rewrite decide_False; [done|]. unfold matched_by. simpl. lia. }
  cbn [foldl]. rewrite IH, matched_by_cons. pose proof (matched_by_nonneg ds now s).
  destruct (Matches s d now); [|by rewrite Z.add_0_l].
  destruct (decide (k = silence_key s)) as [->|Hk].
  - rewrite lookup_insert_eq. cbn [default from_option id].
    rewrite (decide_True _ _ (P := _ ∧ 0 < 1 + _)) by (split; [done|lia]).
    case_decide as Hd; [apply (f_equal Some); simpl; lia|]. apply (f_equal Some).
    destruct (decide (0 < matched_by ds now s)); [tauto|lia].
  - rewrite !decide_False by tauto. by rewrite lookup_insert_ne.
Qed.

Definition count_all (s : list Silence) (counts : gmap string Z) (diags : list Diagnostic)
    (now : Time) : gmap string Z := foldl (λ counts s, count_one s now counts diags) counts s.
(** The matches of the silences of one key. *)
Fixpoint total_matches (diags : list Diagnostic) (now : Time) (k : string) (silences : list Silence) : Z :=
  match silences with
  | [] => 0
  | s :: l => (if silence_key s =s? k then matched_by diags now s else 0) + total_matches diags now k l
  end.

Lemma total_matches_nonneg diags now k silences : 0 ≤ total_matches diags now k silences.
Proof.
  induction silences as [|s l IH]; cbn [total_matches]; [done|].
  pose proof (matched_by_nonneg diags now s). case_bool_decide; lia.
Qed.

Lemma count_all_spec silences counts diags now k :
  count_all silences counts diags now !! k =
    if decide (0 < total_matches diags now k silences)
    then Some (default 0 (counts !! k) + total_matches diags now k silences) else counts !! k.
Proof.
  unfold count_all. revert counts. induction silences as [|s l IH]; intros counts; [done|].
  cbn [foldl total_matches]. rewrite IH, count_one_spec. clear IH.
  pose proof (total_matches_nonneg diags now k l). pose proof (matched_by_nonneg diags now s).
  case_bool_decide as Hk; [subst k|by rewrite (decide_False _ _ (P := k = silence_key s ∧ _)) by naive_solver].
  destruct (decide (0 < matched_by diags now s)).
  - rewrite (decide_True _ _ (P := silence_key s = silence_key s ∧ _)) by done.
    rewrite (decide_True _ _ (P := 0 < matched_by _ _ _ + _)) by lia.
    cbn [default from_option id]. destruct (decide _); apply (f_equal Some); lia.
  - rewrite (decide_False _ _ (P := silence_key s = silence_key s ∧ _)) by tauto.
    assert (matched_by diags now s = 0) as -> by lia. by rewrite Z.add_0_l.
Qed.

(** [CountMatches] holds, under each key, the number of pairs of a silence
    of that key and a diagnostic it matches, and no entry where that number
    is zero. *)
Theorem CountMatches_correct diags silences now k :
  CountMatches diags silences now !! k =
    if decide (0 < total_matches diags now k silences)
    then Some (total_matches diags now k silences) else None.
Proof.
  assert (E : CountMatches diags silences now = count_all silences ∅ diags now).
  { unfold CountMatches. destruct silences as [|s l]; [done|]. destruct diags as [|d ds]; [|done].
    change (∅ = count_all (s :: l) ∅ [] now). generalize (s :: l) as l'.
    intros l'. unfold count_all. induction l' as [|s' l' IH]; [done|]. exact IH. }
  by rewrite E, count_all_spec, lookup_empty.
Qed.

(** ** The status writer *)

Lemma JMap_wf (m : gmap string json) :
  (∀ k v, m !! k = Some v → ValidString k = true ∧ wf_json v = true) → wf_json (JMap m) = true.
Proof.
  intros Hm. unfold JMap. cbn [wf_json]. apply forallb_elem. intros [k v].
  rewrite merge_sort_Permutation, elem_of_map_to_list. intros Hk.
  destruct (Hm k v Hk) as [H1 H2]. cbn [fst snd]. by rewrite H1, H2.
Qed.

Lemma status_json_wf s active n now : wf_json (status_json s active n now) = true.
Proof.
  unfold status_json. apply JMap_wf. intros k v [[<- <-]|[_ H]]%lookup_insert_Some; [|by rewrite lookup_empty in H].
  split; [done|]. apply JMap_wf. intros k v Hk.
  assert (Hrest : <["active" := JBool active]> (∅ : gmap string json) !! k = Some v →
    ValidString k = true ∧ wf_json v = true).
  { intros [[<- <-]|[_ H]]%lookup_insert_Some; [done|by rewrite lookup_empty in H]. }
  destruct (0 <? n); [|by apply Hrest].
  apply lookup_insert_Some in Hk as [[<- <-]|[_ Hk]].
  { split; [done|]. apply FormatRFC3339_valid. }
  apply lookup_insert_Some in Hk as [[<- <-]|[_ Hk]]; [|by apply Hrest].
  split; [done|]. apply valid_number_Itoa.
Qed.

(** What [status_update] decides. *)
Definition open_now (s : Silence) (now : Time) : bool := After (Until (Spec s)) now.
Definition this_cycle (counts : gmap string Z) (s : Silence) : Z := default 0 (counts !! silence_key s).
Definition needs_patch (counts : gmap string Z) (now : Time) (s : Silence) : Prop :=
  Active (Status s) ≠ open_now s now ∨ this_cycle counts s ≠ 0.
#[export] Instance needs_patch_dec counts now s : Decision (needs_patch counts now s).
Proof. unfold needs_patch. apply _. Defined.

Lemma status_update_spec counts now s :
  status_update counts now s =
    if decide (needs_patch counts now s)
    then Send (mkStatusPatch (sl_Namespace s) (sl_Name s)
      (encode (status_json s (open_now s now) (this_cycle counts s) now)))
    else NoChange.
Proof.
  unfold status_update, needs_patch, open_now, this_cycle.
  unfold Marshal. rewrite wf_supported by apply status_json_wf.
  destruct (Z.eqb_spec (default 0 (counts !! silence_key s)) 0) as [E|E]; cbn [andb].
  - destruct (Bool.eqb _ _) eqn:Eb; cbn [andb]; case_decide as Hd; try done; exfalso.
    + apply eqb_prop in Eb. tauto.
    + apply eqb_false_iff in Eb. tauto.
  - rewrite andb_false_r. by rewrite decide_True by auto.
Qed.

(** The silences a status cycle writes to, in order. *)
Definition sends (counts : gmap string Z) (now : Time) (silences : list Silence) : list Silence :=
  List.filter (λ s, bool_decide (needs_patch counts now s)) silences.

(** A status cycle sends a patch for exactly the silences whose open flag
    changed or that matched something this cycle, in order; each body is
    JSON that decodes to the new flag and, when the silence matched, to the
    running total and the time; a refused patch stops none of the others,
    and the patches that went through and the failures add up to those sent. *)
Theorem UpdateStatuses_correct refuse silences counts now :
  let '(sent, patched, errs) := UpdateStatuses refuse silences counts now in
  sent = (λ s, mkStatusPatch (sl_Namespace s) (sl_Name s)
    (encode (status_json s (open_now s now) (this_cycle counts s) now))) <$> sends counts now silences ∧
  (∀ s, Unmarshal (encode (status_json s (open_now s now) (this_cycle counts s) now)) =
    Some (status_json s (open_now s now) (this_cycle counts s) now)) ∧
  (patched + length errs = length sent)%nat ∧
  length errs = length (List.filter refuse sent).
Proof.
  assert (Hr : ∀ s, Unmarshal (encode (status_json s (open_now s now) (this_cycle counts s) now)) =
    Some (status_json s (open_now s now) (this_cycle counts s) now))
    by (intros s; apply Unmarshal_encode, status_json_wf).
  unfold sends. induction silences as [|s l IH]; [done|]. cbn [UpdateStatuses List.filter].
  destruct (UpdateStatuses refuse l counts now) as [[sent patched] errs].
  destruct IH as (-> & _ & Hn & He). rewrite status_update_spec.
  destruct (decide (needs_patch counts now s)) as [Hp|Hp].
  2:{ rewrite bool_decide_eq_false_2 by done. by split; [|split]. }
  rewrite bool_decide_eq_true_2 by done. rewrite fmap_cons. set (p := mkStatusPatch _ _ _).
  destruct (refuse p) eqn:Ep; (split; [done|]); (split; [done|]); cbn [length List.filter];
    rewrite Ep; cbn [length]; split; lia.
Qed.

(** ** Concrete inputs *)

Definition sample_silence (subject pattern : string) (until : Time) : Silence :=
  mkSilence "shop" "mute" (mkSilenceSpec (mkSilenceMatcher "pods" subject "" pattern) until "" "")
    (mkSilenceStatus true 2 None).
Definition sample_diag (subject msg : string) : Diagnostic :=
  mkDiagnostic subject msg "" "warning" "pods" "" "" "" "" "" "".
Example filter_open :
  Filter [sample_diag "Pod/shop/a" "restarts 5"; sample_diag "Pod/shop/b" "restarts 6"]
    [sample_silence "Pod/shop/a" "" 1000] 999 = [sample_diag "Pod/shop/b" "restarts 6"].
Proof. reflexivity. Qed.
Example filter_expired :
  Filter [sample_diag "Pod/shop/a" "restarts 5"] [sample_silence "Pod/shop/a" "" 1000] 1000
  = [sample_diag "Pod/shop/a" "restarts 5"].
Proof. reflexivity. Qed.
Example status_body :
  (UpdateStatuses (λ _, false) [sample_silence "" "restarts" (FromUnix 1700000001)]
    {[ "shop/mute" := 3 ]} (FromUnix 1700000000)).1.1 =
  [mkStatusPatch "shop" "mute"
    (dq "{'status':{'active':true,'lastMatchAt':'2023-11-14T22:13:20Z','matchCount':5}}")].
Proof. vm_compute. reflexivity. Qed.
