(* ===== verification/DriftReport.v ===== *)
(** * DriftReport CRs: internal/report/driftreport.go

    [AssembleEntries] flattens a cycle's results, [Reconcile] makes the
    stored CRs those of the entries.  The API server is the class [DriftAPI]
    with its documented behaviour: a call fails and changes nothing, or a
    merge patch that is JSON is merged.  [Reliable] servers refuse only what
    the CRD schema of bundle/manifests/srenix.ai_driftreports.yaml refuses.
    The order of a Go map range is a parameter, [MapRange]. *)

From stdpp Require Import options.
From S2P Require Import Prelude GoString GoTime GoJson GoNum GoFmt Sha256 Unstructured Types.

(** ** Entries *)

Record DriftReportEntry := mkEntry {
  en_Subject : string;
  en_Severity : string;
  en_Source : string;
  en_Category : string;
  en_Message : string;
  en_Remediation : string;
  en_Investigation : string;
}.
#[export] Instance DriftReportEntry_eq_dec : EqDecision DriftReportEntry.
Proof. solve_decision. Defined.

Definition probe_severity (s : string) : string :=
  if s =s? SeverityCritical then "critical" else if s =s? SeverityWarning then "warning" else "info".

Definition probe_entry (r : ProbeResult) (f : Finding) : DriftReportEntry :=
  mkEntry ("Probe/" +:+ cr_Component (pr_Component r) +:+ "/" +:+ f_Component f)
    (probe_severity (f_Severity f)) (cr_Component (pr_Component r)) "probe"
    (f_Message f) (f_Remediation f) (f_Investigation f).

Definition diagnostic_entry (d : Diagnostic) : DriftReportEntry :=
  mkEntry (d_Subject d)
    (if d_Severity d =s? "" then "warning" else d_Severity d)
    (if d_Source d =s? "" then "analyzer" else d_Source d) "analyzer"
    (d_Message d) (d_Remediation d) (d_Investigation d).

Definition action_entry (fr : FixResult) (a : Action) : DriftReportEntry :=
  mkEntry ("FixerAction/" +:+ Fixer fr +:+ "/" +:+ ac_Object a) "info" (Fixer fr) "fixer-action"
    (ac_Description a +:+ " — " +:+ ac_Object a) "" "".

(** At most five skipped objects are named. *)
Definition maxList : nat := 5.
Definition skipped_message (fr : FixResult) : string :=
  let n := length (Skipped fr) in
  let listed := if (maxList <? n)%nat then take maxList (Skipped fr) else Skipped fr in
  let extra := if (maxList <? n)%nat then (n - maxList)%nat else 0%nat in
  let parts := (λ s, sk_Object s +:+ " (" +:+ sk_Reason s +:+ ")") <$> listed in
  let msg := "Fixer " +:+ Fixer fr +:+ " evaluated " +:+ Itoa (Z.of_nat n) +:+
             " candidate(s) but skipped: " +:+ Join parts "; " in
  if (0 <? extra)%nat then msg +:+ " … and " +:+ Itoa (Z.of_nat extra) +:+ " more" else msg.
Definition skipped_entry (fr : FixResult) : DriftReportEntry :=
  mkEntry ("FixerSkipped/" +:+ Fixer fr +:+ "/summary") "info" (Fixer fr) "fixer-skipped"
    (skipped_message fr) "" "".
Definition fixer_entries (fr : FixResult) : list DriftReportEntry :=
  (action_entry fr <$> Actions fr) ++
  (if (0 <? length (Skipped fr))%nat then [skipped_entry fr] else []).

Definition AssembleEntries (results : list ProbeResult) (diagnostics : list Diagnostic)
    (fixResults : list FixResult) : list DriftReportEntry :=
  (results ≫= λ r, probe_entry r <$> pr_Findings r) ++
  (diagnostic_entry <$> diagnostics) ++
  (fixResults ≫= fixer_entries).

Definition NormalizeSeverity (severity source : string) : string :=
  let s := ToLowerFold (TrimSpace severity) in
  if (s =s? "info") || (s =s? "warning") || (s =s? "critical") then s
  else if s =s? "warn" then "warning"
  else if (s =s? "error") || (s =s? "err") || (s =s? "fatal") || (s =s? "crit") then "critical"
  else if s =s? "" then "warning"
  else "warning".

(** ** Names, labels, references *)

Definition nameForSubject (subject : string) : string :=
  "drift-" +:+ hex_encode (stake 8 (Sum256 subject)).

(** [for _, r := range s]: a rune that is not a lower-case letter, a digit or
    a dash becomes one dash, and so does every byte of invalid UTF-8. *)
Definition label_char (c : ascii) : bool := is_lower c || is_digit c || bool_decide (c = "-"%char).
Fixpoint label_runes (skip : nat) (s : string) : string :=
  match s with
  | "" => ""
  | String c s =>
      match skip with
      | S k => label_runes k s
      | O =>
          String (if label_char c then c else "-"%char)
            (label_runes (default 0%nat (utf8_tail c s)) s)
      end
  end.
Definition sanitizeLabel (s : string) : string :=
  let out := TrimByte (label_runes 0 (ToLowerFold s)) "-" in
  let out := if (63 <? len out)%nat then TrimRightByte (stake 63 out) "-" else out in
  if out =s? "" then "unknown" else out.

Definition truncateAt (s : string) (n : nat) : string :=
  if (len s <=? n)%nat then s else stake n s.

Record ResourceRef := mkRef {
  rr_kind : string;
  rr_namespace : option string;
  rr_name : option string;
}.
Definition resourceRefFromSubject (subject : string) : option ResourceRef :=
  match SplitN subject "/" 4 with
  | kind :: rest =>
      match rest with
      | [] => None
      | ns :: rest =>
          if (kind =s? "FixerAction") || (kind =s? "Probe") || (kind =s? "Cloud") then None
          else
            match rest with
            | [] => Some (mkRef kind None None)
            | name :: _ =>
                Some (mkRef kind
                  (if (ns ≠s? "") && (ns ≠s? "cluster") then Some ns else None)
                  (if name ≠s? "" then Some name else None))
            end
      end
  | [] => None
  end.

(** ** The stored objects *)

(** [status.observationCount] as the decoder hands it over: an int64, a
    float64 (held by its integer part) or nothing. *)
Inductive Count := CInt64 (z : Z) | CFloat64 (trunc : Z) | CAbsent.
Record CRStatus := mkCRStatus {
  st_firstObserved : string;
  st_lastObserved : string;
  st_observationCount : Count;
  st_runID : string;
}.
Record CR := mkCR {
  c_subject : string;
  c_severity : string;
  c_source : string;
  c_category : string;
  c_message : string;
  c_remediation : string;
  c_investigation : string;
  c_resourceRef : option ResourceRef;
  c_labels : list (string * string);
  c_status : CRStatus;
}.
Definition no_status : CRStatus := mkCRStatus "" "" CAbsent "".

(** ** The API server *)

(** A string field after a merge patch (RFC 7386): a field the patch does not
    name keeps its value. *)
Definition merge_str (patch : option json) (k old : string) : string :=
  match patch ≫= jmember k with
  | None => old
  | Some (JStr s) => s
  | Some _ => ""
  end.
Definition merge_count (patch : option json) (k : string) (old : Count) : Count :=
  match patch ≫= jmember k with
  | None => old
  | Some (JNum lit) => match ParseInt lit with Some z => CInt64 z | None => CAbsent end
  | Some _ => CAbsent
  end.
(** A patch of the main resource; a status in it is dropped. *)
Definition merge_spec (body : json) (c : CR) : CR :=
  let p := jmember "spec" body in
  mkCR (merge_str p "subject" (c_subject c)) (merge_str p "severity" (c_severity c))
    (merge_str p "source" (c_source c)) (merge_str p "category" (c_category c))
    (merge_str p "message" (c_message c)) (merge_str p "remediation" (c_remediation c))
    (merge_str p "investigation" (c_investigation c)) (c_resourceRef c) (c_labels c) (c_status c).
(** A patch of the status subresource; a spec in it is dropped. *)
Definition merge_status (body : json) (c : CR) : CR :=
  let p := jmember "status" body in
  let st := c_status c in
  mkCR (c_subject c) (c_severity c) (c_source c) (c_category c) (c_message c) (c_remediation c)
    (c_investigation c) (c_resourceRef c) (c_labels c)
    (mkCRStatus (merge_str p "firstObserved" (st_firstObserved st))
       (merge_str p "lastObserved" (st_lastObserved st))
       (merge_count p "observationCount" (st_observationCount st))
       (merge_str p "runID" (st_runID st))).
(** Created objects start without a status. *)
Definition strip_status (c : CR) : CR :=
  mkCR (c_subject c) (c_severity c) (c_source c) (c_category c) (c_message c) (c_remediation c)
    (c_investigation c) (c_resourceRef c) (c_labels c) no_status.

Definition error := string.
Class DriftAPI (S : Type) := {
  crs : S → gmap string CR;
  api_List : S → error + list (string * CR);
  api_Patch : S → string → string → S * option error;
  api_PatchStatus : S → string → string → S * option error;
  api_Create : S → string → CR → S * option error;
  api_Delete : S → string → S * option error;
  api_List_ok : ∀ s items, api_List s = inr items → items ≡ₚ map_to_list (crs s);
  api_Patch_ok : ∀ s n b, crs (api_Patch s n b).1 =
    match (api_Patch s n b).2, Unmarshal b with
    | None, Some j => alter (merge_spec j) n (crs s)
    | _, _ => crs s
    end;
  api_PatchStatus_ok : ∀ s n b, crs (api_PatchStatus s n b).1 =
    match (api_PatchStatus s n b).2, Unmarshal b with
    | None, Some j => alter (merge_status j) n (crs s)
    | _, _ => crs s
    end;
  api_Create_ok : ∀ s n c, crs (api_Create s n c).1 =
    match (api_Create s n c).2 with None => <[n := strip_status c]> (crs s) | Some _ => crs s end;
  api_Delete_ok : ∀ s n, crs (api_Delete s n).1 =
    match (api_Delete s n).2 with None => delete n (crs s) | Some _ => crs s end;
}.

(** ** Reconcile *)

(** What the loops thread: the server, the listed CRs still to be deleted,
    the counters and the last error. *)
Record Loop (S : Type) := mkLoop {
  lp_server : S;
  lp_existing : gmap string CR;
  lp_created : nat;
  lp_updated : nat;
  lp_deleted : nat;
  lp_err : option error;
}.
#[global] Arguments mkLoop {_}.
#[global] Arguments lp_server {_}.
#[global] Arguments lp_existing {_}.
#[global] Arguments lp_created {_}.
#[global] Arguments lp_updated {_}.
#[global] Arguments lp_deleted {_}.
#[global] Arguments lp_err {_}.

(** [if pErr != nil { err = pErr }] *)
Definition note_err (old new : option error) : option error :=
  match new with Some e => Some e | None => old end.

Definition want_step (m : gmap string DriftReportEntry) (e : DriftReportEntry) :=
  <[en_Subject e :=
      mkEntry (en_Subject e) (NormalizeSeverity (en_Severity e) (en_Source e)) (en_Source e)
        (en_Category e) (en_Message e) (en_Remediation e) (en_Investigation e)]> m.
Definition wantBySubject (entries : list DriftReportEntry) : gmap string DriftReportEntry :=
  foldl want_step ∅ entries.

Definition index_step (ix : gmap string CR * gmap string string) (cr : string * CR) :=
  if c_subject cr.2 =s? "" then ix
  else (<[cr.1 := cr.2]> ix.1, <[c_subject cr.2 := cr.1]> ix.2).
(** [existingByName] and [subjectToName] *)
Definition index_crs (items : list (string * CR)) : gmap string CR * gmap string string :=
  foldl index_step (∅, ∅) items.

Definition oldCount (c : Count) : Z :=
  match c with CInt64 z => z | CFloat64 z => z | CAbsent => 0 end.
Definition spec_patch (e : DriftReportEntry) : string :=
  obj_body [("spec", obj_body
    [("severity", Quote (en_Severity e));
     ("message", Quote (truncateAt (en_Message e) 4096));
     ("remediation", Quote (truncateAt (en_Remediation e) 1024));
     ("investigation", Quote (truncateAt (en_Investigation e) 1024))])].
Definition status_patch (now : string) (count : Z) (runID : string) : string :=
  obj_body [("status", obj_body
    [("lastObserved", Quote now); ("observationCount", Itoa count); ("runID", Quote runID)])].
Definition first_status_patch (now runID : string) : string :=
  obj_body [("status", obj_body
    [("firstObserved", Quote now); ("lastObserved", Quote now); ("observationCount", "1");
     ("runID", Quote runID)])].
Definition new_cr (e : DriftReportEntry) : CR :=
  mkCR (en_Subject e) (en_Severity e) (en_Source e) (en_Category e)
    (truncateAt (en_Message e) 4096) (truncateAt (en_Remediation e) 1024)
    (truncateAt (en_Investigation e) 1024) (resourceRefFromSubject (en_Subject e))
    [("srenix.ai/category", en_Category e); ("srenix.ai/severity", en_Severity e);
     ("srenix.ai/source", sanitizeLabel (en_Source e))] no_status.

Definition cr_name (subjectToName : gmap string string) (subject : string) : string :=
  let crName := default "" (subjectToName !! subject) in
  if crName =s? "" then nameForSubject subject else crName.

Section reconcile.
Context {S : Type} `{!DriftAPI S} `{!MapRange}.
Variables (now runID : string).

(** The body of the upsert loop. *)
Definition upsert (subjectToName : gmap string string) (lp : Loop S)
    (want : string * DriftReportEntry) : Loop S :=
  let '(subject, entry) := want in
  let crName := cr_name subjectToName subject in
  match lp_existing lp !! crName with
  | Some obj =>
      let newCount := add64 (oldCount (st_observationCount (c_status obj))) 1 in
      let '(s, pErr) := api_Patch (lp_server lp) crName (spec_patch entry) in
      match pErr with
      | Some _ => mkLoop s (lp_existing lp) (lp_created lp) (lp_updated lp) (lp_deleted lp) pErr
      | None =>
          let '(s, pErr) := api_PatchStatus s crName (status_patch now newCount runID) in
          mkLoop s (delete crName (lp_existing lp)) (lp_created lp) (1 + lp_updated lp)
            (lp_deleted lp) (note_err (lp_err lp) pErr)
      end
  | None =>
      let '(s, cErr) := api_Create (lp_server lp) crName (new_cr entry) in
      match cErr with
      | Some _ => mkLoop s (lp_existing lp) (lp_created lp) (lp_updated lp) (lp_deleted lp) cErr
      | None =>
          let '(s, pErr) := api_PatchStatus s crName (first_status_patch now runID) in
          mkLoop s (lp_existing lp) (1 + lp_created lp) (lp_updated lp) (lp_deleted lp)
            (note_err (lp_err lp) pErr)
      end
  end.

(** The body of the delete loop, which leaves [existingByName] alone. *)
Definition remove (lp : Loop S) (cr : string * CR) : Loop S :=
  let '(s, dErr) := api_Delete (lp_server lp) cr.1 in
  match dErr with
  | Some _ => mkLoop s (lp_existing lp) (lp_created lp) (lp_updated lp) (lp_deleted lp) dErr
  | None =>
      mkLoop s (lp_existing lp) (lp_created lp) (lp_updated lp) (1 + lp_deleted lp) (lp_err lp)
  end.

(** [live] is [mut != nil]. *)
Definition Reconcile (live : bool) (s : S) (entries : list DriftReportEntry) :
    S * (nat * nat * nat * option error) :=
  if negb live then (s, (0, 0, 0, Some "DriftReport reconcile requires a Mutator (live mode)")) else
  let wantBySubject := wantBySubject entries in
  match api_List s with
  | inl e => (s, (0, 0, 0, Some ("list driftreports: " +:+ e)))
  | inr items =>
      let '(existingByName, subjectToName) := index_crs items in
      let lp := foldl (upsert subjectToName) (mkLoop s existingByName 0 0 0 None) (range wantBySubject) in
      let lp := foldl remove lp (range (lp_existing lp)) in
      (lp_server lp, (lp_created lp, lp_updated lp, lp_deleted lp, lp_err lp))
  end.
End reconcile.

(** ** Severities *)

Definition severity_enum : list string := ["info"; "warning"; "critical"].

(** Membership in a list of literals, case by case. *)
Ltac in_literals H :=
  repeat (apply elem_of_cons in H as [->|H]; [done|]); by apply elem_of_nil in H.

Lemma NormalizeSeverity_fix s src : s ∈ severity_enum → NormalizeSeverity s src = s.
Proof. intros Hs. in_literals Hs. Qed.

Lemma NormalizeSeverity_in_enum severity source : NormalizeSeverity severity source ∈ severity_enum.
Proof.
  unfold NormalizeSeverity, severity_enum. generalize (ToLowerFold (TrimSpace severity)). intros t.
  repeat (case_bool_decide; subst; [cbn [orb]; set_solver|]; cbn [orb]). set_solver.
Qed.

(** Whatever an emitter writes, [NormalizeSeverity] answers a member of
    the CRD's severity enum; it leaves the members alone, knows the five
    aliases in any case and with white space around, and takes the rest to
    be a warning. *)
Theorem NormalizeSeverity_enum severity source :
  let t := ToLowerFold (TrimSpace severity) in
  let n := NormalizeSeverity severity source in
  n ∈ severity_enum ∧ NormalizeSeverity n source = n ∧
  (t ∈ severity_enum → n = t) ∧
  (t ∈ ["error"; "err"; "fatal"; "crit"] → n = "critical") ∧
  (t ∉ severity_enum ++ ["error"; "err"; "fatal"; "crit"] → n = "warning").
Proof.
  intros t n.
  assert (Hn : n ∈ severity_enum) by apply NormalizeSeverity_in_enum.
  split; [done|]. split; [by apply NormalizeSeverity_fix|].
  unfold n, NormalizeSeverity, severity_enum in *. fold t in Hn |- *. clear Hn n.
  clearbody t. split_and!; intros Ht.
  - in_literals Ht.
  - in_literals Ht.
  - set_unfold. repeat (case_bool_decide; subst; [tauto || done|]; cbn [orb]). done.
Qed.

(** ** Labels *)

Fixpoint ends_in (f : ascii → bool) (s : string) : bool :=
  match s with
  | "" => false
  | String c "" => f c
  | String _ s => ends_in f s
  end.
Definition starts_in (f : ascii → bool) (s : string) : bool :=
  match s with "" => false | String c _ => f c end.
Definition alnum (c : ascii) : bool := is_upper c || is_lower c || is_digit c.
(** A label value the API server accepts. *)
Definition label_value (s : string) : bool :=
  (len s <=? 63)%nat && sforallb (λ c, alnum c || (ord c =? 45)%Z || (ord c =? 46)%Z || (ord c =? 95)%Z) s
  && ((s =s? "") || starts_in alnum s && ends_in alnum s).
(** What [sanitizeLabel] leaves alone. *)
Definition dash (c : ascii) : bool := bool_decide (c = "-"%char).
Definition sane_label (s : string) : bool :=
  (len s <=? 63)%nat && sforallb label_char s
  && starts_in (λ c, negb (dash c)) s && ends_in (λ c, negb (dash c)) s.

Lemma label_char_ascii c : label_char c = true → (0 <= ord c < 127)%Z ∧ is_upper c = false.
Proof.
  destruct c as [[] [] [] [] [] [] [] []]; vm_compute;
    first [discriminate | intros _; split; [split; congruence|done]].
Qed.
Lemma label_char_alnum c : label_char c = true → dash c = false → alnum c = true.
Proof.
  unfold label_char, alnum, dash. intros. destruct (is_lower c), (is_digit c); rewrite ?orb_true_r; try done.
  cbn [orb] in *. congruence.
Qed.

Lemma ends_in_impl f g s : (∀ c, f c = true → g c = true) → ends_in f s = true → ends_in g s = true.
Proof. intros Hf. induction s as [|c [|d s] IH]; [done|by apply Hf|exact IH]. Qed.
Lemma ends_in_and f g s : sforallb f s = true → ends_in g s = true → ends_in (λ c, f c && g c) s = true.
Proof.
  induction s as [|c [|d s] IH]; [done| |].
  - cbn. intros Hf%andb_true_iff Hg. by rewrite (proj1 Hf), Hg.
  - cbn [sforallb]. intros [_ Hf]%andb_true_iff. by apply IH.
Qed.

Lemma TrimRight_keep f s : ends_in (λ c, negb (f c)) s = true → TrimRightFunc f s = s.
Proof.
  induction s as [|c [|d s] IH]; [done| |].
  - cbn. intros Hc. by destruct (f c).
  - intros Hs. cbn [TrimRightFunc] in *. by rewrite IH.
Qed.
Lemma TrimRight_ends f s : TrimRightFunc f s = "" ∨ ends_in (λ c, negb (f c)) (TrimRightFunc f s) = true.
Proof.
  induction s as [|c s IH]; [by left|]. cbn [TrimRightFunc]. destruct (TrimRightFunc f s) as [|d t].
  - destruct (f c) eqn:E; [by left|right]. cbn. by rewrite E.
  - right. by destruct IH.
Qed.
Lemma TrimRight_starts f s : starts_in (λ c, negb (f c)) s = true →
  starts_in (λ c, negb (f c)) (TrimRightFunc f s) = true.
Proof.
  destruct s as [|c s]; [done|]. cbn. intros Hc. destruct (TrimRightFunc f s); [|done].
  destruct (f c) eqn:E; [done|]. cbn. by rewrite E.
Qed.
Lemma TrimLeft_keep f s : starts_in (λ c, negb (f c)) s = true → TrimLeftFunc f s = s.
Proof. destruct s as [|c s]; [done|]. cbn. by destruct (f c). Qed.
Lemma TrimLeft_starts f s : TrimLeftFunc f s = "" ∨ starts_in (λ c, negb (f c)) (TrimLeftFunc f s) = true.
Proof.
  induction s as [|c s IH]; [by left|]. cbn [TrimLeftFunc]. destruct (f c) eqn:E; [done|].
  right. cbn. by rewrite E.
Qed.
Lemma starts_in_stake f n s : (0 < n)%nat → starts_in f (stake n s) = starts_in f s.
Proof. destruct n; [lia|]. by destruct s. Qed.
Lemma sforallb_stake f n s : sforallb f s = true → sforallb f (stake n s) = true.
Proof.
  revert n. induction s as [|c s IH]; intros [|n]; try done. cbn. intros [Hc Hs]%andb_true_iff.
  by rewrite Hc, IH.
Qed.

Lemma label_runes_chars k s : sforallb label_char (label_runes k s) = true.
Proof.
  revert k. induction s as [|c s IH]; intros [|k]; try done; [|apply IH].
  cbn [label_runes sforallb]. rewrite IH. destruct (label_char c) eqn:E; [by rewrite E|done].
Qed.
Lemma label_runes_keep s : sforallb label_char s = true → label_runes 0 s = s.
Proof.
  induction s as [|c s IH]; [done|]. cbn [sforallb label_runes]. intros [Hc Hs]%andb_true_iff. rewrite Hc.
  assert (utf8_tail c s = Some 0%nat) as ->.
  { unfold utf8_tail, between. destruct (label_char_ascii c Hc) as [Hr _].
    destruct (Z.leb_spec 0 (ord c)); [|lia]. destruct (Z.leb_spec (ord c) 127); [done|lia]. }
  cbn [default from_option id]. by rewrite IH.
Qed.
Lemma ToLowerFold_keep s : sforallb label_char s = true → ToLowerFold s = s.
Proof.
  induction s as [|c s IH]; [done|]. cbn [sforallb]. intros [Hc Hs]%andb_true_iff. specialize (IH Hs).
  destruct (label_char_ascii c Hc) as [Hr Hu].
  assert (lower c = c) as El by (unfold lower; by rewrite Hu).
  destruct s as [|d s]; [cbn; by rewrite El|]. cbn [ToLowerFold] in *.
  destruct (Z.eqb_spec (ord c) 196) as [|_]; [lia|]. cbn [andb]. destruct s as [|e s].
  { by rewrite El, IH. }
  destruct (Z.eqb_spec (ord c) 226) as [|_]; [lia|]. cbn [andb]. by rewrite El, IH.
Qed.

Lemma sanitizeLabel_keep s : sane_label s = true → sanitizeLabel s = s.
Proof.
  unfold sane_label. rewrite !andb_true_iff. intros [[[Hl Hc] Hs] He]. bool_to_prop.
  unfold sanitizeLabel, TrimByte, TrimFunc. rewrite ToLowerFold_keep, label_runes_keep by done.
  rewrite TrimLeft_keep by exact Hs. rewrite TrimRight_keep by exact He.
  destruct (Nat.ltb_spec 63 (len s)); [lia|].
  rewrite bool_decide_eq_false_2; [done|]. by intros ->.
Qed.

Lemma sanitizeLabel_sane s : sane_label (sanitizeLabel s) = true.
Proof.
  unfold sanitizeLabel, TrimByte, TrimRightByte, TrimFunc. fold dash.
  set (u := label_runes 0 (ToLowerFold s)).
  pose proof (label_runes_chars 0 (ToLowerFold s)) as Hu. fold u in Hu.
  set (v := TrimRightFunc dash (TrimLeftFunc dash u)).
  assert (Hv : sforallb label_char v = true) by by apply sforallb_TrimRight, sforallb_TrimLeft.
  assert (Hs : v = "" ∨ starts_in (λ c, negb (dash c)) v = true ∧ ends_in (λ c, negb (dash c)) v = true).
  { destruct (TrimRight_ends dash (TrimLeftFunc dash u)) as [E|E]; [by left|].
    destruct (TrimLeft_starts dash u) as [E'|E']; [left; unfold v; by rewrite E'|right].
    split; [by apply TrimRight_starts|done]. }
  destruct Hs as [E|[Hs He]]; [by rewrite E|].
  destruct (Nat.ltb_spec 63 (len v)) as [Hl|Hl].
  - set (w := TrimRightFunc dash (stake 63 v)).
    assert (Hw : starts_in (λ c, negb (dash c)) w = true).
    { apply TrimRight_starts. rewrite starts_in_stake by lia. done. }
    rewrite bool_decide_eq_false_2 by (intros E; by rewrite E in Hw).
    unfold sane_label. rewrite Hw.
    assert (sforallb label_char w = true) as -> by (apply sforallb_TrimRight; by apply sforallb_stake).
    assert (len w <= 63)%nat as Hlw%Nat.leb_le.
    { unfold w. rewrite TrimRight_length, stake_length. lia. }
    rewrite Hlw. destruct (TrimRight_ends dash (stake 63 v)) as [E|E]; [unfold w in Hw; by rewrite E in Hw|].
    done.
  - rewrite bool_decide_eq_false_2 by (intros E; by rewrite E in Hs).
    unfold sane_label. rewrite Hs, He, Hv. by apply Nat.leb_le in Hl as ->.
Qed.

Lemma sanitizeLabel_value s : label_value (sanitizeLabel s) = true.
Proof.
  pose proof (sanitizeLabel_sane s) as Hs.
  revert Hs. unfold sane_label at 1. rewrite !andb_true_iff. intros [[[Hl Hc] Hs] He].
  unfold label_value. rewrite Hl. cbn [andb].
  assert (∀ c, label_char c = true → negb (dash c) = true → alnum c = true) as Ha.
  { intros c Hc1 Hc2%negb_true_iff. by apply label_char_alnum. }
  apply andb_true_iff. split.
  - clear Hl Hs He. induction (sanitizeLabel s) as [|c t IH]; [done|]. cbn in *.
    apply andb_true_iff in Hc as [Hc Ht]. rewrite IH by done. rewrite andb_true_r.
    destruct (dash c) eqn:Ed.
    + unfold dash in Ed. bool_to_prop. subst c. reflexivity.
    + rewrite label_char_alnum; done.
  - apply orb_true_iff. right. apply andb_true_iff. split.
    + destruct (sanitizeLabel s) as [|c t]; [done|]. cbn in *. apply andb_true_iff in Hc as [Hc _]. auto.
    + apply (ends_in_impl (λ c, label_char c && negb (dash c))).
      * intros c [? ?]%andb_true_iff. auto.
      * by apply ends_in_and.
Qed.

(** C40: [sanitizeLabel] answers a non-empty label value the API server
    accepts, leaves every such lower-case value without dots or underscores
    alone, and is idempotent. *)
Theorem sanitizeLabel_correct s :
  sanitizeLabel s ≠ "" ∧ label_value (sanitizeLabel s) = true ∧
  sanitizeLabel (sanitizeLabel s) = sanitizeLabel s ∧
  (sane_label s = true → sanitizeLabel s = s).
Proof.
  pose proof (sanitizeLabel_sane s) as Hs. generalize (sanitizeLabel_keep (sanitizeLabel s) Hs). intros Hi.
  revert Hs. unfold sane_label at 1. rewrite !andb_true_iff. intros [[[Hl Hc] Hs] He].
  split_and!; [by intros E; rewrite E in Hs|apply sanitizeLabel_value|done|apply sanitizeLabel_keep].
Qed.

(** ** What the API server accepts *)

Definition categories : list string := ["probe"; "analyzer"; "fixer-action"; "fixer-skipped"].
Definition opt_len (n : nat) (o : option string) : bool :=
  match o with Some s => (len s <=? n)%nat | None => true end.
Definition ref_valid (r : ResourceRef) : bool :=
  (len (rr_kind r) <=? 64)%nat && opt_len 253 (rr_namespace r) && opt_len 253 (rr_name r).
(** The schema, with its lengths counted in bytes. *)
Definition crd_valid (c : CR) : bool :=
  (len (c_subject c) <=? 253)%nat && bool_decide (c_severity c ∈ severity_enum) &&
  (len (c_source c) <=? 64)%nat && bool_decide (c_category c ∈ categories) &&
  (len (c_message c) <=? 4096)%nat && (len (c_remediation c) <=? 1024)%nat &&
  (len (c_investigation c) <=? 1024)%nat &&
  match c_resourceRef c with Some r => ref_valid r | None => true end &&
  forallb (λ l, label_value l.2) (c_labels c).
(** A DNS-1123 subdomain of one label, as object names must be. *)
Definition object_name (n : string) : bool :=
  (len n <=? 253)%nat && sforallb label_char n &&
  starts_in (λ c, negb (dash c)) n && ends_in (λ c, negb (dash c)) n.

(** A server that refuses nothing it need not refuse, and no invalid JSON
    goes through. *)
Class Reliable (S : Type) `{!DriftAPI S} := {
  rel_List : ∀ s : S, ∃ items, api_List s = inr items;
  rel_Patch : ∀ (s : S) n b c j, crs s !! n = Some c → Unmarshal b = Some j →
    crd_valid (merge_spec j c) = true → (api_Patch s n b).2 = None;
  rel_Patch_json : ∀ (s : S) n b, Unmarshal b = None → (api_Patch s n b).2 ≠ None;
  rel_PatchStatus : ∀ (s : S) n b c j, crs s !! n = Some c → Unmarshal b = Some j →
    (api_PatchStatus s n b).2 = None;
  rel_Create : ∀ (s : S) n c, crs s !! n = None → object_name n = true → crd_valid c = true →
    (api_Create s n c).2 = None;
  rel_Delete : ∀ (s : S) n, is_Some (crs s !! n) → (api_Delete s n).2 = None;
}.

(** ** The bodies *)

Definition clean (e : DriftReportEntry) : bool :=
  quotable (truncateAt (en_Message e) 4096) && quotable (truncateAt (en_Remediation e) 1024)
  && quotable (truncateAt (en_Investigation e) 1024).
Definition spec_body (e : DriftReportEntry) : json :=
  JObj [("spec", JObj
    [("severity", JStr (en_Severity e)); ("message", JStr (truncateAt (en_Message e) 4096));
     ("remediation", JStr (truncateAt (en_Remediation e) 1024));
     ("investigation", JStr (truncateAt (en_Investigation e) 1024))])].
Definition status_body (now : string) (count : Z) (runID : string) : json :=
  JObj [("status", JObj
    [("lastObserved", JStr now); ("observationCount", JInt count); ("runID", JStr runID)])].
Definition first_status_body (now runID : string) : json :=
  JObj [("status", JObj
    [("firstObserved", JStr now); ("lastObserved", JStr now); ("observationCount", JInt 1);
     ("runID", JStr runID)])].

Lemma member_quote k s : quotable k = true → quotable s = true → member_ok (k, JStr s) (k, Quote s).
Proof. intros. split_and!; [done|done|by apply Rendered_Quote]. Qed.
Lemma member_int k z : quotable k = true → member_ok (k, JInt z) (k, Itoa z).
Proof.
  intros. split_and!; [done|done|]. apply (Rendered_encode (JInt z)), valid_number_Itoa.
Qed.
Lemma member_obj k l ms : quotable k = true → Forall2 member_ok l ms → l ≠ [] →
  member_ok (k, JObj l) (k, obj_body ms).
Proof. intros. split_and!; [done|done|]. by apply Rendered_obj. Qed.

Ltac body_members :=
  repeat (apply Forall2_cons_2; [first [apply member_quote | apply member_int]; done|]); apply Forall2_nil_2.

Lemma severity_quotable s : s ∈ severity_enum → quotable s = true.
Proof. intros Hs. in_literals Hs. Qed.

Lemma Unmarshal_spec_patch e : en_Severity e ∈ severity_enum →
  Unmarshal (spec_patch e) = if clean e then Some (spec_body e) else None.
Proof.
  intros Hs%severity_quotable. unfold clean, spec_patch.
  destruct (quotable (truncateAt (en_Message e) 4096)) eqn:Em; cbn [andb]; cycle 1.
  { apply Unmarshal_broken, (Broken_obj [] [] _ _ []); [constructor|done|].
    apply (Broken_obj [("severity", JStr (en_Severity e))] [_]);
      [body_members|done|by apply Broken_Quote]. }
  destruct (quotable (truncateAt (en_Remediation e) 1024)) eqn:Er; cbn [andb]; cycle 1.
  { apply Unmarshal_broken, (Broken_obj [] [] _ _ []); [constructor|done|].
    apply (Broken_obj [("severity", JStr (en_Severity e)); ("message", JStr (truncateAt (en_Message e) 4096))]
      [_; _]); [body_members|done|by apply Broken_Quote]. }
  destruct (quotable (truncateAt (en_Investigation e) 1024)) eqn:Ei; cycle 1.
  { apply Unmarshal_broken, (Broken_obj [] [] _ _ []); [constructor|done|].
    apply (Broken_obj [("severity", JStr (en_Severity e)); ("message", JStr (truncateAt (en_Message e) 4096));
      ("remediation", JStr (truncateAt (en_Remediation e) 1024))]
      [_; _; _]); [body_members|done|by apply Broken_Quote]. }
  apply Unmarshal_rendered, Rendered_obj; [|done]. constructor; [|constructor].
  apply member_obj; [done| |done]. body_members.
Qed.

Lemma Unmarshal_status_patch now count runID : quotable now = true → quotable runID = true →
  Unmarshal (status_patch now count runID) = Some (status_body now count runID).
Proof.
  intros. apply Unmarshal_rendered, Rendered_obj; [|done]. constructor; [|constructor].
  apply member_obj; [done| |done]. body_members.
Qed.
Lemma Unmarshal_first_status now runID : quotable now = true → quotable runID = true →
  Unmarshal (first_status_patch now runID) = Some (first_status_body now runID).
Proof.
  intros. apply Unmarshal_rendered, Rendered_obj; [|done]. constructor; [|constructor].
  apply member_obj; [done| |done]. change (Quote now, "1") with (Quote now, Itoa 1). body_members.
Qed.

Example spec_patch_text :
  spec_patch (mkEntry "Pod/shop/a" "warning" "pods" "analyzer" "down" "restart" "") =
  dq "{'spec':{'severity':'warning','message':'down','remediation':'restart','investigation':''}}".
Proof. reflexivity. Qed.
Example status_patch_text :
  status_patch "t" 7 "r" = dq "{'status':{'lastObserved':'t','observationCount':7,'runID':'r'}}".
Proof. reflexivity. Qed.

(** What the patches make of a stored object. *)
Definition refreshed (now runID : string) (c : CR) (e : DriftReportEntry) : CR :=
  mkCR (c_subject c) (en_Severity e) (c_source c) (c_category c)
    (truncateAt (en_Message e) 4096) (truncateAt (en_Remediation e) 1024)
    (truncateAt (en_Investigation e) 1024) (c_resourceRef c) (c_labels c)
    (mkCRStatus (st_firstObserved (c_status c)) now
       (CInt64 (add64 (oldCount (st_observationCount (c_status c))) 1)) runID).
Definition observed_once (now runID : string) (e : DriftReportEntry) : CR :=
  mkCR (en_Subject e) (en_Severity e) (en_Source e) (en_Category e)
    (truncateAt (en_Message e) 4096) (truncateAt (en_Remediation e) 1024)
    (truncateAt (en_Investigation e) 1024) (resourceRefFromSubject (en_Subject e))
    (c_labels (new_cr e)) (mkCRStatus now now (CInt64 1) runID).

Lemma wrap64_range z : in_int64 (wrap64 z) = true.
Proof.
  unfold in_int64, wrap64, minInt64, maxInt64. pose proof (Z.mod_pos_bound (z + 2 ^ 63) (2 ^ 64) ltac:(lia)).
  apply andb_true_iff. rewrite !Z.leb_le. lia.
Qed.
Lemma merged_refresh now runID c e :
  merge_status (status_body now (add64 (oldCount (st_observationCount (c_status c))) 1) runID)
    (merge_spec (spec_body e) c) = refreshed now runID c e.
Proof.
  unfold refreshed, merge_status. cbn -[add64 Itoa ParseInt truncateAt]. f_equal. f_equal.
  unfold merge_count. cbn -[add64 Itoa ParseInt truncateAt].
  by rewrite ParseInt_Itoa by apply wrap64_range.
Qed.
Lemma merged_first now runID e :
  merge_status (first_status_body now runID) (strip_status (new_cr e)) = observed_once now runID e.
Proof. reflexivity. Qed.

(** ** The indexes *)

Definition normalized (e : DriftReportEntry) : DriftReportEntry :=
  mkEntry (en_Subject e) (NormalizeSeverity (en_Severity e) (en_Source e)) (en_Source e)
    (en_Category e) (en_Message e) (en_Remediation e) (en_Investigation e).

Lemma wantBySubject_lookup entries k e : wantBySubject entries !! k = Some e →
  ∃ e0, e0 ∈ entries ∧ e = normalized e0 ∧ en_Subject e0 = k.
Proof.
  unfold wantBySubject.
  assert (Hg : ∀ m, foldl want_step m entries !! k = Some e →
    (∃ e0, e0 ∈ entries ∧ e = normalized e0 ∧ en_Subject e0 = k) ∨ m !! k = Some e).
  { induction entries as [|x l IH]; intros m Hm; [by right|]. cbn [foldl] in Hm.
    destruct (IH _ Hm) as [(e0 & ? & ? & ?)|Hx]; [left; exists e0; set_solver|].
    unfold want_step in Hx. apply lookup_insert_Some in Hx as [[Hk <-]|[Hk Hx]]; [|by right].
    left. exists x. split; [set_solver|done]. }
  intros Hm. destruct (Hg ∅ Hm) as [?|Hx]; [done|]. by rewrite lookup_empty in Hx.
Qed.
Lemma wantBySubject_dom entries e : e ∈ entries → is_Some (wantBySubject entries !! en_Subject e).
Proof.
  unfold wantBySubject. generalize (∅ : gmap string DriftReportEntry) as m.
  assert (Hkeep : ∀ l m k, is_Some (m !! k) → is_Some (foldl want_step m l !! k)).
  { induction l as [|x l IH]; intros m k Hk; [done|]. cbn [foldl]. apply IH. unfold want_step.
    destruct (decide (en_Subject x = k)) as [->|]; [by rewrite lookup_insert_eq|by rewrite lookup_insert_ne]. }
  induction entries as [|x l IH]; intros m He; [by apply elem_of_nil in He|]. cbn [foldl].
  apply elem_of_cons in He as [<-|He]; [|by apply IH].
  apply Hkeep. unfold want_step. by rewrite lookup_insert_eq.
Qed.

Section index.
Variables (items : list (string * CR)).
Hypothesis items_names : NoDup items.*1.

Lemma index_existing n c :
  (index_crs items).1 !! n = Some c ↔ (n, c) ∈ items ∧ c_subject c ≠ "".
Proof using items_names.
  assert (Hg : ∀ ix, (∀ n, n ∈ items.*1 → ix.1 !! n = None) →
    (foldl index_step ix items).1 !! n = Some c ↔ ((n, c) ∈ items ∧ c_subject c ≠ "") ∨ ix.1 !! n = Some c).
  { induction items as [|[n1 c1] l IH]; intros ix Hix; cbn [foldl].
    { split; [by right|]. intros [[[]%elem_of_nil _]|?]; done. }
    cbn [fmap list_fmap fst] in items_names. apply NoDup_cons in items_names as [Hn Hl].
    rewrite IH; [|done|].
    - rewrite elem_of_cons. unfold index_step. cbn [fst snd].
      destruct (decide (c_subject c1 = "")) as [E|E].
      + rewrite bool_decide_eq_true_2 by done. naive_solver.
      + rewrite bool_decide_eq_false_2 by done. cbn [fst]. rewrite lookup_insert_Some.
        assert (ix.1 !! n1 = None) by (apply Hix; set_solver).
        destruct (decide (n1 = n)) as [->|]; naive_solver.
    - intros n' Hn'. unfold index_step. case_bool_decide; cbn [fst snd]; [apply Hix; set_solver|].
      rewrite lookup_insert_ne by (intros <-; done). apply Hix. set_solver. }
  unfold index_crs. rewrite Hg by (intros; cbn [fst]; by rewrite lookup_empty). cbn [fst]. rewrite lookup_empty. naive_solver.
Qed.

Lemma index_subject k n : (index_crs items).2 !! k = Some n →
  ∃ c, (n, c) ∈ items ∧ c_subject c = k ∧ k ≠ "".
Proof using Type.
  assert (Hg : ∀ ix, (foldl index_step ix items).2 !! k = Some n →
    (∃ c, (n, c) ∈ items ∧ c_subject c = k ∧ k ≠ "") ∨ ix.2 !! k = Some n).
  { clear items_names. induction items as [|[n1 c1] l IH]; intros ix Hk; [by right|]. cbn [foldl] in Hk.
    destruct (IH _ Hk) as [(c & ? & ? & ?)|Hx]; [left; exists c; set_solver|].
    unfold index_step in Hx. cbn [fst snd] in Hx. case_bool_decide as E; [by right|].
    cbn [snd] in Hx. apply lookup_insert_Some in Hx as [[<- <-]|[_ Hx]]; [|by right].
    left. exists c1. split; [set_solver|done]. }
  intros Hk. destruct (Hg _ Hk) as [?|Hx]; [done|]. cbn [snd] in Hx. by rewrite lookup_empty in Hx.
Qed.

Lemma index_subject_some n c : (n, c) ∈ items → c_subject c ≠ "" →
  is_Some ((index_crs items).2 !! c_subject c).
Proof using Type.
  unfold index_crs. generalize (∅ : gmap string CR, ∅ : gmap string string) as ix.
  assert (Hkeep : ∀ l ix k, is_Some (ix.2 !! k) → is_Some ((foldl index_step ix l).2 !! k)).
  { induction l as [|x l IH]; intros ix k Hk; [done|]. cbn [foldl]. apply IH. unfold index_step.
    case_bool_decide; [done|]. cbn [snd].
    destruct (decide (c_subject x.2 = k)) as [->|]; [by rewrite lookup_insert_eq|by rewrite lookup_insert_ne]. }
  clear items_names. induction items as [|x l IH]; intros ix Hn Hc; [by apply elem_of_nil in Hn|]. cbn [foldl].
  apply elem_of_cons in Hn as [<-|Hn]; [|by apply IH].
  apply Hkeep. unfold index_step. cbn [fst snd]. rewrite bool_decide_eq_false_2 by done. cbn [snd].
  by rewrite lookup_insert_eq.
Qed.
End index.

(** ** A reconciled store *)

(** Altering a present key is inserting. *)
Lemma alter_insert_id {A} (f : A → A) (m : gmap string A) k x : m !! k = Some x → alter f k m = <[k := f x]> m.
Proof.
  intros Hx. apply map_eq. intros i. destruct (decide (k = i)) as [<-|].
  - by rewrite lookup_alter_eq, lookup_insert_eq, Hx.
  - by rewrite lookup_alter_ne, lookup_insert_ne.
Qed.

Lemma truncateAt_length s n : (len (truncateAt s n) ≤ n)%nat.
Proof. unfold truncateAt. destruct (Nat.leb_spec (len s) n); [done|]. rewrite stake_length. lia. Qed.

(** An entry the schema has room for. *)
Definition entry_ok (e : DriftReportEntry) : bool :=
  (en_Subject e ≠s? "") && (len (en_Subject e) <=? 253)%nat && (len (en_Source e) <=? 64)%nat &&
  bool_decide (en_Category e ∈ categories) &&
  match resourceRefFromSubject (en_Subject e) with Some r => ref_valid r | None => true end.

Lemma nameForSubject_ok k : object_name (nameForSubject k) = true.
Proof.
  unfold nameForSubject.
  assert (Hh : ∀ s, sforallb (λ c, is_digit c || is_lower c) (hex_encode s) = true).
  { intros s. unfold hex_encode. induction (bytes s) as [|c l IH]; [done|]. cbn [mbind list_bind].
    rewrite of_bytes_app, sforallb_app, IH, andb_true_r.
    destruct c as [[] [] [] [] [] [] [] []]; reflexivity. }
  assert (Hl : (len (hex_encode (stake 8 (Sum256 k))) <= 16)%nat).
  { rewrite hex_encode_length, stake_length. lia. }
  specialize (Hh (stake 8 (Sum256 k))).
  assert (Hne : hex_encode (stake 8 (Sum256 k)) ≠ "").
  { intros E. pose proof (hex_encode_length (stake 8 (Sum256 k))) as Hl'. rewrite E in Hl'.
    rewrite stake_length, Sum256_length in Hl'. cbn in Hl'. lia. }
  generalize dependent (hex_encode (stake 8 (Sum256 k))). intros h Hh Hl Hne. unfold object_name.
  rewrite sapp_length, sforallb_app. cbn [String.append starts_in String.length].
  assert ((6 + len h <=? 253)%nat = true) as -> by (apply Nat.leb_le; lia).
  assert (Hc : ∀ c, is_digit c || is_lower c = true → label_char c = true ∧ negb (dash c) = true).
  { intros c. destruct c as [[] [] [] [] [] [] [] []]; vm_compute; done. }
  assert (sforallb label_char h = true ∧ sforallb (λ c, negb (dash c)) h = true) as [-> Hd].
  { clear Hl Hne. induction h as [|c h IH]; [done|]. cbn in *. apply andb_true_iff in Hh as [H1 H2].
    destruct (Hc c H1) as [-> ->]. destruct (IH H2) as [-> ->]. done. }
  change (sforallb label_char "drift-") with true. change (negb (dash "d")) with true. cbn [andb].
  assert (He : ends_in (λ c, negb (dash c)) h = true).
  { clear -Hd Hne. induction h as [|c [|d h] IH]; [done| |].
    - cbn in *. by rewrite andb_true_r in Hd.
    - cbn [sforallb] in Hd. apply andb_true_iff in Hd as [_ Hd]. by apply IH. }
  by destruct h.
Qed.

Lemma crd_valid_refresh e c : en_Severity e ∈ severity_enum → crd_valid c = true →
  crd_valid (merge_spec (spec_body e) c) = true.
Proof.
  intros Hs. unfold crd_valid. rewrite !andb_true_iff.
  intros [[[[[[[[H1 _] H2] H3] _] _] _] H4] H5].
  cbn -[truncateAt Nat.leb ref_valid label_value categories severity_enum].
  rewrite bool_decide_eq_true_2 by done. unfold merge_str. cbn -[truncateAt Nat.leb ref_valid label_value categories].
  pose proof (truncateAt_length (en_Message e) 4096) as ?%Nat.leb_le.
  pose proof (truncateAt_length (en_Remediation e) 1024) as ?%Nat.leb_le.
  pose proof (truncateAt_length (en_Investigation e) 1024) as ?%Nat.leb_le.
  by split_and!.
Qed.
Lemma crd_valid_new e : en_Severity e ∈ severity_enum → entry_ok e = true → crd_valid (new_cr e) = true.
Proof.
  intros Hs. unfold entry_ok, crd_valid. rewrite !andb_true_iff.
  intros [[[[H1 H2] H3] H4] H5]. cbn -[truncateAt Nat.leb ref_valid label_value categories severity_enum].
  rewrite bool_decide_eq_true_2 by done.
  pose proof (truncateAt_length (en_Message e) 4096) as ?%Nat.leb_le.
  pose proof (truncateAt_length (en_Remediation e) 1024) as ?%Nat.leb_le.
  pose proof (truncateAt_length (en_Investigation e) 1024) as ?%Nat.leb_le.
  assert (label_value (en_Severity e) = true) by in_literals Hs.
  assert (label_value (en_Category e) = true).
  { apply bool_decide_eq_true in H4. unfold categories in H4. in_literals H4. }
  assert (label_value (sanitizeLabel (en_Source e)) = true) by apply sanitizeLabel_value.
  rewrite !andb_true_iff. split_and!; done.
Qed.

Section sync.
Context {S : Type} `{!DriftAPI S} `{!Reliable S} `{!MapRange}.
Variables (now runID : string) (V : gmap string CR) (subjectToName : gmap string string)
  (E0 : gmap string CR).
Hypothesis quotable_now : quotable now = true.
Hypothesis quotable_run : quotable runID = true.
Local Notation nm := (cr_name subjectToName).
Local Notation names P := ((λ p : string * DriftReportEntry, nm p.1) <$> P).

(** What one round of the upsert loop does to the server, by case. *)
Lemma upsert_clean lp k e c : lp_existing lp !! nm k = Some c → crs (lp_server lp) !! nm k = Some c →
  crd_valid c = true → en_Severity e ∈ severity_enum → clean e = true →
  ∃ s, upsert now runID subjectToName lp (k, e) =
    mkLoop s (delete (nm k) (lp_existing lp)) (lp_created lp) (1 + lp_updated lp) (lp_deleted lp) (lp_err lp)
    ∧ crs s = <[nm k := refreshed now runID c e]> (crs (lp_server lp)).
Proof using All.
  intros Ex Hs Hval Hsev Hcl. unfold upsert. rewrite Ex.
  destruct (api_Patch (lp_server lp) (nm k) (spec_patch e)) as [s1 e1] eqn:EP.
  pose proof (api_Patch_ok (lp_server lp) (nm k) (spec_patch e)) as Hp. rewrite EP in Hp. cbn [fst snd] in Hp.
  pose proof (Unmarshal_spec_patch e Hsev) as Hj. rewrite Hcl in Hj. rewrite Hj in Hp.
  assert (e1 = None) as ->.
  { replace e1 with (api_Patch (lp_server lp) (nm k) (spec_patch e)).2 by by rewrite EP.
    apply (rel_Patch _ _ _ c (spec_body e)); [done..|]. by apply crd_valid_refresh. }
  set (n := add64 _ 1).
  destruct (api_PatchStatus s1 (nm k) (status_patch now n runID)) as [s2 e2] eqn:EQ.
  pose proof (api_PatchStatus_ok s1 (nm k) (status_patch now n runID)) as Hq. rewrite EQ in Hq. cbn [fst snd] in Hq.
  rewrite Unmarshal_status_patch in Hq by done.
  assert (Hs1 : crs s1 !! nm k = Some (merge_spec (spec_body e) c)) by by rewrite Hp, lookup_alter_eq, Hs.
  assert (e2 = None) as ->.
  { replace e2 with (api_PatchStatus s1 (nm k) (status_patch now n runID)).2 by by rewrite EQ.
    eapply rel_PatchStatus; [exact Hs1|by apply Unmarshal_status_patch]. }
  exists s2. split; [done|]. rewrite Hq, (alter_insert_id _ _ _ _ Hs1), Hp, (alter_insert_id _ _ _ _ Hs), insert_insert_eq.
  unfold n. by rewrite merged_refresh.
Qed.

Lemma upsert_dirty lp k e c : lp_existing lp !! nm k = Some c → en_Severity e ∈ severity_enum → clean e = false →
  ∃ s er, upsert now runID subjectToName lp (k, e) =
    mkLoop s (lp_existing lp) (lp_created lp) (lp_updated lp) (lp_deleted lp) (Some er)
    ∧ crs s = crs (lp_server lp).
Proof using All.
  intros Ex Hsev Hcl. unfold upsert. rewrite Ex.
  destruct (api_Patch (lp_server lp) (nm k) (spec_patch e)) as [s1 e1] eqn:EP.
  pose proof (api_Patch_ok (lp_server lp) (nm k) (spec_patch e)) as Hp. rewrite EP in Hp. cbn [fst snd] in Hp.
  pose proof (Unmarshal_spec_patch e Hsev) as Hj. rewrite Hcl in Hj.
  pose proof (rel_Patch_json (lp_server lp) (nm k) (spec_patch e) Hj) as He. rewrite EP in He. cbn [snd] in He.
  destruct e1 as [er|]; [|done]. by exists s1, er.
Qed.

Lemma upsert_new lp k e : lp_existing lp !! nm k = None → crs (lp_server lp) !! nm k = None →
  object_name (nm k) = true → en_Severity e ∈ severity_enum → entry_ok e = true →
  ∃ s, upsert now runID subjectToName lp (k, e) =
    mkLoop s (lp_existing lp) (1 + lp_created lp) (lp_updated lp) (lp_deleted lp) (lp_err lp)
    ∧ crs s = <[nm k := observed_once now runID e]> (crs (lp_server lp)).
Proof using All.
  intros Ex Hs Hname Hsev Hok. unfold upsert. rewrite Ex.
  destruct (api_Create (lp_server lp) (nm k) (new_cr e)) as [s1 e1] eqn:EP.
  pose proof (api_Create_ok (lp_server lp) (nm k) (new_cr e)) as Hp. rewrite EP in Hp. cbn [fst snd] in Hp.
  assert (e1 = None) as ->.
  { replace e1 with (api_Create (lp_server lp) (nm k) (new_cr e)).2 by by rewrite EP.
    apply rel_Create; [done..|by apply crd_valid_new]. }
  destruct (api_PatchStatus s1 (nm k) (first_status_patch now runID)) as [s2 e2] eqn:EQ.
  pose proof (api_PatchStatus_ok s1 (nm k) (first_status_patch now runID)) as Hq. rewrite EQ in Hq. cbn [fst snd] in Hq.
  rewrite Unmarshal_first_status in Hq by done.
  assert (Hs1 : crs s1 !! nm k = Some (strip_status (new_cr e))) by by rewrite Hp, lookup_insert_eq.
  assert (e2 = None) as ->.
  { replace e2 with (api_PatchStatus s1 (nm k) (first_status_patch now runID)).2 by by rewrite EQ.
    eapply rel_PatchStatus; [exact Hs1|by apply Unmarshal_first_status]. }
  exists s2. split; [done|]. by rewrite Hq, (alter_insert_id _ _ _ _ Hs1), Hp, insert_insert_eq, merged_first.
Qed.

(** One wanted entry against the listed CRs. *)
Record fits (p : string * DriftReportEntry) : Prop := {
  fits_severity : en_Severity p.2 ∈ severity_enum;
  fits_ok : entry_ok p.2 = true;
  fits_stored : ∀ c, E0 !! nm p.1 = Some c → V !! nm p.1 = Some c ∧ crd_valid c = true;
  fits_new : E0 !! nm p.1 = None → V !! nm p.1 = None ∧ object_name (nm p.1) = true;
}.

Definition stored (p : string * DriftReportEntry) : bool := bool_decide (is_Some (E0 !! nm p.1)).
Definition outcome (p : string * DriftReportEntry) : CR :=
  match E0 !! nm p.1 with
  | Some c => if clean p.2 then refreshed now runID c p.2 else c
  | None => observed_once now runID p.2
  end.
(** The names of the stored CRs the entries [P] have refreshed. *)
Definition kept (P : list (string * DriftReportEntry)) : list string :=
  names (List.filter (λ p, stored p && clean p.2) P).

(** After the entries [P]. *)
Record upserted (P : list (string * DriftReportEntry)) (lp : Loop S) : Prop := {
  up_done : ∀ p, p ∈ P → crs (lp_server lp) !! nm p.1 = Some (outcome p);
  up_other : ∀ n, n ∉ names P → crs (lp_server lp) !! n = V !! n;
  up_existing : ∀ n, lp_existing lp !! n = if decide (n ∈ kept P) then None else E0 !! n;
  up_created : lp_created lp = length (List.filter (λ p, negb (stored p)) P);
  up_updated : lp_updated lp = length (kept P);
  up_size : (size (lp_existing lp) + lp_updated lp = size E0)%nat;
  up_deleted : lp_deleted lp = 0%nat;
  up_err : (∀ p, p ∈ P → stored p = true → clean p.2 = true) → lp_err lp = None;
}.

Lemma kept_snoc P p : kept (P ++ [p]) = kept P ++ if stored p && clean p.2 then [nm p.1] else [].
Proof. unfold kept. rewrite bfilter_app, fmap_app. cbn. by destruct (stored p && clean p.2). Qed.
Lemma kept_names P n : n ∈ kept P → n ∈ names P.
Proof.
  unfold kept. intros (p & -> & [_ Hp]%elem_of_bfilter)%list_elem_of_fmap.
  by apply (list_elem_of_fmap_2 (λ p, nm p.1)).
Qed.

(** Recording one entry, when the server now holds its outcome. *)
Lemma upserted_done P p s V' : nm p.1 ∉ names P →
  (∀ q, q ∈ P → V' !! nm q.1 = Some (outcome q)) → (∀ n, n ∉ names P → V' !! n = V !! n) →
  crs s = <[nm p.1 := outcome p]> V' →
  (∀ q, q ∈ P ++ [p] → crs s !! nm q.1 = Some (outcome q)) ∧
  (∀ n, n ∉ names (P ++ [p]) → crs s !! n = V !! n).
Proof using All.
  intros Hn Hd Ho ->. split.
  - intros q [Hq| ->%list_elem_of_singleton]%elem_of_app; [|by rewrite lookup_insert_eq].
    rewrite lookup_insert_ne; [by apply Hd|]. intros E. apply Hn. rewrite E.
    by apply (list_elem_of_fmap_2 (λ p, nm p.1)).
  - intros n. rewrite fmap_app. intros Hn'. rewrite lookup_insert_ne; [apply Ho; set_solver|]. set_solver.
Qed.

Lemma upsert_step P p lp : nm p.1 ∉ names P → fits p → upserted P lp →
  upserted (P ++ [p]) (upsert now runID subjectToName lp p).
Proof using All.
  intros Hns [Hsev Hok Hst Hnew] [Hd Ho He Hc Hu Hsz Hdel Herr].
  assert (Ex : lp_existing lp !! nm p.1 = E0 !! nm p.1).
  { rewrite He, decide_False; [done|]. by intros ?%kept_names. }
  assert (Hsrv : crs (lp_server lp) !! nm p.1 = V !! nm p.1) by by apply Ho.
  assert (Hst' : stored p = bool_decide (is_Some (E0 !! nm p.1))) by done.
  assert (Hdone := upserted_done P p).
  destruct p as [k e]. cbn [fst snd] in *.
  destruct (E0 !! nm k) as [c|] eqn:Ek; [destruct (clean e) eqn:Ecl|].
  - destruct (Hst c eq_refl) as [HV Hval]. rewrite bool_decide_eq_true_2 in Hst' by by eexists.
    destruct (upsert_clean lp k e c) as (s & -> & Hs); [first [done | by rewrite Hsrv]..|].
    destruct (Hdone s (crs (lp_server lp)) Hns Hd Ho) as [Hd' Ho'].
    { unfold outcome. cbn [fst snd]. by rewrite Ek, Ecl. }
    split; cbn [lp_server lp_existing lp_created lp_updated lp_deleted lp_err]; rewrite ?kept_snoc, ?bfilter_app, ?length_app;
      cbn [List.filter snd]; rewrite ?Hst', ?Ecl; cbn [negb andb fst length]; try done; try lia.
    + intros n. destruct (decide (nm k = n)) as [<-|Hne].
      * rewrite lookup_delete_eq. symmetry. apply decide_True. set_solver.
      * rewrite lookup_delete_ne, He by done. apply decide_ext. set_solver.
    + rewrite map_size_delete_Some by (rewrite Ex; by eexists). assert (size (lp_existing lp) ≠ 0%nat); [|lia].
      intros E%map_size_empty_inv. by rewrite E, lookup_empty in Ex.
    + intros Hall. apply Herr. intros q Hq. apply Hall. set_solver.
  - destruct (Hst c eq_refl) as [HV Hval]. rewrite bool_decide_eq_true_2 in Hst' by by eexists.
    destruct (upsert_dirty lp k e c) as (s & er & -> & Hs); [done..|].
    destruct (Hdone s (crs (lp_server lp)) Hns Hd Ho) as [Hd' Ho'].
    { unfold outcome. cbn [fst snd]. rewrite Ek, Ecl, Hs. symmetry. apply insert_id. by rewrite Hsrv. }
    split; cbn [lp_server lp_existing lp_created lp_updated lp_deleted lp_err]; rewrite ?kept_snoc, ?bfilter_app, ?length_app;
      cbn [List.filter snd]; rewrite ?Hst', ?Ecl; cbn [negb andb fst length]; rewrite ?app_nil_r, ?Nat.add_0_r; try done; try lia.
    intros Hall. exfalso. specialize (Hall (k, e)). cbn [snd] in Hall. rewrite Hall in Ecl; [done|set_solver|done].
  - destruct (Hnew eq_refl) as [HV Hname]. rewrite bool_decide_eq_false_2 in Hst' by by intros [].
    destruct (upsert_new lp k e) as (s & -> & Hs); [first [done | by rewrite Hsrv]..|].
    destruct (Hdone s (crs (lp_server lp)) Hns Hd Ho) as [Hd' Ho'].
    { unfold outcome. cbn [fst snd]. by rewrite Ek. }
    split; cbn [lp_server lp_existing lp_created lp_updated lp_deleted lp_err]; rewrite ?kept_snoc, ?bfilter_app, ?length_app;
      cbn [List.filter snd]; rewrite ?Hst'; cbn [negb andb fst length]; rewrite ?app_nil_r, ?Nat.add_0_r; try done; try lia.
    intros Hall. apply Herr. intros q Hq. apply Hall. set_solver.
Qed.

Lemma upsert_loop P : NoDup (names P) → Forall fits P → ∀ s, crs s = V →
  upserted P (foldl (upsert now runID subjectToName) (mkLoop s E0 0 0 0 None) P).
Proof using All.
  intros Hnd Hf s Hs. induction P as [|p P IH] using rev_ind.
  { split; cbn; try done; first [by intros ? ?%elem_of_nil | by intros; rewrite Hs | lia]. }
  rewrite fmap_app, NoDup_app in Hnd. apply Forall_app in Hf as [Hf Hp]. destruct Hnd as (Hnd & Hd & _).
  rewrite foldl_app. cbn [foldl]. apply upsert_step; [|by apply (Forall_inv Hp)|by apply IH].
  intros Hin. apply (Hd _ Hin). by left.
Qed.
End sync.

Section reconcile_spec.
Context {S : Type} `{!DriftAPI S} `{!Reliable S} `{!MapRange}.

(** The delete loop. *)
Lemma remove_loop (D : list (string * CR)) : NoDup D.*1 → ∀ lp, (∀ n, n ∈ D.*1 → is_Some (crs (lp_server lp) !! n)) →
  let lp' := foldl remove lp D in
  (∀ n, crs (lp_server lp') !! n = if decide (n ∈ D.*1) then None else crs (lp_server lp) !! n) ∧
  lp_created lp' = lp_created lp ∧ lp_updated lp' = lp_updated lp ∧
  lp_deleted lp' = (lp_deleted lp + length D)%nat ∧ lp_err lp' = lp_err lp.
Proof using Reliable0.
  cbv zeta. induction D as [|[n c] D IH]; intros Hnd lp Hpre; cbn [foldl].
  { split_and!; first [done | cbn; lia]. }
  cbn [fmap list_fmap fst] in *. apply NoDup_cons in Hnd as [Hn Hnd].
  destruct (api_Delete (lp_server lp) n) as [s e] eqn:ED.
  assert (e = None) as ->.
  { replace e with (api_Delete (lp_server lp) n).2 by by rewrite ED. apply rel_Delete, Hpre. set_solver. }
  assert (remove lp (n, c) = mkLoop s (lp_existing lp) (lp_created lp) (lp_updated lp)
    (1 + lp_deleted lp) (lp_err lp)) as -> by (unfold remove; cbn [fst]; by rewrite ED).
  pose proof (api_Delete_ok (lp_server lp) n) as Hdel. rewrite ED in Hdel. cbn [fst snd] in Hdel.
  destruct (IH Hnd (mkLoop s (lp_existing lp) (lp_created lp) (lp_updated lp) (1 + lp_deleted lp) (lp_err lp)))
    as (H1 & H2 & H3 & H4 & H5).
  { cbn [lp_server]. intros n' Hn'. rewrite Hdel, lookup_delete_ne by (intros ->; done). apply Hpre. set_solver. }
  cbn [lp_server lp_created lp_updated lp_deleted lp_err] in *.
  split_and!; [|done|done|rewrite H4; cbn; lia|done].
  intros n'. rewrite H1, Hdel. destruct (decide (n = n')) as [->|Hne].
  - rewrite lookup_delete_eq, (decide_True _ _ (P := n' ∈ n' :: _)) by set_solver. by destruct (decide _).
  - rewrite lookup_delete_ne by done. apply decide_ext. set_solver.
Qed.

(** A store only [Reconcile] writes to. *)
Definition well_stocked (V : gmap string CR) : Prop :=
  ∀ n c, V !! n = Some c → c_subject c ≠ "" ∧ n = nameForSubject (c_subject c) ∧ crd_valid c = true.
(** The subjects at hand have different names. *)
Definition no_collision (V : gmap string CR) (entries : list DriftReportEntry) : Prop :=
  ∀ k k', (k ∈ en_Subject <$> entries ∨ ∃ n c, V !! n = Some c ∧ c_subject c = k) →
    k' ∈ en_Subject <$> entries → nameForSubject k = nameForSubject k' → k = k'.
(** What the CR of a wanted subject becomes. *)
Definition reported (now runID : string) (V : gmap string CR) (e : DriftReportEntry) : CR :=
  match V !! nameForSubject (en_Subject e) with
  | Some c => refreshed now runID c e
  | None => observed_once now runID e
  end.

Lemma nameForSubject_nonempty k : nameForSubject k ≠ "".
Proof. done. Qed.

Section index_facts.
Variables (V : gmap string CR) (items : list (string * CR)).
Hypothesis HV : well_stocked V.
Hypothesis Hitems : items ≡ₚ map_to_list V.

Lemma index_all n : (index_crs items).1 !! n = V !! n.
Proof using HV Hitems.
  assert (Hnd : NoDup items.*1) by (rewrite Hitems; apply NoDup_fst_map_to_list).
  apply option_eq. intros c. rewrite index_existing by done. rewrite Hitems, elem_of_map_to_list.
  split; [by intros []|]. intros Hc. split; [done|]. by apply (HV n c).
Qed.

Lemma index_name k : cr_name (index_crs items).2 k = nameForSubject k.
Proof using HV Hitems.
  unfold cr_name. destruct ((index_crs items).2 !! k) as [n|] eqn:E; [|done].
  apply index_subject in E as (c & Hc & <- & Hk). cbn [default from_option id].
  rewrite Hitems, elem_of_map_to_list in Hc. destruct (HV n c Hc) as (_ & -> & _).
  by case_bool_decide.
Qed.
End index_facts.

Section reconciled.
Variables (now runID : string) (entries : list DriftReportEntry) (V : gmap string CR).
Hypothesis quotable_now : quotable now = true.
Hypothesis quotable_run : quotable runID = true.
Hypothesis HV : well_stocked V.
Hypothesis Hok : forallb entry_ok entries = true.
Hypothesis Hcol : no_collision V entries.
Local Notation W := (wantBySubject entries).

Lemma want_facts k e : W !! k = Some e →
  en_Subject e = k ∧ k ∈ en_Subject <$> entries ∧ en_Severity e ∈ severity_enum ∧ entry_ok e = true.
Proof using Hok.
  intros (e0 & He0 & -> & <-)%wantBySubject_lookup. split_and!; [done|by apply list_elem_of_fmap_2| |].
  - cbn [en_Severity normalized]. apply NormalizeSeverity_in_enum.
  - rewrite forallb_elem in Hok. exact (Hok e0 He0).
Qed.

(** Different wanted subjects have different names, and a stored CR under a
    wanted name is the subject's. *)
Lemma name_inj k k' e e' : W !! k = Some e → W !! k' = Some e' → nameForSubject k = nameForSubject k' → k = k'.
Proof using Hok Hcol. intros Hk%want_facts Hk'%want_facts. apply Hcol; [left|]; naive_solver. Qed.
Lemma stored_subject k e c : W !! k = Some e → V !! nameForSubject k = Some c → c_subject c = k.
Proof using All.
  intros Hk%want_facts Hc. destruct (HV _ _ Hc) as (_ & Hn & _).
  apply Hcol; [right; eauto|naive_solver|done].
Qed.

Lemma reported_stocked e : W !! en_Subject e = Some e →
  c_subject (reported now runID V e) ≠ "" ∧
  nameForSubject (en_Subject e) = nameForSubject (c_subject (reported now runID V e)) ∧
  crd_valid (reported now runID V e) = true.
Proof using All.
  intros Hke. destruct (want_facts _ _ Hke) as (_ & _ & Hsev & He). unfold reported.
  destruct (V !! nameForSubject (en_Subject e)) as [c|] eqn:Ec.
  - destruct (HV _ _ Ec) as (Hne & Hn & Hval). split_and!; [done|done|].
    change (crd_valid (merge_spec (spec_body e) c) = true). by apply crd_valid_refresh.
  - split_and!; [|done|by apply (crd_valid_new e)].
    unfold entry_ok in He. rewrite !andb_true_iff in He. destruct He as [[[[He _] _] _] _].
    by apply negb_true_iff, bool_decide_eq_false in He.
Qed.

Variables (sn : gmap string string).
Hypothesis Hsn : ∀ k, cr_name sn k = nameForSubject k.

Lemma all_fit : Forall (fits V sn V) (range W).
Proof using All.
  apply Forall_forall. intros [k e] Hke%elem_of_range. destruct (want_facts k e Hke) as (Hs & _ & Hsev & He).
  split; cbn [fst snd]; rewrite ?Hsn; [done|done| |].
  - intros c Hc. split; [done|]. by apply HV in Hc as (_ & _ & ?).
  - intros Hn. split; [done|]. apply nameForSubject_ok.
Qed.
Lemma names_NoDup : NoDup ((λ p : string * DriftReportEntry, cr_name sn p.1) <$> range W).
Proof using All.
  pose proof (NoDup_range_fst W) as Hnd.
  assert (Hin : ∀ p, p ∈ range W → W !! p.1 = Some p.2) by by intros [k e] ?%elem_of_range.
  induction (range W) as [|p l IH]; [constructor|]. rewrite fmap_cons in *. apply NoDup_cons in Hnd as [Hp Hnd].
  apply NoDup_cons. split; [|apply IH; [done|set_solver]].
  intros (q & E & Hq)%list_elem_of_fmap. rewrite !Hsn in E. apply Hp.
  apply (name_inj _ _ p.2 q.2) in E as ->; [by apply list_elem_of_fmap_2|apply Hin; set_solver..].
Qed.

(** The store after both loops. *)
Lemma store_after lp (D : list (string * CR)) (V' : gmap string CR) : upserted now runID V sn V (range W) lp →
  D ≡ₚ map_to_list (lp_existing lp) →
  (∀ n, V' !! n = if decide (n ∈ D.*1) then None else crs (lp_server lp) !! n) →
  ∀ n c, V' !! n = Some c ↔ ∃ e, W !! en_Subject e = Some e ∧ n = nameForSubject (en_Subject e) ∧
    (is_Some (V !! n) → clean e = true) ∧ c = reported now runID V e.
Proof using All.
  intros [Hd Ho He _ _ _ _ _] HD HV' n c.
  assert (HinD : ∀ n, n ∈ D.*1 ↔ n ∉ kept sn V (range W) ∧ is_Some (V !! n)).
  { intros n'. rewrite HD. rewrite list_elem_of_fmap. setoid_rewrite elem_of_map_to_list'.
    assert ((∃ y : string * CR, n' = y.1 ∧ lp_existing lp !! y.1 = Some y.2) ↔ is_Some (lp_existing lp !! n')) as ->.
    { split; [intros ([] & -> & ?); by eexists|]. intros [x Hx]. by exists (n', x). }
    rewrite He. destruct (decide _); [|tauto]. split; [by intros []|tauto]. }
  assert (Hkept : ∀ k e, W !! k = Some e → is_Some (V !! nameForSubject k) →
    nameForSubject k ∈ kept sn V (range W) ↔ clean e = true).
  { intros k e Hk Hst. unfold kept. rewrite list_elem_of_fmap. setoid_rewrite elem_of_bfilter. split.
    - intros ([k' e'] & E & [_ Hc]%andb_true_iff & Hp%elem_of_range). cbn [fst snd] in *. rewrite Hsn in E.
      apply (name_inj _ _ e e') in E; [|done..]. subst k'. by simplify_eq.
    - intros Hc. exists (k, e). cbn [fst snd]. rewrite Hsn. split; [done|]. split; [|by apply elem_of_range].
      unfold stored. cbn [fst]. rewrite Hsn, Hc, bool_decide_eq_true_2; done. }
  assert (Hout : ∀ k e, W !! k = Some e → (is_Some (V !! nameForSubject k) → clean e = true) →
    outcome now runID sn V (k, e) = reported now runID V e).
  { intros k e Hk Hc. destruct (want_facts k e Hk) as (<- & _). unfold outcome, reported. cbn [fst snd].
    rewrite Hsn. destruct (V !! nameForSubject (en_Subject e)); [|done]. by rewrite Hc. }
  rewrite HV'. split.
  - destruct (decide (n ∈ D.*1)) as [|HnD]; [done|]. intros Hc.
    destruct (decide (n ∈ (λ p : string * DriftReportEntry, cr_name sn p.1) <$> range W)) as [Hn|Hn].
    + apply list_elem_of_fmap in Hn as ([k e] & -> & Hke). rewrite Hd in Hc by done. apply elem_of_range in Hke.
      cbn [fst] in *. rewrite Hsn in *. destruct (want_facts k e Hke) as (<- & _). exists e.
      assert (Hcl : is_Some (V !! nameForSubject (en_Subject e)) → clean e = true).
      { intros Hst. apply (Hkept (en_Subject e)); [done..|]. destruct (decide (nameForSubject (en_Subject e) ∈ kept sn V (range W))); [done|].
        destruct HnD. by apply HinD. }
      rewrite Hout in Hc by done. by simplify_eq.
    + destruct HnD. apply HinD. rewrite <-Ho by done. split; [by intros ?%kept_names|by eexists].
  - intros (e & Hk & -> & Hcl & ->). rewrite decide_False.
    + rewrite <-(Hout (en_Subject e) e) by done. rewrite <-Hd by by apply elem_of_range. cbn [fst]. by rewrite Hsn.
    + rewrite HinD. intros [Hn Hst]. apply Hn. apply (Hkept _ e); auto.
Qed.
End reconciled.

Lemma filter_parts {A} (f g : A → bool) l : (∀ x, x ∈ l → f x = true → g x = true) →
  (length (List.filter (λ x, negb (f x)) l) + length (List.filter (λ x, f x && g x) l) = length l)%nat.
Proof.
  induction l as [|x l IH]; intros Hl; [done|]. cbn [List.filter].
  specialize (IH (λ y Hy, Hl y (list_elem_of_further _ _ _ Hy))).
  destruct (f x) eqn:E; cbn [negb andb]; [rewrite (Hl x (list_elem_of_here _ _) E)|]; cbn [length]; lia.
Qed.

End reconcile_spec.

(** ** A server in memory *)

Definition mem_Patch (s : gmap string CR) (n b : string) : gmap string CR * option error :=
  match s !! n, Unmarshal b with
  | Some c, Some j => if crd_valid (merge_spec j c) then (alter (merge_spec j) n s, None) else (s, Some "422")
  | _, _ => (s, Some "400")
  end.
Definition mem_PatchStatus (s : gmap string CR) (n b : string) : gmap string CR * option error :=
  match s !! n, Unmarshal b with
  | Some c, Some j => (alter (merge_status j) n s, None)
  | _, _ => (s, Some "400")
  end.
Definition mem_Create (s : gmap string CR) (n : string) (c : CR) : gmap string CR * option error :=
  match s !! n with
  | None => if crd_valid c && object_name n then (<[n := strip_status c]> s, None) else (s, Some "422")
  | Some _ => (s, Some "409")
  end.
Definition mem_Delete (s : gmap string CR) (n : string) : gmap string CR * option error :=
  match s !! n with Some _ => (delete n s, None) | None => (s, Some "404") end.

#[refine] Definition mem_api : DriftAPI (gmap string CR) := {|
  crs := λ s, s;
  api_List := λ s, inr (map_to_list s);
  api_Patch := mem_Patch; api_PatchStatus := mem_PatchStatus; api_Create := mem_Create; api_Delete := mem_Delete;
|}.
Proof.
  - intros s items [= <-]. done.
  - intros s n b. unfold mem_Patch. destruct (s !! n); [destruct (Unmarshal b); [|done]|done]. by destruct (crd_valid _).
  - intros s n b. unfold mem_PatchStatus. destruct (s !! n); [by destruct (Unmarshal b)|done].
  - intros s n c. unfold mem_Create. destruct (s !! n); [done|]. by destruct (_ && _).
  - intros s n. unfold mem_Delete. by destruct (s !! n).
Defined.
Lemma mem_reliable : @Reliable _ mem_api.
Proof.
  split; cbn [crs api_Patch api_PatchStatus api_Create api_Delete api_List mem_api].
  - intros s. by eexists.
  - intros s n b c j Hc Hj Hv. unfold mem_Patch. by rewrite Hc, Hj, Hv.
  - intros s n b Hj. unfold mem_Patch. rewrite Hj. by destruct (s !! n).
  - intros s n b c j Hc Hj. unfold mem_PatchStatus. by rewrite Hc, Hj.
  - intros s n c Hn Hname Hv. unfold mem_Create. by rewrite Hn, Hv, Hname.
  - intros s n [c Hc]. unfold mem_Delete. by rewrite Hc.
Qed.

Definition sample_entry (subject msg : string) : DriftReportEntry :=
  mkEntry subject "warn" "pods" "analyzer" msg "" "".
(** A terminal colour code: valid in a message, not in what %q writes. *)
Definition escape_code : string := String (chr 27) "[31mdown".
Definition sample_store : gmap string CR :=
  <[nameForSubject "Pod/shop/a" := observed_once "t0" "r0" (normalized (sample_entry "Pod/shop/a" "down"))]>
  (<[nameForSubject "Pod/shop/b" := observed_once "t0" "r0" (normalized (sample_entry "Pod/shop/b" "down"))]> ∅).
Definition sample_entries : list DriftReportEntry :=
  [sample_entry "Pod/shop/a" "still down"; sample_entry "Pod/shop/b" escape_code;
   sample_entry "Pod/shop/c" escape_code].

Lemma sample_stocked : well_stocked sample_store.
Proof.
  unfold sample_store. intros n c [[<- <-]|[_ [[<- <-]|[_ Hc]]%lookup_insert_Some]]%lookup_insert_Some;
    [by split_and!; vm_compute.. |by rewrite lookup_empty in Hc].
Qed.
Lemma sample_names : no_collision sample_store sample_entries.
Proof.
  assert (Hs : ∀ k, k ∈ en_Subject <$> sample_entries → k ∈ ["Pod/shop/a"; "Pod/shop/b"; "Pod/shop/c"]) by done.
  intros k k' Hk Hk'%Hs.
  assert (Hk1 : k ∈ ["Pod/shop/a"; "Pod/shop/b"; "Pod/shop/c"]).
  { destruct Hk as [Hk%Hs|(n & c & Hc & <-)]; [done|]. unfold sample_store in Hc.
    apply lookup_insert_Some in Hc as [[_ <-]|[_ Hc]]; [set_solver|].
    apply lookup_insert_Some in Hc as [[_ <-]|[_ Hc]]; [set_solver|]. by rewrite lookup_empty in Hc. }
  clear Hs Hk. assert (Hd : NoDup (nameForSubject <$> ["Pod/shop/a"; "Pod/shop/b"; "Pod/shop/c"])).
  { apply (bool_decide_unpack _). vm_compute. exact I. }
  intros E. apply list_elem_of_lookup in Hk1 as [i Hi], Hk' as [j Hj].
  assert (i = j) as ->; [|congruence].
  apply (NoDup_lookup _ _ _ (nameForSubject k) Hd); rewrite list_lookup_fmap.
  - rewrite Hi. reflexivity.
  - rewrite Hj, E. reflexivity.
Qed.

(** One CR refreshed, one deleted although its finding is current, one new. *)
Example sample_cycle :
  let '(s, (created, updated, deleted, err)) :=
    @Reconcile _ mem_api key_order "t1" "r1" true sample_store sample_entries in
  (st_observationCount ∘ c_status <$> s !! nameForSubject "Pod/shop/a") = Some (CInt64 2) ∧
  s !! nameForSubject "Pod/shop/b" = None ∧
  (c_message <$> s !! nameForSubject "Pod/shop/c") = Some escape_code ∧
  (created, updated, deleted, err) = (1, 1, 1, Some "400").
Proof. vm_compute. by split_and!. Qed.

