(* ===== verification/Webhook.v ===== *)
(** * The webhook trigger: internal/server/webhook/handler.go

    Sources and their HMAC secrets, the routing and authentication of one
    request, and [registerWebhookSources] of internal/watcher/watcher.go.
    A request is served in one atomic step; the trigger channel is its
    number of queued signals and its capacity. *)

From stdpp Require Import options.
From S2P Require Import Prelude GoString GoTime GoNum Sha256.
Local Open Scope Z_scope.

Definition maxTimestampSkew : Duration := 5 * Minute.

Record sourceCfg := mkSourceCfg { secret : string; insecure : bool }.

Record Handler := mkHandler {
  h_sources : gmap string sourceCfg;
  h_queued : nat;
  h_capacity : nat;
  h_legacyNoticed : gset string;
  h_emptyNoticed : gset string;
}.
Definition New (capacity : nat) : Handler := mkHandler ∅ 0 capacity ∅ ∅.

Definition set_source (h : Handler) (name : string) (c : sourceCfg) : Handler :=
  if name =s? "" then h
  else mkHandler (<[name := c]> (h_sources h)) (h_queued h) (h_capacity h) (h_legacyNoticed h) (h_emptyNoticed h).
Definition RegisterSource (h : Handler) (name hmacSecret : string) : Handler :=
  set_source h name (mkSourceCfg hmacSecret false).
Definition RegisterInsecureSource (h : Handler) (name : string) : Handler :=
  set_source h name (mkSourceCfg "" true).

(** [verifyHMAC] *)
Definition verifyHMAC (payload secret header : string) : bool :=
  if header =s? "" then false else
  match hex_decode (TrimPrefix header "sha256=") with
  | None => false
  | Some want => want =s? hmac_sha256 secret payload
  end.
Definition Sign (body secret : string) : string := "sha256=" +:+ hex_encode (hmac_sha256 secret body).
Definition SignWithTimestamp (body secret : string) (ts : Z) : string :=
  "sha256=" +:+ hex_encode (hmac_sha256 secret (Itoa ts +:+ "." +:+ body)).

(** What the handler reads of a request; the body reader yields [rq_body]
    and then fails if [rq_fails]. *)
Record Request := mkRequest {
  rq_Path : string;
  rq_Method : string;
  rq_Signature : string;
  rq_Timestamp : string;
  rq_body : string;
  rq_fails : bool;
}.
(** The status and the text, without the newline of [http.Error]. *)
Definition Response : Type := Z * string.

Definition noticeLegacy (h : Handler) (src : string) : Handler :=
  if bool_decide (src ∈ h_legacyNoticed h) then h
  else mkHandler (h_sources h) (h_queued h) (h_capacity h) ({[src]} ∪ h_legacyNoticed h) (h_emptyNoticed h).
Definition noticeEmptySecret (h : Handler) (src : string) : Handler :=
  if bool_decide (src ∈ h_emptyNoticed h) then h
  else mkHandler (h_sources h) (h_queued h) (h_capacity h) (h_legacyNoticed h) ({[src]} ∪ h_emptyNoticed h).

(** [time.Unix(ts, 0)]: the seconds wrap. *)
Definition time_Unix (ts : Z) : Time := wrap64 (ts + unixToInternal) * Second.

(** [authenticate]: the refusal it writes, or none. *)
Definition authenticate (h : Handler) (now : Time) (r : Request) (src : string) (cfg : sourceCfg) (body : string)
    : Handler * option Response :=
  if insecure cfg then (h, None)
  else if secret cfg =s? "" then
    (noticeEmptySecret h src, Some (401, "source has no HMAC secret configured"))
  else if rq_Timestamp r =s? "" then
    if negb (verifyHMAC body (secret cfg) (rq_Signature r)) then (h, Some (401, "invalid signature"))
    else (noticeLegacy h src, None)
  else
    match ParseInt (rq_Timestamp r) with
    | None => (h, Some (401, "invalid X-Srenix-Timestamp (want unix seconds)"))
    | Some ts =>
        let skew := Sub now (time_Unix ts) in
        if (maxTimestampSkew <? skew) || (skew <? - maxTimestampSkew)
        then (h, Some (401, "X-Srenix-Timestamp outside replay window"))
        else if negb (verifyHMAC (rq_Timestamp r +:+ "." +:+ body) (secret cfg) (rq_Signature r))
        then (h, Some (401, "invalid signature"))
        else (h, None)
    end.

(** [io.ReadAll(io.LimitReader(r.Body, 64*1024))] *)
Definition bodyLimit : nat := 65536.
Definition read_body (r : Request) : option string :=
  if (len (rq_body r) <? bodyLimit)%nat && rq_fails r then None else Some (stake bodyLimit (rq_body r)).

(** The non-blocking send. *)
Definition push_trigger (h : Handler) : Handler :=
  mkHandler (h_sources h) (if (h_queued h <? h_capacity h)%nat then S (h_queued h) else h_queued h)
    (h_capacity h) (h_legacyNoticed h) (h_emptyNoticed h).

Definition NotFound : Response := (404, "404 page not found").
Definition route (path : string) : option string :=
  if negb (HasPrefix path "/webhook/") then None else
  let src := TrimSuffix (TrimPrefix path "/webhook/") "/" in
  if src =s? "" then None else Some src.

Definition ServeHTTP (h : Handler) (now : Time) (r : Request) : Handler * Response :=
  if rq_Path r =s? "/webhook/health" then (h, (200, "ok"))
  else if rq_Method r ≠s? "POST" then (h, (405, "method not allowed"))
  else
    match route (rq_Path r) with
    | None => (h, NotFound)
    | Some src =>
        match h_sources h !! src with
        | None => (h, NotFound)
        | Some cfg =>
            match read_body r with
            | None => (h, (400, "read body"))
            | Some body =>
                let '(h, refusal) := authenticate h now r src cfg body in
                match refusal with
                | Some resp => (h, resp)
                | None => (push_trigger h, (202, "accepted"))
                end
            end
        end
    end.

(** ** Registration, from the watcher's flags *)

Definition insecureNoHMACToken : string := "insecure-no-hmac".
Definition register_spec (getenv : string → string) (h : Handler) (spec : string) : Handler :=
  let parts := SplitN spec "=" 2 in
  let name := TrimSpace (nth 0 parts "") in
  if name =s? "" then h else
  match parts with
  | [_; v] =>
      let envVar := TrimSpace v in
      if envVar =s? "" then h
      else if envVar =s? insecureNoHMACToken then RegisterInsecureSource h name
      else
        let secret := getenv envVar in
        if secret =s? "" then h else RegisterSource h name secret
  | _ => h
  end.
Definition registerWebhookSources (h : Handler) (specs : list string) (getenv : string → string) : Handler :=
  foldl (register_spec getenv) h specs.

(** ** Who is accepted *)

Section accepted.
#[local] Opaque hmac_sha256 hex_decode hex_encode.

(** [header] carries the HMAC of [payload] in hexadecimal. *)
Definition signed (secret payload header : string) : Prop :=
  header ≠ "" ∧ hex_decode (TrimPrefix header "sha256=") = Some (hmac_sha256 secret payload).

Lemma verifyHMAC_signed payload secret header :
  verifyHMAC payload secret header = true ↔ signed secret payload header.
Proof.
  unfold verifyHMAC, signed. case_bool_decide as E; [naive_solver|].
  destruct (hex_decode _) as [want|]; [|naive_solver]. rewrite bool_decide_eq_true. naive_solver.
Qed.

Definition in_window (now : Time) (ts : Z) : Prop :=
  - maxTimestampSkew ≤ Sub now (time_Unix ts) ≤ maxTimestampSkew.
Definition authorized (cfg : sourceCfg) (now : Time) (r : Request) (body : string) : Prop :=
  insecure cfg = true ∨
  (secret cfg ≠ "" ∧
    ((rq_Timestamp r = "" ∧ signed (secret cfg) body (rq_Signature r)) ∨
     (∃ ts, rq_Timestamp r ≠ "" ∧ ParseInt (rq_Timestamp r) = Some ts ∧ in_window now ts ∧
        signed (secret cfg) (rq_Timestamp r +:+ "." +:+ body) (rq_Signature r)))).
Definition acceptable (h : Handler) (now : Time) (r : Request) : Prop :=
  rq_Path r ≠ "/webhook/health" ∧ rq_Method r = "POST" ∧
  ∃ src cfg body, route (rq_Path r) = Some src ∧ h_sources h !! src = Some cfg ∧
    read_body r = Some body ∧ authorized cfg now r body.

Lemma notice_sources h src : h_sources (noticeLegacy h src) = h_sources h ∧
  h_queued (noticeLegacy h src) = h_queued h ∧ h_capacity (noticeLegacy h src) = h_capacity h.
Proof. unfold noticeLegacy. by case_bool_decide. Qed.

Lemma authenticate_spec h now r src cfg body :
  let '(h', refusal) := authenticate h now r src cfg body in
  h_sources h' = h_sources h ∧ h_queued h' = h_queued h ∧ h_capacity h' = h_capacity h ∧
  match refusal with
  | None => authorized cfg now r body
  | Some resp => ¬ authorized cfg now r body ∧ resp.1 = 401
  end.
Proof.
  unfold authenticate, authorized. destruct (insecure cfg) eqn:Ei; [by auto|].
  case_bool_decide as Es.
  { unfold noticeEmptySecret. case_bool_decide; split_and!; try done; naive_solver. }
  case_bool_decide as Et.
  { destruct (verifyHMAC body (secret cfg) (rq_Signature r)) eqn:Ev; cbn [negb].
    - apply verifyHMAC_signed in Ev. destruct (notice_sources h src) as (? & ? & ?). auto 10.
    - split_and!; try done. intros [|(_ & [[_ Hs]|(ts & Hne & _)])]; [done| |done].
      apply verifyHMAC_signed in Hs. by rewrite Ev in Hs. }
  destruct (ParseInt (rq_Timestamp r)) as [ts|] eqn:Ep.
  2:{ split_and!; try done. intros [|(_ & [[? _]|(ts & _ & ? & _)])]; done. }
  unfold in_window. cbv zeta. set (sk := Sub now (time_Unix ts)).
  destruct (Z.ltb_spec maxTimestampSkew sk) as [Hlt|Hle]; cbn [orb].
  { split_and!; try done. intros [|(_ & [[? _]|(ts' & _ & E & [_ ?] & _)])]; [done..|].
    simplify_eq. unfold sk in Hlt. lia. }
  destruct (Z.ltb_spec sk (- maxTimestampSkew)) as [Hlt|Hge].
  { split_and!; try done. intros [|(_ & [[? _]|(ts' & _ & E & [? _] & _)])]; [done..|].
    simplify_eq. unfold sk in Hlt. lia. }
  destruct (verifyHMAC (rq_Timestamp r +:+ "." +:+ body) (secret cfg) (rq_Signature r)) eqn:Ev; cbn [negb].
  - apply verifyHMAC_signed in Ev. split_and!; try done. right. split; [done|]. right. by exists ts.
  - split_and!; try done. intros [|(_ & [[? _]|(ts' & _ & _ & _ & Hs)])]; [done..|].
    apply verifyHMAC_signed in Hs. by rewrite Ev in Hs.
Qed.

(** C11: a request is accepted, with 202 and one more queued signal if there
    is room, exactly when it POSTs to a registered source and is authorized:
    the source was registered without HMAC, or the signature is the HMAC of
    the body, or of the timestamp and the body with the timestamp within five
    minutes of the clock.  Any other request leaves the queue alone, and no
    request changes the sources. *)
Theorem ServeHTTP_correct h now r :
  let '(h', resp) := ServeHTTP h now r in
  h_sources h' = h_sources h ∧
  ((acceptable h now r ∧ resp = (202, "accepted") ∧
    h_queued h' = if (h_queued h <? h_capacity h)%nat then S (h_queued h) else h_queued h) ∨
   (¬ acceptable h now r ∧ resp.1 ≠ 202 ∧ h_queued h' = h_queued h)).
Proof.
  unfold ServeHTTP, acceptable.
  case_bool_decide as Eh; [split; [done|]; right; naive_solver|].
  case_bool_decide as Em; cbn [negb]; [|split; [done|]; right; naive_solver].
  destruct (route (rq_Path r)) as [src|]; [|split; [done|]; right; naive_solver].
  destruct (h_sources h !! src) as [cfg|] eqn:Ec; [|split; [done|]; right; naive_solver].
  destruct (read_body r) as [body|]; [|split; [done|]; right; naive_solver].
  pose proof (authenticate_spec h now r src cfg body) as Ha.
  destruct (authenticate h now r src cfg body) as [h' [resp|]]; destruct Ha as (Hs & Hq & Hcap & Ha).
  - destruct Ha as [Ha H401]. split; [done|]. right. split_and!; [|lia|done].
    intros (_ & _ & src' & cfg' & body' & E1 & E2 & E3 & Hb). by simplify_eq.
  - unfold push_trigger. cbn [h_sources h_queued]. rewrite Hs, Hq, Hcap. split; [done|]. left.
    split_and!; try done. by exists src, cfg, body.
Qed.

Lemma TrimPrefix_sha s : TrimPrefix ("sha256=" +:+ s) "sha256=" = s.
Proof. unfold TrimPrefix. rewrite HasPrefix_app. apply sdrop_app. Qed.

Lemma Sign_signed payload secret :
  signed secret payload ("sha256=" +:+ hex_encode (hmac_sha256 secret payload)).
Proof. split; [done|]. by rewrite TrimPrefix_sha, hex_decode_encode. Qed.

Lemma read_body_short r : (len (rq_body r) <= bodyLimit)%nat → rq_fails r = false → read_body r = Some (rq_body r).
Proof. intros Hl Hf. unfold read_body. rewrite Hf, andb_false_r. by rewrite stake_ge. Qed.

Lemma acceptable_accepted h now r : acceptable h now r → (ServeHTTP h now r).2 = (202, "accepted").
Proof.
  intros (Hh & Hm & src & cfg & body & Hr & Hc & Hb & Ha). unfold ServeHTTP.
  rewrite bool_decide_eq_false_2 by done. rewrite bool_decide_eq_true_2 by done. cbn [negb].
  rewrite Hr, Hc, Hb. pose proof (authenticate_spec h now r src cfg body) as Hs.
  destruct (authenticate h now r src cfg body) as [h' [resp|]]; [|done].
  by destruct Hs as (_ & _ & _ & [] & _).
Qed.

(** A POST to a source with a secret whose body fits. *)
Record posted (h : Handler) (r : Request) (src : string) (cfg : sourceCfg) : Prop := {
  po_path : rq_Path r ≠ "/webhook/health";
  po_method : rq_Method r = "POST";
  po_route : route (rq_Path r) = Some src;
  po_source : h_sources h !! src = Some cfg;
  po_secret : secret cfg ≠ "";
  po_body : (len (rq_body r) <= bodyLimit)%nat;
  po_reads : rq_fails r = false;
}.
Lemma posted_acceptable h now r src cfg : posted h r src cfg → authorized cfg now r (rq_body r) → acceptable h now r.
Proof. intros [] Ha. split; [done|]. split; [done|]. exists src, cfg, (rq_body r). split_and!; try done. by apply read_body_short. Qed.

(** What the two signing functions sign, the handler accepts: a body
    signed by [Sign] at any time, one signed by [SignWithTimestamp] while its
    timestamp is within five minutes of the clock, both to the ends of the
    window included. *)
Theorem signed_accepted h now r src cfg : posted h r src cfg →
  (rq_Timestamp r = "" → rq_Signature r = Sign (rq_body r) (secret cfg) →
    (ServeHTTP h now r).2 = (202, "accepted")) ∧
  (∀ ts, in_int64 ts = true → rq_Timestamp r = Itoa ts → in_window now ts →
    rq_Signature r = SignWithTimestamp (rq_body r) (secret cfg) ts →
    (ServeHTTP h now r).2 = (202, "accepted")).
Proof.
  intros Hp. pose proof (po_secret _ _ _ _ Hp). split.
  - intros Ht Hs. eapply acceptable_accepted, posted_acceptable; [done|]. right. split; [done|]. left.
    split; [done|]. rewrite Hs. apply Sign_signed.
  - intros ts Hr Ht Hw Hs. eapply acceptable_accepted, posted_acceptable; [done|]. right. split; [done|]. right.
    exists ts. rewrite Ht, ParseInt_Itoa by done. split_and!; [|done|done|].
    + intros E. pose proof (ParseInt_Itoa ts Hr) as Hpi. rewrite E in Hpi. by vm_compute in Hpi.
    + rewrite Hs. apply Sign_signed.
Qed.

(** The same signature without the timestamp header, the timestamp moved
    into the body. *)
Definition downgraded (r : Request) : Request :=
  mkRequest (rq_Path r) (rq_Method r) (rq_Signature r) "" (rq_Timestamp r +:+ "." +:+ rq_body r) false.

(** The replay window does not bound the replay of a captured request:
    when a timestamped request to a source with a secret was accepted, its
    signature stays valid for ever on the request without the timestamp
    header whose body starts with the timestamp and a dot. *)
Theorem timestamp_downgrade h now now' r src cfg : posted h r src cfg → insecure cfg = false →
  rq_Timestamp r ≠ "" → (len (rq_Timestamp r +:+ "." +:+ rq_body r) <= bodyLimit)%nat →
  (ServeHTTP h now r).2.1 = 202 →
  (ServeHTTP h now' (downgraded r)).2 = (202, "accepted").
Proof.
  intros Hp Hi Ht Hl Hacc. pose proof Hp as [Hpath Hm Hr Hc Hsec Hb Hf]. unfold ServeHTTP in Hacc.
  rewrite bool_decide_eq_false_2 in Hacc by done. rewrite bool_decide_eq_true_2 in Hacc by done. cbn [negb] in Hacc.
  rewrite Hr, Hc, read_body_short in Hacc by done.
  pose proof (authenticate_spec h now r src cfg (rq_body r)) as Ha.
  destruct (authenticate h now r src cfg (rq_body r)) as [h' [resp|]].
  { destruct Ha as (_ & _ & _ & _ & E). cbn [snd] in Hacc. lia. }
  destruct Ha as (_ & _ & _ & [Ha|(_ & [[? _]|(ts & _ & _ & _ & Hs)])]); [by rewrite Hi in Ha|done|].
  apply acceptable_accepted, (posted_acceptable _ _ _ src cfg); [by split|].
  right. split; [done|]. left. by split.
Qed.
End accepted.

(** ** Registration *)

(** What one spec registers, if anything. *)
Definition spec_source (getenv : string → string) (spec : string) : option (string * sourceCfg) :=
  let name := TrimSpace (nth 0 (SplitN spec "=" 2) "") in
  if decide (name = "") then None else
  match SplitN spec "=" 2 with
  | [_; v] =>
      let envVar := TrimSpace v in
      if decide (envVar = "") then None
      else if decide (envVar = insecureNoHMACToken) then Some (name, mkSourceCfg "" true)
      else if decide (getenv envVar = "") then None else Some (name, mkSourceCfg (getenv envVar) false)
  | _ => None
  end.
Definition spec_for (getenv : string → string) (n : string) (spec : string) : option sourceCfg :=
  '(name, c) ← spec_source getenv spec; if decide (name = n) then Some c else None.

Lemma register_spec_sources getenv h spec :
  h_sources (register_spec getenv h spec) =
    match spec_source getenv spec with Some (name, c) => <[name := c]> (h_sources h) | None => h_sources h end.
Proof.
  unfold register_spec, spec_source, RegisterSource, RegisterInsecureSource, set_source.
  set (name := TrimSpace _). destruct (decide (name = "")) as [E|E].
  { by rewrite bool_decide_eq_true_2. }
  rewrite bool_decide_eq_false_2 by done.
  destruct (SplitN spec "=" 2) as [|x [|v [|y l]]]; try done.
  destruct (decide (TrimSpace v = "")); [by rewrite bool_decide_eq_true_2|]. rewrite bool_decide_eq_false_2 by done.
  destruct (decide (TrimSpace v = insecureNoHMACToken)); [by rewrite bool_decide_eq_true_2|].
  rewrite bool_decide_eq_false_2 by done.
  destruct (decide (getenv (TrimSpace v) = "")); [by rewrite bool_decide_eq_true_2|].
  by rewrite bool_decide_eq_false_2.
Qed.

(** The source of a name is the one its last well-formed spec gives:
    without HMAC only by the literal token, otherwise with the non-empty
    value of its environment variable; a name with no well-formed spec is
    left as it was.  So a malformed last spec does not disable a source an
    earlier spec registered. *)
Theorem register_fail_closed getenv h specs n :
  h_sources (registerWebhookSources h specs getenv) !! n =
    match last (omap (spec_for getenv n) specs) with
    | Some c => Some c
    | None => h_sources h !! n
    end ∧
  (∀ spec c, spec_for getenv n spec = Some c →
    n ≠ "" ∧ ∃ v, SplitN spec "=" 2 = [nth 0 (SplitN spec "=" 2) ""; v] ∧
    ((insecure c = true ∧ TrimSpace v = insecureNoHMACToken) ∨
     (insecure c = false ∧ secret c = getenv (TrimSpace v) ∧ secret c ≠ ""))).
Proof.
  split.
  - unfold registerWebhookSources. induction specs as [|spec specs IH] using rev_ind; [done|].
    rewrite foldl_app. cbn [foldl]. rewrite register_spec_sources.
    rewrite omap_app, last_app. cbn [omap list_omap]. unfold spec_for at 1.
    destruct (spec_source getenv spec) as [[name c]|]; cbn [mbind option_bind]; [|exact IH].
    destruct (decide (name = n)) as [->|Hn]; cbn [last]; [by rewrite lookup_insert_eq|].
    by rewrite lookup_insert_ne.
  - intros spec c. unfold spec_for, spec_source. destruct (decide (_ = "")) as [|Hne]; [done|].
    destruct (SplitN spec "=" 2) as [|x [|v [|y l]]]; try done. cbn [nth] in *.
    destruct (decide (TrimSpace v = "")); [done|].
    destruct (decide (TrimSpace v = insecureNoHMACToken)) as [E|E]; cbn [mbind option_bind].
    { destruct (decide (_ = n)) as [<-|]; [|done]. intros [= <-]. split; [done|]. exists v. auto. }
    destruct (decide (getenv (TrimSpace v) = "")); [done|]. cbn [mbind option_bind].
    destruct (decide (_ = n)) as [<-|]; [|done]. intros [= <-]. split; [done|]. exists v. auto 6.
Qed.

(** ** Concrete inputs *)

Definition sample_handler : Handler :=
  registerWebhookSources (New 1) ["vault = VAULT_SECRET"; "ci=insecure-no-hmac"; "argo"; "ci="]
    (λ v, if decide (v = "VAULT_SECRET") then "s3cret" else "").
Definition sample_request : Request :=
  mkRequest "/webhook/vault" "POST" (SignWithTimestamp "{}" "s3cret" 1700000000) "1700000000" "{}" false.

(** The malformed second spec of [ci] does not close it. *)
Example still_insecure : h_sources sample_handler !! "ci" = Some (mkSourceCfg "" true).
Proof. reflexivity. Qed.

Lemma sample_posted : posted sample_handler sample_request "vault" (mkSourceCfg "s3cret" false).
Proof. split; try discriminate; try reflexivity. apply Nat.leb_le. vm_compute. reflexivity. Qed.

Lemma signed_accepted_witness :
  in_window (FromUnix 1700000300) 1700000000 ∧
  (ServeHTTP sample_handler (FromUnix 1700000300) sample_request).2 = (202, "accepted").
Proof.
  assert (in_window (FromUnix 1700000300) 1700000000) as Hw by (split; vm_compute; discriminate).
  split; [exact Hw|].
  apply (proj2 (signed_accepted _ (FromUnix 1700000300) _ _ _ sample_posted) 1700000000);
    [reflexivity|reflexivity|exact Hw|reflexivity].
Defined.

Lemma timestamp_downgrade_witness :
  (ServeHTTP sample_handler (FromUnix 1700000301) sample_request).2.1 = 401 ∧
  (ServeHTTP sample_handler (FromUnix 1900000000) (downgraded sample_request)).2 = (202, "accepted").
Proof.
  split; [vm_compute; reflexivity|].
  apply (timestamp_downgrade _ (FromUnix 1700000300) _ _ _ _ sample_posted);
    [reflexivity|discriminate|apply Nat.leb_le; vm_compute; reflexivity|vm_compute; reflexivity].
Defined.
