(* ===== verification/PromTrigger.v ===== *)
(** * The Alertmanager trigger: internal/trigger/prom/client.go

    [tick] turns one poll into trigger signals, one per firing edge of an
    alert.  The HTTP exchange is its outcome: the status code and the decoded
    body, or an error.  Alert names are ASCII. *)

From stdpp Require Import options.
From S2P Require Import Prelude GoString GoTime.
Local Open Scope Z_scope.

Record Config := mkConfig {
  cfg_URL : string;
  PollInterval : Duration;
  Timeout : Duration;
  AlertNameFilter : list string;
}.
Record Client := mkClient {
  cl_cfg : Config;
  cl_seen : gset string;
  cl_queued : nat;
  cl_capacity : nat;
}.

Definition New (cfg : Config) (capacity : nat) : string + Client :=
  if PollInterval cfg <? 0 then inl "prom: negative PollInterval" else
  let p := if PollInterval cfg =? 0 then 30 * Second else PollInterval cfg in
  let p := if p <? 5 * Second then 5 * Second else p in
  let t := if Timeout cfg =? 0 then 10 * Second else Timeout cfg in
  inr (mkClient (mkConfig (cfg_URL cfg) p t (AlertNameFilter cfg)) ∅ 0 capacity).

Record alert := mkAlert {
  al_Fingerprint : string;
  al_State : string;
  al_Labels : gmap string string;
}.
Definition AlertName (a : alert) : string :=
  match al_Labels a !! "alertname" with Some n => n | None => al_Fingerprint a end.

Definition passesFilter (c : Client) (name : string) : bool :=
  match AlertNameFilter (cl_cfg c) with
  | [] => true
  | l => existsb (λ f, ToLower f =s? ToLower name) l
  end.

(** What [http.Client.Do] and the JSON decoder give. *)
Inductive Exchange := TransportError | HTTPStatus (code : Z) (decoded : option (list alert)).
Definition fetchAlerts (x : Exchange) : option (list alert) :=
  match x with
  | TransportError => None
  | HTTPStatus code decoded =>
      if negb (code / 100 =? 2) then None else
      match decoded with
      | None => None
      | Some raw => Some (List.filter (λ a, EqualFold (al_State a) "active") raw)
      end
  end.

(** One alert of the loop; the third component lists the fingerprints fired. *)
Definition fire (c : Client) (st : gset string * nat * list string) (a : alert) :=
  let '(seen, queued, fired) := st in
  if negb (passesFilter c (AlertName a)) then st
  else if bool_decide (al_Fingerprint a ∈ seen) then st
  else ({[al_Fingerprint a]} ∪ seen,
        if (queued <? cl_capacity c)%nat then S queued else queued,
        fired ++ [al_Fingerprint a]).

Definition tick (c : Client) (x : Exchange) : Client * list string :=
  match fetchAlerts x with
  | None => (c, [])
  | Some alerts =>
      let '(seen, queued, fired) := foldl (fire c) (cl_seen c, cl_queued c, []) alerts in
      let stillFiring : gset string := list_to_set (al_Fingerprint <$> alerts) in
      (mkClient (cl_cfg c) (filter (λ fp, fp ∈ stillFiring) seen) queued (cl_capacity c), fired)
  end.

(** [Run]: the ticks one after the other; nothing without a URL. *)
Fixpoint ticks (c : Client) (xs : list Exchange) : Client * list (list string) :=
  match xs with
  | [] => (c, [])
  | x :: xs =>
      let '(c, fired) := tick c x in
      let '(c, rest) := ticks c xs in (c, fired :: rest)
  end.
Definition Run (c : Client) (xs : list Exchange) : Client * list (list string) :=
  if cfg_URL (cl_cfg c) =s? "" then (c, []) else ticks c xs.

(** ** Firing edges *)

(** The fingerprints of the poll that may fire. *)
Definition wanted (c : Client) (alerts : list alert) : gset string :=
  list_to_set (al_Fingerprint <$> List.filter (λ a, passesFilter c (AlertName a)) alerts).

Lemma fire_all c alerts seen queued fired :
  let '(seen', _, fired') := foldl (fire c) (seen, queued, fired) alerts in
  seen' = wanted c alerts ∪ seen ∧
  ∃ new, fired' = fired ++ new ∧ NoDup new ∧ list_to_set new = wanted c alerts ∖ seen.
Proof.
  revert seen queued fired. induction alerts as [|a l IH]; intros seen queued fired.
  { split; [unfold wanted; set_solver|]. exists []. rewrite app_nil_r. split_and!; [done|constructor|]. unfold wanted. set_solver. }
  cbn [foldl]. unfold fire at 2. unfold wanted. cbn [List.filter].
  destruct (passesFilter c (AlertName a)); cbn [negb]; [|exact (IH seen queued fired)].
  rewrite fmap_cons. cbn [list_to_set]. case_bool_decide as Ha.
  - specialize (IH seen queued fired). destruct (foldl _ _ l) as [[seen' q'] fired'].
    destruct IH as (-> & new & -> & Hnd & Hnew). unfold wanted in *. split; [set_solver|].
    exists new. split_and!; [done|done|set_solver].
  - specialize (IH ({[al_Fingerprint a]} ∪ seen)
      (if (queued <? cl_capacity c)%nat then S queued else queued) (fired ++ [al_Fingerprint a])).
    destruct (foldl _ _ l) as [[seen' q'] fired']. destruct IH as (-> & new & -> & Hnd & Hnew).
    unfold wanted in *. split; [set_solver|]. exists (al_Fingerprint a :: new).
    rewrite <-app_assoc. split_and!; [done| |].
    + apply NoDup_cons. split; [|done]. rewrite <-(elem_of_list_to_set (C := gset string)), Hnew. set_solver.
    + cbn [list_to_set]. rewrite Hnew. apply set_eq. intros x. destruct (decide (x = al_Fingerprint a)); set_solver.
Qed.

Lemma fire_queue c alerts seen queued fired : (queued <= cl_capacity c)%nat →
  (queued <= (foldl (fire c) (seen, queued, fired) alerts).1.2 <= cl_capacity c)%nat.
Proof.
  revert seen queued fired. induction alerts as [|a l IH]; intros seen queued fired Hq; [simpl; lia|].
  cbn [foldl]. unfold fire at 2 4. destruct (negb _); [by apply IH|]. case_bool_decide; [by apply IH|].
  destruct (Nat.ltb_spec queued (cl_capacity c)); [|by apply IH].
  specialize (IH ({[al_Fingerprint a]} ∪ seen) (S queued) (fired ++ [al_Fingerprint a])). lia.
Qed.

(** What a poll wants against what the last one that succeeded wanted. *)
Fixpoint edges (c : Client) (before : gset string) (xs : list Exchange) : list (gset string) :=
  match xs with
  | [] => []
  | x :: xs =>
      match fetchAlerts x with
      | None => ∅ :: edges c before xs
      | Some alerts => wanted c alerts ∖ before :: edges c (wanted c alerts) xs
      end
  end.

(** Over any sequence of polls in which no poll names an alert of a
    fingerprint both inside and outside the filter, each tick fires, once
    each, exactly the wanted fingerprints that the last successful poll did
    not have: an alert fires again only after it was gone, and failed polls
    neither fire nor forget.  The queue never exceeds its capacity. *)
Theorem Run_edges c xs : cfg_URL (cl_cfg c) ≠ "" → (cl_queued c <= cl_capacity c)%nat →
  (∀ fp, fp ∈ cl_seen c → ∀ x alerts a, x ∈ xs → fetchAlerts x = Some alerts → a ∈ alerts →
    al_Fingerprint a = fp → passesFilter c (AlertName a) = true) →
  (∀ x y alerts alerts' a b, x ∈ xs → y ∈ xs → fetchAlerts x = Some alerts → fetchAlerts y = Some alerts' →
    a ∈ alerts → b ∈ alerts' → al_Fingerprint a = al_Fingerprint b →
    passesFilter c (AlertName a) = passesFilter c (AlertName b)) →
  let '(c', fired) := Run c xs in
  list_to_set <$> fired = edges c (cl_seen c) xs ∧ Forall (@NoDup string) fired ∧
  (cl_queued c' <= cl_capacity c')%nat.
Proof.
  intros Hurl Hq Hseen Hcons. unfold Run. rewrite bool_decide_eq_false_2 by done. clear Hurl.
  assert (Hpf : ∀ c' : Client, cl_cfg c' = cl_cfg c → ∀ n, passesFilter c' n = passesFilter c n).
  { intros c' E n. unfold passesFilter. by rewrite E. }
  assert (Hg : ∀ c', cl_cfg c' = cl_cfg c → (cl_queued c' <= cl_capacity c')%nat →
    (∀ fp, fp ∈ cl_seen c' → ∀ x alerts a, x ∈ xs → fetchAlerts x = Some alerts → a ∈ alerts →
      al_Fingerprint a = fp → passesFilter c (AlertName a) = true) →
    let '(c'', fired) := ticks c' xs in
    list_to_set <$> fired = edges c (cl_seen c') xs ∧ Forall (@NoDup string) fired ∧
    (cl_queued c'' <= cl_capacity c'')%nat); [|by apply Hg].
  clear Hq Hseen. induction xs as [|x xs IH]; intros c' Ec Hq Hseen; [by split_and!|].
  cbn [ticks edges]. unfold tick. destruct (fetchAlerts x) as [alerts|] eqn:Ex; cycle 1.
  { specialize (IH (λ y z ys zs a b Hy Hz, Hcons y z ys zs a b (list_elem_of_further _ _ _ Hy) (list_elem_of_further _ _ _ Hz)) c' Ec Hq
      (λ fp Hfp y ys a Hy, Hseen fp Hfp y ys a (list_elem_of_further _ _ _ Hy))).
    destruct (ticks c' xs) as [c'' fired]. destruct IH as (H1 & H2 & H3). rewrite fmap_cons, H1.
    split_and!; [done|by constructor; [constructor|]|done]. }
  pose proof (fire_all c' alerts (cl_seen c') (cl_queued c') []) as Hf.
  pose proof (fire_queue c' alerts (cl_seen c') (cl_queued c') [] Hq) as Hfq.
  destruct (foldl (fire c') _ alerts) as [[seen queued] fired0]. cbn [fst snd] in Hfq.
  destruct Hf as (-> & new & -> & Hnd & Hnew).
  assert (Hw : wanted c' alerts = wanted c alerts).
  { unfold wanted. do 2 f_equal. apply bfilter_ext. intros a _. by apply Hpf. }
  set (c1 := mkClient _ _ _ _).
  assert (Hs1 : cl_seen c1 = wanted c alerts).
  { unfold c1. cbn [cl_seen]. rewrite Hw. apply set_eq. intros fp. rewrite elem_of_filter, elem_of_list_to_set, elem_of_union.
    unfold wanted. rewrite elem_of_list_to_set, !list_elem_of_fmap. setoid_rewrite elem_of_bfilter. split.
    - intros ((a & -> & Ha) & [?|Hold]); [done|]. exists a. split_and!; [done| |done].
      eapply (Hseen _ Hold x alerts a); [by left|done..].
    - intros (a & -> & Hp & Ha). split; [by exists a|]. left. by exists a. }
  specialize (IH (λ y z ys zs a b Hy Hz, Hcons y z ys zs a b (list_elem_of_further _ _ _ Hy) (list_elem_of_further _ _ _ Hz))
    c1 Ec ltac:(cbn; lia)).
  rewrite Hs1 in IH. destruct (ticks c1 xs) as [c'' fired]. destruct IH as (H1 & H2 & H3).
  { intros fp Hfp y ys b Hy Hys Hb <-. unfold wanted in Hfp. apply elem_of_list_to_set, list_elem_of_fmap in Hfp as (a & E & [Hp Ha]%elem_of_bfilter).
    rewrite <-Hp. symmetry. eapply (Hcons x y alerts ys a b); [by left|by right|done..]. }
  rewrite fmap_cons, H1. cbn [app]. split_and!; [|by constructor|done]. by rewrite Hnew, Hw.
Qed.

(** ** Concrete polls *)

Definition sample_alert (fp : string) : alert := mkAlert fp "active" ∅.
Definition sample_client : Client :=
  mkClient (mkConfig "http://am:9093" (30 * Second) (10 * Second) []) ∅ 0 1.
Definition sample_polls : list Exchange :=
  [HTTPStatus 200 (Some [sample_alert "a"; sample_alert "b"]); HTTPStatus 503 None;
   HTTPStatus 200 (Some [sample_alert "b"]); HTTPStatus 200 (Some [sample_alert "a"; sample_alert "b"])].
(** [a] fires, goes, and fires again; the failed poll forgets nothing. *)
Example sample_fired : (Run sample_client sample_polls).2 = [["a"; "b"]; []; []; ["a"]].
Proof. vm_compute. reflexivity. Qed.

Lemma Run_edges_witness :
  let '(c', fired) := Run sample_client sample_polls in
  list_to_set <$> fired = edges sample_client ∅ sample_polls ∧ Forall (@NoDup string) fired ∧
  (cl_queued c' <= cl_capacity c')%nat.
Proof.
  apply (Run_edges sample_client sample_polls); [discriminate|apply Nat.leb_le; reflexivity| |].
  - intros fp Hfp. by apply elem_of_empty in Hfp.
  - intros. reflexivity.
Defined.
