(* ===== verification/Cluster.v ===== *)
(** * Cluster access: pkg/snapshot's Source and Mutator

    A routine that talks to the cluster is a [prog]: a finite tree of calls
    whose continuations take the answers.  [run] executes one against any
    cluster, the class [Cluster], and records the calls with their answers;
    [wp] is its program logic, in which every mutating call is judged by the
    calls before it.  [DryRun] is internal/snapshot's DryRunMutator. *)

From stdpp Require Import options.
From S2P Require Import Prelude GoString GoJson.

Definition error := string.

(** The resources the modelled routines name (internal/snapshot/source.go). *)
Inductive GVR :=
  | GVRPod | GVRJob | GVRCronJob | GVRReplicaSet | GVRDeployment | GVRSecret | GVRIngress
  | GVRCertificate | GVRCertificateRequest | GVRCertManagerOrder.
#[export] Instance GVR_eq_dec : EqDecision GVR.
Proof. solve_decision. Defined.
Inductive PatchType := MergePatchType | StrategicMergePatchType | JSONPatchType.

Inductive prog (A : Type) : Type :=
  | Ret (a : A)
  | List (gvr : GVR) (ns : string) (k : error + list json → prog A)
  | Get (gvr : GVR) (ns name : string) (k : error + json → prog A)
  | Delete (gvr : GVR) (ns name : string) (k : option error → prog A)
  | Patch (gvr : GVR) (ns name : string) (pt : PatchType) (body : string) (k : option error → prog A).
#[global] Arguments Ret {_}.
#[global] Arguments List {_}.
#[global] Arguments Get {_}.
#[global] Arguments Delete {_}.
#[global] Arguments Patch {_}.

#[export] Instance prog_ret : MRet prog := @Ret.
#[export] Instance prog_bind : MBind prog := λ A B f,
  fix bind p :=
    match p with
    | Ret a => f a
    | List g ns k => List g ns (λ x, bind (k x))
    | Get g ns n k => Get g ns n (λ x, bind (k x))
    | Delete g ns n k => Delete g ns n (λ x, bind (k x))
    | Patch g ns n pt b k => Patch g ns n pt b (λ x, bind (k x))
    end.

Definition doList (g : GVR) (ns : string) : prog (error + list json) := List g ns mret.
Definition doGet (g : GVR) (ns n : string) : prog (error + json) := Get g ns n mret.
Definition doDelete (g : GVR) (ns n : string) : prog (option error) := Delete g ns n mret.
Definition doPatch (g : GVR) (ns n : string) (pt : PatchType) (b : string) : prog (option error) :=
  Patch g ns n pt b mret.

(** [for _, x := range l { acc = f(acc, x) }] *)
Fixpoint forM {X St : Type} (l : list X) (f : St → X → prog St) (st : St) : prog St :=
  match l with
  | [] => mret st
  | x :: l => st ← f st x; forM l f st
  end.

(** ** Execution *)

Class Cluster (S : Type) := {
  cl_List : S → GVR → string → error + list json;
  cl_Get : S → GVR → string → string → error + json;
  cl_Delete : S → GVR → string → string → S * option error;
  cl_Patch : S → GVR → string → string → PatchType → string → S * option error;
}.

Inductive Event :=
  | EvList (gvr : GVR) (ns : string) (r : error + list json)
  | EvGet (gvr : GVR) (ns name : string) (r : error + json)
  | EvDelete (gvr : GVR) (ns name : string) (e : option error)
  | EvPatch (gvr : GVR) (ns name : string) (pt : PatchType) (body : string) (e : option error).

Fixpoint run {S A} `{Cluster S} (p : prog A) (s : S) (h : list Event) : S * list Event * A :=
  match p with
  | Ret a => (s, h, a)
  | List g ns k => let r := cl_List s g ns in run (k r) s (h ++ [EvList g ns r])
  | Get g ns n k => let r := cl_Get s g ns n in run (k r) s (h ++ [EvGet g ns n r])
  | Delete g ns n k =>
      let '(s, e) := cl_Delete s g ns n in run (k e) s (h ++ [EvDelete g ns n e])
  | Patch g ns n pt b k =>
      let '(s, e) := cl_Patch s g ns n pt b in run (k e) s (h ++ [EvPatch g ns n pt b e])
  end.

(** internal/snapshot/mutator.go's DryRunMutator over a cluster's reads. *)
Definition DryRun {S} (C : Cluster S) : Cluster S := {|
  cl_List := cl_List;
  cl_Get := cl_Get;
  cl_Delete := λ s _ _ _, (s, None);
  cl_Patch := λ s _ _ _ _ _, (s, None);
|}.

(** Two states that answer every read alike. *)
Definition same_reads {S} `{Cluster S} (s t : S) : Prop :=
  (∀ g ns, cl_List s g ns = cl_List t g ns) ∧ (∀ g ns n, cl_Get s g ns n = cl_Get t g ns n).
(** Mutations that succeed and leave the reads alone. *)
Class Settled (S : Type) `{Cluster S} := {
  settled_Delete : ∀ (s : S) g ns n, (cl_Delete s g ns n).2 = None ∧ same_reads (cl_Delete s g ns n).1 s;
  settled_Patch : ∀ (s : S) g ns n pt b,
    (cl_Patch s g ns n pt b).2 = None ∧ same_reads (cl_Patch s g ns n pt b).1 s;
}.

(** A dry run makes the calls of the real run and returns what it returns. *)
Lemma run_dry {S} (C : Cluster S) `{!Settled S} {A} (p : prog A) : ∀ (s t : S) h, same_reads s t →
  let '(_, h1, a) := run p s h in
  let '(t', h2, b) := @run _ _ (DryRun C) p t h in
  h1 = h2 ∧ a = b ∧ t' = t.
Proof.
  induction p as [a|g ns k IH|g ns n k IH|g ns n k IH|g ns n pt b k IH]; intros s t h [Hl Hg]; cbn [run].
  - done.
  - rewrite Hl. apply (IH _ s t). by split.
  - rewrite Hg. apply (IH _ s t). by split.
  - destruct (settled_Delete s g ns n) as [He Hs]. destruct (cl_Delete s g ns n) as [s' e]. cbn [fst snd] in *. subst e.
    apply (IH None s' t). destruct Hs as [H1 H2]. split; intros; by rewrite ?H1, ?H2.
  - destruct (settled_Patch s g ns n pt b) as [He Hs]. destruct (cl_Patch s g ns n pt b) as [s' e]. cbn [fst snd] in *. subst e.
    apply (IH None s' t). destruct Hs as [H1 H2]. split; intros; by rewrite ?H1, ?H2.
Qed.

(** ** Routines that patch one kind of resource and read others *)

Section yields.
Context {S : Type} `{!Cluster S}.

Lemma run_bind {A B} (p : prog A) (f : A → prog B) : ∀ s h,
  run (p ≫= f) s h = let '(s, h, a) := run p s h in run (f a) s h.
Proof.
  induction p as [a|g ns k IH|g ns n k IH|g ns n k IH|g ns n pt b k IH]; intros s h; cbn; [done|apply IH..| |].
  - destruct (cl_Delete s g ns n). apply IH.
  - destruct (cl_Patch s g ns n pt b). apply IH.
Qed.

(** The reads of all resources but [x] are answered alike. *)
Definition same_but (x : GVR) (s t : S) : Prop :=
  ∀ g, g ≠ x → (∀ ns, cl_List s g ns = cl_List t g ns) ∧ (∀ ns n, cl_Get s g ns n = cl_Get t g ns n).
(** Patches of [x] succeed and change nothing but [x]. *)
Class Patches (x : GVR) := patches_ok : ∀ s ns n pt b, (cl_Patch s x ns n pt b).2 = None ∧ same_but x (cl_Patch s x ns n pt b).1 s.

Context (x : GVR).
(** [p] returns [a] wherever the other reads are those of [s], and leaves them so. *)
Definition yields {A} (p : prog A) (s : S) (a : A) : Prop :=
  ∀ t h, same_but x t s → ∃ t' h', run p t h = (t', h', a) ∧ same_but x t' s.

Lemma yields_ret {A} (a : A) s : yields (mret a) s a.
Proof. intros t h Ht. by exists t, h. Qed.
Lemma yields_eq {A} (p : prog A) s a b : yields p s a → a = b → yields p s b.
Proof. by intros ? <-. Qed.
Lemma yields_bind {A B} (p : prog A) (f : A → prog B) s a b : yields p s a → yields (f a) s b → yields (p ≫= f) s b.
Proof.
  intros Hp Hf t h Ht. rewrite run_bind. destruct (Hp t h Ht) as (t1 & h1 & -> & Ht1). by apply Hf.
Qed.
Lemma yields_list {B} g ns (f : error + list json → prog B) s b : g ≠ x → yields (f (cl_List s g ns)) s b → yields (doList g ns ≫= f) s b.
Proof. intros Hx Hf t h Ht. cbn. destruct (Ht g Hx) as [Hl _]. rewrite Hl. by apply Hf. Qed.
Lemma yields_get {B} g ns n (f : error + json → prog B) s b : g ≠ x → yields (f (cl_Get s g ns n)) s b → yields (doGet g ns n ≫= f) s b.
Proof. intros Hx Hf t h Ht. cbn. destruct (Ht g Hx) as [_ Hg]. rewrite Hg. by apply Hf. Qed.
Lemma yields_patch `{!Patches x} {B} ns n pt bd (f : option error → prog B) s b :
  yields (f None) s b → yields (doPatch x ns n pt bd ≫= f) s b.
Proof.
  intros Hf t h Ht. cbn. destruct (patches_ok t ns n pt bd) as [He Hs]. destruct (cl_Patch t x ns n pt bd) as [t' e].
  cbn [fst snd] in *. subst e. apply Hf. intros g Hg. destruct (Hs g Hg) as [H1 H2], (Ht g Hg) as [H3 H4].
  split; intros; by rewrite ?H1, ?H2, ?H3, ?H4.
Qed.
(** A loop folds what its body yields. *)
Lemma yields_forM {X St} (l : list X) (f : St → X → prog St) (F : St → X → St) s :
  (∀ st y, yields (f st y) s (F st y)) → ∀ st, yields (forM l f st) s (foldl F st l).
Proof.
  intros Hf. induction l as [|y l IH]; intros st; [apply yields_ret|]. cbn [forM foldl]. eapply yields_bind; [apply Hf|apply IH].
Qed.
Lemma yields_run {A} (p : prog A) s a h : yields p s a → (run p s h).2 = a.
Proof. intros Hp. by destruct (Hp s h ltac:(done)) as (t' & h' & -> & _). Qed.
(** What a routine lists first may be of the patched kind. *)
Lemma yields_run_list {B} g ns (f : error + list json → prog B) s b h :
  yields (f (cl_List s g ns)) s b → (run (doList g ns ≫= f) s h).2 = b.
Proof. intros Hf. cbn. by apply yields_run. Qed.
End yields.

(** ** Program logic *)

Section wp.
(** What a mutating call must satisfy, given the calls before it. *)
Variable P : list Event → Event → Prop.

Fixpoint wp {A} (h : list Event) (p : prog A) (Q : list Event → A → Prop) : Prop :=
  match p with
  | Ret a => Q h a
  | List g ns k => ∀ r, wp (h ++ [EvList g ns r]) (k r) Q
  | Get g ns n k => ∀ r, wp (h ++ [EvGet g ns n r]) (k r) Q
  | Delete g ns n k => ∀ e, P h (EvDelete g ns n e) ∧ wp (h ++ [EvDelete g ns n e]) (k e) Q
  | Patch g ns n pt b k =>
      ∀ e, P h (EvPatch g ns n pt b e) ∧ wp (h ++ [EvPatch g ns n pt b e]) (k e) Q
  end.

Lemma wp_bind {A B} (p : prog A) (f : A → prog B) h Q :
  wp h p (λ h a, wp h (f a) Q) → wp h (p ≫= f) Q.
Proof.
  revert h. induction p as [a|g ns k IH|g ns n k IH|g ns n k IH|g ns n pt b k IH]; intros h; cbn.
  - done.
  - intros Hp r. by apply IH.
  - intros Hp r. by apply IH.
  - intros Hp e. destruct (Hp e). split; [done|]. by apply IH.
  - intros Hp e. destruct (Hp e). split; [done|]. by apply IH.
Qed.

Lemma wp_mono {A} (p : prog A) h (Q Q' : list Event → A → Prop) :
  (∀ h a, Q h a → Q' h a) → wp h p Q → wp h p Q'.
Proof.
  intros HQ. revert h. induction p as [a|g ns k IH|g ns n k IH|g ns n k IH|g ns n pt b k IH]; intros h; cbn.
  - apply HQ.
  - intros Hp r. by apply IH.
  - intros Hp r. by apply IH.
  - intros Hp e. destruct (Hp e). split; [done|]. by apply IH.
  - intros Hp e. destruct (Hp e). split; [done|]. by apply IH.
Qed.

Lemma wp_ret {A} (a : A) h (Q : list Event → A → Prop) : Q h a → wp h (mret a) Q.
Proof. done. Qed.
Lemma wp_list {B} g ns (f : error + list json → prog B) h Q :
  (∀ r, wp (h ++ [EvList g ns r]) (f r) Q) → wp h (doList g ns ≫= f) Q.
Proof. done. Qed.
Lemma wp_get {B} g ns n (f : error + json → prog B) h Q :
  (∀ r, wp (h ++ [EvGet g ns n r]) (f r) Q) → wp h (doGet g ns n ≫= f) Q.
Proof. done. Qed.
Lemma wp_delete {B} g ns n (f : option error → prog B) h Q :
  (∀ e, P h (EvDelete g ns n e) ∧ wp (h ++ [EvDelete g ns n e]) (f e) Q) → wp h (doDelete g ns n ≫= f) Q.
Proof. done. Qed.
Lemma wp_patch {B} g ns n pt b (f : option error → prog B) h Q :
  (∀ e, P h (EvPatch g ns n pt b e) ∧ wp (h ++ [EvPatch g ns n pt b e]) (f e) Q) →
  wp h (doPatch g ns n pt b ≫= f) Q.
Proof. done. Qed.

(** A loop keeps an invariant its body keeps. *)
Lemma wp_forM {X St} (l : list X) (f : St → X → prog St) (I : list Event → St → Prop) h st :
  (∀ h st x, x ∈ l → I h st → wp h (f st x) I) → I h st → wp h (forM l f st) I.
Proof.
  revert h st. induction l as [|x l IH]; intros h st Hf HI; [done|]. cbn [forM]. apply wp_bind.
  eapply wp_mono; [|apply (Hf h st x (list_elem_of_here _ _) HI)].
  intros h' st' HI'. apply IH; [|done]. intros h'' st'' y Hy. apply Hf. by right.
Qed.

(** Histories only grow. *)
Lemma wp_grows {A} (p : prog A) h Q : wp h p Q → wp h p (λ h' a, Q h' a ∧ h `prefix_of` h').
Proof.
  assert (Hg : ∀ h0, h0 `prefix_of` h → wp h p Q → wp h p (λ h' a, Q h' a ∧ h0 `prefix_of` h')).
  { revert h. induction p as [a|g ns k IH|g ns n k IH|g ns n k IH|g ns n pt b k IH]; intros h h0 Hh; cbn.
    - done.
    - intros Hp r. apply IH; [by apply prefix_app_r|done].
    - intros Hp r. apply IH; [by apply prefix_app_r|done].
    - intros Hp e. destruct (Hp e). split; [done|]. apply IH; [by apply prefix_app_r|done].
    - intros Hp e. destruct (Hp e). split; [done|]. apply IH; [by apply prefix_app_r|done]. }
  by apply Hg.
Qed.
(** So a loop's body may use what was in the history when it started. *)
Lemma wp_loop {X St} (l : list X) (f : St → X → prog St) (I : list Event → St → Prop) h0 st :
  (∀ h st x, x ∈ l → h0 `prefix_of` h → I h st → wp h (f st x) I) → I h0 st → wp h0 (forM l f st) I.
Proof.
  intros Hf HI. eapply wp_mono; [|apply (wp_forM l f (λ h st, I h st ∧ h0 `prefix_of` h))].
  - by intros h a [].
  - intros h st' x Hx [HI' Hp]. eapply wp_mono; [|by apply wp_grows, Hf].
    intros h' a [? ?]. split; [done|]. by transitivity h.
  - done.
Qed.

(** Every mutation of a history is allowed at its place. *)
Definition judged (h : list Event) : Prop :=
  ∀ pre e post, h = pre ++ e :: post →
    match e with EvDelete _ _ _ _ | EvPatch _ _ _ _ _ _ => P pre e | _ => True end.

Lemma judged_nil : judged [].
Proof. intros pre e post E. by destruct pre. Qed.
Lemma judged_snoc h e : judged h →
  match e with EvDelete _ _ _ _ | EvPatch _ _ _ _ _ _ => P h e | _ => True end → judged (h ++ [e]).
Proof.
  intros Hh He pre e' post E. destruct post as [|x post _] using rev_ind.
  - apply app_inj_tail in E as [<- <-]. done.
  - rewrite app_comm_cons, app_assoc in E. apply app_inj_tail in E as [E _]. exact (Hh _ _ _ E).
Qed.

Lemma wp_run {S} `{Cluster S} {A} (p : prog A) Q : ∀ h (s : S), judged h → wp h p Q →
  let '(_, h', a) := run p s h in judged h' ∧ Q h' a.
Proof.
  induction p as [a|g ns k IH|g ns n k IH|g ns n k IH|g ns n pt b k IH]; intros h s Hh Hp; cbn [run].
  - done.
  - apply IH; [by apply judged_snoc|apply Hp].
  - apply IH; [by apply judged_snoc|apply Hp].
  - destruct (cl_Delete s g ns n) as [s' e]. destruct (Hp e). apply IH; [by apply judged_snoc|done].
  - destruct (cl_Patch s g ns n pt b) as [s' e]. destruct (Hp e). apply IH; [by apply judged_snoc|done].
Qed.
End wp.

(** [wp_step] runs one call or case of the goal's routine; the cases keep
    their equations. *)
Ltac wp_step :=
  match goal with
  | |- wp _ _ (mret _) _ => apply wp_ret
  | |- wp _ _ (doList _ _ ≫= _) _ => apply wp_list; intros ?
  | |- wp _ _ (doGet _ _ _ ≫= _) _ => apply wp_get; intros ?
  | |- wp _ _ (doDelete _ _ _ ≫= _) _ => apply wp_delete; intros ?; split
  | |- wp _ _ (doPatch _ _ _ _ _ ≫= _) _ => apply wp_patch; intros ?; split
  | |- wp _ _ (if ?b then _ else _) _ => destruct b eqn:?
  | |- wp _ _ (match ?x with _ => _ end) _ => destruct x eqn:?
  end.
