(* ===== verification/Fixers.v ===== *)
(** * The fixers: internal/fix

    Each fixer is a [prog] over the cluster; [IsProtectedNamespace] is the
    guard of Protected.v in a fixed package state.  [TLSSecretMismatch] reads
    certificates through [Certs], the parts of encoding/pem and crypto/x509
    it uses. *)

From stdpp Require Import options.
From S2P Require Import Prelude GoString GoTime GoJson GoNum GoFmt Unstructured Types Protected Cluster.
Local Open Scope Z_scope.

(** ** gitops.go *)

Definition GitOpsAnnotations : list string :=
  ["argocd.argoproj.io/instance"; "argocd.argoproj.io/tracking-id";
   "kustomize.toolkit.fluxcd.io/name"; "kustomize.toolkit.fluxcd.io/namespace";
   "meta.helm.sh/release-name"; "meta.helm.sh/release-namespace"].
Definition managed_by : string := "app.kubernetes.io/managed-by".
Definition gitOpsLabels : list string := [managed_by; "kustomize.toolkit.fluxcd.io/name"].
Definition knownGitOpsManagedByValues : list string := ["helm"; "argocd"; "flux"; "fluxcd"; "argo-cd"].

Fixpoint annotation_reason (annotations : list (string * string)) (keys : list string) : string :=
  match keys with
  | [] => ""
  | k :: keys =>
      match lookup_str k annotations with
      | Some v => if v ≠s? "" then k +:+ "=" +:+ v else annotation_reason annotations keys
      | None => annotation_reason annotations keys
      end
  end.
Fixpoint label_reason (labels : list (string * string)) (keys : list string) : string :=
  match keys with
  | [] => ""
  | k :: keys =>
      match lookup_str k labels with
      | Some v =>
          if v =s? "" then label_reason labels keys
          else if (k =s? managed_by) && negb (bool_decide (ToLowerFold v ∈ knownGitOpsManagedByValues))
          then label_reason labels keys
          else k +:+ "=" +:+ v
      | None => label_reason labels keys
      end
  end.
Definition GitOpsReason (u : json) : string :=
  let reason := annotation_reason (GetAnnotations u) GitOpsAnnotations in
  if reason ≠s? "" then reason else label_reason (GetLabels u) gitOpsLabels.

Definition IsPaused (u : json) : bool := NestedBool u ["spec"; "paused"].
Definition IsSuspended (u : json) : bool := NestedBool u ["spec"; "suspend"].

(** ** Reading pods *)

Fixpoint ownerNameByKind (refs : list OwnerReference) (kind : string) : string :=
  match refs with
  | [] => ""
  | o :: refs => if o_Kind o =s? kind then o_Name o else ownerNameByKind refs kind
  end.
Definition containerStatuses (pod : json) : list json := NestedSlice pod ["status"; "containerStatuses"].
Definition podInCCE (pod : json) : bool :=
  existsb (λ s, NestedString s ["state"; "waiting"; "reason"] =s? "CreateContainerConfigError")
    (containerStatuses pod).
Definition podHasMissingSecretKey (pod : json) : bool :=
  existsb (λ s,
    let msg := NestedString s ["state"; "waiting"; "message"] in
    Contains msg "couldn't find key" || Contains msg "couldnt find key") (containerStatuses pod).
Definition nestedString (m : json) (path : list string) : string := NestedString m path.

(** ** Results *)

Definition new_result (fixer : string) : FixResult := mkFixResult fixer [] [] "".
Definition skip (r : FixResult) (object reason : string) : FixResult :=
  mkFixResult (Fixer r) (Actions r) (Skipped r ++ [mkSkipReason object reason]) (Refused r).
Definition act (r : FixResult) (desc object : string) : FixResult :=
  mkFixResult (Fixer r) (Actions r ++ [mkAction desc object]) (Skipped r) (Refused r).
Definition snapshot_mode : string := "snapshot mode — fixers require live cluster access".
Definition refuse (r : FixResult) : FixResult :=
  mkFixResult (Fixer r) (Actions r) (Skipped r) snapshot_mode.

(** A result and the keys handled in this run. *)
Definition Acc : Type := FixResult * gset string.

(** The X.509 and PEM readers. *)
Class Certs := {
  pem_Decode : string → option string;
  cert_NotAfter : string → option Time;
}.

Section fixers.
Variable IsProtectedNamespace : string → bool.

(** ** stale_error_pods.go *)

Definition stale_delete (r : FixResult) (ns name object : string) (owners : list OwnerReference)
    : prog FixResult :=
  e ← doDelete GVRPod ns name;
  match e with
  | Some err => mret (skip r object ("delete failed: " +:+ err))
  | None =>
      let desc :=
        match owners with
        | o :: _ => "Deleted stale Failed pod (owner: " +:+ o_Kind o +:+ "/" +:+ o_Name o +:+ ")"
        | [] => "Deleted stale Failed pod"
        end in
      mret (act r desc object)
  end.
(** The namespace and GitOps gates. *)
Definition stale_gates (r : FixResult) (pod : json) (ns name object : string)
    (owners : list OwnerReference) : prog FixResult :=
  if IsProtectedNamespace ns then mret (skip r object "protected namespace") else
  let reason := GitOpsReason pod in
  if reason ≠s? "" then
    mret (skip r object ("GitOps-managed: " +:+ reason +:+ " — let the controller handle the failed pod"))
  else
    match owners with
    | o :: _ =>
        if o_Kind o =s? "Job" then
          job ← doGet GVRJob ns (o_Name o);
          match job with
          | inr job =>
              let reason := GitOpsReason job in
              if reason ≠s? "" then
                mret (skip r object ("owning Job " +:+ ns +:+ "/" +:+ o_Name o +:+
                  " is GitOps-managed: " +:+ reason +:+ " — let the controller surface the failure"))
              else stale_delete r ns name object owners
          | inl _ => stale_delete r ns name object owners
          end
        else stale_delete r ns name object owners
    | [] => stale_delete r ns name object owners
    end.
Definition stale_pod (r : FixResult) (pod : json) : prog FixResult :=
  let ns := GetNamespace pod in
  let name := GetName pod in
  let object := "Pod/" +:+ ns +:+ "/" +:+ name in
  if nestedString pod ["status"; "phase"] ≠s? "Failed" then mret r else
  let owners := GetOwnerReferences pod in
  match owners with
  | o :: _ =>
      if o_Kind o ≠s? "Job"
      then mret (skip r object ("owned by " +:+ o_Kind o +:+ " (controller will recover)"))
      else stale_gates r pod ns name object owners
  | [] => stale_gates r pod ns name object owners
  end.
Definition StaleErrorPods (live : bool) : prog FixResult :=
  let r := new_result "StaleErrorPods" in
  if negb live then mret (refuse r) else
  pods ← doList GVRPod "";
  match pods with
  | inl _ => mret r
  | inr pods => forM pods stale_pod r
  end.

(** ** stuck_jobs.go *)

Definition stuck_job (acc : Acc) (pod : json) : prog Acc :=
  let '(r, deletedJobs) := acc in
  let ns := GetNamespace pod in
  let podObj := "Pod/" +:+ ns +:+ "/" +:+ GetName pod in
  let jobName := ownerNameByKind (GetOwnerReferences pod) "Job" in
  if jobName =s? "" then mret acc else
  if negb (podHasMissingSecretKey pod) then mret acc else
  if IsProtectedNamespace ns then mret (skip r podObj "protected namespace", deletedJobs) else
  let jobKey := ns +:+ "/" +:+ jobName in
  if bool_decide (jobKey ∈ deletedJobs) then mret acc else
  jobObj ← doGet GVRJob ns jobName;
  match jobObj with
  | inl err => mret (skip r ("Job/" +:+ jobKey) ("couldn't fetch Job (already gone?): " +:+ err), deletedJobs)
  | inr jobObj =>
      let cronJobName := ownerNameByKind (GetOwnerReferences jobObj) "CronJob" in
      if cronJobName =s? "" then
        mret (skip r ("Job/" +:+ jobKey) "Job has no CronJob owner; deletion would not auto-respawn", deletedJobs)
      else
        cj ← doGet GVRCronJob ns cronJobName;
        match cj with
        | inl err =>
            mret (skip r ("Job/" +:+ jobKey)
              ("couldn't fetch parent CronJob " +:+ ns +:+ "/" +:+ cronJobName +:+ ": " +:+ err), deletedJobs)
        | inr cj =>
            if IsSuspended cj then
              mret (skip r ("Job/" +:+ jobKey) ("parent CronJob " +:+ ns +:+ "/" +:+ cronJobName +:+
                " is suspended (spec.suspend=true); deletion would re-spawn the workload an operator deliberately froze"),
                {[jobKey]} ∪ deletedJobs)
            else if GitOpsReason cj ≠s? "" then
              mret (skip r ("Job/" +:+ jobKey) ("parent CronJob " +:+ ns +:+ "/" +:+ cronJobName +:+
                " is GitOps-managed: " +:+ GitOpsReason cj +:+ " — edit the source repo instead"),
                {[jobKey]} ∪ deletedJobs)
            else
              e ← doDelete GVRJob ns jobName;
              match e with
              | Some err => mret (skip r ("Job/" +:+ jobKey) ("delete failed: " +:+ err), deletedJobs)
              | None =>
                  mret (act r ("Deleted stuck Job (frozen Secret-key ref); CronJob `" +:+ ns +:+ "/" +:+
                    cronJobName +:+ "` will respawn") ("Job/" +:+ jobKey), {[jobKey]} ∪ deletedJobs)
              end
        end
  end.
Definition StuckJobsWithBadSecretRef (live : bool) : prog FixResult :=
  let r := new_result "StuckJobsWithBadSecretRef" in
  if negb live then mret (refuse r) else
  pods ← doList GVRPod "";
  match pods with
  | inl _ => mret r
  | inr pods => acc ← forM pods stuck_job (r, ∅); mret acc.1
  end.

(** ** stuck_rs_pods.go *)

Definition restart_patch (now : Time) : string :=
  obj_body [("spec", obj_body [("template", obj_body [("metadata", obj_body [("annotations", obj_body
    [("kubectl.kubernetes.io/restartedAt", Quote (FormatRFC3339 now))])])])])].
Definition revision (u : json) : string :=
  default "" (lookup_str "deployment.kubernetes.io/revision" (GetAnnotations u)).

(** From the fetched ReplicaSet and Deployment on. *)
Definition restart_deploy (now : Time) (acc : Acc) (ns deployName : string) (rs dep : json) : prog Acc :=
  let '(r, restarted) := acc in
  let deployKey := ns +:+ "/" +:+ deployName in
  let obj := "Deployment/" +:+ deployKey in
  if GitOpsReason dep ≠s? "" then
    mret (skip r obj ("GitOps-managed: " +:+ GitOpsReason dep +:+ " — edit the source repo instead"),
      {[deployKey]} ∪ restarted)
  else if IsPaused dep then
    mret (skip r obj "rollout paused (spec.paused=true) — unpause before Srenix may restart",
      {[deployKey]} ∪ restarted)
  else
    let curRev := revision dep in
    let rsRev := revision rs in
    if (curRev =s? "") || (rsRev =s? "") then mret acc else
    if curRev =s? rsRev then
      mret (skip r obj ("RS revision " +:+ curRev +:+ " == live revision; rollout would reproduce the failure"), restarted)
    else
      e ← doPatch GVRDeployment ns deployName StrategicMergePatchType (restart_patch now);
      match e with
      | Some err => mret (skip r obj ("patch failed: " +:+ err), restarted)
      | None =>
          mret (act r ("Rolled deploy `" +:+ deployKey +:+ "` (stuck RS rev " +:+ rsRev +:+ ", live rev " +:+
            curRev +:+ ")") obj, {[deployKey]} ∪ restarted)
      end.
Definition stuck_rs_pod (now : Time) (acc : Acc) (pod : json) : prog Acc :=
  let '(r, restarted) := acc in
  let ns := GetNamespace pod in
  let podObj := "Pod/" +:+ ns +:+ "/" +:+ GetName pod in
  if negb (podInCCE pod) then mret acc else
  if podHasMissingSecretKey pod then
    mret (skip r podObj "couldn't find key — rollout will not help; surfaced by diagnose analyzer", restarted) else
  if IsProtectedNamespace ns then mret (skip r podObj "protected namespace", restarted) else
  let rsName := ownerNameByKind (GetOwnerReferences pod) "ReplicaSet" in
  if rsName =s? "" then mret acc else
  rs ← doGet GVRReplicaSet ns rsName;
  match rs with
  | inl err => mret (skip r ("ReplicaSet/" +:+ ns +:+ "/" +:+ rsName) ("couldn't fetch RS: " +:+ err), restarted)
  | inr rs =>
      let deployName := ownerNameByKind (GetOwnerReferences rs) "Deployment" in
      if deployName =s? "" then mret acc else
      let deployKey := ns +:+ "/" +:+ deployName in
      if bool_decide (deployKey ∈ restarted) then mret acc else
      dep ← doGet GVRDeployment ns deployName;
      match dep with
      | inl err => mret (skip r ("Deployment/" +:+ deployKey) ("couldn't fetch Deployment: " +:+ err), restarted)
      | inr dep => restart_deploy now acc ns deployName rs dep
      end
  end.
Definition StuckRSPods (now : Time) (live : bool) : prog FixResult :=
  let r := new_result "StuckRSPods" in
  if negb live then mret (refuse r) else
  pods ← doList GVRPod "";
  match pods with
  | inl _ => mret r
  | inr pods => acc ← forM pods (stuck_rs_pod now) (r, ∅); mret acc.1
  end.

(** ** stuck_cert_requests.go *)

Definition certManagerNamespace : string := "cert-manager".
Definition certManagerDeployment : string := "cert-manager".

Definition certRequestFailed (cr : json) : bool :=
  if NestedString cr ["status"; "failureTime"] ≠s? "" then true
  else existsb (λ c, (NestedString c ["type"] =s? "Ready") && (NestedString c ["status"] =s? "False")
                     && (NestedString c ["reason"] =s? "Failed")) (NestedSlice cr ["status"; "conditions"]).
Definition orderFailed (order : json) : bool :=
  let state := NestedString order ["status"; "state"] in
  (state =s? "errored") || (state =s? "invalid").

(** The two delete loops differ in the resource, the test and the text. *)
Definition delete_failed (gvr : GVR) (kind desc : string) (failed : json → bool) (r : FixResult) (cr : json)
    : prog FixResult :=
  let ns := GetNamespace cr in
  let name := GetName cr in
  let obj := kind +:+ "/" +:+ ns +:+ "/" +:+ name in
  if IsProtectedNamespace ns then mret (skip r obj "protected namespace") else
  if negb (failed cr) then mret r else
  e ← doDelete gvr ns name;
  match e with
  | Some err => mret (skip r obj ("delete failed: " +:+ err))
  | None => mret (act r desc obj)
  end.
Definition deleteStaleCertificateRequests (r : FixResult) : prog FixResult :=
  crs ← doList GVRCertificateRequest "";
  match crs with
  | inl _ => mret r
  | inr crs =>
      forM crs (delete_failed GVRCertificateRequest "CertificateRequest"
        "Deleted failed CertificateRequest; cert-manager will retry issuance" certRequestFailed) r
  end.
Definition deleteStaleOrders (r : FixResult) : prog FixResult :=
  orders ← doList GVRCertManagerOrder "";
  match orders with
  | inl _ => mret r
  | inr orders =>
      forM orders (delete_failed GVRCertManagerOrder "Order"
        "Deleted failed ACME Order; cert-manager will retry the ACME challenge" orderFailed) r
  end.
Definition StuckCertificateRequests (live : bool) : prog FixResult :=
  let r := new_result "StuckCertificateRequests" in
  if negb live then mret (refuse r) else
  dep ← doGet GVRDeployment certManagerNamespace certManagerDeployment;
  let ready := match dep with inr dep => Some (NestedInt64 dep ["status"; "readyReplicas"]) | inl _ => None end in
  let desired := match dep with inr dep => NestedInt64 dep ["spec"; "replicas"] | inl _ => 0 end in
  if bool_decide (ready = Some 0) then
    mret (skip r ("Deployment/" +:+ certManagerNamespace +:+ "/" +:+ certManagerDeployment)
      ("cert-manager controller unhealthy: " +:+ Itoa 0 +:+ "/" +:+ Itoa desired +:+
       " ready — refusing to delete CRs (cert-manager cannot recreate them)"))
  else
    r ← deleteStaleCertificateRequests r;
    deleteStaleOrders r.

(** ** tls_secret_mismatch.go *)

Section tls.
Context `{!Certs}.

Definition tlsHostsFix (tm : json) : list string :=
  omap (λ h, match h with JStr s => if s =s? "" then None else Some (ToLower s) | _ => None end)
    (NestedSlice tm ["hosts"]).

(** The certificate text of a Secret, PEM itself or base64 of it. *)
Definition cert_expiry_of (raw : string) : option Time :=
  match pem_Decode raw with
  | Some block => cert_NotAfter block
  | None => pemBytes ← b64_std_decode (TrimSpace raw); block ← pem_Decode pemBytes; cert_NotAfter block
  end.
Definition secretCertExpiryFix (ns name : string) : prog (option Time) :=
  sec ← doGet GVRSecret ns name;
  match sec with
  | inl _ => mret None
  | inr sec =>
      let raw := NestedString sec ["data"; "tls.crt"] in
      if raw =s? "" then mret None else mret (cert_expiry_of raw)
  end.

Definition certReadyFix (cert : json) : bool :=
  existsb (λ c, (NestedString c ["type"] =s? "Ready") && (NestedString c ["status"] =s? "True"))
    (NestedSlice cert ["status"; "conditions"]).
(** A certificate of another Secret, ready, for one of the hosts. *)
Definition cert_matches (hosts : list string) (currentSecret : string) (cert : json) : bool :=
  let target := NestedString cert ["spec"; "secretName"] in
  (target ≠s? "") && (target ≠s? currentSecret) && certReadyFix cert &&
  existsb (λ n, bool_decide (ToLower n ∈ hosts)) (NestedStringSlice cert ["spec"; "dnsNames"]).
Definition findMismatchedCertFix (ns : string) (hosts : list string) (currentSecret : string) : prog string :=
  certs ← doList GVRCertificate ns;
  match certs with
  | inl _ => mret ""
  | inr certs =>
      match List.filter (cert_matches hosts currentSecret) certs with
      | cert :: _ => mret (NestedString cert ["spec"; "secretName"])
      | [] => mret ""
      end
  end.

Definition repoint_patch (idx : nat) (better : string) : string :=
  "[" +:+ obj_body [("op", Quote "replace");
    ("path", Quote ("/spec/tls/" +:+ Itoa (Z.of_nat idx) +:+ "/secretName")); ("value", Quote better)] +:+ "]".
Definition is_stale (now : Time) (window : Duration) (expiry : Time) : bool :=
  let expired := negb (IsZero expiry) && After now expiry in
  let soon := negb (IsZero expiry) && negb expired && (Sub expiry now <? window) in
  expired || soon.
(** From the expiry on. *)
Definition repoint_expiring (now : Time) (window : Duration) (ns name ingObj : string) (r : FixResult)
    (tlsIdx : nat) (secretName : string) (hosts : list string) (expiry : option Time) : prog FixResult :=
  match expiry with
  | None => mret r
  | Some expiry =>
      if negb (is_stale now window expiry) then mret r else
      better ← findMismatchedCertFix ns hosts secretName;
      if better =s? "" then mret r else
      e ← doPatch GVRIngress ns name JSONPatchType (repoint_patch tlsIdx better);
      match e with
      | Some err => mret (skip r ingObj ("patch failed: " +:+ err))
      | None =>
          mret (act r ("Repointed `" +:+ ingObj +:+ "` tls[" +:+ Itoa (Z.of_nat tlsIdx) +:+ "] from Secret `" +:+
            secretName +:+ "` (stale) → `" +:+ better +:+ "` (cert-manager-managed, healthy)") ingObj)
      end
  end.
Definition repoint_tls (now : Time) (window : Duration) (ns name ingObj : string) (r : FixResult)
    (entry : nat * json) : prog FixResult :=
  let '(tlsIdx, tm) := entry in
  let secretName := NestedString tm ["secretName"] in
  if secretName =s? "" then mret r else
  let hosts := tlsHostsFix tm in
  if (length hosts =? 0)%nat then mret r else
  expiry ← secretCertExpiryFix ns secretName;
  repoint_expiring now window ns name ingObj r tlsIdx secretName hosts expiry.
Definition repoint_ingress (now : Time) (window : Duration) (r : FixResult) (ing : json) : prog FixResult :=
  let ns := GetNamespace ing in
  let name := GetName ing in
  let ingObj := "Ingress/" +:+ ns +:+ "/" +:+ name in
  if IsProtectedNamespace ns then mret (skip r ingObj "protected namespace") else
  if GitOpsReason ing ≠s? "" then
    mret (skip r ingObj ("GitOps-managed: " +:+ GitOpsReason ing +:+ " — edit the source repo instead"))
  else
    let tls := NestedSlice ing ["spec"; "tls"] in
    forM (imap pair tls) (repoint_tls now window ns name ingObj) r.
Definition TLSSecretMismatch (ExpiryWindow : Duration) (now : Time) (live : bool) : prog FixResult :=
  let r := new_result "TLSSecretMismatch" in
  if negb live then mret (refuse r) else
  let window := if ExpiryWindow =? 0 then 14 * 24 * Hour else ExpiryWindow in
  ingresses ← doList GVRIngress "";
  match ingresses with
  | inl _ => mret r
  | inr ingresses => forM ingresses (repoint_ingress now window) r
  end.

(** ** The registered fixers: catalog/catalog.go, watcher.runCycle *)

Definition OSSFixers (tls : bool) (now : Time) : list (bool → prog FixResult) :=
  [StaleErrorPods; StuckJobsWithBadSecretRef; StuckRSPods now; StuckCertificateRequests] ++
  (if tls then [TLSSecretMismatch 0 now] else []).
Definition RunFixers (fixers : list (bool → prog FixResult)) (live : bool) : prog (list FixResult) :=
  forM fixers (λ fixResults f, fr ← f live; mret (fixResults ++ [fr])) [].
End tls.
End fixers.

(** ** What a fixer may do *)

Definition named (u : json) (ns n : string) : Prop := GetNamespace u = ns ∧ GetName u = n.
(** [u] was listed, or fetched, before. *)
Definition listed (pre : list Event) (g : GVR) (lns : string) (u : json) : Prop :=
  ∃ l, EvList g lns (inr l) ∈ pre ∧ u ∈ l.
Definition fetched (pre : list Event) (g : GVR) (ns n : string) (u : json) : Prop :=
  EvGet g ns n (inr u) ∈ pre.

Section allowed.
Context `{!Certs}.
Variables (IsProtectedNamespace : string → bool) (now : Time).

Definition pod_deletable (pre : list Event) (ns n : string) : Prop :=
  ∃ pod, listed pre GVRPod "" pod ∧ named pod ns n ∧
    NestedString pod ["status"; "phase"] = "Failed" ∧ GitOpsReason pod = "" ∧
    match GetOwnerReferences pod with
    | [] => True
    | o :: _ => o_Kind o = "Job" ∧
        ∃ r, EvGet GVRJob ns (o_Name o) r ∈ pre ∧ ∀ job, r = inr job → GitOpsReason job = ""
    end.
Definition job_deletable (pre : list Event) (ns n : string) : Prop :=
  ∃ job cj, fetched pre GVRJob ns n job ∧
    ownerNameByKind (GetOwnerReferences job) "CronJob" ≠ "" ∧
    fetched pre GVRCronJob ns (ownerNameByKind (GetOwnerReferences job) "CronJob") cj ∧
    IsSuspended cj = false ∧ GitOpsReason cj = "".
(** cert-manager was not seen without a ready replica. *)
Definition cert_manager_ok (pre : list Event) : Prop :=
  ∃ r, EvGet GVRDeployment certManagerNamespace certManagerDeployment r ∈ pre ∧
    ∀ dep, r = inr dep → NestedInt64 dep ["status"; "readyReplicas"] ≠ 0.
Definition request_deletable (pre : list Event) (g : GVR) (failed : json → bool) (ns n : string) : Prop :=
  cert_manager_ok pre ∧ ∃ cr, listed pre g "" cr ∧ named cr ns n ∧ failed cr = true.
Definition deploy_restartable (pre : list Event) (ns n body : string) : Prop :=
  body = restart_patch now ∧
  ∃ dep, fetched pre GVRDeployment ns n dep ∧ GitOpsReason dep = "" ∧ IsPaused dep = false.
Definition ingress_repointable (pre : list Event) (ns n body : string) : Prop :=
  ∃ ing cert idx better, listed pre GVRIngress "" ing ∧ named ing ns n ∧ GitOpsReason ing = "" ∧
    body = repoint_patch idx better ∧ better ≠ "" ∧
    listed pre GVRCertificate ns cert ∧ NestedString cert ["spec"; "secretName"] = better ∧
    certReadyFix cert = true.

Definition allowed (pre : list Event) (e : Event) : Prop :=
  match e with
  | EvDelete g ns n _ =>
      IsProtectedNamespace ns = false ∧
      match g with
      | GVRPod => pod_deletable pre ns n
      | GVRJob => job_deletable pre ns n
      | GVRCertificateRequest => request_deletable pre g certRequestFailed ns n
      | GVRCertManagerOrder => request_deletable pre g orderFailed ns n
      | _ => False
      end
  | EvPatch g ns n pt b _ =>
      IsProtectedNamespace ns = false ∧
      match g, pt with
      | GVRDeployment, StrategicMergePatchType => deploy_restartable pre ns n b
      | GVRIngress, JSONPatchType => ingress_repointable pre ns n b
      | _, _ => False
      end
  | _ => True
  end.

End allowed.

(** The objects of the mutations that went through, in order. *)
Definition kind (g : GVR) : string :=
  match g with
  | GVRPod => "Pod" | GVRJob => "Job" | GVRDeployment => "Deployment" | GVRIngress => "Ingress"
  | GVRCertificateRequest => "CertificateRequest" | GVRCertManagerOrder => "Order"
  | _ => ""
  end.
Definition success (e : Event) : option string :=
  match e with
  | EvDelete g ns n None | EvPatch g ns n _ _ None => Some (kind g +:+ "/" +:+ ns +:+ "/" +:+ n)
  | _ => None
  end.
Definition succeeded (h : list Event) : list string := omap success h.
Definition acted (r : FixResult) : list string := ac_Object <$> Actions r.

Lemma succeeded_snoc h e : succeeded (h ++ [e]) = succeeded h ++ match success e with Some o => [o] | None => [] end.
Proof. unfold succeeded. rewrite omap_app. cbn. by destruct (success e). Qed.
Lemma listed_snoc h g ns u e : listed h g ns u → listed (h ++ [e]) g ns u.
Proof. intros (l & Hl & Hu). exists l. set_solver. Qed.
Lemma fetched_snoc h g ns n u e : fetched h g ns n u → fetched (h ++ [e]) g ns n u.
Proof. unfold fetched. set_solver. Qed.
Lemma listed_now h g ns l u : u ∈ l → listed (h ++ [EvList g ns (inr l)]) g ns u.
Proof. exists l. set_solver. Qed.
Lemma fetched_now h g ns n u : fetched (h ++ [EvGet g ns n (inr u)]) g ns n u.
Proof. unfold fetched. set_solver. Qed.
Lemma acted_skip r o reason : acted (skip r o reason) = acted r.
Proof. done. Qed.
Lemma acted_act r d o : acted (act r d o) = acted r ++ [o].
Proof. unfold acted. cbn. by rewrite fmap_app. Qed.

#[export] Hint Resolve listed_snoc fetched_snoc listed_now fetched_now : srenix.

Section judged.
Context `{!Certs}.
Variables (IsProtectedNamespace : string → bool) (now : Time).
Notation wpf := (wp (allowed IsProtectedNamespace now)).

(** A fixer's result reports the mutations that went through since [h0]. *)
Definition reports (h0 h : list Event) (r : FixResult) : Prop :=
  succeeded h = succeeded h0 ++ acted r.

Lemma reports_nil h0 r : acted r = [] → reports h0 h0 r.
Proof. unfold reports. intros ->. by rewrite app_nil_r. Qed.
Lemma reports_skip h0 h r o reason : reports h0 h r → reports h0 h (skip r o reason).
Proof. done. Qed.
Lemma reports_quiet h0 h r e : reports h0 h r → success e = None → reports h0 (h ++ [e]) r.
Proof. unfold reports. intros Hr He. by rewrite succeeded_snoc, He, app_nil_r. Qed.
Lemma reports_act h0 h r e d o : reports h0 h r → success e = Some o → reports h0 (h ++ [e]) (act r d o).
Proof. unfold reports. intros Hr He. by rewrite succeeded_snoc, He, Hr, acted_act, app_assoc. Qed.
Lemma reports_start h0 r e : acted r = [] → success e = None → reports h0 (h0 ++ [e]) r.
Proof. intros Hr He. by apply reports_quiet, He; apply reports_nil. Qed.
#[local] Hint Resolve reports_skip reports_quiet reports_act : srenix.

Lemma stale_delete_wp h0 h r pod owners : reports h0 h r →
  IsProtectedNamespace (GetNamespace pod) = false → pod_deletable h (GetNamespace pod) (GetName pod) →
  wpf h (stale_delete r (GetNamespace pod) (GetName pod)
    ("Pod/" +:+ GetNamespace pod +:+ "/" +:+ GetName pod) owners) (λ h, reports h0 h).
Proof.
  intros Hr Hp Hd. unfold stale_delete. wp_step; [done|]. wp_step; wp_step; eauto with srenix.
Qed.

Lemma prefix_elem {A} (l k : list A) x : l `prefix_of` k → x ∈ l → x ∈ k.
Proof. intros [m ->]. set_solver. Qed.

Lemma stale_gates_wp h0 h r pods pod : reports h0 h r → EvList GVRPod "" (inr pods) ∈ h → pod ∈ pods →
  NestedString pod ["status"; "phase"] = "Failed" →
  match GetOwnerReferences pod with [] => True | o :: _ => o_Kind o = "Job" end →
  wpf h (stale_gates IsProtectedNamespace r pod (GetNamespace pod) (GetName pod)
    ("Pod/" +:+ GetNamespace pod +:+ "/" +:+ GetName pod) (GetOwnerReferences pod)) (λ h, reports h0 h).
Proof.
  intros Hr Hl Hin Hph Hown. unfold stale_gates.
  destruct (IsProtectedNamespace (GetNamespace pod)) eqn:Hp; [by wp_step|].
  destruct (GitOpsReason pod ≠s? "") eqn:Hg; [by wp_step|]. bool_to_prop.
  assert (Hpod : ∀ h', h `prefix_of` h' → listed h' GVRPod "" pod).
  { intros h' Hh. exists pods. split; [by eapply prefix_elem|done]. }
  destruct (GetOwnerReferences pod) as [|o owners] eqn:Ho.
  - apply stale_delete_wp; [done..|]. exists pod. rewrite Ho. split_and!; try done. by apply Hpod.
  - rewrite bool_decide_eq_true_2 by done. wp_step.
    assert (Hdel : (∀ job, r0 = inr job → GitOpsReason job = "") →
      pod_deletable (h ++ [EvGet GVRJob (GetNamespace pod) (o_Name o) r0]) (GetNamespace pod) (GetName pod)).
    { intros Hj. exists pod. rewrite Ho. split_and!; try done; [apply Hpod; by apply prefix_app_r|].
      exists r0. split; [set_solver|done]. }
    destruct r0 as [err|job].
    + apply stale_delete_wp; [by apply reports_quiet|done|]. by apply Hdel.
    + destruct (GitOpsReason job ≠s? "") eqn:Hgj; [wp_step; by apply reports_quiet|]. bool_to_prop.
      apply stale_delete_wp; [by apply reports_quiet|done|]. apply Hdel. intros job' [= <-]. done.
Qed.

Lemma StaleErrorPods_wp h0 live : wpf h0 (StaleErrorPods IsProtectedNamespace live) (λ h, reports h0 h).
Proof.
  unfold StaleErrorPods. destruct live; cbn [negb]; [|wp_step; by apply reports_nil].
  wp_step. destruct r as [err|pods]; [wp_step; by apply reports_start|].
  apply wp_loop; [|by apply reports_start].
  intros h r pod Hpod Hpre Hr. unfold stale_pod.
  destruct (nestedString pod ["status"; "phase"] ≠s? "Failed") eqn:Hph; [by wp_step|]. bool_to_prop.
  assert (Hev : EvList GVRPod "" (inr pods) ∈ h) by (eapply prefix_elem; [done|set_solver]).
  pose proof (stale_gates_wp h0 h r pods pod Hr Hev Hpod Hph) as Hw.
  destruct (GetOwnerReferences pod) as [|o owners]; [by apply Hw|].
  destruct (o_Kind o ≠s? "Job") eqn:Hk; [by wp_step|]. bool_to_prop. by apply Hw.
Qed.

Lemma StuckJobs_wp h0 live : wpf h0 (StuckJobsWithBadSecretRef IsProtectedNamespace live) (λ h, reports h0 h).
Proof.
  unfold StuckJobsWithBadSecretRef. destruct live; cbn [negb]; [|wp_step; by apply reports_nil].
  wp_step. destruct r as [err|pods]; [wp_step; by apply reports_start|].
  apply wp_bind. eapply wp_mono; [|apply (wp_loop _ _ _ (λ h acc, reports h0 h acc.1))].
  - by intros h [r d] Hr; wp_step.
  - intros h [r del] pod Hpod Hpre Hr. cbn [fst] in Hr. unfold stuck_job.
    wp_step; [by wp_step|]. wp_step; [by wp_step|]. wp_step; [by wp_step|]. wp_step; [by wp_step|].
    wp_step. wp_step; [wp_step; by apply reports_quiet|]. wp_step; [wp_step; by apply reports_quiet|].
    wp_step. wp_step; [wp_step; by repeat apply reports_quiet|]. wp_step; [wp_step; by repeat apply reports_quiet|].
    wp_step; [wp_step; by repeat apply reports_quiet|]. wp_step.
    + bool_to_prop. split; [done|]. eexists _, _. split_and!; [|done| |done|done]; unfold fetched; set_solver.
    + wp_step; wp_step; [|apply reports_act; [|done]]; repeat apply reports_quiet; done.
  - by apply reports_start.
Qed.

Ltac quiet := repeat apply reports_quiet; done.

Lemma restart_deploy_wp h0 h acc ns deployName rs dep : reports h0 h acc.1 →
  IsProtectedNamespace ns = false → fetched h GVRDeployment ns deployName dep →
  wpf h (restart_deploy now acc ns deployName rs dep) (λ h acc, reports h0 h acc.1).
Proof.
  destruct acc as [r restarted]. cbn [fst]. intros Hr Hp Hd. unfold restart_deploy.
  wp_step; [by wp_step|]. wp_step; [by wp_step|]. wp_step; [by wp_step|]. wp_step; [by wp_step|]. bool_to_prop.
  wp_step.
  - split; [done|]. split; [done|]. by exists dep.
  - wp_step; wp_step; cbn [fst]; [quiet|by apply reports_act].
Qed.

Lemma StuckRSPods_wp h0 live : wpf h0 (StuckRSPods IsProtectedNamespace now live) (λ h, reports h0 h).
Proof.
  unfold StuckRSPods. destruct live; cbn [negb]; [|wp_step; by apply reports_nil].
  wp_step. destruct r as [err|pods]; [wp_step; by apply reports_start|].
  apply wp_bind. eapply wp_mono; [|apply (wp_loop _ _ _ (λ h acc, reports h0 h acc.1))].
  - by intros h [r d] Hr; wp_step.
  - intros h [r del] pod Hpod Hpre Hr. cbn [fst] in Hr. unfold stuck_rs_pod.
    do 4 (wp_step; [by wp_step|]). wp_step.
    wp_step; [wp_step; quiet|]. wp_step; [wp_step; quiet|]. wp_step; [wp_step; quiet|].
    wp_step. wp_step; [wp_step; quiet|]. apply restart_deploy_wp; [quiet|done|apply fetched_now].
  - by apply reports_start.
Qed.

Lemma delete_failed_wp h0 h g kd desc failed r crs cr : reports h0 h r →
  (g = GVRCertificateRequest ∧ failed = certRequestFailed) ∨ (g = GVRCertManagerOrder ∧ failed = orderFailed) →
  kd = kind g → EvList g "" (inr crs) ∈ h → cr ∈ crs → cert_manager_ok h →
  wpf h (delete_failed IsProtectedNamespace g kd desc failed r cr) (λ h, reports h0 h).
Proof.
  intros Hr Hg Hk Hl Hcr Hok. unfold delete_failed. wp_step; [by wp_step|].
  wp_step; [by wp_step|]. bool_to_prop. wp_step.
  - split; [done|].
    assert (request_deletable h g failed (GetNamespace cr) (GetName cr)).
    { split; [done|]. exists cr. split_and!; [by exists crs|done|done]. }
    by destruct Hg as [[-> ->]|[-> ->]].
  - wp_step; wp_step; [quiet|]. apply reports_act; [done|]. cbn. by rewrite Hk.
Qed.

Lemma cert_manager_grows h h' : h `prefix_of` h' → cert_manager_ok h → cert_manager_ok h'.
Proof. intros Hp (r & Hr & Hok). exists r. split; [by eapply prefix_elem|done]. Qed.

Lemma delete_stale_wp h0 h g kd desc failed r : reports h0 h r →
  (g = GVRCertificateRequest ∧ failed = certRequestFailed) ∨ (g = GVRCertManagerOrder ∧ failed = orderFailed) →
  kd = kind g → cert_manager_ok h →
  wpf h (crs ← doList g "";
    match crs with inl _ => mret r | inr crs => forM crs (delete_failed IsProtectedNamespace g kd desc failed) r end)
    (λ h' r, reports h0 h' r ∧ h `prefix_of` h').
Proof.
  intros Hr Hg Hk Hok. apply wp_grows. wp_step. destruct r0 as [err|crs]; [wp_step; quiet|].
  apply wp_loop; [|quiet]. intros h' r' cr Hcr Hpre Hr'. eapply delete_failed_wp; try done.
  - eapply prefix_elem; [done|]. set_solver.
  - eapply cert_manager_grows; [|done]. etrans; [|done]. by apply prefix_app_r.
Qed.

Lemma StuckCertificateRequests_wp h0 live :
  wpf h0 (StuckCertificateRequests IsProtectedNamespace live) (λ h, reports h0 h).
Proof.
  unfold StuckCertificateRequests. destruct live; cbn [negb]; [|wp_step; by apply reports_nil].
  wp_step. cbv zeta. wp_step; [wp_step; by apply reports_start|]. bool_to_prop.
  assert (Hok : cert_manager_ok (h0 ++ [EvGet GVRDeployment certManagerNamespace certManagerDeployment r])).
  { exists r. split; [set_solver|]. intros dep -> E. by rewrite E in *. }
  apply wp_bind. unfold deleteStaleCertificateRequests.
  eapply wp_mono; [|apply (delete_stale_wp h0); [by apply reports_start|by left|done|done]].
  intros h r' [Hr Hp]. unfold deleteStaleOrders.
  eapply wp_mono; [|apply (delete_stale_wp h0); [done|by right|done|by eapply cert_manager_grows]].
  by intros h' r'' [].
Qed.

Lemma findMismatched_wp h ns hosts cur Q :
  (∀ h' better, h `prefix_of` h' → succeeded h' = succeeded h →
    (better ≠ "" → ∃ cert, listed h' GVRCertificate ns cert ∧ NestedString cert ["spec"; "secretName"] = better ∧
      certReadyFix cert = true) → Q h' better) →
  wpf h (findMismatchedCertFix ns hosts cur) Q.
Proof.
  intros HQ. unfold findMismatchedCertFix. wp_step.
  assert (Hs : succeeded (h ++ [EvList GVRCertificate ns r]) = succeeded h) by by rewrite succeeded_snoc, app_nil_r.
  destruct r as [err|certs]; [wp_step; apply HQ; try done; by apply prefix_app_r|].
  destruct (List.filter _ certs) as [|cert l] eqn:Ef; wp_step; apply HQ; try done; try by apply prefix_app_r.
  intros _. assert (Hin : cert ∈ List.filter (cert_matches hosts cur) certs) by (rewrite Ef; by left).
  apply elem_of_bfilter in Hin as [Hm Hin]. exists cert. split_and!; [by apply listed_now|done|].
  unfold cert_matches in Hm. bool_to_prop. done.
Qed.

Lemma repoint_expiring_wp h0 h window ings ing r idx secretName hosts expiry : reports h0 h r →
  EvList GVRIngress "" (inr ings) ∈ h → ing ∈ ings → IsProtectedNamespace (GetNamespace ing) = false →
  GitOpsReason ing = "" →
  wpf h (repoint_expiring now window (GetNamespace ing) (GetName ing)
    ("Ingress/" +:+ GetNamespace ing +:+ "/" +:+ GetName ing) r idx secretName hosts expiry) (λ h, reports h0 h).
Proof.
  intros Hr Hl Hing Hp Hg. unfold repoint_expiring. destruct expiry as [expiry|]; [|by wp_step].
  wp_step; [by wp_step|]. apply wp_bind, findMismatched_wp. intros h' better Hpre Hs Hb.
  assert (Hr' : reports h0 h' r) by (unfold reports; by rewrite Hs).
  wp_step; [by wp_step|]. bool_to_prop. wp_step.
  - split; [done|]. destruct (Hb ltac:(done)) as (cert & ? & ? & ?).
    exists ing, cert, idx, better. split_and!; try done. exists ings. split; [by eapply prefix_elem|done].
  - wp_step; wp_step; [quiet|by apply reports_act].
Qed.

Lemma TLSSecretMismatch_wp h0 window live :
  wpf h0 (TLSSecretMismatch IsProtectedNamespace window now live) (λ h, reports h0 h).
Proof.
  unfold TLSSecretMismatch. destruct live; cbn [negb]; [|wp_step; by apply reports_nil].
  wp_step. destruct r as [err|ings]; [wp_step; by apply reports_start|].
  apply wp_loop; [|by apply reports_start]. intros h r ing Hing Hpre Hr. unfold repoint_ingress.
  wp_step; [by wp_step|]. wp_step; [by wp_step|]. bool_to_prop.
  assert (Hl : EvList GVRIngress "" (inr ings) ∈ h) by (eapply prefix_elem; [done|set_solver]).
  apply wp_loop; [|done]. intros h1 r1 [idx tm] Htm Hpre1 Hr1. unfold repoint_tls.
  wp_step; [by wp_step|]. wp_step; [by wp_step|]. apply wp_bind. unfold secretCertExpiryFix.
  wp_step. repeat (wp_step; try (eapply repoint_expiring_wp; [quiet| |done|done|done];
    eapply (prefix_elem h); [etrans; [done|by apply prefix_app_r]|done])).
Qed.

Lemma OSSFixers_wp tls h0 f live : f ∈ OSSFixers IsProtectedNamespace tls now →
  wpf h0 (f live) (λ h, reports h0 h).
Proof.
  unfold OSSFixers. intros [Hf|Hf]%elem_of_app.
  - repeat (apply elem_of_cons in Hf as [->|Hf]; [eauto using StaleErrorPods_wp, StuckJobs_wp, StuckRSPods_wp,
      StuckCertificateRequests_wp|]). by apply elem_of_nil in Hf.
  - destruct tls; [|by apply elem_of_nil in Hf]. apply list_elem_of_singleton in Hf as ->. apply TLSSecretMismatch_wp.
Qed.

Lemma RunFixers_wp tls live : wpf [] (RunFixers (OSSFixers IsProtectedNamespace tls now) live)
  (λ h rs, succeeded h = rs ≫= acted).
Proof.
  unfold RunFixers. apply wp_forM; [|done]. intros h rs f Hf Hr. apply wp_bind.
  eapply wp_mono; [|by apply (OSSFixers_wp tls)]. intros h' r Hr'. wp_step.
  rewrite bind_app, <-Hr. cbn. by rewrite app_nil_r, Hr'.
Qed.
End judged.

(** C1: whatever the cluster answers, every mutation the registered fixers
    make is allowed at its place: its namespace is not protected, and it is
    one of five: deleting a listed Failed Pod that no controller but a Job
    owns, deleting a Job whose fetched CronJob is neither suspended nor
    GitOps-managed, deleting a failed CertificateRequest or Order while
    cert-manager was not seen down, restarting a fetched Deployment that is
    neither paused nor GitOps-managed, or repointing a listed Ingress at the
    Secret of a listed ready Certificate.  The results report exactly the
    mutations that went through, in order. *)
Theorem fixers_allowed {S} `{!Cluster S} `{!Certs} env st tls now live (s : S) :
  let protected := fix_protects env st in
  let '(_, h, results) := run (RunFixers (OSSFixers protected tls now) live) s [] in
  (∀ pre e post, h = pre ++ e :: post → allowed protected now pre e) ∧
  succeeded h = results ≫= acted.
Proof.
  intros protected. pose proof (wp_run _ _ _ [] s (judged_nil _) (RunFixers_wp protected now tls live)) as Hw.
  destruct (run _ s []) as [[s' h] results]. destruct Hw as [Hj Hr]. split; [|done].
  intros pre e post ->. specialize (Hj pre e post eq_refl). by destruct e.
Qed.


(** ** Concrete clusters *)

Definition sample_pod (ns name phase : string) (owners : list json) : json :=
  JObj [("metadata", JObj [("name", JStr name); ("namespace", JStr ns); ("ownerReferences", JArr owners)]);
        ("status", JObj [("phase", JStr phase)])].
Definition job_owner : json := JObj [("kind", JStr "Job"); ("name", JStr "nightly")].
Definition sample_pods : list json :=
  [sample_pod "shop" "debug" "Failed" []; sample_pod "shop" "web" "Running" [];
   sample_pod "kube-system" "dns" "Failed" []; sample_pod "shop" "run-1" "Failed" [job_owner];
   sample_pod "shop" "db-0" "Failed" [JObj [("kind", JStr "StatefulSet"); ("name", JStr "db")]]].
(** A cluster that never changes what it answers. *)
Definition sample_cluster : Cluster unit := {|
  cl_List := λ _ g _, inr (if decide (g = GVRPod) then sample_pods else []);
  cl_Get := λ _ _ _ _, inl "not found";
  cl_Delete := λ s _ _ _, (s, None);
  cl_Patch := λ s _ _ _ _ _, (s, None);
|}.
Definition no_certs : Certs := {| pem_Decode := λ _, None; cert_NotAfter := λ _, None |}.

Example sample_fixers :
  acted <$> (@run _ _ sample_cluster
    (RunFixers (@OSSFixers (fix_protects "" extraInit) no_certs true (FromUnix 0)) true) tt []).2
  = [["Pod/shop/debug"; "Pod/shop/run-1"]; []; []; []; []].
Proof. vm_compute. reflexivity. Qed.

