(* ===== verification/TLSAnalyzer.v ===== *)
(** * Stale TLS secrets: internal/diagnose/tls_secret_mismatch.go

    The analyzer reports an Ingress that serves a stale certificate while
    cert-manager renews one for the same host elsewhere; the fixer of the
    same name (Fixers.v) repoints it.  The Go packages hold two copies of
    the search; that they find the same is proved here. *)

From stdpp Require Import options.
From S2P Require Import Prelude GoString GoTime GoJson GoNum GoFmt Unstructured Types Protected Cluster Fixers.
Local Open Scope Z_scope.

(** ** The analyzer *)

Section analyzer.
Context `{!Certs}.

Definition tlsHosts (tm : json) : list string :=
  omap (λ r, match r with JStr h => if h ≠s? "" then Some (ToLower h) else None | _ => None end) (NestedSlice tm ["hosts"]).
Definition base64Decode (s : string) : option string := b64_std_decode (TrimSpace s).
Definition pem_or_base64 (raw : string) : option Time :=
  let pemBytes := match pem_Decode raw with Some _ => Some raw | None => base64Decode raw end in
  match pemBytes with
  | None => None
  | Some pemBytes => match pem_Decode pemBytes with None => None | Some block => cert_NotAfter block end
  end.
Definition secretCertExpiry (ns name : string) : prog (option Time) :=
  sec ← doGet GVRSecret ns name;
  match sec with
  | inl _ => mret None
  | inr sec =>
      let raw := NestedString sec ["data"; "tls.crt"] in
      if raw =s? "" then mret None else mret (pem_or_base64 raw)
  end.
Fixpoint is_ready (conds : list json) : bool :=
  match conds with
  | [] => false
  | cm :: conds => if (NestedString cm ["type"] =s? "Ready") && (NestedString cm ["status"] =s? "True") then true else is_ready conds
  end.
Definition certificateIsReady (cert : json) : bool := is_ready (NestedSlice cert ["status"; "conditions"]).
Fixpoint find_managed (hostSet : gset string) (currentSecret : string) (certs : list json) : string :=
  match certs with
  | [] => ""
  | cert :: certs =>
      let target := NestedString cert ["spec"; "secretName"] in
      if (target =s? "") || (target =s? currentSecret) then find_managed hostSet currentSecret certs
      else if negb (certificateIsReady cert) then find_managed hostSet currentSecret certs
      else if existsb (λ n, bool_decide (ToLower n ∈ hostSet)) (NestedStringSlice cert ["spec"; "dnsNames"]) then target
      else find_managed hostSet currentSecret certs
  end.
Definition findMismatchedManagedCert (ns : string) (hosts : list string) (currentSecret : string) : prog string :=
  certs ← doList GVRCertificate ns;
  match certs with
  | inl _ => mret ""
  | inr certs => mret (find_managed (list_to_set hosts) currentSecret certs)
  end.

(** A report: where, whether it has expired, which Secret and which instead. *)
Record Mismatch := mkMismatch {
  mm_ingress : json;
  mm_idx : nat;
  mm_secret : string;
  mm_hosts : list string;
  mm_expired : bool;
  mm_better : string;
}.
Definition q1 (s : string) : string := String quote (s +:+ String quote "").
Definition backslash_nl : string := String (chr 92) nl.
Definition mismatch_diagnostic (m : Mismatch) : Diagnostic :=
  let ns := GetNamespace (mm_ingress m) in
  let ingName := GetName (mm_ingress m) in
  let idx := Itoa (Z.of_nat (mm_idx m)) in
  let state := if mm_expired m then "expired" else "expiring within window" in
  mkDiagnostic ("tls-secret-mismatch/" +:+ ns +:+ "/" +:+ ingName +:+ "/" +:+ idx)
    ("Ingress `" +:+ ns +:+ "/" +:+ ingName +:+ "` host(s) *" +:+ Join (mm_hosts m) ", " +:+ "* serve " +:+ state +:+
     " cert from Secret `" +:+ mm_secret m +:+
     "` while cert-manager is renewing a healthy cert for the same host into Secret `" +:+ mm_better m +:+
     "` in the same namespace. Wires crossed — Kong is serving the wrong Secret.")
    ("Patch the Ingress to point at the cert-manager-managed Secret:" +:+ nl +:+
     "  kubectl -n " +:+ ns +:+ " patch ingress " +:+ ingName +:+ " --type=json " +:+ backslash_nl +:+
     "    -p '[{" +:+ q1 "op" +:+ ":" +:+ q1 "replace" +:+ "," +:+ q1 "path" +:+ ":" +:+ q1 ("/spec/tls/" +:+ idx +:+ "/secretName") +:+ "," +:+
     q1 "value" +:+ ":" +:+ q1 (mm_better m) +:+ "}]'" +:+ nl +:+
     "Then delete the stale Secret `" +:+ mm_secret m +:+ "` (after confirming nothing else references it)." +:+ nl +:+
     "If the Ingress is GitOps-managed, apply the change in the source repo instead.")
    "" "TLSSecretMismatch" "" "" "" "" "" "".
Definition check_entry (now : Time) (window : Duration) (ing : json) (out : list Diagnostic) (entry : nat * json) : prog (list Diagnostic) :=
  let '(tlsIdx, tm) := entry in
  let ns := GetNamespace ing in
  let secretName := NestedString tm ["secretName"] in
  if secretName =s? "" then mret out else
  let hosts := tlsHosts tm in
  if (length hosts =? 0)%nat then mret out else
  expiry ← secretCertExpiry ns secretName;
  match expiry with
  | None => mret out
  | Some expiry =>
      let expired := negb (IsZero expiry) && After now expiry in
      let expiringSoon := negb (IsZero expiry) && negb expired && (Sub expiry now <? window) in
      if negb expired && negb expiringSoon then mret out else
      better ← findMismatchedManagedCert ns hosts secretName;
      if better =s? "" then mret out
      else mret (out ++ [mismatch_diagnostic (mkMismatch ing tlsIdx secretName hosts expired better)])
  end.
Definition check_ingress (now : Time) (window : Duration) (out : list Diagnostic) (ing : json) : prog (list Diagnostic) :=
  forM (imap pair (NestedSlice ing ["spec"; "tls"])) (check_entry now window ing) out.
Definition TLSSecretMismatch_Run (ExpiryWindow : Duration) (now : Time) : prog (list Diagnostic) :=
  let window := if ExpiryWindow =? 0 then 14 * 24 * Hour else ExpiryWindow in
  ingresses ← doList GVRIngress "";
  match ingresses with
  | inl _ => mret []
  | inr ingresses => forM ingresses (check_ingress now window) []
  end.
End analyzer.

(** ** What there is to find

    The reference: the stale entries of one state of the cluster, each with
    the Secret to serve instead. *)

Section reference.
Context {S : Type} `{!Cluster S} `{!Certs}.
Variables (now : Time) (window : Duration) (s : S).

Definition expiry_at (ns name : string) : option Time :=
  match cl_Get s GVRSecret ns name with
  | inl _ => None
  | inr sec => let raw := NestedString sec ["data"; "tls.crt"] in if raw =s? "" then None else cert_expiry_of raw
  end.
Definition better_at (ns : string) (hosts : list string) (cur : string) : string :=
  match cl_List s GVRCertificate ns with
  | inl _ => ""
  | inr certs => default "" ((λ c, NestedString c ["spec"; "secretName"]) <$> head (List.filter (cert_matches hosts cur) certs))
  end.
Definition mismatch_at (ing : json) (entry : nat * json) : option Mismatch :=
  let '(idx, tm) := entry in
  let ns := GetNamespace ing in
  let cur := NestedString tm ["secretName"] in
  let hosts := tlsHostsFix tm in
  if (cur =s? "") || (length hosts =? 0)%nat then None else
  expiry ← expiry_at ns cur;
  let better := better_at ns hosts cur in
  if negb (is_stale now window expiry) || (better =s? "") then None
  else Some (mkMismatch ing idx cur hosts (negb (IsZero expiry) && After now expiry) better).
Definition mismatches_of (ing : json) : list Mismatch := omap (mismatch_at ing) (imap pair (NestedSlice ing ["spec"; "tls"])).
Definition mismatches : list Mismatch :=
  match cl_List s GVRIngress "" with inl _ => [] | inr ings => ings ≫= mismatches_of end.

(** *** The two copies of the search agree *)

Lemma tlsHosts_agree tm : tlsHosts tm = tlsHostsFix tm.
Proof.
  apply list_omap_ext, Forall_Forall2_diag, Forall_true. intros []; try done. by case_bool_decide.
Qed.
Lemma pem_agree raw : pem_or_base64 raw = cert_expiry_of raw.
Proof.
  unfold pem_or_base64, cert_expiry_of, base64Decode. destruct (pem_Decode raw) eqn:E; [by rewrite E|].
  destruct (b64_std_decode _) as [p|]; [|done]. cbn. by destruct (pem_Decode p).
Qed.
Lemma ready_agree cert : certificateIsReady cert = certReadyFix cert.
Proof.
  unfold certificateIsReady, certReadyFix. induction (NestedSlice cert _) as [|c l IH]; [done|]. cbn [is_ready existsb].
  by destruct (_ && _).
Qed.
Lemma find_agree hosts cur certs : find_managed (list_to_set hosts) cur certs =
  default "" ((λ c, NestedString c ["spec"; "secretName"]) <$> head (List.filter (cert_matches hosts cur) certs)).
Proof.
  induction certs as [|c certs IH]; [done|]. cbn [find_managed List.filter]. rewrite ready_agree.
  replace (cert_matches hosts cur c) with (negb ((NestedString c ["spec"; "secretName"] =s? "") || (NestedString c ["spec"; "secretName"] =s? cur))
    && certReadyFix c && existsb (λ n, bool_decide (ToLower n ∈@{gset string} list_to_set hosts)) (NestedStringSlice c ["spec"; "dnsNames"])).
  - destruct (_ || _); [exact IH|]. destruct (certReadyFix c); [|exact IH]. cbn [negb andb]. by destruct (existsb _ _).
  - unfold cert_matches. rewrite negb_orb. f_equal. induction (NestedStringSlice c _) as [|n l IHl]; [done|]. cbn [existsb].
    rewrite IHl. f_equal. apply bool_decide_ext. set_solver.
Qed.

(** *** What the parts of the routines return *)

Lemma secretCertExpiry_yields ns name : yields GVRIngress (secretCertExpiry ns name) s (expiry_at ns name).
Proof.
  apply yields_get; [done|]. unfold expiry_at. destruct (cl_Get _ _ _ _); [apply yields_ret|]. rewrite <-pem_agree. destruct (_ =s? _); apply yields_ret.
Qed.
Lemma secretCertExpiryFix_yields ns name : yields GVRIngress (secretCertExpiryFix ns name) s (expiry_at ns name).
Proof. apply yields_get; [done|]. unfold expiry_at. destruct (cl_Get _ _ _ _); [apply yields_ret|]. destruct (_ =s? _); apply yields_ret. Qed.
Lemma findMismatchedManagedCert_yields ns hosts cur : yields GVRIngress (findMismatchedManagedCert ns hosts cur) s (better_at ns hosts cur).
Proof. apply yields_list; [done|]. unfold better_at. destruct (cl_List _ _ _); [|rewrite <-find_agree]; apply yields_ret. Qed.
Lemma findMismatchedCertFix_yields ns hosts cur : yields GVRIngress (findMismatchedCertFix ns hosts cur) s (better_at ns hosts cur).
Proof.
  apply yields_list; [done|]. unfold better_at. destruct (cl_List _ _ _) as [|certs]; [apply yields_ret|].
  destruct (List.filter _ certs); apply yields_ret.
Qed.
Lemma is_stale_split expiry : is_stale now window expiry = false ↔
  negb (negb (IsZero expiry) && After now expiry) && negb (negb (IsZero expiry) && negb (negb (IsZero expiry) && After now expiry) && (Sub expiry now <? window)) = true.
Proof. unfold is_stale. cbv zeta. by rewrite andb_true_iff, !negb_true_iff, orb_false_iff. Qed.

Lemma yields_keep {X} (out : list X) : yields GVRIngress (mret out) s (out ++ []).
Proof. rewrite app_nil_r. apply yields_ret. Qed.
Lemma check_entry_yields ing entry out :
  yields GVRIngress (check_entry now window ing out entry) s (out ++ (mismatch_diagnostic <$> option_list (mismatch_at ing entry))).
Proof.
  destruct entry as [idx tm]. unfold check_entry, mismatch_at. rewrite tlsHosts_agree.
  destruct (_ =s? _); [apply yields_keep|]. cbn [orb]. destruct (_ =? _)%nat; [apply yields_keep|].
  eapply yields_bind; [apply secretCertExpiry_yields|]. destruct (expiry_at _ _) as [expiry|]; [|apply yields_keep].
  cbn [mbind option_bind]. destruct (is_stale now window expiry) eqn:E; cbn [negb orb].
  - apply not_false_iff_true in E. rewrite is_stale_split, not_true_iff_false in E. rewrite E.
    eapply yields_bind; [apply findMismatchedManagedCert_yields|]. destruct (_ =s? _); [apply yields_keep|apply yields_ret].
  - apply is_stale_split in E. rewrite E. apply yields_keep.
Qed.
Lemma fmap_list_bind {X Y Z} (f : X → list Y) (g : Y → Z) l : g <$> (l ≫= f) = l ≫= λ x, g <$> f x.
Proof. induction l as [|x l IH]; [done|]. cbn [mbind list_bind]. by rewrite fmap_app, IH. Qed.
Lemma foldl_append {X Y} (f : X → list Y) l out : foldl (λ out x, out ++ f x) out l = out ++ (l ≫= f).
Proof. revert out. induction l as [|x l IH]; intros out; [by rewrite app_nil_r|]. cbn. by rewrite IH, <-app_assoc. Qed.
Lemma bind_option_list {X Y Z} (f : X → option Y) (g : Y → Z) l : (l ≫= λ x, g <$> option_list (f x)) = g <$> omap f l.
Proof. induction l as [|x l IH]; [done|]. cbn. destruct (f x); cbn; by rewrite <-IH. Qed.
Lemma check_ingress_yields ing out : yields GVRIngress (check_ingress now window out ing) s (out ++ (mismatch_diagnostic <$> mismatches_of ing)).
Proof.
  unfold mismatches_of. rewrite <-bind_option_list, <-foldl_append. apply yields_forM. intros out' entry. apply check_entry_yields.
Qed.

(** *** And the fixer *)

Context `{!Patches GVRIngress} (IsProtectedNamespace : string → bool).

Definition repointed (m : Mismatch) : Action :=
  let ingObj := "Ingress/" +:+ GetNamespace (mm_ingress m) +:+ "/" +:+ GetName (mm_ingress m) in
  mkAction ("Repointed `" +:+ ingObj +:+ "` tls[" +:+ Itoa (Z.of_nat (mm_idx m)) +:+ "] from Secret `" +:+
    mm_secret m +:+ "` (stale) → `" +:+ mm_better m +:+ "` (cert-manager-managed, healthy)") ingObj.
Definition left_alone (ing : json) : list SkipReason :=
  let ingObj := "Ingress/" +:+ GetNamespace ing +:+ "/" +:+ GetName ing in
  if IsProtectedNamespace (GetNamespace ing) then [mkSkipReason ingObj "protected namespace"]
  else if GitOpsReason ing ≠s? "" then
    [mkSkipReason ingObj ("GitOps-managed: " +:+ GitOpsReason ing +:+ " — edit the source repo instead")]
  else [].
Definition extend (r : FixResult) (acts : list Action) (skips : list SkipReason) : FixResult :=
  mkFixResult (Fixer r) (Actions r ++ acts) (Skipped r ++ skips) (Refused r).
Lemma extend_nil r : extend r [] [] = r.
Proof. destruct r. unfold extend. cbn. by rewrite !app_nil_r. Qed.
Lemma foldl_extend {X} (f : X → list Action) (g : X → list SkipReason) l r :
  foldl (λ r x, extend r (f x) (g x)) r l = extend r (l ≫= f) (l ≫= g).
Proof.
  revert r. induction l as [|x l IH]; intros r; [by rewrite extend_nil|]. cbn. rewrite IH. unfold extend. cbn.
  by rewrite !app_assoc.
Qed.
Lemma yields_unchanged r : yields GVRIngress (mret r) s (extend r [] []).
Proof. rewrite extend_nil. apply yields_ret. Qed.
Lemma repoint_tls_yields ing entry r :
  yields GVRIngress (repoint_tls now window (GetNamespace ing) (GetName ing) ("Ingress/" +:+ GetNamespace ing +:+ "/" +:+ GetName ing) r entry) s
    (extend r (repointed <$> option_list (mismatch_at ing entry)) []).
Proof using All.
  destruct entry as [idx tm]. unfold repoint_tls, mismatch_at.
  destruct (_ =s? _); [apply yields_unchanged|]. cbn [orb]. destruct (_ =? _)%nat; [apply yields_unchanged|].
  eapply yields_bind; [apply secretCertExpiryFix_yields|]. unfold repoint_expiring. destruct (expiry_at _ _) as [expiry|]; [|apply yields_unchanged].
  cbn [mbind option_bind]. destruct (is_stale now window expiry); cbn [negb orb]; [|apply yields_unchanged].
  eapply yields_bind; [apply findMismatchedCertFix_yields|]. destruct (_ =s? _); [apply yields_unchanged|].
  apply yields_patch; [assumption|]. unfold extend. rewrite app_nil_r. apply yields_ret.
Qed.
Lemma foldl_extend_actions {X} (f : X → list Action) l r : foldl (λ r x, extend r (f x) []) r l = extend r (l ≫= f) [].
Proof. rewrite (foldl_extend f (λ _, [])). f_equal. by induction l. Qed.
Lemma repoint_ingress_yields ing r : yields GVRIngress (repoint_ingress IsProtectedNamespace now window r ing) s
  (extend r (if bool_decide (left_alone ing = []) then repointed <$> mismatches_of ing else []) (left_alone ing)).
Proof using All.
  unfold repoint_ingress, left_alone. destruct (IsProtectedNamespace _); [unfold extend; rewrite app_nil_r; apply yields_ret|].
  destruct (_ ≠s? _); [unfold extend; rewrite app_nil_r; apply yields_ret|]. rewrite (bool_decide_eq_true_2 ([] = [])) by done.
  unfold mismatches_of. rewrite <-bind_option_list, <-foldl_extend_actions.
  apply yields_forM. intros r' entry. apply repoint_tls_yields.
Qed.
Lemma filter_mismatches P ing : List.filter (λ m, P (mm_ingress m)) (mismatches_of ing) = if P ing then mismatches_of ing else [].
Proof.
  unfold mismatches_of. induction (imap _ _) as [|[idx tm] l IH]; [by destruct (P ing)|].
  cbn [omap list_omap]. destruct (mismatch_at ing (idx, tm)) as [m|] eqn:E; [|exact IH].
  assert (mm_ingress m = ing) as Hm.
  { unfold mismatch_at in E. destruct (_ || _); [discriminate|]. destruct (expiry_at _ _); [|discriminate].
    cbn in E. destruct (_ || _); [discriminate|]. by injection E as <-. }
  cbn [List.filter]. rewrite Hm, IH. by destruct (P ing).
Qed.
Lemma filter_all P ings : List.filter (λ m, P (mm_ingress m)) (ings ≫= mismatches_of) =
  ings ≫= λ ing, if P ing then mismatches_of ing else [].
Proof.
  induction ings as [|ing ings IH]; [done|]. cbn [mbind list_bind]. rewrite List.filter_app, filter_mismatches. by f_equal.
Qed.
End reference.

Definition effective_window (w : Duration) : Duration := if w =? 0 then 14 * 24 * Hour else w.


(** ** A concrete cluster *)

(** One Ingress, in a state of the Secret it serves, and one left alone; two
    ready Certificates for the host, and the days all Secrets have left. *)
Definition sample_ingress (ns secret : string) : json :=
  JObj [("metadata", JObj [("name", JStr "web"); ("namespace", JStr ns)]);
        ("spec", JObj [("tls", JArr [JObj [("hosts", JArr [JStr "Shop.example.com"]); ("secretName", JStr secret)]])])].
Definition sample_certificate (secret : string) : json :=
  JObj [("spec", JObj [("secretName", JStr secret); ("dnsNames", JArr [JStr "shop.example.com"])]);
        ("status", JObj [("conditions", JArr [JObj [("type", JStr "Ready"); ("status", JStr "True")]])])].
Definition tls_cluster : Cluster string := {|
  cl_List := λ s g _, inr (match g with
    | GVRIngress => [sample_ingress "shop" s; sample_ingress "kube-system" s]
    | GVRCertificate => [sample_certificate "a-tls"; sample_certificate "b-tls"] | _ => [] end);
  cl_Get := λ _ _ _ name, inr (JObj [("data", JObj [("tls.crt", JStr name)])]);
  cl_Delete := λ s _ _ _, (s, None);
  cl_Patch := λ s _ _ _ _ body, (if body =s? repoint_patch 0 "a-tls" then "a-tls" else "b-tls", None);
|}.
Definition tls_certs : Certs := {|
  pem_Decode := λ raw, Some raw;
  cert_NotAfter := λ raw, Some (FromUnix (if raw =s? "a-tls" then 10 * 86400 else if raw =s? "b-tls" then 3600 else 13 * 86400));
|}.
#[local] Instance tls_patches : @Patches string tls_cluster GVRIngress.
Proof. intros s ns n pt b. split; [done|]. intros g Hg. by destruct g. Qed.

Example sample_found : (λ m, (mm_secret m, mm_expired m, mm_better m)) <$>
  @mismatches _ tls_cluster tls_certs (FromUnix 0) (effective_window 0) "hand" = [("hand", false, "a-tls"); ("hand", false, "a-tls")].
Proof. vm_compute. reflexivity. Qed.
(** The Secret to serve instead is not itself looked at.  Of two that are
    both due within the window - the usual thing with short-lived
    certificates - the fixer takes the one that expires first as well, and
    it switches between the two in every cycle. *)
Example repointed_back_and_forth :
  let cycle s := (@run _ _ tls_cluster (@TLSSecretMismatch (fix_protects "" extraInit) tls_certs 0 (FromUnix 0) true) s []).1.1 in
  (cycle "hand", cycle "a-tls", cycle "b-tls") = ("a-tls", "b-tls", "a-tls").
Proof. vm_compute. reflexivity. Qed.
