(* ===== verification/Watcher.v ===== *)
(** * The watcher's cycle: internal/watcher

    [watcher.go] and [enrich.go]: the map of seen findings, what a cycle
    posts, resolves and remembers, the rate-limited cloud probes, the state
    restored after a restart, and the approval links.  The probes, analyzers
    and fixers are inputs of a cycle.  Maps of entries stand for the slices
    Go builds by ranging over a map. *)

From stdpp Require Import options.
From S2P Require Import Prelude GoString GoTime GoJson GoNum GoClock Sha256 Types Ai Token Silence Unstructured DriftReport.
Local Open Scope Z_scope.

(** ** Entries *)

Record seenEntry := mkSeenEntry {
  se_fp : string;
  se_lastPosted : Time;
  se_firstSeen : Time;
  se_subject : string;
  se_severity : string;
  se_message : string;
  se_remediation : string;
  se_source : string;
  se_silenceSubjectURL : string;
  se_silenceClassLongURL : string;
  se_silenceShortDur : Duration;
  se_silenceLongDur : Duration;
  se_investigation : string;
  se_enrichment : string;
  se_proposedActionID : string;
  se_approvalURL : string;
  se_isNewThisCycle : bool;
}.
(** The assignments to one field. *)
Definition set_lastPosted (t : Time) (e : seenEntry) : seenEntry :=
  mkSeenEntry (se_fp e) t (se_firstSeen e) (se_subject e) (se_severity e) (se_message e) (se_remediation e)
    (se_source e) (se_silenceSubjectURL e) (se_silenceClassLongURL e) (se_silenceShortDur e)
    (se_silenceLongDur e) (se_investigation e) (se_enrichment e) (se_proposedActionID e) (se_approvalURL e)
    (se_isNewThisCycle e).
Definition set_firstSeen (t : Time) (e : seenEntry) : seenEntry :=
  mkSeenEntry (se_fp e) (se_lastPosted e) t (se_subject e) (se_severity e) (se_message e) (se_remediation e)
    (se_source e) (se_silenceSubjectURL e) (se_silenceClassLongURL e) (se_silenceShortDur e)
    (se_silenceLongDur e) (se_investigation e) (se_enrichment e) (se_proposedActionID e) (se_approvalURL e)
    (se_isNewThisCycle e).
Definition set_isNew (b : bool) (e : seenEntry) : seenEntry :=
  mkSeenEntry (se_fp e) (se_lastPosted e) (se_firstSeen e) (se_subject e) (se_severity e) (se_message e)
    (se_remediation e) (se_source e) (se_silenceSubjectURL e) (se_silenceClassLongURL e) (se_silenceShortDur e)
    (se_silenceLongDur e) (se_investigation e) (se_enrichment e) (se_proposedActionID e) (se_approvalURL e) b.
Definition set_approvalURL (u : string) (e : seenEntry) : seenEntry :=
  mkSeenEntry (se_fp e) (se_lastPosted e) (se_firstSeen e) (se_subject e) (se_severity e) (se_message e)
    (se_remediation e) (se_source e) (se_silenceSubjectURL e) (se_silenceClassLongURL e) (se_silenceShortDur e)
    (se_silenceLongDur e) (se_investigation e) (se_enrichment e) (se_proposedActionID e) u (se_isNewThisCycle e).
Definition set_silenceLinks (subj class : string) (short long : Duration) (e : seenEntry) : seenEntry :=
  mkSeenEntry (se_fp e) (se_lastPosted e) (se_firstSeen e) (se_subject e) (se_severity e) (se_message e)
    (se_remediation e) (se_source e) subj class short long (se_investigation e) (se_enrichment e)
    (se_proposedActionID e) (se_approvalURL e) (se_isNewThisCycle e).

Definition fingerprint (subject severity message : string) : string :=
  hex_encode (stake 8 (Sum256 (subject +:+ "|" +:+ severity +:+ "|" +:+ message))).

Definition finding_entry (r : ProbeResult) (f : Finding) : seenEntry :=
  let sev := f_Severity f in
  let subject := "Probe/" +:+ cr_Component (pr_Component r) +:+ "/" +:+ f_Component f in
  mkSeenEntry (fingerprint subject sev (f_Message f)) zeroTime zeroTime subject sev (f_Message f)
    (f_Remediation f) (cr_Component (pr_Component r)) "" "" 0 0 (f_Investigation f) "" "" "" false.
Definition diagnostic_seen (d : Diagnostic) : seenEntry :=
  let sev := if d_Severity d =s? "" then "warning" else d_Severity d in
  mkSeenEntry (fingerprint (d_Subject d) sev (d_Message d)) zeroTime zeroTime (d_Subject d) sev (d_Message d)
    (d_Remediation d) (d_Source d) "" "" 0 0 (d_Investigation d) (d_Enrichment d) (d_ProposedActionID d) "" false.
Definition buildCurrentState (results : list ProbeResult) (diags : list Diagnostic) : gmap string seenEntry :=
  let m := foldl (λ m r, foldl (λ m f, let e := finding_entry r f in <[se_subject e := e]> m) m (pr_Findings r))
             ∅ results in
  foldl (λ m d, <[d_Subject d := diagnostic_seen d]> m) m diags.

(** ** slack_delta.go's DeltaDiag *)

Record DeltaDiag := mkDeltaDiag {
  dd_Subject : string;
  dd_Severity : string;
  dd_Message : string;
  dd_Remediation : string;
  dd_Source : string;
  dd_IsNewThisCycle : bool;
  dd_Investigation : string;
  dd_Enrichment : string;
  dd_ProposedActionID : string;
  dd_ApprovalURL : string;
  dd_SilenceSubjectURL : string;
  dd_SilenceClassLongURL : string;
  dd_SilenceShortDur : Duration;
  dd_SilenceLongDur : Duration;
  dd_ApproveClassURL : string;
  dd_DenyClassURL : string;
  dd_SilenceClassURL : string;
}.
Definition seenEntryToDeltaDiag (e : seenEntry) : DeltaDiag :=
  mkDeltaDiag (se_subject e) (NormalizeSeverity (se_severity e) (se_source e)) (se_message e)
    (se_remediation e) (se_source e) (se_isNewThisCycle e) (se_investigation e) (se_enrichment e)
    (se_proposedActionID e) (se_approvalURL e) (se_silenceSubjectURL e) (se_silenceClassLongURL e)
    (se_silenceShortDur e) (se_silenceLongDur e) "" "" "".

(** ** Configuration and state *)

Record SilenceLinkConfig := mkSilenceLinkConfig {
  slc_PrivateKey : string;
  slc_KeyID : string;
  slc_BaseURL : string;
  slc_ShortDur : Duration;
  slc_LongDur : Duration;
}.
Definition DefaultSilenceShortDuration : Duration := 24 * Hour.
Definition DefaultSilenceLongDuration : Duration := 2160 * Hour.
Definition Enabled (c : SilenceLinkConfig) : bool :=
  (len (slc_PrivateKey c) =? 64)%nat && (slc_BaseURL c ≠s? "").

Record Config := mkConfig {
  RepeatInterval : Duration;
  CriticalRepeatInterval : Duration;
  PostOnResolved : bool;
  ApprovalDwellDuration : Duration;
  SilenceLinkCfg : SilenceLinkConfig;
  CloudSource : bool;
  CloudCadence : Duration;
}.
Record pendingURL := mkPendingURL { pu_url : string; pu_recordedAt : Time }.
Record Watcher := mkWatcher {
  w_seen : gmap string seenEntry;
  w_pendingURLs : gmap string pendingURL;
  w_lastCloudRun : Time;
}.

(** ** diff and updateSeen *)

Definition repeatIntervalFor (cfg : Config) (severity : string) : Duration :=
  if (severity =s? "critical") && (0 <? CriticalRepeatInterval cfg) then CriticalRepeatInterval cfg
  else RepeatInterval cfg.

(** Whether one entry of the current state is posted, and as new. *)
Inductive Due := PostNew | PostAgain | Quiet.
Definition due (cfg : Config) (now : Time) (existing : option seenEntry) (entry : seenEntry) : Due :=
  match existing with
  | None => PostNew
  | Some existing =>
      if se_fp existing ≠s? se_fp entry then PostNew
      else
        let interval := repeatIntervalFor cfg (se_severity entry) in
        if (0 <? interval) && (interval <=? Sub now (se_lastPosted existing)) then PostAgain else Quiet
  end.
(** The entry after the loop, which marks what it posts. *)
Definition mark (d : Due) (e : seenEntry) : seenEntry :=
  match d with PostNew => set_isNew true e | PostAgain => set_isNew false e | Quiet => e end.
Definition posts (d : Due) : bool := match d with Quiet => false | _ => true end.

(** The marked current state, what to post and what to resolve. *)
Definition diff (cfg : Config) (now : Time) (seen current : gmap string seenEntry)
    : gmap string seenEntry * gmap string seenEntry * gmap string seenEntry :=
  let verdict k e := due cfg now (seen !! k) e in
  let current' := map_imap (λ k e, Some (mark (verdict k e) e)) current in
  let toPost := map_imap (λ k e, if posts (verdict k e) then Some (mark (verdict k e) e) else None) current in
  let toResolve := if PostOnResolved cfg then filter (λ kv, current !! kv.1 = None) seen else ∅ in
  (current', toPost, toResolve).

(** Subjects seen before and not in the state diffed against. *)
Definition clearedSubjects (seen diffState : gmap string seenEntry) : gset string := dom seen ∖ dom diffState.

Definition updateSeen (now : Time) (seen current posted : gmap string seenEntry) : gmap string seenEntry :=
  let postedSet : gset string := list_to_set (se_subject ∘ snd <$> map_to_list posted) in
  map_imap (λ subject entry,
    Some (if bool_decide (subject ∈ postedSet) then set_lastPosted now entry
          else match seen !! subject with
               | Some existing => set_lastPosted (se_lastPosted existing) entry
               | None => entry
               end)) current.

(** ** Links *)

Definition pendingURLTTL : Duration := 24 * Hour.
Definition recordApprovalURL (now : Time) (pending : gmap string pendingURL) (actionID url : string)
    : gmap string pendingURL :=
  <[actionID := mkPendingURL url now]>
    (filter (λ kv, Sub now (pu_recordedAt kv.2) ≤ pendingURLTTL) pending).
Definition approvalURLFor (now : Time) (pending : gmap string pendingURL) (actionID : string)
    : string * gmap string pendingURL :=
  match pending !! actionID with
  | None => ("", pending)
  | Some e =>
      if pendingURLTTL <? Sub now (pu_recordedAt e) then ("", delete actionID pending) else (pu_url e, pending)
  end.

Definition firstSeenFor (seen : gmap string seenEntry) (subject : string) : Time :=
  match seen !! subject with Some e => se_firstSeen e | None => zeroTime end.

Section links.
Context `{Ed25519, SilenceUrlApi}.

Definition attachSilenceLinks (cfg : SilenceLinkConfig) (now : Time) (e : seenEntry) : seenEntry :=
  if negb (Enabled cfg) then e else
  let short := if slc_ShortDur cfg <=? 0 then DefaultSilenceShortDuration else slc_ShortDur cfg in
  let long := if slc_LongDur cfg <=? 0 then DefaultSilenceLongDuration else slc_LongDur cfg in
  let kid := if slc_KeyID cfg =s? "" then "default-1" else slc_KeyID cfg in
  let source := if se_source e =s? "" then se_subject e else se_source e in
  match MintSilenceLinks (slc_PrivateKey cfg) kid (slc_BaseURL cfg)
          (mkSilenceLinkRequest source (se_subject e) "" short long) now with
  | inl _ => e
  | inr links => set_silenceLinks (SubjectURL links) (ClassURL links) short long e
  end.

(** One entry of [attachApprovalURLs]; looking a link up may drop it. *)
Definition attach_entry (cfg : Config) (now : Time) (seen : gmap string seenEntry)
    (pending : gmap string pendingURL) (e : seenEntry) : seenEntry * gmap string pendingURL :=
  let prev := firstSeenFor seen (se_subject e) in
  let e := set_firstSeen (if negb (IsZero prev) then prev else now) e in
  let '(e, pending) :=
    if se_proposedActionID e ≠s? "" then
      if (ApprovalDwellDuration cfg <=? 0) || (ApprovalDwellDuration cfg <=? Sub now (se_firstSeen e)) then
        let '(url, pending) := approvalURLFor now pending (se_proposedActionID e) in
        (if url ≠s? "" then set_approvalURL url e else e, pending)
      else (e, pending)
    else (e, pending) in
  (attachSilenceLinks (SilenceLinkCfg cfg) now e, pending).
Definition attach_step (cfg : Config) (now : Time) (seen : gmap string seenEntry)
    (st : gmap string seenEntry * gmap string pendingURL) (kv : string * seenEntry)
    : gmap string seenEntry * gmap string pendingURL :=
  let '(e, pending) := attach_entry cfg now seen st.2 kv.2 in (<[kv.1 := e]> st.1, pending).
(** [range state] in some order; an entry's outcome does not depend on it. *)
Definition attachApprovalURLs `{MapRange} (cfg : Config) (now : Time) (seen : gmap string seenEntry)
    (st : gmap string seenEntry * gmap string pendingURL) : gmap string seenEntry * gmap string pendingURL :=
  foldl (attach_step cfg now seen) st (range st.1).
End links.

(** ** One cycle *)

(** [runDiagnose]'s silence filter, from the raw results; [None] is a failed
    list, on which nothing is filtered. *)
Definition finding_diagnostic (r : ProbeResult) (f : Finding) : Diagnostic :=
  mkDiagnostic ("Probe/" +:+ cr_Component (pr_Component r) +:+ "/" +:+ f_Component f) (f_Message f) ""
    (f_Severity f) (cr_Component (pr_Component r)) "" "" "" "" "" "".
Definition silence_findings (sil : list Silence) (now : Time) (r : ProbeResult) : ProbeResult :=
  mkProbeResult (pr_Component r)
    (List.filter (λ f, negb (MatchesAny sil (finding_diagnostic r f) now)) (pr_Findings r)).
Definition runDiagnose (results : list ProbeResult) (diags : list Diagnostic)
    (silences : option (list Silence)) (now : Time) : list ProbeResult * list Diagnostic :=
  match silences with
  | Some sil => (silence_findings sil now <$> results, Filter diags sil now)
  | None => (results, diags)
  end.

(** [runCloudDiagnose]: the results of the cloud probes, when they are due,
    and the time of the last run. *)
Definition cloudCadence (cfg : Config) : Duration :=
  if CloudCadence cfg <=? 0 then 10 * Minute else CloudCadence cfg.
Definition runCloudDiagnose (cfg : Config) (probes : list ProbeResult) (now done : Time) (last : Time)
    : list ProbeResult * Time :=
  if negb (CloudSource cfg) then ([], last)
  else if (length probes =? 0)%nat then ([], last)
  else if negb (IsZero last) && (Sub now last <? cloudCadence cfg) then ([], last)
  else (probes, done).

Definition hasActions (fixResults : list FixResult) : bool :=
  existsb (λ r, (0 <? length (Actions r))%nat) fixResults.

(** The inputs of a cycle: what the probes and analyzers find before and
    after the fixers, what the cloud probes would find, and the clock. *)
Record CycleInput := mkCycleInput {
  ci_pre : list ProbeResult * list Diagnostic;
  ci_fix : list FixResult;
  ci_post : list ProbeResult * list Diagnostic;
  ci_cloud : list ProbeResult;
  ci_now : Time;
}.
(** What the emitters are given. *)
Record CycleOutput := mkCycleOutput {
  co_toPost : gmap string seenEntry;
  co_toResolve : gmap string seenEntry;
  co_cleared : gset string;
  co_postFix : gmap string seenEntry;
}.

Section cycle.
Context `{Ed25519, SilenceUrlApi, MapRange}.

Definition runCycle (cfg : Config) (w : Watcher) (ci : CycleInput) : Watcher * CycleOutput :=
  let now := ci_now ci in
  let '(cloudResults, lastCloudRun) := runCloudDiagnose cfg (ci_cloud ci) now now (w_lastCloudRun w) in
  let preFix := buildCurrentState ((ci_pre ci).1 ++ cloudResults) (ci_pre ci).2 in
  let postFix := buildCurrentState ((ci_post ci).1 ++ cloudResults) (ci_post ci).2 in
  let '(postFix, pending) := attachApprovalURLs cfg now (w_seen w) (postFix, w_pendingURLs w) in
  let fixed := hasActions (ci_fix ci) in
  let '(preFix, pending) :=
    if fixed then attachApprovalURLs cfg now (w_seen w) (preFix, pending) else (preFix, pending) in
  let diffState := if fixed then preFix else postFix in
  let '(marked, toPost, toResolve) := diff cfg now (w_seen w) diffState in
  let cleared := clearedSubjects (w_seen w) diffState in
  let postFix := if fixed then postFix else marked in
  (mkWatcher (updateSeen now (w_seen w) postFix toPost) pending lastCloudRun,
   mkCycleOutput toPost toResolve cleared postFix).

(** [Run]: the cycles one after the other. *)
Fixpoint runCycles (cfg : Config) (w : Watcher) (cis : list CycleInput) : Watcher * list CycleOutput :=
  match cis with
  | [] => (w, [])
  | ci :: cis =>
      let '(w, out) := runCycle cfg w ci in
      let '(w, outs) := runCycles cfg w cis in (w, out :: outs)
  end.
End cycle.

(** ** After a restart *)

Definition parsed_time (s : string) : Time := if s =s? "" then zeroTime else default zeroTime (ParseRFC3339 s).
(** The entry restored from a DriftReport. *)
Definition seen_of_report (cr : json) : option (string * seenEntry) :=
  match jmember "spec" cr with
  | Some (JObj _) =>
      let subject := NestedString cr ["spec"; "subject"] in
      let severity := NestedString cr ["spec"; "severity"] in
      let message := NestedString cr ["spec"; "message"] in
      if subject =s? "" then None else
      let lastPosted := parsed_time (NestedString cr ["status"; "lastObserved"]) in
      let created := parsed_time (NestedString cr ["metadata"; "creationTimestamp"]) in
      let firstSeen := if IsZero created then lastPosted else created in
      Some (subject, mkSeenEntry (fingerprint subject severity message) lastPosted firstSeen subject severity
        message (NestedString cr ["spec"; "remediation"]) "" "" "" 0 0 "" "" "" "" false)
  | _ => None
  end.
Definition loadSeenFromDriftReports (list : option (list json)) (seen : gmap string seenEntry)
    : gmap string seenEntry :=
  match list with
  | None => seen
  | Some items =>
      foldl (λ seen cr, match seen_of_report cr with Some (k, e) => <[k := e]> seen | None => seen end) seen items
  end.

(** ** The seen map as independent automata *)

(** What the posting rule depends on. *)
Definition core (e : seenEntry) : string * string * string := (se_fp e, se_severity e, se_subject e).

Section attach.
Context `{Ed25519, SilenceUrlApi, MapRange}.

Lemma attachSilenceLinks_core cfg now e :
  core (attachSilenceLinks cfg now e) = core e ∧ se_lastPosted (attachSilenceLinks cfg now e) = se_lastPosted e.
Proof.
  unfold attachSilenceLinks. destruct (negb _); [done|]. by destruct (MintSilenceLinks _ _ _ _ _).
Qed.
Lemma attach_entry_core cfg now seen pending e :
  core (attach_entry cfg now seen pending e).1 = core e ∧
  se_lastPosted (attach_entry cfg now seen pending e).1 = se_lastPosted e.
Proof.
  unfold attach_entry. cbv zeta. set (t := if negb (IsZero _) then _ else _).
  destruct (se_proposedActionID (set_firstSeen t e) ≠s? ""); cbn [fst]; [|exact (attachSilenceLinks_core (SilenceLinkCfg cfg) now (set_firstSeen t e))].
  destruct (_ || _); cbn [fst]; [|exact (attachSilenceLinks_core (SilenceLinkCfg cfg) now (set_firstSeen t e))].
  destruct (approvalURLFor _ _ _) as [url p]. cbn [fst].
  destruct (attachSilenceLinks_core (SilenceLinkCfg cfg) now
    (if url ≠s? "" then set_approvalURL url (set_firstSeen t e) else set_firstSeen t e)) as [-> ->].
  by destruct (url ≠s? "").
Qed.

(** Links change no subject, fingerprint, severity or time of posting. *)
Lemma attach_lookup cfg now seen state pending k :
  (λ e, (core e, se_lastPosted e)) <$> (attachApprovalURLs cfg now seen (state, pending)).1 !! k =
  (λ e, (core e, se_lastPosted e)) <$> state !! k.
Proof.
  unfold attachApprovalURLs. cbn [fst].
  assert (Hr : ∀ kv, kv ∈ range state → state !! kv.1 = Some kv.2) by by intros [] ?%elem_of_range.
  assert (Hg : ∀ l st, (∀ kv, kv ∈ l → state !! kv.1 = Some kv.2) →
    (λ e, (core e, se_lastPosted e)) <$> st.1 !! k = (λ e, (core e, se_lastPosted e)) <$> state !! k →
    (λ e, (core e, se_lastPosted e)) <$>
      (foldl (attach_step cfg now seen) st l).1 !! k
    = (λ e, (core e, se_lastPosted e)) <$> state !! k); [|by apply Hg].
  clear Hr. induction l as [|[k' e] l IH]; intros [m p] Hl Hst; [done|]. cbn [foldl fst snd].
  unfold attach_step at 2. cbn [fst snd].
  pose proof (attach_entry_core cfg now seen p e) as [Hc Hp].
  destruct (attach_entry cfg now seen p e) as [e' p']. cbn [fst] in *. apply IH; [set_solver|]. cbn [fst].
  destruct (decide (k' = k)) as [->|]; [|by rewrite lookup_insert_ne].
  rewrite lookup_insert_eq. assert (state !! k = Some e) as -> by (apply (Hl (k, e)); set_solver). cbn. by rewrite Hc, Hp.
Qed.
Lemma attach_dom cfg now seen state pending k :
  is_Some ((attachApprovalURLs cfg now seen (state, pending)).1 !! k) ↔ is_Some (state !! k).
Proof.
  pose proof (attach_lookup cfg now seen state pending k) as Hl.
  destruct (_ !! k), (state !! k); cbn in Hl; simplify_eq; split; intros []; by eexists.
Qed.
End attach.

(** Every entry is filed under its subject and starts unposted. *)
Definition filed (m : gmap string seenEntry) : Prop :=
  ∀ k e, m !! k = Some e → se_subject e = k ∧ se_lastPosted e = zeroTime.
Lemma filed_insert m e : filed m → se_lastPosted e = zeroTime → filed (<[se_subject e := e]> m).
Proof. intros Hm He k e' [[<- <-]|[_ ?]]%lookup_insert_Some; [done|by apply Hm]. Qed.
Lemma filed_foldl {A} (f : gmap string seenEntry → A → gmap string seenEntry) l m :
  (∀ m x, filed m → filed (f m x)) → filed m → filed (foldl f m l).
Proof. intros Hf. revert m. induction l as [|x l IH]; intros m Hm; [done|]. apply IH, Hf, Hm. Qed.
Lemma build_filed results diags : filed (buildCurrentState results diags).
Proof.
  unfold buildCurrentState. apply filed_foldl.
  - intros m d Hm. by apply (filed_insert m (diagnostic_seen d)).
  - apply filed_foldl; [|intros k e; by rewrite lookup_empty].
    intros m r Hm. apply filed_foldl; [|done]. intros m' f Hm'. by apply filed_insert.
Qed.

(** One subject's history: its fingerprint and when it was last posted. *)
Record Track := mkTrack { t_fp : string; t_lastPosted : Time }.
Definition track_step (cfg : Config) (now : Time) (st : option Track) (obs : option (string * string))
    : option Track * bool :=
  match obs with
  | None => (None, false)
  | Some (fp, sev) =>
      match st with
      | None => (Some (mkTrack fp now), true)
      | Some t =>
          if decide (t_fp t = fp) then
            if decide (0 < repeatIntervalFor cfg sev ∧ repeatIntervalFor cfg sev ≤ Sub now (t_lastPosted t))
            then (Some (mkTrack fp now), true) else (Some t, false)
          else (Some (mkTrack fp now), true)
      end
  end.
Definition track (seen : gmap string seenEntry) (k : string) : option Track :=
  (λ e, mkTrack (se_fp e) (se_lastPosted e)) <$> seen !! k.
Definition observed (state : gmap string seenEntry) (k : string) : option (string * string) :=
  (λ e, (se_fp e, se_severity e)) <$> state !! k.

Lemma posted_subjects cfg now seen current k :
  (∀ k e, current !! k = Some e → se_subject e = k) →
  k ∈ (list_to_set (se_subject ∘ snd <$> map_to_list (diff cfg now seen current).1.2) : gset string) ↔
  is_Some ((diff cfg now seen current).1.2 !! k).
Proof.
  intros Hsub. rewrite elem_of_list_to_set, list_elem_of_fmap. setoid_rewrite elem_of_map_to_list'.
  cbn [diff fst snd]. setoid_rewrite map_lookup_imap.
  assert (Hk : ∀ k e, (e0 ← current !! k; if posts (due cfg now (seen !! k) e0)
      then Some (mark (due cfg now (seen !! k) e0) e0) else None) = Some e → se_subject e = k).
  { intros k' e He. destruct (current !! k') as [e0|] eqn:E; [|done]. cbn in He.
    destruct (due cfg now (seen !! k') e0); cbn in He; simplify_eq; exact (Hsub k' e0 E). }
  split.
  - intros ([k' e] & -> & He). cbn [compose snd fst] in *. rewrite (Hk k' e He). by eexists.
  - intros [e He]. exists (k, e). cbn [compose snd fst]. split; [symmetry; by apply Hk|done].
Qed.

Lemma mark_fp d t e : se_fp (set_lastPosted t (mark d e)) = se_fp e.
Proof. by destruct d. Qed.
Lemma due_track cfg now existing e :
  track_step cfg now ((λ e, mkTrack (se_fp e) (se_lastPosted e)) <$> existing) (Some (se_fp e, se_severity e)) =
    (Some (mkTrack (se_fp e) (if posts (due cfg now existing e) then now
       else match existing with Some e0 => se_lastPosted e0 | None => now end)), posts (due cfg now existing e)).
Proof.
  unfold due, track_step. destruct existing as [e0|]; [|done]. cbn [fmap option_fmap option_map t_fp t_lastPosted].
  destruct (decide (se_fp e0 = se_fp e)) as [Efp|Efp]; [|by rewrite bool_decide_eq_false_2].
  rewrite bool_decide_eq_true_2 by done. cbn [negb]. set (i := repeatIntervalFor cfg (se_severity e)).
  destruct (Z.ltb_spec 0 i), (Z.leb_spec i (Sub now (se_lastPosted e0))); cbn [andb posts];
    [rewrite decide_True by done|rewrite decide_False by lia..]; by rewrite ?Efp.
Qed.

(** A cycle is one step of every subject's automaton. *)
Lemma cycle_tracks cfg now seen current k :
  (∀ k e, current !! k = Some e → se_subject e = k) →
  let '(marked, toPost, toResolve) := diff cfg now seen current in
  let '(t, posted) := track_step cfg now (track seen k) (observed current k) in
  track (updateSeen now seen marked toPost) k = t ∧ (is_Some (toPost !! k) ↔ posted = true).
Proof.
  intros Hsub. pose proof (posted_subjects cfg now seen current k Hsub) as Hp.
  destruct (diff cfg now seen current) as [[marked toPost] toResolve] eqn:Ed. cbn [fst snd] in Hp.
  unfold diff in Ed. injection Ed as <- <- _. unfold track, observed, updateSeen in *.
  rewrite !map_lookup_imap in *. destruct (current !! k) as [e|] eqn:Ec; cbn [mbind option_bind fmap option_fmap option_map] in *.
  2:{ cbn. split; [done|]. by split; [intros []|]. }
  change (option_map ?f ?x) with (f <$> x). rewrite due_track.
  set (d := due cfg now (seen !! k) e) in *. destruct (posts d) eqn:Epd.
  - rewrite bool_decide_eq_true_2 by (apply Hp; by eexists). rewrite mark_fp. split; [done|by split; [|eexists]].
  - rewrite bool_decide_eq_false_2 by (rewrite Hp; by intros []).
    unfold d, due in Epd. destruct (seen !! k) as [e0|]; [|done]. rewrite mark_fp. split; [done|by split; [intros []|]].
Qed.

Section runs.
Context `{Ed25519, SilenceUrlApi, MapRange}.

(** What a cycle without fixes finds of one subject. *)
Definition cycle_state (cfg : Config) (last : Time) (ci : CycleInput) : gmap string seenEntry :=
  buildCurrentState ((ci_post ci).1 ++ (runCloudDiagnose cfg (ci_cloud ci) (ci_now ci) (ci_now ci) last).1)
    (ci_post ci).2.
Fixpoint track_run (cfg : Config) (k : string) (last : Time) (st : option Track) (cis : list CycleInput) : list bool :=
  match cis with
  | [] => []
  | ci :: cis =>
      let '(st, posted) := track_step cfg (ci_now ci) st (observed (cycle_state cfg last ci) k) in
      posted :: track_run cfg k (runCloudDiagnose cfg (ci_cloud ci) (ci_now ci) (ci_now ci) last).2 st cis
  end.

Lemma runCycle_nofix cfg w ci k : hasActions (ci_fix ci) = false →
  let '(w', out) := runCycle cfg w ci in
  let '(t, posted) := track_step cfg (ci_now ci) (track (w_seen w) k)
    (observed (cycle_state cfg (w_lastCloudRun w) ci) k) in
  track (w_seen w') k = t ∧ (is_Some (co_toPost out !! k) ↔ posted = true) ∧
  (k ∈ co_cleared out ↔ is_Some (w_seen w !! k) ∧ cycle_state cfg (w_lastCloudRun w) ci !! k = None) ∧
  w_lastCloudRun w' = (runCloudDiagnose cfg (ci_cloud ci) (ci_now ci) (ci_now ci) (w_lastCloudRun w)).2.
Proof.
  intros Hfix. unfold runCycle, cycle_state.
  destruct (runCloudDiagnose _ _ _ _ _) as [cloud last']. cbn [fst snd].
  set (state := buildCurrentState ((ci_post ci).1 ++ cloud) (ci_post ci).2).
  pose proof (attach_lookup cfg (ci_now ci) (w_seen w) state (w_pendingURLs w)) as Hl.
  pose proof (attach_dom cfg (ci_now ci) (w_seen w) state (w_pendingURLs w) k) as Hd.
  destruct (attachApprovalURLs _ _ _ _) as [postFix pending]. cbn [fst] in Hl, Hd. rewrite Hfix.
  assert (Hsub : ∀ k e, postFix !! k = Some e → se_subject e = k).
  { intros k' e He. specialize (Hl k'). rewrite He in Hl. destruct (state !! k') as [e0|] eqn:E0; [|done].
    cbn in Hl. unfold core in Hl. destruct (build_filed _ _ _ _ E0) as [<- _]. congruence. }
  pose proof (cycle_tracks cfg (ci_now ci) (w_seen w) postFix k Hsub) as Hc.
  assert (Hobs : observed postFix k = observed state k).
  { specialize (Hl k). unfold observed. destruct (postFix !! k), (state !! k); cbn in Hl |- *; try done.
    unfold core in Hl. congruence. }
  rewrite Hobs in Hc. destruct (diff cfg (ci_now ci) (w_seen w) postFix) as [[marked toPost] toResolve].
  destruct (track_step _ _ _ _) as [t posted]. cbn [w_seen w_lastCloudRun co_toPost co_cleared].
  destruct Hc as [Hc1 Hc2]. split; [done|]. split; [done|]. split; [|done].
  unfold clearedSubjects. rewrite elem_of_difference, !elem_of_dom, Hd. rewrite <-eq_None_not_Some. done.
Qed.

(** C2: over any cycles in which the fixers do nothing, each subject is
    posted by its own automaton: when it appears or its fingerprint changes,
    and again each time its severity's repeat interval has passed since its
    last post; and after each cycle exactly the subjects found are
    remembered. *)
Theorem posting_schedule cfg cis : ∀ w k, (∀ ci, ci ∈ cis → hasActions (ci_fix ci) = false) →
  let '(w', outs) := runCycles cfg w cis in
  (λ o, bool_decide (is_Some (co_toPost o !! k))) <$> outs =
    track_run cfg k (w_lastCloudRun w) (track (w_seen w) k) cis ∧
  (∀ pre ci, cis = pre ++ [ci] →
    is_Some (w_seen w' !! k) ↔ is_Some (cycle_state cfg (w_lastCloudRun (runCycles cfg w pre).1) ci !! k)).
Proof.
  induction cis as [|ci cis IH]; intros w k Hfix.
  { split; [done|]. intros [] ci E; discriminate E. }
  cbn [runCycles track_run]. pose proof (runCycle_nofix cfg w ci k (Hfix ci (list_elem_of_here _ _))) as Hc.
  destruct (runCycle cfg w ci) as [w1 out] eqn:E1.
  destruct (track_step _ _ _ _) as [t posted] eqn:Et. destruct Hc as (Ht & Hp & _ & Hlast).
  specialize (IH w1 k (λ c Hc, Hfix c (list_elem_of_further _ _ _ Hc))).
  destruct (runCycles cfg w1 cis) as [w2 outs] eqn:E2. destruct IH as [IH1 IH2]. split.
  - rewrite fmap_cons, IH1, Hlast, Ht. f_equal. destruct posted.
    + apply bool_decide_eq_true_2. by apply Hp.
    + apply bool_decide_eq_false_2. by rewrite Hp.
  - intros [|ci' pre] cl E; injection E as -> Ecis.
    + subst cis. cbn in E2. injection E2 as <- _. cbn [runCycles fst].
      assert (is_Some (w_seen w1 !! k) ↔ is_Some (track (w_seen w1) k)) as ->.
      { unfold track. by rewrite fmap_is_Some. }
      rewrite Ht. unfold track_step, observed in Et.
      destruct (cycle_state cfg (w_lastCloudRun w) cl !! k) as [e|]; cbn in Et.
      * repeat case_match; simplify_eq; split; by eexists.
      * injection Et as <- _. by split; intros [].
    + rewrite (IH2 pre cl Ecis). cbn [runCycles]. rewrite E1. by destruct (runCycles cfg w1 pre).
Qed.
End runs.

(** ** Fixed findings and cloud findings *)

Section lost.
Context `{Ed25519, SilenceUrlApi, MapRange}.

(** A cycle finds a subject: in the state before or after the fixers. *)
Definition pre_state (cfg : Config) (last : Time) (ci : CycleInput) : gmap string seenEntry :=
  buildCurrentState ((ci_pre ci).1 ++ (runCloudDiagnose cfg (ci_cloud ci) (ci_now ci) (ci_now ci) last).1)
    (ci_pre ci).2.

Lemma runCycle_subjects cfg w ci k :
  let '(w', out) := runCycle cfg w ci in
  (is_Some (w_seen w' !! k) ↔ is_Some (cycle_state cfg (w_lastCloudRun w) ci !! k)) ∧
  (k ∈ co_cleared out ↔ is_Some (w_seen w !! k) ∧
    (if hasActions (ci_fix ci) then pre_state cfg (w_lastCloudRun w) ci
     else cycle_state cfg (w_lastCloudRun w) ci) !! k = None) ∧
  (is_Some (co_toResolve out !! k) → k ∈ co_cleared out).
Proof.
  unfold runCycle, cycle_state, pre_state.
  destruct (runCloudDiagnose _ _ _ _ _) as [cloud last']. cbn [fst snd].
  set (post := buildCurrentState ((ci_post ci).1 ++ cloud) (ci_post ci).2).
  set (pre := buildCurrentState ((ci_pre ci).1 ++ cloud) (ci_pre ci).2).
  pose proof (attach_dom cfg (ci_now ci) (w_seen w) post (w_pendingURLs w) k) as Hd.
  destruct (attachApprovalURLs _ _ _ _) as [postFix pending]. cbn [fst] in Hd.
  assert (Hres : ∀ st, is_Some ((diff cfg (ci_now ci) (w_seen w) st).2 !! k) →
    k ∈ clearedSubjects (w_seen w) st).
  { intros st. cbn [diff snd]. unfold clearedSubjects. rewrite elem_of_difference, !elem_of_dom.
    destruct (PostOnResolved cfg); [|intros [? Hx]; by rewrite lookup_empty in Hx].
    intros [e [He Hn]%map_lookup_filter_Some]. cbn [fst] in Hn. rewrite Hn. split; [by eexists|by intros []]. }
  destruct (hasActions (ci_fix ci)) eqn:Hfix.
  - pose proof (attach_dom cfg (ci_now ci) (w_seen w) pre pending k) as Hd'.
    destruct (attachApprovalURLs _ _ _ (pre, pending)) as [preFix pending']. cbn [fst] in Hd'.
    specialize (Hres preFix).
    destruct (diff cfg (ci_now ci) (w_seen w) preFix) as [[marked toPost] toResolve].
    cbn [w_seen co_cleared co_toResolve]. split; [|split; [|exact Hres]].
    + unfold updateSeen. rewrite map_lookup_imap, <-Hd.
      destruct (postFix !! k); cbn; [split; intros _; by eexists|done].
    + unfold clearedSubjects. by rewrite elem_of_difference, !elem_of_dom, Hd', <-eq_None_not_Some.
  - specialize (Hres postFix).
    destruct (diff cfg (ci_now ci) (w_seen w) postFix) as [[marked toPost] toResolve] eqn:Ed.
    cbn [w_seen co_cleared co_toResolve]. split; [|split; [|exact Hres]].
    + unfold diff in Ed. injection Ed as <- _ _. unfold updateSeen. rewrite !map_lookup_imap, <-Hd.
      destruct (postFix !! k); cbn; [split; intros _; by eexists|done].
    + unfold clearedSubjects. by rewrite elem_of_difference, !elem_of_dom, Hd, <-eq_None_not_Some.
Qed.

Lemma unseen_not_cleared cfg cis : ∀ w k, w_seen w !! k = None →
  (∀ pre ci post, cis = pre ++ ci :: post →
    cycle_state cfg (w_lastCloudRun (runCycles cfg w pre).1) ci !! k = None) →
  Forall (λ out, k ∉ co_cleared out ∧ co_toResolve out !! k = None) (runCycles cfg w cis).2.
Proof.
  induction cis as [|ci cis IH]; intros w k Hn Habs; [constructor|]. cbn [runCycles].
  pose proof (runCycle_subjects cfg w ci k) as Hs. destruct (runCycle cfg w ci) as [w1 out] eqn:E1.
  destruct Hs as (Hseen & Hcl & Hres).
  assert (Hno : k ∉ co_cleared out) by (rewrite Hcl, Hn; by intros [[] _]).
  specialize (IH w1 k). destruct (runCycles cfg w1 cis) as [w2 outs] eqn:E2. cbn [snd] in *. constructor.
  - split; [done|]. apply eq_None_not_Some. by intros ?%Hres.
  - apply IH.
    + apply eq_None_not_Some. rewrite Hseen. pose proof (Habs [] ci cis eq_refl) as Ha. cbn [runCycles fst] in Ha.
      rewrite Ha. by intros [].
    + intros pre c post Ec. specialize (Habs (ci :: pre) c post). cbn [runCycles] in Habs. rewrite E1 in Habs.
      destruct (runCycles cfg w1 pre) as [w3 outs3]. apply Habs. by rewrite Ec.
Qed.

(** A finding the fixers repair is never reported as cleared: when a
    cycle with an action finds the subject before the fixers and not after
    them, the subject is forgotten without being cleared or resolved, and it
    is not in any later cycle either until it comes back.  So its ticket
    stays open. *)
Theorem fixed_never_cleared cfg w ci cis k :
  hasActions (ci_fix ci) = true →
  is_Some (pre_state cfg (w_lastCloudRun w) ci !! k) →
  cycle_state cfg (w_lastCloudRun w) ci !! k = None →
  (∀ pre c post, cis = pre ++ c :: post →
    cycle_state cfg (w_lastCloudRun (runCycles cfg w (ci :: pre)).1) c !! k = None) →
  w_seen (runCycle cfg w ci).1 !! k = None ∧
  Forall (λ out, k ∉ co_cleared out ∧ co_toResolve out !! k = None) (runCycles cfg w (ci :: cis)).2.
Proof.
  intros Hfix Hpre Hpost Habs. pose proof (runCycle_subjects cfg w ci k) as Hs. cbn [runCycles].
  pose proof (unseen_not_cleared cfg cis (runCycle cfg w ci).1 k) as Hrest.
  destruct (runCycle cfg w ci) as [w1 out] eqn:E1. cbn [fst] in *.
  destruct Hs as (Hseen & Hcl & Hres). rewrite Hfix in Hcl.
  assert (Hn : w_seen w1 !! k = None).
  { apply eq_None_not_Some. rewrite Hseen, Hpost. by intros []. }
  split; [done|]. specialize (Hrest Hn).
  destruct (runCycles cfg w1 cis) as [w2 outs] eqn:E2. cbn [snd] in *. constructor.
  - assert (Hno : k ∉ co_cleared out) by (rewrite Hcl; intros [_ E]; rewrite E in Hpre; by destruct Hpre).
    split; [done|]. apply eq_None_not_Some. by intros ?%Hres.
  - apply Hrest. intros pre c post Ec. specialize (Habs pre c post Ec). cbn [runCycles] in Habs. rewrite E1 in Habs.
    by destruct (runCycles cfg w1 pre).
Qed.

Lemma cloud_due_spec cfg probes now last :
  runCloudDiagnose cfg probes now now last =
    if decide (CloudSource cfg = true ∧ probes ≠ [] ∧ (last = 0 ∨ cloudCadence cfg ≤ Sub now last))
    then (probes, now) else ([], last).
Proof.
  unfold runCloudDiagnose. destruct (CloudSource cfg); cbn [negb]; [|by rewrite decide_False by naive_solver].
  destruct probes as [|p l]; cbn [length Nat.eqb]; [by rewrite decide_False by naive_solver|].
  unfold IsZero. destruct (Z.eqb_spec last 0); cbn [negb andb]; [by rewrite decide_True by naive_solver|].
  destruct (Z.ltb_spec (Sub now last) (cloudCadence cfg)); [rewrite decide_False|rewrite decide_True]; try done; naive_solver lia.
Qed.

(** A cloud finding is cleared by the next cycle inside the cadence: the
    cloud probes are not run then, nothing stands in for their results, and
    the subject is reported as cleared and forgotten although the probes
    would still find it. *)
Theorem cloud_findings_flap cfg w ci1 ci2 k :
  hasActions (ci_fix ci1) = false → hasActions (ci_fix ci2) = false → ci_now ci1 ≠ 0 →
  CloudSource cfg = true → ci_cloud ci1 ≠ [] →
  (w_lastCloudRun w = 0 ∨ cloudCadence cfg ≤ Sub (ci_now ci1) (w_lastCloudRun w)) →
  Sub (ci_now ci2) (ci_now ci1) < cloudCadence cfg →
  is_Some (buildCurrentState ((ci_post ci1).1 ++ ci_cloud ci1) (ci_post ci1).2 !! k) →
  buildCurrentState (ci_post ci2).1 (ci_post ci2).2 !! k = None →
  is_Some (w_seen (runCycle cfg w ci1).1 !! k) ∧
  k ∈ co_cleared (runCycle cfg (runCycle cfg w ci1).1 ci2).2 ∧
  w_seen (runCycle cfg (runCycle cfg w ci1).1 ci2).1 !! k = None.
Proof.
  intros Hf1 Hf2 Hz Hsrc Hne Hdue Hin Hfound Habs.
  pose proof (runCycle_subjects cfg w ci1 k) as H1'. pose proof (runCycle_nofix cfg w ci1 k Hf1) as Hl.
  destruct (runCycle cfg w ci1) as [w1 out1]. destruct (track_step _ _ _ _) as [t p]. cbn [fst].
  destruct Hl as (_ & _ & _ & Hlast). destruct H1' as (Hs1 & _).
  assert (Hc1 : runCloudDiagnose cfg (ci_cloud ci1) (ci_now ci1) (ci_now ci1) (w_lastCloudRun w) =
    (ci_cloud ci1, ci_now ci1)) by by rewrite cloud_due_spec, decide_True.
  rewrite Hc1 in Hlast. cbn [snd] in Hlast.
  assert (Hseen : is_Some (w_seen w1 !! k)) by (rewrite Hs1; unfold cycle_state; by rewrite Hc1).
  split; [done|]. pose proof (runCycle_subjects cfg w1 ci2 k) as H2'.
  destruct (runCycle cfg w1 ci2) as [w2 out2]. cbn [fst snd]. destruct H2' as (Hs2 & Hcl & _). rewrite Hf2 in Hcl.
  assert (Hc2 : cycle_state cfg (w_lastCloudRun w1) ci2 !! k = None).
  { unfold cycle_state. rewrite Hlast, cloud_due_spec, decide_False; [|naive_solver lia].
    cbn [fst]. by rewrite app_nil_r. }
  split; [by rewrite Hcl|]. apply eq_None_not_Some. rewrite Hs2, Hc2. by intros [].
Qed.
End lost.

(** A pod fixed in a cycle, a bucket found by the cloud probes. *)
Definition sample_config : Config :=
  mkConfig (60 * Minute) 0 true 0 (mkSilenceLinkConfig "" "" "" 0 0) true (10 * Minute).
Definition no_watch : Watcher := mkWatcher ∅ ∅ 0.
Definition sample_diag : Diagnostic :=
  mkDiagnostic "Pod/shop/web-0" "crash loop" "" "critical" "pods" "" "" "" "" "" "".
Definition sample_cloud : ProbeResult :=
  mkProbeResult (mkComponentResult "S3" "WARN" "") [mkFinding "bucket" "warning" "public" "" ""].
Definition sample_t0 : Time := FromUnix 1700000000.
Definition cycle_at (pre post : list Diagnostic) (fixes : list FixResult) (cloud : list ProbeResult) (m : Z)
    : CycleInput := mkCycleInput ([], pre) fixes ([], post) cloud (sample_t0 + m * Minute).
Definition sample_fix : FixResult := mkFixResult "StuckPods" [mkAction "deleted" "Pod/shop/web-0"] [] "".

Lemma posting_schedule_witness :
  let cis := [cycle_at [] [sample_diag] [] [] 0; cycle_at [] [sample_diag] [] [] 30;
              cycle_at [] [sample_diag] [] [] 60] in
  let r := @runCycles toy_ed25519 toy_url key_order sample_config no_watch cis in
  (λ o, bool_decide (is_Some (co_toPost o !! "Pod/shop/web-0"))) <$> r.2 =
    track_run sample_config "Pod/shop/web-0" 0 None cis ∧
  track_run sample_config "Pod/shop/web-0" 0 None cis = [true; false; true].
Proof.
  intros cis r. pose proof (@posting_schedule toy_ed25519 toy_url key_order sample_config cis no_watch
    "Pod/shop/web-0") as Hp.
  subst r. destruct (runCycles sample_config no_watch cis) as [w' outs]. split; [|vm_compute; reflexivity].
  apply Hp. intros ci Hci. apply list_elem_of_In in Hci. cbn in Hci.
  repeat destruct Hci as [<-|Hci]; [reflexivity..|destruct Hci].
Defined.

Lemma fixed_never_cleared_witness :
  let ci := cycle_at [sample_diag] [] [sample_fix] [] 30 in
  let w := (@runCycle toy_ed25519 toy_url key_order sample_config no_watch
    (cycle_at [] [sample_diag] [] [] 0)).1 in
  is_Some (w_seen w !! "Pod/shop/web-0") ∧
  Forall (λ out, "Pod/shop/web-0" ∉ co_cleared out ∧ co_toResolve out !! "Pod/shop/web-0" = None)
    (@runCycles toy_ed25519 toy_url key_order sample_config w [ci; cycle_at [] [] [] [] 60]).2.
Proof.
  intros ci w. split; [vm_compute; by eexists|].
  apply (@fixed_never_cleared toy_ed25519 toy_url key_order sample_config w ci [cycle_at [] [] [] [] 60]
    "Pod/shop/web-0").
  - reflexivity.
  - vm_compute. by eexists.
  - vm_compute. reflexivity.
  - intros [|c0 [|c1 pre]] c post E; [injection E as <- _; vm_compute; reflexivity| |];
      apply (f_equal length) in E; cbn in E; rewrite ?length_app in E; cbn in E; lia.
Defined.

Lemma cloud_findings_flap_witness :
  let ci1 := cycle_at [] [] [] [sample_cloud] 0 in
  let ci2 := cycle_at [] [] [] [sample_cloud] 5 in
  let w1 := (@runCycle toy_ed25519 toy_url key_order sample_config no_watch ci1).1 in
  is_Some (w_seen w1 !! "Probe/S3/bucket") ∧
  "Probe/S3/bucket" ∈ co_cleared (@runCycle toy_ed25519 toy_url key_order sample_config w1 ci2).2 ∧
  w_seen (@runCycle toy_ed25519 toy_url key_order sample_config w1 ci2).1 !! "Probe/S3/bucket" = None.
Proof.
  apply (@cloud_findings_flap toy_ed25519 toy_url key_order sample_config no_watch
    (cycle_at [] [] [] [sample_cloud] 0) (cycle_at [] [] [] [sample_cloud] 5) "Probe/S3/bucket").
  - reflexivity.
  - reflexivity.
  - vm_compute. discriminate.
  - reflexivity.
  - discriminate.
  - by left.
  - vm_compute. reflexivity.
  - vm_compute. by eexists.
  - vm_compute. reflexivity.
Defined.

(** ** A restart between two cycles *)

(** A stored DriftReport as the dynamic client lists it, the fields a
    restart reads. *)
Definition cr_json (created : string) (c : CR) : json :=
  JObj [("metadata", JObj [("creationTimestamp", JStr created)]);
        ("spec", JObj [("subject", JStr (c_subject c)); ("severity", JStr (c_severity c));
           ("source", JStr (c_source c)); ("category", JStr (c_category c));
           ("message", JStr (c_message c)); ("remediation", JStr (c_remediation c))]);
        ("status", JObj [("firstObserved", JStr (st_firstObserved (c_status c)));
           ("lastObserved", JStr (st_lastObserved (c_status c)))])].
(** The CR [Reconcile] leaves for an entry, new or refreshed. *)
Definition reported (now runID : string) (old : option CR) (e : DriftReportEntry) : CR :=
  match old with Some c => refreshed now runID c e | None => observed_once now runID e end.

(** What the watcher builds for the finding a report entry was made of. *)
Inductive reports : DriftReportEntry → seenEntry → Prop :=
| reports_diagnostic d : reports (diagnostic_entry d) (diagnostic_seen d)
| reports_finding r f : reports (probe_entry r f) (finding_entry r f).
Lemma reports_fields e s : reports e s →
  se_subject s = en_Subject e ∧ se_message s = en_Message e ∧
  se_fp s = fingerprint (se_subject s) (se_severity s) (se_message s) ∧
  (se_severity s ∈ severity_enum → en_Severity e = se_severity s).
Proof.
  intros [d|r f]; repeat split.
  cbn [se_severity finding_entry en_Severity probe_entry]. generalize (f_Severity f). intros sev Hs. in_literals Hs.
Qed.

(** The restored entry, in terms of what was reported. *)
Lemma seen_of_cr_json created c : c_subject c ≠ "" →
  ∃ s, seen_of_report (cr_json created c) = Some (c_subject c, s) ∧
    se_fp s = fingerprint (c_subject c) (c_severity c) (c_message c) ∧
    se_lastPosted s = parsed_time (st_lastObserved (c_status c)).
Proof.
  intros Hne. eexists. split; [|split; cycle -1].
  - unfold seen_of_report. change (NestedString (cr_json created c) ["spec"; "subject"]) with (c_subject c).
    rewrite (bool_decide_eq_false_2 _ Hne). reflexivity.
  - reflexivity.
  - reflexivity.
Qed.
Lemma seen_of_reported created now runID old e : en_Subject e ≠ "" →
  (∀ c, old = Some c → c_subject c = en_Subject e) →
  ∃ s, seen_of_report (cr_json created (reported now runID old (normalized e))) = Some (en_Subject e, s) ∧
    se_fp s = fingerprint (en_Subject e) (NormalizeSeverity (en_Severity e) (en_Source e))
                (truncateAt (en_Message e) 4096) ∧
    se_lastPosted s = parsed_time now.
Proof.
  intros Hne Hold. set (c := reported now runID old (normalized e)).
  assert (Hsub : c_subject c = en_Subject e).
  { unfold c. destruct old as [c0|]; [exact (Hold c0 eq_refl)|done]. }
  destruct (seen_of_cr_json created c) as (s & Hs & Hf & Hl); [by rewrite Hsub|].
  exists s. rewrite Hs, Hf, Hl, Hsub. unfold c. by destruct old.
Qed.

(** A restart posts nothing twice: the entry restored from the report
    of a finding whose severity is one of the three and whose message fits
    has the finding's fingerprint, so the next cycle does not take the
    finding for new; it is due only when the repeat interval has passed
    since the last report. *)
Theorem restart_quiet cfg created now runID old e s seen t :
  reports e s → en_Subject e ≠ "" → (∀ c, old = Some c → c_subject c = en_Subject e) →
  se_severity s ∈ severity_enum → (len (se_message s) ≤ 4096)%nat →
  let cr := cr_json created (reported now runID old (normalized e)) in
  let seen' := loadSeenFromDriftReports (Some [cr]) seen in
  due cfg t (seen' !! se_subject s) s =
    if decide (0 < repeatIntervalFor cfg (se_severity s) ∧
               repeatIntervalFor cfg (se_severity s) ≤ Sub t (parsed_time now)) then PostAgain else Quiet.
Proof.
  intros Hr Hne Hold Hsev Hlen cr seen'.
  destruct (reports_fields e s Hr) as (Es & Em & Hfp & Hsv). specialize (Hsv Hsev).
  destruct (seen_of_reported created now runID old e Hne Hold) as (s0 & Hs0 & Hfp0 & Hlp).
  unfold seen', loadSeenFromDriftReports. cbn [foldl]. unfold cr. rewrite Hs0, Es, lookup_insert_eq.
  assert (Efp : se_fp s0 = se_fp s).
  { rewrite Hfp0, Hfp, Hsv, NormalizeSeverity_fix, Es, Em by done. f_equal.
    unfold truncateAt. rewrite <-Em. by apply Nat.leb_le in Hlen as ->. }
  unfold due. rewrite bool_decide_eq_true_2 by done. cbn [negb]. rewrite Hlp.
  set (i := repeatIntervalFor cfg (se_severity s)).
  destruct (Z.ltb_spec 0 i), (Z.leb_spec i (Sub t (parsed_time now))); cbn [andb];
    [by rewrite decide_True|by rewrite decide_False by lia..].
Qed.

Lemma restart_quiet_witness :
  let s := diagnostic_seen sample_diag in
  let cr := cr_json "2023-11-14T22:00:00Z"
    (reported "2023-11-14T22:13:20Z" "run" None (normalized (diagnostic_entry sample_diag))) in
  due sample_config (sample_t0 + 30 * Minute) (loadSeenFromDriftReports (Some [cr]) ∅ !! se_subject s) s = Quiet.
Proof.
  refine (restart_quiet sample_config "2023-11-14T22:00:00Z" "2023-11-14T22:13:20Z" "run" None
    (diagnostic_entry sample_diag) (diagnostic_seen sample_diag) ∅ (sample_t0 + 30 * Minute) _ _ _ _ _).
  - constructor.
  - discriminate.
  - intros c E. discriminate E.
  - set_solver.
  - apply Nat.leb_le. vm_compute. reflexivity.
Defined.
