(* ===== verification/Slack.v ===== *)
(** * Slack: internal/report/slack.go, slack_delta.go, routing.go

    The messages of a cycle and where they go.  A renderer that writes to a
    [strings.Builder] answers the text it adds; the clock is an argument.
    [RouteAndPostConfig] answers the posts it makes, in order, since their
    outcome is only logged. *)

From stdpp Require Import options.
From S2P Require Import Prelude GoString GoTime GoNum GoFmt Types Token DriftReport Watcher.
Local Open Scope Z_scope.

(** ** slack.go *)

Record SlackAttachment := mkSlackAttachment {
  Color : string;
  Text : string;
  Footer : string;
  Ts : Z;
  MrkdwnIn : list string;
}.
Record SlackPayload := mkSlackPayload {
  Username : string;
  IconEmoji : string;
  Attachments : list SlackAttachment;
}.
Definition payload (icon color text footer : string) (now : Time) : SlackPayload :=
  mkSlackPayload "Cluster Health Monitor" icon [mkSlackAttachment color text footer (Unix now) ["text"]].
Definition count (n : nat) : string := Itoa (Z.of_nat n).

Definition totalActions (fixResults : list FixResult) : nat := sum_list (length ∘ Actions <$> fixResults).
Definition action_lines (fixResults : list FixResult) : string :=
  sconcat (fixResults ≫= λ fr, (λ a, "• " +:+ ac_Description a +:+ " — `" +:+ ac_Object a +:+ "`" +:+ nl) <$> Actions fr).

(** The state, the colour and the headline of the whole. *)
Definition component_critical (r : ProbeResult) : bool :=
  (cr_Status (pr_Component r) =s? "CRITICAL") || (cr_Status (pr_Component r) =s? "PROBE_FAILED") ||
  existsb (λ f, f_Severity f =s? SeverityCritical) (pr_Findings r).
Definition component_degraded (r : ProbeResult) : bool :=
  (cr_Status (pr_Component r) =s? "DEGRADED") || existsb (λ f, f_Severity f =s? SeverityWarning) (pr_Findings r).
Definition overallStatus (results : list ProbeResult) : (string * string) * string * string :=
  if existsb component_critical results then
    (("❌", "UNHEALTHY"), "danger", "Critical issues detected. Immediate attention required.")
  else if existsb component_degraded results then
    (("⚠️", "DEGRADED"), "warning", "Warnings detected. Review recommended.")
  else (("✅", "HEALTHY"), "good", "All systems operational. No action required.").
Definition statusEmoji (status : string) : string :=
  if status =s? "HEALTHY" then "🟢 HEALTHY"
  else if status =s? "DEGRADED" then "🟡 DEGRADED"
  else if status =s? "CRITICAL" then "🔴 CRITICAL"
  else if status =s? "PROBE_FAILED" then "🔴 PROBE_FAILED"
  else if status =s? "SKIPPED" then "⚪ SKIPPED"
  else status.

Definition when (b : bool) (s : string) : string := if b then s else "".

Section links.
Context `{Ed25519, SilenceUrlApi}.

(** [None] is the nil configuration. *)
Definition silenceLinkLine (cfg : option SilenceLinkConfig) (f : Finding) (now : Time) : string :=
  match cfg with
  | None => ""
  | Some cfg =>
      if negb (Enabled cfg) then "" else
      let short := if slc_ShortDur cfg <=? 0 then DefaultSilenceShortDuration else slc_ShortDur cfg in
      let long := if slc_LongDur cfg <=? 0 then DefaultSilenceLongDuration else slc_LongDur cfg in
      let kid := if slc_KeyID cfg =s? "" then "default-1" else slc_KeyID cfg in
      match MintSilenceLinks (slc_PrivateKey cfg) kid (slc_BaseURL cfg)
              (mkSilenceLinkRequest (f_Component f) (f_Component f) "" short long) now with
      | inl _ => ""
      | inr links =>
          "   🔕 <" +:+ SubjectURL links +:+ "|Silence 24h> · 🔕 <" +:+ ClassURL links +:+ "|Silence class (90d)>" +:+ nl
      end
  end.

Definition critical_line (silenceCfg : option SilenceLinkConfig) (now : Time) (f : Finding) : string :=
  "• *" +:+ f_Component f +:+ ":* " +:+ f_Message f +:+ nl +:+
  when (f_Investigation f ≠s? "") ("   🔬 _" +:+ f_Investigation f +:+ "_" +:+ nl) +:+
  when (f_Remediation f ≠s? "") ("   _Remediation:_ " +:+ f_Remediation f +:+ nl) +:+
  silenceLinkLine silenceCfg f now.
Definition diagnostic_line (d : Diagnostic) : string :=
  "• 🔎 " +:+ d_Message d +:+ nl +:+
  when (d_Remediation d ≠s? "") ("  _→ " +:+ d_Remediation d +:+ "_" +:+ nl) +:+
  when (d_Investigation d ≠s? "") ("  🔬 _" +:+ d_Investigation d +:+ "_" +:+ nl) +:+
  when (d_Enrichment d ≠s? "") ("  🤖 _" +:+ d_Enrichment d +:+ "_" +:+ nl).
Definition FormatSlackWithSilence (results : list ProbeResult) (diagnostics : list Diagnostic)
    (fixResults : list FixResult) (autopilot : bool) (silenceCfg : option SilenceLinkConfig) (now : Time)
    : SlackPayload :=
  let '(emoji, label, color, headline) := overallStatus results in
  let findings := results ≫= pr_Findings in
  let criticals := List.filter (λ f, f_Severity f =s? SeverityCritical) findings in
  let warnings := List.filter (λ f, f_Severity f =s? SeverityWarning) findings in
  let text :=
    "*Agentic SRE* — " +:+ FormatUTC now +:+ nl +:+
    emoji +:+ " *Overall Status: " +:+ label +:+ "*" +:+ para +:+ headline +:+ para +:+
    "*Component Status:*" +:+ nl +:+
    sconcat ((λ r, let c := pr_Component r in
      "• *" +:+ cr_Component c +:+ ":* " +:+ statusEmoji (cr_Status c) +:+ nl +:+ "  " +:+ cr_Detail c +:+ nl) <$> results) +:+
    when (0 <? totalActions fixResults)%nat
      (nl +:+ "*🔧 Automated Fixes Applied (" +:+ count (totalActions fixResults) +:+ "):*" +:+ nl +:+ action_lines fixResults) +:+
    when (0 <? length criticals)%nat
      (nl +:+ "*🔴 Critical Issues (" +:+ count (length criticals) +:+ ") — needs human:*" +:+ nl +:+
       sconcat (critical_line silenceCfg now <$> criticals)) +:+
    when (0 <? length warnings)%nat
      (nl +:+ "*🟡 Warnings (" +:+ count (length warnings) +:+ "):*" +:+ nl +:+
       sconcat ((λ f, "• *" +:+ f_Component f +:+ ":* " +:+ f_Message f +:+ nl) <$> warnings)) +:+
    when (0 <? length diagnostics)%nat
      (nl +:+ "*Diagnostics (" +:+ count (length diagnostics) +:+ "):*" +:+ nl +:+ sconcat (diagnostic_line <$> diagnostics)) in
  payload ":hospital:" color text
    ("K8s Agentic SRE" +:+ if autopilot then " (auto-remediation: ON)" else " (read-only)") now.
Definition FormatSlack (results : list ProbeResult) (diagnostics : list Diagnostic) (fixResults : list FixResult)
    (autopilot : bool) (now : Time) : SlackPayload :=
  FormatSlackWithSilence results diagnostics fixResults autopilot None now.
End links.

(** What the webhook answers: the POST fails, or a status and a body. *)
Inductive SlackExchange := SlackUnreachable (e : string) | SlackHTTP (status : Z) (body : string).
Definition PostSlack_result (webhookURL : string) (x : SlackExchange) : option string :=
  if webhookURL =s? "" then Some "slack webhook URL is empty" else
  match x with
  | SlackUnreachable e => Some ("post webhook: " +:+ e)
  | SlackHTTP status body =>
      if negb (status =? 200) then Some ("webhook returned HTTP " +:+ Itoa status +:+ ": " +:+ body)
      else if TrimSpace body ≠s? "ok" then Some ("webhook rejected payload: " +:+ TrimSpace body)
      else None
  end.

(** ** slack_delta.go *)

Record ResolvedDiag := mkResolvedDiag {
  rd_Subject : string;
  rd_Message : string;
  rd_Severity : string;
  rd_Remediation : string;
  rd_Investigation : string;
}.
Definition renderGuidance (investigation remediation : string) : string :=
  when (investigation ≠s? "") ("  🔬 _Root cause: " +:+ investigation +:+ "_" +:+ nl) +:+
  when (remediation ≠s? "") ("  _→ " +:+ remediation +:+ "_" +:+ nl).
Definition renderResolvedRootCause (r : ResolvedDiag) : string :=
  when (rd_Investigation r ≠s? "") ("  🔬 _was: " +:+ rd_Investigation r +:+ "_" +:+ nl).
Definition RecommendedAction (investigation remediation : string) : string :=
  if (investigation ≠s? "") && (remediation ≠s? "") then
    "Root cause: " +:+ investigation +:+ para +:+ "Next steps: " +:+ remediation
  else if investigation ≠s? "" then "Root cause: " +:+ investigation
  else remediation.
Definition severityWatchIcon (severity : string) : string :=
  if severity =s? "critical" then "❌" else if severity =s? "warning" then "⚠️" else "ℹ️".
Definition attachmentColor (newOrChanged : list DeltaDiag) (resolved : list ResolvedDiag) : string :=
  if existsb (λ d, dd_Severity d =s? "critical") newOrChanged then "danger"
  else if (0 <? length newOrChanged)%nat then "warning"
  else if (0 <? length resolved)%nat then "good" else "warning".

(** The loop over the subject's bytes; [prev] is the last byte written. *)
Fixpoint silence_name_bytes (prev : ascii) (s : string) : string :=
  match s with
  | "" => ""
  | String c s =>
      if is_upper c then let c := chr (ord c + 32) in String c (silence_name_bytes c s)
      else if is_lower c || is_digit c then String c (silence_name_bytes c s)
      else if bool_decide (prev = "-"%char) then silence_name_bytes prev s
      else String "-" (silence_name_bytes "-" s)
  end.
Definition slackSilenceName (subject : string) : string :=
  let name := TrimByte (silence_name_bytes "-" subject) "-" in
  "silence-" +:+ (if (50 <? len name)%nat then stake 50 name else name).

(** ** routing.go: one finding *)

Definition deny_of (approvalURL : string) : string := Replace1 approvalURL "/approve?" "/deny?".
Definition renderAIBlocks (d : DeltaDiag) : string :=
  when (dd_Enrichment d ≠s? "") ("  🤖 _" +:+ dd_Enrichment d +:+ "_" +:+ nl) +:+
  when (dd_ApprovalURL d ≠s? "")
    ("  ✅ <" +:+ dd_ApprovalURL d +:+ "|Approve> · ❌ <" +:+ deny_of (dd_ApprovalURL d) +:+ "|Deny> · 📄 <" +:+
     dd_ApprovalURL d +:+ "&action=info|Details>" +:+ nl).
Definition humanizeSilenceDuration (dur def : Duration) : string :=
  let dur := if dur <=? 0 then def else dur in
  if (48 * Hour <=? dur) && (Z.rem dur (24 * Hour) =? 0) then Itoa (Z.quot dur (24 * Hour)) +:+ "d"
  else if Z.rem dur Hour =? 0 then Itoa (Z.quot dur Hour) +:+ "h"
  else Duration_String dur.
Definition renderSilenceClickLinks (d : DeltaDiag) : string :=
  "  " +:+
  when (dd_SilenceSubjectURL d ≠s? "")
    ("🔕 <" +:+ dd_SilenceSubjectURL d +:+ "|Silence " +:+
     humanizeSilenceDuration (dd_SilenceShortDur d) DefaultSilenceShortDuration +:+ ">") +:+
  when (dd_SilenceClassLongURL d ≠s? "")
    ((if dd_SilenceSubjectURL d ≠s? "" then " · " else "") +:+
     "🔕 <" +:+ dd_SilenceClassLongURL d +:+ "|Silence class (" +:+
     humanizeSilenceDuration (dd_SilenceLongDur d) DefaultSilenceLongDuration +:+ ")>") +:+ nl.
Definition renderSilenceSnippet (now : Time) (d : DeltaDiag) : string :=
  if (dd_SilenceSubjectURL d ≠s? "") || (dd_SilenceClassLongURL d ≠s? "") then renderSilenceClickLinks d else
  "  🔕 silence 24h: ```kubectl apply -f - <<EOF" +:+ nl +:+
  "apiVersion: srenix.ai/v1alpha1" +:+ nl +:+
  "kind: Silence" +:+ nl +:+ "metadata:" +:+ nl +:+ "  name: " +:+ slackSilenceName (dd_Subject d) +:+ nl +:+
  "  namespace: agentic-sre" +:+ nl +:+
  "spec:" +:+ nl +:+ "  matcher:" +:+ nl +:+ "    subject: " +:+ Quote (dd_Subject d) +:+ nl +:+
  "  until: " +:+ Quote (FormatRFC3339 (Add now (24 * Hour))) +:+ nl +:+
  "  reason: silenced-from-slack" +:+ nl +:+ "EOF```" +:+ nl.

(** FormatSlackDelta's row of class buttons. *)
Definition class_buttons (d : DeltaDiag) : string :=
  let silence := (dd_SilenceClassURL d ≠s? "") && (dd_SilenceClassLongURL d =s? "") in
  let approve := dd_ApproveClassURL d ≠s? "" in
  let deny := dd_DenyClassURL d ≠s? "" in
  when (approve || deny || silence)
    ("  " +:+
     when approve ("🧠 <" +:+ dd_ApproveClassURL d +:+ "|Approve+remember class>") +:+
     when deny ((if approve then " · " else "") +:+ "❌ <" +:+ dd_DenyClassURL d +:+ "|Deny+remember class>") +:+
     when silence ((if approve || deny then " · " else "") +:+ "🔕 <" +:+ dd_SilenceClassURL d +:+ "|Silence class (" +:+
       humanizeSilenceDuration (dd_SilenceLongDur d) DefaultSilenceLongDuration +:+ ")>") +:+ nl).
Definition resolved_line (r : ResolvedDiag) : string :=
  "• `" +:+ rd_Subject r +:+ "`" +:+ nl +:+
  when (rd_Message r ≠s? "") ("  _" +:+ rd_Message r +:+ "_" +:+ nl) +:+ renderResolvedRootCause r.
Definition resolved_section (resolved : list ResolvedDiag) : string :=
  when (0 <? length resolved)%nat
    (nl +:+ "*✅ Resolved (" +:+ count (length resolved) +:+ "):*" +:+ nl +:+ sconcat (resolved_line <$> resolved)).
Definition delta_line (now : Time) (d : DeltaDiag) : string :=
  "• " +:+ severityWatchIcon (dd_Severity d) +:+ " *" +:+ dd_Subject d +:+ "*" +:+ nl +:+ "  " +:+ dd_Message d +:+ nl +:+
  renderGuidance (dd_Investigation d) (dd_Remediation d) +:+
  when (negb (dd_IsNewThisCycle d)) (renderSilenceSnippet now d) +:+
  renderAIBlocks d +:+ when (dd_ApprovalURL d ≠s? "") (class_buttons d).
Definition FormatSlackDelta (newOrChanged : list DeltaDiag) (resolved : list ResolvedDiag)
    (fixResults : list FixResult) (autopilot : bool) (now : Time) : SlackPayload :=
  let text :=
    "*Agentic SRE — Watch* — " +:+ FormatUTC now +:+ nl +:+
    when (0 <? length newOrChanged)%nat
      (nl +:+ "*🔔 Active Issues (" +:+ count (length newOrChanged) +:+ "):*" +:+ nl +:+
       sconcat (delta_line now <$> newOrChanged)) +:+
    resolved_section resolved +:+
    when (0 <? totalActions fixResults)%nat
      (nl +:+ "*🔧 Fixes Applied (" +:+ count (totalActions fixResults) +:+ "):*" +:+ nl +:+ action_lines fixResults) in
  payload ":hospital:" (attachmentColor newOrChanged resolved) text
    ("K8s Agentic SRE — Watch mode" +:+ when autopilot " (auto-remediation: ON)") now.

(** ** Names of Silence objects *)

Lemma silence_bytes_chars prev s : sforallb label_char (silence_name_bytes prev s) = true.
Proof.
  revert prev. induction s as [|c s IH]; intros prev; [done|]. cbn [silence_name_bytes].
  destruct (is_upper c) eqn:Eu.
  - cbn [sforallb]. rewrite IH, andb_true_r. by destruct c as [[] [] [] [] [] [] [] []].
  - destruct (is_lower c || is_digit c) eqn:El; [|by case_bool_decide; [|cbn [sforallb]; rewrite IH]].
    cbn [sforallb]. rewrite IH. unfold label_char. by rewrite El.
Qed.
Lemma object_name_dash n : (len n <= 253)%nat → sforallb label_char n = true → starts_in (λ c, negb (dash c)) n = true →
  object_name n = ends_in (λ c, negb (dash c)) n.
Proof. intros Hl%Nat.leb_le Hc Hs. unfold object_name. by rewrite Hl, Hc, Hs. Qed.
Lemma ends_in_app f s t : t ≠ "" → ends_in f (s +:+ t) = ends_in f t.
Proof.
  intros Ht. induction s as [|c s IH]; [done|]. cbn [String.append]. rewrite <-IH.
  by destruct s, t.
Qed.

(** The name slackSilenceName makes of a subject is at most 58
    characters, all of them allowed in an object name, and it is an object
    name unless it ends in a dash.  It is one whenever the subject has a
    letter or digit and 50 characters at most; a longer subject can be cut
    right after a dash, and the API server refuses that name. *)
Theorem slackSilenceName_correct subject :
  let name := slackSilenceName subject in
  (len name ≤ 58)%nat ∧ object_name name = ends_in (λ c, negb (dash c)) name ∧
  (TrimByte (silence_name_bytes "-" subject) "-" ≠ "" → (len subject ≤ 50)%nat → object_name name = true) ∧
  (∃ bad, object_name (slackSilenceName bad) = false).
Proof.
  cbv zeta. unfold slackSilenceName. set (raw := silence_name_bytes "-" subject).
  unfold TrimByte, TrimFunc. fold dash. set (v := TrimRightFunc dash (TrimLeftFunc dash raw)).
  assert (Hv : sforallb label_char v = true).
  { by apply sforallb_TrimRight, sforallb_TrimLeft, silence_bytes_chars. }
  set (w := if (50 <? len v)%nat then stake 50 v else v).
  assert (Hw : sforallb label_char w = true) by (unfold w; destruct (50 <? len v)%nat; [by apply sforallb_stake|done]).
  assert (Hl : (len w ≤ 50)%nat).
  { unfold w. destruct (Nat.ltb_spec 50 (len v)); [rewrite stake_length; lia|done]. }
  assert (Hname : object_name ("silence-" +:+ w) = ends_in (λ c, negb (dash c)) ("silence-" +:+ w)).
  { apply object_name_dash; [rewrite sapp_length; change (len "silence-") with 8%nat; lia| |done].
    rewrite sforallb_app, Hw. reflexivity. }
  split_and!.
  - rewrite sapp_length. change (len "silence-") with 8%nat. lia.
  - exact Hname.
  - intros Hne Hs. rewrite Hname.
    assert (Hraw : ∀ prev s, (len (silence_name_bytes prev s) ≤ len s)%nat).
    { intros prev s. revert prev. induction s as [|c s IH]; intros prev; [done|]. cbn [silence_name_bytes].
      repeat case_match; cbn [String.length]; pose proof (IH prev);
        match goal with |- context [silence_name_bytes ?p s] => pose proof (IH p) end; lia. }
    assert (Hlv : (len v ≤ 50)%nat).
    { unfold v. rewrite TrimRight_length, TrimLeft_length. pose proof (Hraw "-"%char subject). unfold raw. lia. }
    assert (w = v) as -> by (unfold w; destruct (Nat.ltb_spec 50 (len v)); [lia|done]).
    rewrite ends_in_app by done. by destruct (TrimRight_ends dash (TrimLeftFunc dash raw)).
  - exists "probe/critical-services/service-langfuse-web-0123/x". vm_compute. reflexivity.
Qed.

(** ** The overall status *)

(** The overall colour is the worst of what was found: danger exactly
    when a component is critical or could not be probed or a finding is
    critical, good exactly when nothing is critical or degraded. *)
Theorem overallStatus_worst results :
  let '(_, color, _) := overallStatus results in
  let critical := ∃ r, r ∈ results ∧
    (cr_Status (pr_Component r) ∈ ["CRITICAL"; "PROBE_FAILED"] ∨ ∃ f, f ∈ pr_Findings r ∧ f_Severity f = SeverityCritical) in
  let degraded := ∃ r, r ∈ results ∧
    (cr_Status (pr_Component r) = "DEGRADED" ∨ ∃ f, f ∈ pr_Findings r ∧ f_Severity f = SeverityWarning) in
  (color = "danger" ↔ critical) ∧ (color = "warning" ↔ ¬ critical ∧ degraded) ∧
  (color = "good" ↔ ¬ critical ∧ ¬ degraded).
Proof.
  assert (Hf : ∀ (l : list Finding) sev, existsb (λ f, f_Severity f =s? sev) l = true ↔ ∃ f, f ∈ l ∧ f_Severity f = sev).
  { intros l sev. rewrite existsb_elem. by setoid_rewrite bool_decide_eq_true. }
  assert (Hc : existsb component_critical results = true ↔ ∃ r, r ∈ results ∧
    (cr_Status (pr_Component r) ∈ ["CRITICAL"; "PROBE_FAILED"] ∨ ∃ f, f ∈ pr_Findings r ∧ f_Severity f = SeverityCritical)).
  { rewrite existsb_elem. apply exist_proper. intros r. unfold component_critical.
    rewrite !orb_true_iff, Hf, !bool_decide_eq_true. set_solver. }
  assert (Hd : existsb component_degraded results = true ↔ ∃ r, r ∈ results ∧
    (cr_Status (pr_Component r) = "DEGRADED" ∨ ∃ f, f ∈ pr_Findings r ∧ f_Severity f = SeverityWarning)).
  { rewrite existsb_elem. apply exist_proper. intros r. unfold component_degraded.
    by rewrite orb_true_iff, Hf, bool_decide_eq_true. }
  unfold overallStatus. destruct (existsb component_critical results).
  - cbv zeta. rewrite <-Hc. intuition discriminate.
  - destruct (existsb component_degraded results); cbv zeta; rewrite <-Hc, <-Hd; intuition discriminate.
Qed.
