(* ===== verification/Routing.v ===== *)
(** * Slack routing: internal/report/routing.go

    What goes to which channel, and the splitting of the critical message
    into attachments Slack does not cut.  [RouteAndPostConfig] answers the
    posts it makes, in order. *)

From stdpp Require Import options.
From S2P Require Import Prelude GoString GoTime GoJson GoNum Types DriftReport Watcher Slack.
Local Open Scope Z_scope.

Record SlackChannels := mkSlackChannels { Alerts : string; Critical : string }.
Definition maxSlackAttachmentChars : nat := N.to_nat 35000.
Record CriticalRenderConfig := mkCriticalRenderConfig { NoChangeDigest : bool }.

Definition plural (n : nat) : string := if (n =? 1)%nat then "" else "s".
Definition hasActionableFindings (ds : list DeltaDiag) : bool :=
  existsb (λ d, (dd_ApprovalURL d ≠s? "") || (dd_Severity d =s? "critical")) ds.
Definition alertTitle (actionable : bool) : string :=
  if actionable then "*Srenix Alert — Human Action Required*"
  else "*Srenix Advisory — Review (no action required)*".

Definition fixed_line (d : DeltaDiag) : string :=
  "• " +:+ severityWatchIcon (dd_Severity d) +:+ " *" +:+ dd_Subject d +:+ "*" +:+ nl +:+ "  " +:+ dd_Message d +:+ nl +:+
  renderAIBlocks d.
Definition FormatAlertsPayload (fixedIssues : list DeltaDiag) (fixResults : list FixResult) (now : Time) : SlackPayload :=
  payload ":wrench:" "good"
    ("*Srenix Auto-Remediation* — " +:+ FormatUTC now +:+ nl +:+
     when (0 <? length fixedIssues)%nat
       (nl +:+ "*⚡ Triggered by (" +:+ count (length fixedIssues) +:+ "):*" +:+ nl +:+ sconcat (fixed_line <$> fixedIssues)) +:+
     when (0 <? totalActions fixResults)%nat
       (nl +:+ "*🔧 Actions taken (" +:+ count (totalActions fixResults) +:+ "):*" +:+ nl +:+ action_lines fixResults))
    "Srenix Auto-Remediation" now.

Definition is_critical (d : DeltaDiag) : bool := dd_Severity d =s? "critical".
Definition finding_text (silence : bool) (now : Time) (d : DeltaDiag) : string :=
  "• " +:+ (if is_critical d then "❌" else "⚠️") +:+ " *" +:+ dd_Subject d +:+ "*" +:+ nl +:+ "  " +:+ dd_Message d +:+ nl +:+
  renderGuidance (dd_Investigation d) (dd_Remediation d) +:+
  when silence (renderSilenceSnippet now d) +:+ renderAIBlocks d.

(** ** The splitter *)

(** The finished chunks and the [strings.Builder] of the current one. *)
Definition Splitter : Type := list string * string.
Definition flush (headerLine : string) (st : Splitter) : Splitter := (st.1 ++ [st.2], headerLine).
(** [if cur.Len()+len(piece) > max { flush }] *)
Definition make_room (headerLine piece : string) (st : Splitter) : Splitter :=
  if (maxSlackAttachmentChars <? len st.2 + len piece)%nat then flush headerLine st else st.
Definition write (piece : string) (st : Splitter) : Splitter := (st.1, st.2 +:+ piece).
(** One finding of a section, which repeats the section's header after a flush. *)
Definition add_finding (headerLine section : string) (st : Splitter) (r : string) : Splitter :=
  if (maxSlackAttachmentChars <? len st.2 + len r)%nat
  then write r (write section (flush headerLine st)) else write r st.
Definition add_section (headerLine section : string) (rs : list string) (st : Splitter) : Splitter :=
  foldl (add_finding headerLine section) (write section st) rs.

(** The pieces of a message. *)
Record Pieces := mkPieces {
  p_headerLine : string;
  p_newHeader : string;
  p_new : list string;
  p_critHeader : string;
  p_crit : list string;
  p_diagHeader : string;
  p_diag : list string;
  p_stableSummary : string;
  p_resolved : string;
}.
Definition split_chunks (p : Pieces) : list string :=
  let h := p_headerLine p in
  let st := ([], h) in
  let st := if (0 <? length (p_new p))%nat then add_section h (p_newHeader p) (p_new p) st else st in
  let st := if (0 <? length (p_crit p))%nat
            then add_section h (p_critHeader p) (p_crit p) (make_room h (p_critHeader p) st) else st in
  let st := if (0 <? length (p_diag p))%nat
            then add_section h (p_diagHeader p) (p_diag p) (make_room h (p_diagHeader p) st) else st in
  let st := if p_stableSummary p ≠s? ""
            then write (p_stableSummary p) (write nl (make_room h (p_stableSummary p) st)) else st in
  let st := if p_resolved p ≠s? "" then write (p_resolved p) (make_room h (p_resolved p) st) else st in
  if (0 <? len st.2)%nat then st.1 ++ [st.2] else st.1.

Definition marker (i n : nat) : string := " _(part " +:+ count (i + 1) +:+ "/" +:+ count n +:+ ")_".
Definition mark_chunk (n i : nat) (chunk : string) : string :=
  match Index chunk nl with
  | Some (S k) => stake (S k) chunk +:+ marker i n +:+ sdrop (S k) chunk
  | _ => chunk
  end.
Definition annotate (chunks : list string) : list string :=
  if (1 <? length chunks)%nat then imap (mark_chunk (length chunks)) chunks else chunks.

Definition emitNoChangeDigest (stableTotal : nat) (now : Time) : list SlackPayload :=
  [payload ":rotating_light:" "warning"
     (alertTitle false +:+ " — " +:+ FormatUTC now +:+ para +:+
      "*✨ No new issues since last cycle* — steady state at " +:+ count stableTotal +:+ " finding" +:+ plural stableTotal +:+
      ". _Run `srenix diagnose` or check #ceph-critical history for the active list._" +:+ nl)
     "Srenix — Human action required" now].

(** The findings that are new, stable and critical, stable and not. *)
Definition new_findings (unfixable : list DeltaDiag) : list DeltaDiag := List.filter dd_IsNewThisCycle unfixable.
Definition stable_critical (unfixable : list DeltaDiag) : list DeltaDiag :=
  List.filter (λ d, negb (dd_IsNewThisCycle d) && is_critical d) unfixable.
Definition stable_other (unfixable : list DeltaDiag) : list DeltaDiag :=
  List.filter (λ d, negb (dd_IsNewThisCycle d) && negb (is_critical d)) unfixable.

Definition finding_rendered (now : Time) (d : DeltaDiag) : string := finding_text (negb (dd_IsNewThisCycle d)) now d.
Definition critical_pieces (unfixable : list DeltaDiag) (resolved : list ResolvedDiag) (now : Time) : Pieces :=
  let news := new_findings unfixable in
  let stable := (length (stable_critical unfixable) + length (stable_other unfixable))%nat in
  let collapse := (0 <? length news)%nat && (0 <? stable)%nat in
  let crit := if collapse then [] else finding_rendered now <$> stable_critical unfixable in
  let diag := if collapse then [] else finding_rendered now <$> stable_other unfixable in
  mkPieces
    (alertTitle (hasActionableFindings unfixable) +:+ " — " +:+ FormatUTC now +:+ nl)
    (nl +:+ "*🆕 New this cycle (" +:+ count (length news) +:+ "):*" +:+ nl) (finding_rendered now <$> news)
    (nl +:+ "*🔴 Critical (" +:+ count (length crit) +:+ "):*" +:+ nl) crit
    (nl +:+ "*⚠️ Diagnostics (" +:+ count (length diag) +:+ "):*" +:+ nl) diag
    (when collapse ("_…and " +:+ count stable +:+ " other stable finding" +:+ plural stable +:+
       " already posted in earlier cycles._" +:+ nl))
    (resolved_section resolved).
Definition payload_color (hasNewCritical : bool) (p : Pieces) : string :=
  let crits := (0 <? length (p_crit p))%nat || hasNewCritical in
  if crits then "danger" else if (0 <? length (p_diag p))%nat then "warning" else "good".

Definition SplitCriticalPayloadsConfig (unfixable : list DeltaDiag) (resolved : list ResolvedDiag)
    (cfg : CriticalRenderConfig) (now : Time) : list SlackPayload :=
  let news := new_findings unfixable in
  let stable := (length (stable_critical unfixable) + length (stable_other unfixable))%nat in
  if NoChangeDigest cfg && (length news =? 0)%nat && (length resolved =? 0)%nat then
    if (stable =? 0)%nat then [] else emitNoChangeDigest stable now
  else
    let p := critical_pieces unfixable resolved now in
    let color := payload_color (existsb is_critical news) p in
    (λ text, payload ":rotating_light:" color text "Srenix — Human action required" now) <$> annotate (split_chunks p).
Definition SplitCriticalPayloads (unfixable : list DeltaDiag) (resolved : list ResolvedDiag) (now : Time)
    : list SlackPayload := SplitCriticalPayloadsConfig unfixable resolved (mkCriticalRenderConfig false) now.

(** The single-payload form, kept for callers that want one. *)
Definition FormatCriticalPayload (unfixable : list DeltaDiag) (resolved : list ResolvedDiag) (now : Time) : SlackPayload :=
  let crits := List.filter is_critical unfixable in
  let diags := List.filter (λ d, negb (is_critical d)) unfixable in
  let color := if (0 <? length crits)%nat then "danger"
               else if (0 <? length diags)%nat then "warning"
               else if (0 <? length resolved)%nat then "good" else "danger" in
  payload ":rotating_light:" color
    (alertTitle (hasActionableFindings unfixable) +:+ " — " +:+ FormatUTC now +:+ nl +:+
     when (0 <? length crits)%nat
       (nl +:+ "*🔴 Critical (" +:+ count (length crits) +:+ "):*" +:+ nl +:+ sconcat (finding_text true now <$> crits)) +:+
     when (0 <? length diags)%nat
       (nl +:+ "*⚠️ Diagnostics (" +:+ count (length diags) +:+ "):*" +:+ nl +:+ sconcat (finding_text true now <$> diags)) +:+
     resolved_section resolved)
    "Srenix — Human action required" now.

(** ** Routing *)

(** The order of the critical channel: those with an approval link first,
    then by subject.  Go's sort is not stable; subjects differ, so the order
    is determined. *)
Definition post_before (a b : DeltaDiag) : Prop :=
  let ua := dd_ApprovalURL a ≠s? "" in let ub := dd_ApprovalURL b ≠s? "" in
  if Bool.eqb ua ub then String.leb (dd_Subject a) (dd_Subject b) = true else ua = true.
#[export] Instance post_before_dec a b : Decision (post_before a b).
Proof. unfold post_before. destruct (Bool.eqb _ _); solve_decision. Defined.

Definition RouteAndPostConfig (channels : SlackChannels) (postFixSubjects : gset string) (toPost : list DeltaDiag)
    (toResolve : list ResolvedDiag) (fixResults : list FixResult) (cfg : CriticalRenderConfig) (now : Time)
    : list (string * SlackPayload) :=
  let unfixable := List.filter (λ d, bool_decide (dd_Subject d ∈ postFixSubjects)) toPost in
  let fixedIssues := List.filter (λ d, negb (bool_decide (dd_Subject d ∈ postFixSubjects))) toPost in
  (if (Alerts channels ≠s? "") && ((0 <? length fixedIssues)%nat || hasActions fixResults)
   then [(Alerts channels, FormatAlertsPayload fixedIssues fixResults now)] else []) ++
  (if (Critical channels ≠s? "") && ((0 <? length unfixable)%nat || (0 <? length toResolve)%nat)
   then (λ p, (Critical channels, p)) <$> SplitCriticalPayloadsConfig (merge_sort post_before unfixable) toResolve cfg now
   else []).
Definition RouteAndPost (channels : SlackChannels) (postFixSubjects : gset string) (toPost : list DeltaDiag)
    (toResolve : list ResolvedDiag) (fixResults : list FixResult) (now : Time) : list (string * SlackPayload) :=
  RouteAndPostConfig channels postFixSubjects toPost toResolve fixResults (mkCriticalRenderConfig false) now.

(** ** Nothing is lost or cut by the splitter *)

(** A part of a chunk: a section's header (or the empty line before the
    summary), or a whole finding, summary or resolved section. *)
Inductive Seg := SHead (s : string) | SBody (s : string).
Definition seg_text (x : Seg) : string := match x with SHead s => s | SBody s => s end.
Definition body_of (x : Seg) : option string := match x with SBody s => Some s | SHead _ => None end.
Definition bodies (l : list Seg) : list string := omap body_of l.
Definition chunk_body (segs : list Seg) : string := sconcat (seg_text <$> segs).

Lemma sconcat_app l l' : sconcat (l ++ l') = sconcat l +:+ sconcat l'.
Proof.
  induction l as [|x l IH]; [done|]. change (x +:+ sconcat (l ++ l') = (x +:+ sconcat l) +:+ sconcat l').
  by rewrite IH, sapp_assoc.
Qed.
Lemma chunk_body_snoc segs x : chunk_body (segs ++ [x]) = chunk_body segs +:+ seg_text x.
Proof. unfold chunk_body. rewrite fmap_app, sconcat_app. cbn. by rewrite sapp_nil_r. Qed.

Section splitter.
Variables (h : string) (heads : list string) (M : nat).
Hypothesis HM : (maxSlackAttachmentChars < M)%nat.

(** A state of the splitter that holds the pieces [B]. *)
Definition holds (st : Splitter) (B : list string) : Prop :=
  ∃ done cur, st = ((λ segs, h +:+ chunk_body segs) <$> done, h +:+ chunk_body cur) ∧
    bodies (concat done ++ cur) = B ∧
    Forall (λ x, body_of x = None → seg_text x ∈ heads) (concat done ++ cur) ∧
    Forall (λ c, len c ≤ M)%nat st.1 ∧ (len st.2 ≤ M)%nat.

Lemma holds_start : (len h ≤ M)%nat → holds ([], h) [].
Proof using HM. intros Hh. exists [], []. cbn. rewrite sapp_nil_r. split_and!; done || constructor. Qed.
Lemma holds_head st B s : s ∈ heads → (len st.2 + len s ≤ M)%nat → holds st B → holds (write s st) B.
Proof using HM.
  intros Hs Hl (d & c & -> & <- & Hh & HF & Hc). cbn [fst snd] in *. exists d, (c ++ [SHead s]). unfold write. cbn [fst snd].
  rewrite chunk_body_snoc, !sapp_assoc, app_assoc. unfold bodies. rewrite omap_app. cbn. rewrite app_nil_r.
  split_and!; [done..| |done|rewrite !sapp_length in *; lia].
  apply Forall_app. split; [done|]. by constructor.
Qed.
Lemma holds_body st B s : (len st.2 + len s ≤ M)%nat → holds st B → holds (write s st) (B ++ [s]).
Proof using HM.
  intros Hl (d & c & -> & <- & Hh & HF & Hc). cbn [fst snd] in *. exists d, (c ++ [SBody s]). unfold write. cbn [fst snd].
  rewrite chunk_body_snoc, !sapp_assoc, app_assoc. unfold bodies. rewrite omap_app.
  split_and!; [done..| |done|rewrite !sapp_length in *; lia].
  apply Forall_app. split; [done|]. by constructor.
Qed.
Lemma holds_flush st B : (len h ≤ M)%nat → holds st B → holds (flush h st) B.
Proof using HM.
  intros Hl (d & c & -> & <- & Hh & HF & Hc). cbn [fst snd] in *. exists (d ++ [c]), []. unfold flush. cbn [fst snd].
  rewrite fmap_app, concat_app. cbn. rewrite !app_nil_r, sapp_nil_r. split_and!; [done..| |done].
  apply Forall_app. split; [done|]. by constructor.
Qed.
Lemma holds_room st B s : (len h ≤ M)%nat → (len h + len s ≤ M)%nat → holds st B →
  holds (make_room h s st) B ∧ (len (make_room h s st).2 + len s ≤ M)%nat.
Proof using HM.
  intros Hh Hs Hst. unfold make_room. destruct (Nat.ltb_spec maxSlackAttachmentChars (len st.2 + len s)).
  - split; [by apply holds_flush|done].
  - split; [done|lia].
Qed.
Lemma holds_room_line st B s : (len h + len s < M)%nat → holds st B →
  holds (make_room h s st) B ∧ (len (make_room h s st).2 + len s < M)%nat.
Proof using HM.
  intros Hs Hst. unfold make_room. destruct (Nat.ltb_spec maxSlackAttachmentChars (len st.2 + len s)).
  - split; [by apply holds_flush; [lia|]|done].
  - split; [done|lia].
Qed.
Lemma holds_findings section rs : section ∈ heads → (∀ r, r ∈ rs → len h + len section + len r ≤ M)%nat →
  ∀ st B, holds st B → holds (foldl (add_finding h section) st rs) (B ++ rs).
Proof using HM.
  intros Hsec. induction rs as [|r rs IH]; intros Hr st B Hst; [by rewrite app_nil_r|]. cbn [foldl].
  assert (Hr0 : (len h + len section + len r ≤ M)%nat) by (apply Hr; left).
  rewrite (cons_middle r B rs), app_assoc. apply IH; [intros r' Hr'; apply Hr; by right|]. unfold add_finding.
  destruct (Nat.ltb_spec maxSlackAttachmentChars (len st.2 + len r)).
  - apply holds_body; [cbn; rewrite sapp_length; lia|]. apply holds_head; [done|cbn; lia|]. apply holds_flush; [lia|done].
  - apply holds_body; [lia|done].
Qed.
Lemma holds_section section rs st B : section ∈ heads → rs ≠ [] →
  (∀ r, r ∈ rs → len h + len section + len r ≤ M)%nat → (len st.2 + len section ≤ M)%nat →
  holds st B → holds (add_section h section rs st) (B ++ rs).
Proof using HM. intros. unfold add_section. by apply holds_findings, holds_head. Qed.
Lemma holds_section_room section rs st B : section ∈ heads →
  (∀ r, r ∈ rs → len h + len section + len r ≤ M)%nat → holds st B →
  holds (if (0 <? length rs)%nat then add_section h section rs (make_room h section st) else st) (B ++ rs).
Proof using HM.
  intros Hsec Hr Hst. destruct rs as [|r rs]; cbn [length Nat.ltb Nat.leb]; [by rewrite app_nil_r|].
  assert ((len h + len section + len r ≤ M)%nat) by (apply Hr; left).
  destruct (holds_room st B section) as [? ?]; [lia..|done|]. by apply holds_section.
Qed.
End splitter.

(** The longest chunk the pieces can need. *)
Definition pieces_fit (p : Pieces) (M : nat) : Prop :=
  let h := len (p_headerLine p) in
  (maxSlackAttachmentChars < M ∧ h ≤ M ∧
  (∀ r, r ∈ p_new p → h + len (p_newHeader p) + len r ≤ M) ∧
  (∀ r, r ∈ p_crit p → h + len (p_critHeader p) + len r ≤ M) ∧
  (∀ r, r ∈ p_diag p → h + len (p_diagHeader p) + len r ≤ M) ∧
  h + len (p_stableSummary p) < M ∧ h + len (p_resolved p) ≤ M)%nat.
Definition optional (s : string) : list string := if s =s? "" then [] else [s].
Definition heads_of (p : Pieces) : list string := [p_newHeader p; p_critHeader p; p_diagHeader p; nl].

Lemma split_chunks_spec p M : p_headerLine p ≠ "" → pieces_fit p M →
  ∃ plan, split_chunks p = (λ segs, p_headerLine p +:+ chunk_body segs) <$> plan ∧
    bodies (concat plan) = p_new p ++ p_crit p ++ p_diag p ++ optional (p_stableSummary p) ++ optional (p_resolved p) ∧
    Forall (λ x, body_of x = None → seg_text x ∈ heads_of p) (concat plan) ∧
    Forall (λ c, len c ≤ M)%nat (split_chunks p).
Proof.
  intros Hh (HM & Hh' & Hn & Hc & Hd & Hs & Hr). unfold split_chunks. set (h := p_headerLine p) in *. cbv zeta.
  pose proof (holds_start h (heads_of p) M HM Hh') as H0.
  assert (H1' : holds h (heads_of p) M
    (if (0 <? length (p_new p))%nat then add_section h (p_newHeader p) (p_new p) ([], h) else ([], h)) (p_new p)).
  { destruct (p_new p) as [|r rs]; [done|]. cbn [length Nat.ltb Nat.leb]. rewrite <-(app_nil_l (r :: rs)).
    apply holds_section; [done|set_solver|done|done| |done].
    assert ((len h + len (p_newHeader p) + len r ≤ M)%nat) by (apply Hn; left). cbn. lia. }
  clear H0. match type of H1' with holds _ _ _ ?st _ => generalize dependent st end. intros st1 H1'.
  apply (holds_section_room h (heads_of p) M HM (p_critHeader p) (p_crit p)) in H1'; [|set_solver|done].
  match type of H1' with holds _ _ _ ?st _ => generalize dependent st end. intros st2 H2'.
  apply (holds_section_room h (heads_of p) M HM (p_diagHeader p) (p_diag p)) in H2'; [|set_solver|done].
  match type of H2' with holds _ _ _ ?st _ => generalize dependent st end. intros st3 H3'.
  assert (H4' : holds h (heads_of p) M
    (if p_stableSummary p ≠s? "" then write (p_stableSummary p) (write nl (make_room h (p_stableSummary p) st3)) else st3)
    (((p_new p ++ p_crit p) ++ p_diag p) ++ optional (p_stableSummary p))).
  { unfold optional. case_bool_decide; cbn [negb]; [by rewrite app_nil_r|].
    destruct (holds_room_line h (heads_of p) M HM st3 _ (p_stableSummary p) Hs H3') as [? ?].
    apply holds_body; [done|unfold write; cbn [snd]; rewrite sapp_length; cbn; lia|].
    apply holds_head; [done|set_solver|cbn [len nl]; change (len nl) with 1%nat; lia|done]. }
  match type of H4' with holds _ _ _ ?st _ => generalize dependent st end. intros st4 H4'.
  assert (H5' : holds h (heads_of p) M
    (if p_resolved p ≠s? "" then write (p_resolved p) (make_room h (p_resolved p) st4) else st4)
    ((((p_new p ++ p_crit p) ++ p_diag p) ++ optional (p_stableSummary p)) ++ optional (p_resolved p))).
  { unfold optional at 2. case_bool_decide; cbn [negb]; [by rewrite app_nil_r|].
    destruct (holds_room h (heads_of p) M HM st4 _ (p_resolved p) Hh' Hr H4') as [? ?]. by apply holds_body. }
  match type of H5' with holds _ _ _ ?st _ => generalize dependent st end.
  intros st5 (done & cur & -> & Hb & Hheads & HF & Hcur). cbn [fst snd] in *.
  rewrite sapp_length. destruct (Nat.ltb_spec 0 (len h + len (chunk_body cur))) as [_|Hz].
  2:{ destruct h; [done|cbn in Hz; lia]. }
  exists (done ++ [cur]). rewrite fmap_app, concat_app. cbn [concat fmap list_fmap]. rewrite app_nil_r.
  split_and!; [done|by rewrite Hb, <-!app_assoc|done|]. apply Forall_app. split; [done|]. by constructor.
Qed.

(** ** Titles and markers *)

Definition not_nl (c : ascii) : bool := negb (bool_decide (c = chr 10)).
Definition one_line (s : string) : bool := sforallb not_nl s.

Lemma one_line_app s t : one_line (s +:+ t) = one_line s && one_line t.
Proof. apply sforallb_app. Qed.
Lemma one_line_Itoa z : one_line (Itoa z) = true.
Proof.
  pose proof (num_run_chars _ _ (valid_number_Itoa z)) as Hc. unfold one_line.
  induction (Itoa z) as [|c s IH]; [done|]. cbn in *. apply andb_true_iff in Hc as [Hc Hs]. rewrite IH by done.
  destruct c as [[] [] [] [] [] [] [] []]; done.
Qed.
Lemma one_line_pad w z : one_line (pad w z) = true.
Proof.
  unfold pad. rewrite one_line_app, one_line_Itoa, andb_true_r. by induction (w - len (Itoa z))%nat.
Qed.
Lemma one_line_FormatUTC t : one_line (FormatUTC t) = true.
Proof.
  unfold FormatUTC. destruct (date t) as [[y mo] d], (clock t) as [[h mi] s].
  by rewrite !one_line_app, !one_line_pad.
Qed.

Lemma Index_nl t r : one_line t = true → Index (t +:+ nl +:+ r) nl = Some (len t).
Proof.
  induction t as [|c t IH]; [intros _; rewrite Index_unfold; by destruct r|]. cbn [one_line sforallb]. intros [Hc Ht]%andb_true_iff.
  cbn [String.append]. rewrite Index_unfold.
  assert (String.prefix nl (String c (t +:+ nl +:+ r)) = false) as ->.
  { apply not_true_is_false. intros Hp. apply prefix_spec in Hp as [u E].
    unfold not_nl in Hc. bool_to_prop. apply Hc. by injection E. }
  by rewrite IH.
Qed.
Lemma mark_chunk_spec n i title r : one_line title = true → title ≠ "" →
  mark_chunk n i (title +:+ nl +:+ r) = title +:+ marker i n +:+ nl +:+ r.
Proof.
  intros Ht Hne. unfold mark_chunk. rewrite Index_nl by done. destruct title as [|c t]; [done|].
  cbn [String.length]. change (S (len t)) with (len (String c t)). by rewrite stake_app, sdrop_app.
Qed.

Definition title_of (unfixable : list DeltaDiag) (now : Time) : string :=
  alertTitle (hasActionableFindings unfixable) +:+ " — " +:+ FormatUTC now.
Lemma title_one_line unfixable now : one_line (title_of unfixable now) = true ∧ title_of unfixable now ≠ "".
Proof.
  unfold title_of. rewrite !one_line_app, one_line_FormatUTC. by destruct (hasActionableFindings unfixable).
Qed.

Definition part_marker (n i : nat) : string := if (1 <? n)%nat then marker i n else "".
Lemma annotate_spec unfixable now plan :
  annotate ((λ segs, (title_of unfixable now +:+ nl) +:+ chunk_body segs) <$> plan) =
    imap (λ i segs, title_of unfixable now +:+ part_marker (length plan) i +:+ nl +:+ chunk_body segs) plan.
Proof.
  destruct (title_one_line unfixable now) as [Ht Hne].
  unfold annotate, part_marker. rewrite length_fmap. destruct (1 <? length plan)%nat.
  - rewrite imap_fmap. apply imap_ext. intros i segs _. cbn [compose]. rewrite sapp_assoc. by apply mark_chunk_spec.
  - rewrite <-(imap_const (λ segs, (title_of unfixable now +:+ nl) +:+ chunk_body segs)).
    apply imap_ext. intros i segs _. unfold const. by rewrite sapp_assoc.
Qed.

Lemma len_le_sum l r : r ∈ l → (len r ≤ sum_list (len <$> l))%nat.
Proof. induction 1; cbn; lia. Qed.
Lemma pieces_fit_some p : ∃ M, pieces_fit p M.
Proof.
  exists (S maxSlackAttachmentChars + S (len (p_headerLine p) + len (p_newHeader p) + len (p_critHeader p) +
    len (p_diagHeader p) + len (p_stableSummary p) + len (p_resolved p) + sum_list (len <$> p_new p) +
    sum_list (len <$> p_crit p) + sum_list (len <$> p_diag p)))%nat.
  unfold pieces_fit. generalize maxSlackAttachmentChars. intros mx.
  split_and!; [lia|lia|intros r Hr%len_le_sum; lia..|lia|lia].
Qed.

Definition the_text (p : SlackPayload) : string :=
  match Attachments p with a :: _ => Text a | [] => "" end.
(** What a message must contain, in order. *)
Definition message_parts (unfixable : list DeltaDiag) (resolved : list ResolvedDiag) (now : Time) : list string :=
  let p := critical_pieces unfixable resolved now in
  p_new p ++ p_crit p ++ p_diag p ++ optional (p_stableSummary p) ++ optional (p_resolved p).

(** C21: unless there is nothing new and the digest is asked for, the
    messages to the critical channel carry every finding that is new, every
    stable one or the line that stands for them, and the resolved section,
    each whole, once and in this order, under the same title and numbered
    when there are several; and when title, section header and any one
    finding fit [M] bytes, no message is longer than [M] and its number. *)
Theorem critical_messages unfixable resolved cfg now :
  let out := SplitCriticalPayloadsConfig unfixable resolved cfg now in
  let p := critical_pieces unfixable resolved now in
  (NoChangeDigest cfg = true ∧ new_findings unfixable = [] ∧ resolved = [] ∧ (length out ≤ 1)%nat) ∨
  ∃ plan : list (list Seg),
    the_text <$> out =
      imap (λ i segs, title_of unfixable now +:+ part_marker (length plan) i +:+ nl +:+ chunk_body segs) plan ∧
    bodies (concat plan) = message_parts unfixable resolved now ∧
    Forall (λ x, body_of x = None → seg_text x ∈ heads_of p) (concat plan) ∧
    (∀ M, pieces_fit p M →
      Forall (λ segs, len (title_of unfixable now +:+ nl +:+ chunk_body segs) ≤ M)%nat plan).
Proof.
  intros out p. unfold out, SplitCriticalPayloadsConfig.
  destruct (NoChangeDigest cfg && _ && _) eqn:Ed.
  { left. apply andb_true_iff in Ed as [Ed Hr]. apply andb_true_iff in Ed as [Hc Hn].
    apply Nat.eqb_eq, nil_length_inv in Hn, Hr. split_and!; [done..|]. by destruct (_ =? 0)%nat; cbn; lia. }
  right. clear Ed. fold p.
  assert (Hh : p_headerLine p = title_of unfixable now +:+ nl).
  { unfold p, critical_pieces, title_of. cbn [p_headerLine]. by rewrite !sapp_assoc. }
  assert (Hne : p_headerLine p ≠ "") by (rewrite Hh; by destruct (title_of unfixable now)).
  destruct (pieces_fit_some p) as [M0 HM0].
  destruct (split_chunks_spec p M0 Hne HM0) as (plan & Es & Hb & Hheads & _). exists plan. split_and!.
  - rewrite <-list_fmap_compose. change (the_text ∘ _) with (λ t : string, t). rewrite list_fmap_id, Es, Hh.
    by rewrite annotate_spec.
  - exact Hb.
  - exact Hheads.
  - intros M HM. destruct (split_chunks_spec p M Hne HM) as (_ & _ & _ & _ & HF).
    rewrite Es, Hh in HF. apply Forall_fmap in HF. eapply Forall_impl; [exact HF|].
    intros segs. cbn [compose]. by rewrite sapp_assoc.
Qed.

(** A message whose only new findings are warnings is coloured green:
    the stable findings are collapsed before the colour is chosen, so even a
    standing critical finding does not show in it. *)
Theorem new_warnings_post_green unfixable resolved cfg now :
  new_findings unfixable ≠ [] → existsb is_critical (new_findings unfixable) = false →
  let out := SplitCriticalPayloadsConfig unfixable resolved cfg now in
  out ≠ [] ∧ Forall (λ p, Color <$> Attachments p = ["good"]) out.
Proof.
  intros Hn Hc. cbv zeta. unfold SplitCriticalPayloadsConfig.
  assert ((length (new_findings unfixable) =? 0)%nat = false) as -> by by destruct (new_findings unfixable).
  rewrite andb_false_r. cbn [andb]. rewrite Hc. set (p := critical_pieces unfixable resolved now).
  assert (Hcol : payload_color false p = "good").
  { unfold payload_color, p, critical_pieces. cbn [p_crit p_diag].
    assert ((0 <? length (new_findings unfixable))%nat = true) as -> by by destruct (new_findings unfixable).
    destruct (stable_critical unfixable) as [|a la], (stable_other unfixable) as [|b lb]; done. }
  rewrite Hcol. split.
  - assert (Hne : p_headerLine p ≠ "").
    { unfold p, critical_pieces. cbn [p_headerLine]. by destruct (hasActionableFindings unfixable). }
    destruct (pieces_fit_some p) as [M HM]. destruct (split_chunks_spec p M Hne HM) as (plan & Es & Hb & _).
    intros E. apply (f_equal length) in E. rewrite length_fmap in E. unfold annotate in E.
    assert (length (split_chunks p) = 0%nat) as E0 by (destruct (1 <? _)%nat; [by rewrite length_imap in E|done]).
    rewrite Es, length_fmap in E0. apply nil_length_inv in E0. subst plan.
    assert (length (p_new p) = length (new_findings unfixable)) as El by (unfold p; cbn; apply length_fmap).
    change (bodies (concat [])) with (@nil string) in Hb. symmetry in Hb. apply app_eq_nil in Hb as [Hb _].
    rewrite Hb in El. by destruct (new_findings unfixable).
  - apply Forall_fmap, Forall_true. done.
Qed.

(** ** From the cycle to the channels *)

Lemma sconcat_elem l x : x ∈ l → ∃ u v, sconcat l = u +:+ x +:+ v.
Proof.
  induction 1 as [x l|x y l _ (u & v & IH)]; [by exists "", (sconcat l)|].
  exists (y +:+ u), v. change (sconcat (y :: l)) with (y +:+ sconcat l). by rewrite IH, sapp_assoc.
Qed.
Lemma bodies_elem plan r : r ∈ bodies (concat plan) → ∃ segs, segs ∈ plan ∧ r ∈ seg_text <$> segs.
Proof.
  unfold bodies. rewrite list_elem_of_omap. intros (x & Hx & E). apply list_elem_of_In, in_concat in Hx as (segs & Hs%list_elem_of_In & Hx%list_elem_of_In).
  exists segs. split; [done|]. apply list_elem_of_fmap. exists x. by destruct x; [|injection E as ->].
Qed.

(** A finding that is new, or any when nothing is, is a part of the message. *)
Lemma active_part toPost sorted toResolve cfg now d :
  (∀ e, e ∈ sorted → e ∈ toPost) → d ∈ sorted →
  dd_IsNewThisCycle d = true ∨ NoChangeDigest cfg = false ∧ Forall (λ e, dd_IsNewThisCycle e = false) toPost →
  finding_rendered now d ∈ message_parts sorted toResolve now.
Proof.
  intros Hsub Hin Hnew. unfold message_parts, critical_pieces. cbn [p_new p_crit p_diag].
  destruct Hnew as [Hn|[_ HF]].
  { apply elem_of_app. left. by apply list_elem_of_fmap_2, elem_of_bfilter. }
  rewrite Forall_forall in HF. assert (Hstable : new_findings sorted = []).
  { unfold new_findings. destruct (List.filter _ sorted) as [|e l] eqn:E; [done|].
    assert (He : e ∈ List.filter dd_IsNewThisCycle sorted) by (rewrite E; left).
    apply elem_of_bfilter in He as [Hne He]. specialize (HF e (Hsub e He)). congruence. }
  rewrite Hstable. cbn [length Nat.ltb Nat.leb andb fmap list_fmap app].
  pose proof (HF d (Hsub d Hin)) as Hs. rewrite !elem_of_app.
  destruct (is_critical d) eqn:Ec; [left|right; left]; apply list_elem_of_fmap_2, elem_of_bfilter;
    (split; [by rewrite Hs, Ec|done]).
Qed.

(** C34: a finding of the cycle that is still there after the fixers reaches
    the critical channel: its text is whole inside one of the messages
    posted there, if it is new, or if nothing is new and no digest was asked
    for. *)
Theorem active_finding_posted channels postFix toPost toResolve fixResults cfg now d :
  Critical channels ≠ "" → d ∈ toPost → dd_Subject d ∈ postFix →
  dd_IsNewThisCycle d = true ∨ NoChangeDigest cfg = false ∧ Forall (λ e, dd_IsNewThisCycle e = false) toPost →
  ∃ p, (Critical channels, p) ∈ RouteAndPostConfig channels postFix toPost toResolve fixResults cfg now ∧
    Contains (the_text p) (finding_rendered now d) = true.
Proof.
  intros Hch Hd Hfix Hnew. unfold RouteAndPostConfig.
  set (unfixable := List.filter (λ d, bool_decide (dd_Subject d ∈ postFix)) toPost).
  assert (Hin : d ∈ merge_sort post_before unfixable).
  { rewrite merge_sort_Permutation. unfold unfixable. apply elem_of_bfilter. split; [by apply bool_decide_eq_true_2|done]. }
  assert ((0 <? length unfixable)%nat = true) as ->.
  { rewrite merge_sort_Permutation in Hin. clearbody unfixable. destruct unfixable; [by apply elem_of_nil in Hin|reflexivity]. }
  rewrite (bool_decide_eq_false_2 (Critical channels = "")) by done. cbn [negb orb andb].
  set (sorted := merge_sort post_before unfixable) in *.
  assert (Hpart : finding_rendered now d ∈ message_parts sorted toResolve now).
  { apply (active_part toPost _ _ cfg); [|done|done]. intros e. unfold sorted. rewrite merge_sort_Permutation.
    by intros [_ ?]%elem_of_bfilter. }
  destruct (critical_messages sorted toResolve cfg now) as [(Hc & Hn & _)|(plan & Ht & Hb & _)].
  { exfalso. destruct Hnew as [Hnew|[? _]]; [|congruence].
    assert (He : d ∈ new_findings sorted) by by apply elem_of_bfilter. rewrite Hn in He. by apply elem_of_nil in He. }
  rewrite <-Hb in Hpart. apply bodies_elem in Hpart as (segs & Hsegs & Hr).
  apply list_elem_of_lookup in Hsegs as [i Hi].
  assert (Hti : ∃ pl, pl ∈ SplitCriticalPayloadsConfig sorted toResolve cfg now ∧
    the_text pl = title_of sorted now +:+ part_marker (length plan) i +:+ nl +:+ chunk_body segs).
  { apply (f_equal (λ l, l !! i)) in Ht. rewrite list_lookup_fmap, list_lookup_imap, Hi in Ht.
    apply fmap_Some in Ht as (pl & Ep & Etext). exists pl. split; [by eapply list_elem_of_lookup_2|done]. }
  destruct Hti as (pl & Hpl & Htext). exists pl. split.
  - apply elem_of_app. right. by apply list_elem_of_fmap_2.
  - rewrite Htext. apply sconcat_elem in Hr as (u & v & E). apply Contains_spec. unfold chunk_body. rewrite E.
    exists (title_of sorted now +:+ part_marker (length plan) i +:+ nl +:+ u), v. by rewrite !sapp_assoc.
Qed.

(** ** Concrete inputs *)

Definition sample_post (subject severity : string) (isNew : bool) : DeltaDiag :=
  mkDeltaDiag subject severity "crash loop" "" "pods" isNew "" "" "" "" "" "" 0 0 "" "" "".
Lemma active_finding_posted_witness :
  let d := sample_post "Pod/shop/web-0" "critical" true in
  ∃ p, ("https://hooks/critical", p) ∈ RouteAndPostConfig (mkSlackChannels "" "https://hooks/critical")
      {["Pod/shop/web-0"]} [sample_post "Pod/shop/a" "warning" false; d] [] [] (mkCriticalRenderConfig true) sample_t0 ∧
    Contains (the_text p) (finding_rendered sample_t0 d) = true.
Proof.
  apply (active_finding_posted (mkSlackChannels "" "https://hooks/critical")).
  - discriminate.
  - right. left.
  - set_solver.
  - by left.
Defined.
Lemma new_warnings_post_green_witness :
  let out := SplitCriticalPayloadsConfig
    [sample_post "Pod/shop/web-0" "critical" false; sample_post "Pod/shop/a" "warning" true] []
    (mkCriticalRenderConfig false) sample_t0 in
  out ≠ [] ∧ Forall (λ p, Color <$> Attachments p = ["good"]) out.
Proof.
  apply new_warnings_post_green.
  - discriminate.
  - reflexivity.
Defined.
