(* ===== verification/Alertmanager.v ===== *)
(** * Alertmanager: internal/report/alertmanager.go

    The alerts built from the state of a cycle.  A Go map of labels is a
    [gmap]; what is posted is its JSON, and the HTTP exchange its outcome. *)

From stdpp Require Import options.
From S2P Require Import Prelude GoString GoTime GoJson GoNum GoFmt Types DriftReport Watcher Slack.
Local Open Scope Z_scope.

Record AMAlert := mkAMAlert {
  am_Labels : gmap string string;
  am_Annotations : gmap string string;
  StartsAt : Time;
  EndsAt : Time;
}.

Definition truncateLabel (s : string) : string := if (len s <=? 256)%nat then s else stake 253 s +:+ "...".

(** The text before the first slash, and the rest after it. *)
Fixpoint cut_slash (s : string) : option (string * string) :=
  match s with
  | "" => None
  | String c s =>
      if bool_decide (c = "/"%char) then Some ("", s)
      else match cut_slash s with Some (p, r) => Some (String c p, r) | None => None end
  end.
Definition subjectSource (subject : string) : string :=
  match cut_slash subject with
  | None => subject
  | Some (prefix, rest) =>
      if (prefix =s? "Probe") && (rest ≠s? "") then
        match cut_slash rest with Some (p, _) => p | None => rest end
      else prefix
  end.

(** The same loop as slackSilenceName's. *)
Definition silenceSnippetName (subject : string) : string :=
  let name := TrimByte (silence_name_bytes "-" subject) "-" in
  "silence-" +:+ (if (50 <? len name)%nat then stake 50 name else name).
Definition dquote : string := String (chr 34) "".
Definition buildSilenceSnippet (d : DeltaDiag) (ttl : Duration) (now : Time) : string :=
  "kubectl apply -f - <<EOF" +:+ nl +:+
  "apiVersion: srenix.ai/v1alpha1" +:+ nl +:+ "kind: Silence" +:+ nl +:+ "metadata:" +:+ nl +:+
  "  name: " +:+ silenceSnippetName (dd_Subject d) +:+ nl +:+ "  namespace: agentic-sre" +:+ nl +:+
  "spec:" +:+ nl +:+ "  matcher:" +:+ nl +:+ "    subject: " +:+ Quote (dd_Subject d) +:+ nl +:+
  "  until: " +:+ Quote (FormatRFC3339 (Add now ttl)) +:+ nl +:+
  "  reason: " +:+ dquote +:+ "silenced from alert at " +:+ FormatRFC3339 now +:+ dquote +:+ nl +:+ "EOF".

(** [if v != "" { m[k] = v }] *)
Definition set_if (k v : string) (m : gmap string string) : gmap string string := if v ≠s? "" then <[k := v]> m else m.
Definition alert_annotations (d : DeltaDiag) (now : Time) : gmap string string :=
  let m : gmap string string :=
    <["summary" := dd_Message d]> (<["remediation" := RecommendedAction (dd_Investigation d) (dd_Remediation d)]>
      (<["silence_snippet" := buildSilenceSnippet d (24 * Hour) now]> ∅)) in
  let m := set_if "investigation" (dd_Investigation d) m in
  let m := set_if "ai_enrichment" (dd_Enrichment d) m in
  let m := if dd_ApprovalURL d ≠s? "" then
             <["proposed_deny_url" := Replace1 (dd_ApprovalURL d) "/approve?" "/deny?"]>
               (<["proposed_fix_url" := dd_ApprovalURL d]> m)
           else m in
  set_if "proposed_action_id" (dd_ProposedActionID d) m.
Definition alert_labels (clusterName : string) (d : DeltaDiag) : gmap string string :=
  let m : gmap string string :=
    <["alertname" := "srenix_issue"]> (<["severity" := dd_Severity d]> (<["subject" := truncateLabel (dd_Subject d)]>
      (<["source" := truncateLabel (dd_Severity d)]> (<["cluster" := clusterName]> ∅)))) in
  let src := subjectSource (dd_Subject d) in
  if src ≠s? "" then <["source" := src]> m else m.
(** The loop's two [continue]s. *)
Definition fires (d : DeltaDiag) : bool :=
  negb (dd_Severity d =s? "info") && negb ((dd_Severity d ≠s? "critical") && (dd_ApprovalURL d =s? "")).
Definition BuildActiveAlerts (active : list DeltaDiag) (clusterName : string) (ttl : Duration) (now : Time) : list AMAlert :=
  (λ d, mkAMAlert (alert_labels clusterName d) (alert_annotations d now) now (Add now ttl)) <$> List.filter fires active.

Definition fixer_alert (clusterName : string) (now : Time) (fr : FixResult) : list AMAlert :=
  match Actions fr with
  | [] => []
  | a :: rest =>
      let n := length (Actions fr) in
      let desc := ac_Description a +:+ (if (1 <? n)%nat then " (+" +:+ count (n - 1) +:+ " more)" else "") in
      [mkAMAlert
         (<["alertname" := "srenix_fixer_acted"]> (<["severity" := "info"]> (<["fixer" := truncateLabel (Fixer fr)]>
            (<["cluster" := clusterName]> ∅))))
         (<["summary" := "Srenix " +:+ Fixer fr +:+ " applied " +:+ count n +:+ " action(s): " +:+ desc]> ∅)
         now (Add now (30 * Minute))]
  end.
Definition BuildFixerAlerts (fixResults : list FixResult) (clusterName : string) (now : Time) : list AMAlert :=
  fixResults ≫= fixer_alert clusterName now.

(** What is posted; nothing without a URL or without alerts. *)
Definition PostActiveStateToAM (amURL : string) (active : list DeltaDiag) (fixResults : list FixResult)
    (clusterName : string) (ttl : Duration) (now : Time) : option (string * list AMAlert) :=
  if amURL =s? "" then None else
  let alerts := BuildActiveAlerts active clusterName ttl now ++ BuildFixerAlerts fixResults clusterName now in
  if (length alerts =? 0)%nat then None else Some (amURL +:+ "/api/v2/alerts", alerts).
(** The answer of the POST. *)
Inductive AMExchange := AMUnreachable (e : string) | AMHTTP (status : Z) (body : string).
Definition PostAlertmanager_result (url : string) (alerts : list AMAlert) (x : AMExchange) : option string :=
  if (url =s? "") || (length alerts =? 0)%nat then None else
  match x with
  | AMUnreachable e => Some ("post to alertmanager: " +:+ e)
  | AMHTTP status body =>
      if negb (status =? 200) then Some ("alertmanager returned HTTP " +:+ Itoa status +:+ ": " +:+ body) else None
  end.

(** runCycle's call: the state after the fixers, kept alive for more than
    two resyncs. *)
Definition active_diags `{MapRange} (postFix : gmap string seenEntry) : list DeltaDiag :=
  (λ kv, seenEntryToDeltaDiag kv.2) <$> range postFix.
Definition cycle_alerts `{MapRange} (amURL clusterName : string) (ResyncPeriod : Duration)
    (postFix : gmap string seenEntry) (fixResults : list FixResult) (now : Time) : option (string * list AMAlert) :=
  PostActiveStateToAM amURL (active_diags postFix) fixResults (if clusterName =s? "" then "cluster" else clusterName)
    (2 * ResyncPeriod + Minute) now.

(** ** Labels and annotations *)

Definition identity (d : DeltaDiag) : string * string := (dd_Subject d, dd_Severity d).

Lemma alert_labels_identity c d d' : identity d = identity d' → alert_labels c d = alert_labels c d'.
Proof. unfold identity, alert_labels. by intros [= -> ->]. Qed.
Lemma truncateLabel_bound s : (len (truncateLabel s) ≤ 256)%nat.
Proof.
  unfold truncateLabel. destruct (Nat.leb_spec (len s) 256); [done|].
  rewrite sapp_length, stake_length. change (len "...") with 3%nat. lia.
Qed.
Lemma alert_labels_lookup c d :
  let m := alert_labels c d in
  m !! "alertname" = Some "srenix_issue" ∧ m !! "severity" = Some (dd_Severity d) ∧
  m !! "subject" = Some (truncateLabel (dd_Subject d)) ∧ m !! "cluster" = Some c.
Proof.
  cbv zeta. unfold alert_labels.
  destruct (negb _); split_and!; repeat first [by rewrite lookup_insert_eq | rewrite lookup_insert_ne by discriminate].
Qed.
Lemma alert_annotations_lookup d now :
  let m := alert_annotations d now in
  m !! "summary" = Some (dd_Message d) ∧
  m !! "remediation" = Some (RecommendedAction (dd_Investigation d) (dd_Remediation d)) ∧
  m !! "proposed_fix_url" = (if dd_ApprovalURL d ≠s? "" then Some (dd_ApprovalURL d) else None) ∧
  m !! "proposed_deny_url" = (if dd_ApprovalURL d ≠s? "" then Some (deny_of (dd_ApprovalURL d)) else None).
Proof.
  cbv zeta. unfold alert_annotations, set_if.
  destruct (dd_ApprovalURL d ≠s? ""), (dd_Investigation d ≠s? ""), (dd_Enrichment d ≠s? ""), (dd_ProposedActionID d ≠s? "");
    split_and!; repeat first [by rewrite lookup_insert_eq | rewrite lookup_insert_ne by discriminate]; by rewrite lookup_empty.
Qed.

(** The alerts of a cycle are those of the findings that are critical,
    or carry an approval link and are not mere information, one each and in
    order.  Each is firing from now for the whole time to live, is labelled
    with the severity, the subject cut to 256 bytes and the cluster, carries
    the deny link exactly when it carries the approve link, and its labels,
    by which Alertmanager knows it, depend on subject and severity only. *)
Theorem BuildActiveAlerts_correct active cluster ttl now :
  let out := BuildActiveAlerts active cluster ttl now in
  (∀ d, d ∈ List.filter fires active ↔
    d ∈ active ∧ dd_Severity d ≠ "info" ∧ (dd_Severity d = "critical" ∨ dd_ApprovalURL d ≠ "")) ∧
  Forall2 (λ d a,
    StartsAt a = now ∧ EndsAt a = now + ttl ∧
    am_Labels a !! "alertname" = Some "srenix_issue" ∧ am_Labels a !! "severity" = Some (dd_Severity d) ∧
    am_Labels a !! "cluster" = Some cluster ∧
    (∃ s, am_Labels a !! "subject" = Some s ∧ (len s ≤ 256)%nat ∧ ((len (dd_Subject d) ≤ 256)%nat → s = dd_Subject d)) ∧
    am_Annotations a !! "remediation" = Some (RecommendedAction (dd_Investigation d) (dd_Remediation d)) ∧
    am_Annotations a !! "proposed_deny_url" = deny_of <$> am_Annotations a !! "proposed_fix_url" ∧
    (is_Some (am_Annotations a !! "proposed_fix_url") ↔ dd_ApprovalURL d ≠ ""))
    (List.filter fires active) out ∧
  (∀ active' ttl' now', identity <$> List.filter fires active' = identity <$> List.filter fires active →
    am_Labels <$> BuildActiveAlerts active' cluster ttl' now' = am_Labels <$> out).
Proof.
  cbv zeta. split_and!.
  - intros d. rewrite elem_of_bfilter. unfold fires. rewrite andb_true_iff, !negb_true_iff, andb_false_iff, negb_false_iff.
    repeat case_bool_decide; naive_solver.
  - unfold BuildActiveAlerts. apply Forall2_fmap_r, Forall_Forall2_diag, Forall_true. intros d.
    unfold compose. cbn [StartsAt EndsAt am_Labels am_Annotations].
    destruct (alert_labels_lookup cluster d) as (-> & -> & -> & ->).
    destruct (alert_annotations_lookup d now) as (_ & -> & -> & ->).
    split_and!; try done.
    + exists (truncateLabel (dd_Subject d)). split_and!; [done|apply truncateLabel_bound|].
      unfold truncateLabel. by intros ->%Nat.leb_le.
    + by case_bool_decide.
    + case_bool_decide; cbn [negb]; split; intros H'; try done; by destruct H'.
  - intros active' ttl' now'. unfold BuildActiveAlerts. rewrite <-!list_fmap_compose.
    generalize (List.filter fires active'), (List.filter fires active). intros l l'. unfold compose. cbn [am_Labels].
    revert l'. induction l as [|d l IH]; intros [|d' l'] E; try done. cbn [fmap list_fmap] in *.
    injection E as E1 E2 E3. f_equal; [|by apply IH].
    apply alert_labels_identity. unfold identity. congruence.
Qed.

(** ** An alert over the cycles *)

(** What the cycles of a run post, each with its clock and its state after
    the fixers. *)
Definition posted `{MapRange} (amURL cluster : string) (R : Duration) (cycles : list (Time * gmap string seenEntry))
    : list AMAlert :=
  cycles ≫= λ c, default [] (snd <$> cycle_alerts amURL cluster R c.2 [] c.1).
(** Alertmanager holds an alert from its start to its end. *)
Definition firing (t : Time) (alerts : list AMAlert) (labels : gmap string string) : Prop :=
  ∃ a, a ∈ alerts ∧ am_Labels a = labels ∧ StartsAt a <= t < EndsAt a.
Definition keep_alive (R : Duration) : Duration := 2 * R + Minute.
Definition the_cluster (cluster : string) : string := if cluster =s? "" then "cluster" else cluster.
(** The clock does not go back and no two cycles are further apart than an
    alert lasts. *)
Fixpoint spaced (ttl : Duration) (ts : list Time) : Prop :=
  match ts with
  | t :: ((u :: _) as rest) => t <= u <= t + ttl ∧ spaced ttl rest
  | _ => True
  end.

Lemma last_cons_default (v d : Time) ts : List.last (v :: ts) d = List.last ts v.
Proof. revert v d. induction ts as [|u ts IH]; intros v d; [done|]. cbn [List.last] in *. by destruct ts. Qed.
Lemma spaced_covers ttl t0 ts t : 0 < ttl → spaced ttl (t0 :: ts) → t0 <= t < List.last ts t0 + ttl →
  ∃ u, u ∈ t0 :: ts ∧ u <= t < u + ttl.
Proof.
  intros Hp. revert t0. induction ts as [|u ts IH]; intros t0 Hs Ht; [exists t0; split; [left|exact Ht]|].
  destruct Hs as [Hu Hs]. destruct (Z.lt_ge_cases t (t0 + ttl)).
  { exists t0. split; [left|lia]. }
  destruct (IH u Hs) as (v & Hv & Hb).
  - rewrite last_cons_default in Ht. lia.
  - exists v. split; [by right|done].
Qed.

Section a_run.
Context `{MapRange}.

Lemma elem_of_cycle_alerts amURL cluster R now st a : amURL ≠ "" →
  a ∈ default [] (snd <$> cycle_alerts amURL cluster R st [] now) ↔
    a ∈ BuildActiveAlerts (active_diags st) (the_cluster cluster) (keep_alive R) now.
Proof.
  intros Hu. unfold cycle_alerts, PostActiveStateToAM. rewrite bool_decide_eq_false_2 by done.
  unfold BuildFixerAlerts. cbn [mbind list_bind]. rewrite app_nil_r.
  fold (the_cluster cluster). fold (keep_alive R).
  set (l := BuildActiveAlerts _ _ _ _). clearbody l. by destruct l.
Qed.
Lemma elem_of_active_diags st d : d ∈ active_diags st ↔ ∃ k e, st !! k = Some e ∧ d = seenEntryToDeltaDiag e.
Proof.
  unfold active_diags. rewrite list_elem_of_fmap. split.
  - intros ((k & e) & -> & Hin). exists k, e. split; [|done]. by apply elem_of_range.
  - intros (k & e & Hk & ->). exists (k, e). split; [done|]. by apply elem_of_range.
Qed.
Lemma elem_of_posted amURL cluster R cycles a : amURL ≠ "" → a ∈ posted amURL cluster R cycles ↔
  ∃ now st k e, (now, st) ∈ cycles ∧ st !! k = Some e ∧ fires (seenEntryToDeltaDiag e) = true ∧
    a = mkAMAlert (alert_labels (the_cluster cluster) (seenEntryToDeltaDiag e))
          (alert_annotations (seenEntryToDeltaDiag e) now) now (now + keep_alive R).
Proof.
  intros Hu. unfold posted. rewrite list_elem_of_bind. split.
  - intros ([now st] & Ha & Hc). cbn [fst snd] in Ha. rewrite elem_of_cycle_alerts in Ha by done.
    unfold BuildActiveAlerts in Ha. apply list_elem_of_fmap in Ha as (d & -> & [Hf Hd]%elem_of_bfilter).
    apply elem_of_active_diags in Hd as (k & e & Hk & ->). by exists now, st, k, e.
  - intros (now & st & k & e & Hc & Hk & Hf & ->). exists (now, st). split; [|done]. cbn [fst snd].
    rewrite elem_of_cycle_alerts by done. unfold BuildActiveAlerts. apply list_elem_of_fmap.
    exists (seenEntryToDeltaDiag e). split; [done|]. apply elem_of_bfilter. split; [done|].
    apply elem_of_active_diags. by exists k, e.
Qed.
End a_run.

(** C27: through a run of cycles, none further than two resyncs and a minute
    after the one before, an alert for a finding that stays critical is
    firing at every moment from the first cycle until two resyncs and a
    minute after the last: a slow cycle opens no gap.  And nothing is firing
    at a moment that no cycle in that time before it found: a cleared finding
    resolves by itself. *)
Theorem alert_fires_while_active `{MapRange} amURL cluster R now0 st0 cycles k subject :
  amURL ≠ "" → 0 <= R → spaced (keep_alive R) (now0 :: cycles.*1) →
  Forall (λ c, ∃ e, c.2 !! k = Some e ∧ se_subject e = subject ∧
    NormalizeSeverity (se_severity e) (se_source e) = "critical") ((now0, st0) :: cycles) →
  let all := (now0, st0) :: cycles in
  let labels := alert_labels (the_cluster cluster) (mkDeltaDiag subject "critical" "" "" "" false "" "" "" "" "" "" 0 0 "" "" "") in
  (∀ t, now0 <= t < List.last cycles.*1 now0 + keep_alive R → firing t (posted amURL cluster R all) labels) ∧
  (∀ t ls, firing t (posted amURL cluster R all) ls →
    ∃ now st key e, (now, st) ∈ all ∧ t - keep_alive R < now <= t ∧ st !! key = Some e ∧
      fires (seenEntryToDeltaDiag e) = true ∧ ls = alert_labels (the_cluster cluster) (seenEntryToDeltaDiag e)).
Proof.
  intros Hu HR Hs HF. cbv zeta. rewrite Forall_forall in HF. split.
  - intros t Ht. destruct (spaced_covers (keep_alive R) now0 cycles.*1 t) as (u & Hin & Hb); [unfold keep_alive, Minute, Second; lia|done|done|].
    change (now0 :: cycles.*1) with (((now0, st0) :: cycles).*1) in Hin.
    apply list_elem_of_fmap in Hin as ([now st] & -> & Hc). destruct (HF _ Hc) as (e & Hk & Hsub & Hsev). cbn [fst snd] in *.
    eexists. split; [apply elem_of_posted; [done|]; exists now, st, k, e; split_and!; [done|done| |reflexivity]|].
    + unfold fires, seenEntryToDeltaDiag. cbn [dd_Severity]. by rewrite Hsev.
    + cbn [am_Labels StartsAt EndsAt]. split; [|lia]. apply alert_labels_identity.
      unfold identity, seenEntryToDeltaDiag. cbn [dd_Subject dd_Severity]. by rewrite Hsub, Hsev.
  - intros t ls (a & Ha & <- & Ht). apply elem_of_posted in Ha as (now & st & key & e & Hc & Hk & Hf & ->); [|done].
    cbn [am_Labels StartsAt EndsAt] in *. exists now, st, key, e. split_and!; try done; lia.
Qed.

(** ** Concrete inputs *)

Example source_probe : subjectSource "Probe/Critical Services/Service: Web" = "Critical Services".
Proof. reflexivity. Qed.
Example source_plain : (subjectSource "NoSlash", subjectSource "Probe/", subjectSource "Probe/x") = ("NoSlash", "Probe", "x").
Proof. reflexivity. Qed.
Definition sample_active : seenEntry :=
  mkSeenEntry "fp" sample_t0 sample_t0 "Pod/shop/web-0" "critical" "crash loop" "" "pods" "" "" 0 0 "" "" "" "" false.
Lemma alert_fires_while_active_witness :
  let _ := key_order in
  let cycle := λ n : Z, (sample_t0 + n * Minute, {["Pod/shop/web-0" := sample_active]} : gmap string seenEntry) in
  firing (sample_t0 + 9 * Minute + 1)
    (posted "http://am" "prod" Minute [cycle 0; cycle 3; cycle 6; cycle 7])
    (alert_labels "prod" (mkDeltaDiag "Pod/shop/web-0" "critical" "" "" "" false "" "" "" "" "" "" 0 0 "" "" "")).
Proof.
  intros ord cycle.
  apply (alert_fires_while_active (H := ord) "http://am" "prod" Minute (cycle 0).1 (cycle 0).2 [cycle 3; cycle 6; cycle 7]
    "Pod/shop/web-0" "Pod/shop/web-0").
  - discriminate.
  - unfold Minute, Second. lia.
  - unfold cycle, keep_alive, Minute, Second. cbn. lia.
  - repeat constructor; by exists sample_active.
  - unfold cycle, keep_alive, Minute, Second. cbn. lia.
Defined.
