(* ===== verification/Ticketing.v ===== *)
(** * Tickets: internal/report/ticketing.go and ticketing_lifecycle.go

    [RouteTickets] files a ticket for a posted finding or comments on the
    one it has, [RouteResolves] and [RouteTicketCleanup] close tickets; the
    ticket is remembered in status.ticket of the finding's DriftReport.  The
    issue tracker is the class [Sink], pkg/ticketing/sink.go's interface,
    and the DriftReports are behind [ReportStore], the API server.  Every
    routine returns the calls it made to the tracker. *)

From stdpp Require Import options.
From S2P Require Import Prelude GoString GoTime GoJson GoNum GoClock Sha256 Unstructured DriftReport Watcher.
Local Open Scope Z_scope.

(** ** pkg/ticketing *)

Record Ticket := mkTicket {
  tk_Fingerprint : string;
  tk_Title : string;
  tk_Body : string;
  tk_Severity : string;
  tk_Subject : string;
  tk_Cluster : string;
  tk_Labels : list string;
  tk_OpenedAt : Time;
}.
Record TicketRef := mkTicketRef { Provider : string; Key : string; URL : string }.
#[export] Instance TicketRef_eq_dec : EqDecision TicketRef.
Proof. solve_decision. Defined.

Definition Fingerprint (subject cluster : string) : string :=
  let subject := TrimSpace (ToLowerFold subject) in
  let cluster := TrimSpace (ToLowerFold cluster) in
  "srenix-" +:+ hex_encode (stake 8 (Sum256 (cluster +:+ "|" +:+ subject))).

Class Sink (K : Type) := {
  Upsert : K → Ticket → K * (error + TicketRef);
  Comment : K → TicketRef → string → K * option error;
  Resolve : K → TicketRef → string → K * option error;
}.
(** A returned reference names a ticket, is text, and fits the CRD. *)
Definition ref_ok (ref : TicketRef) : bool :=
  (Key ref ≠s? "") && ValidString (Provider ref) && ValidString (Key ref) && ValidString (URL ref) &&
  (len (Provider ref) <=? 32)%nat && (len (Key ref) <=? 64)%nat && (len (URL ref) <=? 1024)%nat.
Class SinkLaw (K : Type) `{!Sink K} :=
  Upsert_ref : ∀ k t ref, (Upsert k t).2 = inr ref → ref_ok ref = true.

(** The DriftReports by name; a status patch that is JSON is merged, or the
    call fails and changes nothing. *)
Class ReportStore (R : Type) := {
  reports_of : R → gmap string json;
  rs_List : R → error + list json;
  rs_PatchStatus : R → string → string → R * option error;
  rs_List_ok : ∀ r items, rs_List r = inr items →
    items ≡ₚ (map_to_list (reports_of r)).*2 ∧ ∀ n cr, reports_of r !! n = Some cr → GetName cr = n;
  rs_Patch_ok : ∀ r n b, reports_of (rs_PatchStatus r n b).1 =
    match (rs_PatchStatus r n b).2, Unmarshal b with
    | None, Some j => alter (patch_status j) n (reports_of r)
    | _, _ => reports_of r
    end;
}.
(** The bounds the CRD sets on status.ticket, and a store that takes every
    status patch within them of a report it has. *)
Definition ticket_schema (body : json) : bool :=
  let fits k n := (len (NestedString body ["status"; "ticket"; k]) <=? n)%nat in
  fits "provider" 32%nat && fits "key" 64%nat && fits "url" 1024%nat && fits "severity" 32%nat.
Class PatchTaker (R : Type) `{!ReportStore R} :=
  patch_taken : ∀ r n b j, is_Some (reports_of r !! n) → Unmarshal b = Some j → ticket_schema j = true →
    (rs_PatchStatus r n b).2 = None.

(** ** Configuration and reading *)

Record TicketingConfig := mkTicketingConfig {
  HasSink : bool;
  tc_Cluster : string;
  tc_Labels : list string;
  ResolveOnClear : bool;
  CommentInterval : Duration;
  MinSeverity : string;
}.

Definition ticketSeverityRank (s : string) : Z :=
  let t := ToLowerFold (TrimSpace s) in
  if t =s? "critical" then 3 else if t =s? "warning" then 2 else if t =s? "info" then 1 else 2.
Definition ticketFloorLabel (c : TicketingConfig) : string :=
  if TrimSpace (MinSeverity c) =s? "" then "critical" else MinSeverity c.
Definition meetsTicketThreshold (c : TicketingConfig) (severity : string) : bool :=
  let floor := if TrimSpace (MinSeverity c) =s? "" then "critical" else MinSeverity c in
  ticketSeverityRank floor <=? ticketSeverityRank severity.

Definition ticket_field (cr : json) (k : string) : string := NestedString cr ["status"; "ticket"; k].
Definition readTicketRef (cr : json) : option TicketRef :=
  let key := ticket_field cr "key" in
  if key =s? "" then None else Some (mkTicketRef (ticket_field cr "provider") key (ticket_field cr "url")).
Definition ticketResolved (cr : json) : bool := NestedBool cr ["status"; "ticket"; "resolved"].
Definition ticketSeverity (cr : json) : string := ticket_field cr "severity".
Definition ticketLastCommentedAt (cr : json) : Time :=
  let s := ticket_field cr "lastCommentedAt" in
  if s =s? "" then zeroTime else default zeroTime (ParseRFC3339 s).
Definition driftReportSeverity (cr : json) : string := NestedString cr ["spec"; "severity"].

Definition index_report (m : gmap string json) (cr : json) : gmap string json :=
  let subj := NestedString cr ["spec"; "subject"] in if subj =s? "" then m else <[subj := cr]> m.
Definition indexDriftReportsBySubject `{ReportStore R} (r : R) : error + gmap string json :=
  match rs_List r with inl e => inl e | inr items => inr (foldl index_report ∅ items) end.

(** ** Texts and patches *)

Definition buildTicketBody (d : DeltaDiag) (cluster runID : string) (now : Time) : string :=
  "**Subject:** `" +:+ dd_Subject d +:+ "`" +:+ para +:+
  "**Severity:** " +:+ dd_Severity d +:+ para +:+
  (if dd_Message d ≠s? "" then "## Diagnostic" +:+ para +:+ dd_Message d +:+ para else "") +:+
  (if dd_Investigation d ≠s? "" then "## Root cause" +:+ para +:+ dd_Investigation d +:+ para else "") +:+
  (if dd_Remediation d ≠s? "" then "## Recommended action" +:+ para +:+ dd_Remediation d +:+ para else "") +:+
  "---" +:+ para +:+ "Cluster: `" +:+ cluster +:+ "` · Run: `" +:+ runID +:+ "` · Filed by Srenix at " +:+
  FormatRFC3339 now.
Definition ticketFromDelta (d : DeltaDiag) (cfg : TicketingConfig) (runID : string) (now : Time) : Ticket :=
  mkTicket (Fingerprint (dd_Subject d) (tc_Cluster cfg)) (truncateAt (dd_Subject d) 200)
    (buildTicketBody d (tc_Cluster cfg) runID now) (dd_Severity d) (dd_Subject d) (tc_Cluster cfg)
    (tc_Labels cfg) now.
Definition comment_foot (cluster runID : string) (now : Time) : string :=
  para +:+ "---" +:+ nl +:+ "Cluster: `" +:+ cluster +:+ "` · Run: `" +:+ runID +:+ "` · " +:+ FormatRFC3339 now.
Definition buildRecurrenceComment (d : DeltaDiag) (cluster runID : string) (wasResolved sevChanged : bool)
    (prevSeverity : string) (now : Time) : string :=
  if wasResolved then
    "**Srenix: condition recurred.** This finding previously cleared and the ticket was resolved; it has reappeared and is active again."
    +:+ para +:+ "**Subject:** `" +:+ dd_Subject d +:+ "`" +:+ nl +:+ "**Severity:** " +:+ dd_Severity d +:+ para +:+
    dd_Message d +:+ comment_foot cluster runID now
  else if sevChanged then
    "**Srenix: severity changed** " +:+ prevSeverity +:+ " → " +:+ dd_Severity d +:+ "." +:+ para +:+
    "**Subject:** `" +:+ dd_Subject d +:+ "`" +:+ para +:+ dd_Message d +:+ comment_foot cluster runID now
  else
    "**Srenix: condition still active.**" +:+ para +:+ "**Subject:** `" +:+ dd_Subject d +:+ "`" +:+ nl +:+
    "**Severity:** " +:+ dd_Severity d +:+ para +:+ dd_Message d +:+ comment_foot cluster runID now.

(** The bodies of the three status patches, keys as json.Marshal sorts them. *)
Definition ticket_patch (fields : list (string * json)) : json :=
  JObj [("status", JObj [("ticket", JObj fields)])].
Definition ref_patch (ref : TicketRef) (severity : string) (now : Time) : json :=
  ticket_patch [("key", JStr (Key ref)); ("openedAt", JStr (FormatRFC3339 now)); ("provider", JStr (Provider ref));
    ("resolved", JBool false); ("severity", JStr severity); ("url", JStr (URL ref))].
Definition resolved_patch (at_ : Time) : json :=
  ticket_patch [("resolved", JBool true); ("resolvedAt", JStr (FormatRFC3339 at_))].
Definition comment_patch (at_ : Time) (severity : string) : json :=
  ticket_patch [("lastCommentedAt", JStr (FormatRFC3339 at_)); ("resolved", JBool false); ("severity", JStr severity)].

(** ** The routines *)

(** A call to the tracker, for the report named [le_cr], with its outcome. *)
Inductive SinkCall :=
  | CallUpsert (t : Ticket) (r : error + TicketRef)
  | CallComment (ref : TicketRef) (body : string) (e : option error)
  | CallResolve (ref : TicketRef) (reason : string) (e : option error).
Record LogEntry := mkLogEntry { le_cr : string; le_at : Time; le_call : SinkCall }.

Section routines.
Context {R K : Type} `{!ReportStore R, !Sink K}.
(** The reports, the tracker and the calls made so far. *)
Definition World : Type := R * K * list LogEntry.

(** [json.Marshal] and PatchStatus; the error is only logged. *)
Definition patch_report (r : R) (name : string) (patch : json) : R * bool :=
  match Marshal patch with
  | None => (r, false)
  | Some body => let '(r, e) := rs_PatchStatus r name body in (r, match e with None => true | Some _ => false end)
  end.

Definition maybeCommentOnRecurrence (cfg : TicketingConfig) (runID : string) (now : Time) (cr : json)
    (d : DeltaDiag) (ref : TicketRef) (w : World) : World :=
  if CommentInterval cfg <=? 0 then w else
  let '(r, k, log) := w in
  let wasResolved := ticketResolved cr in
  let prevSeverity := ticketSeverity cr in
  let sevChanged := (prevSeverity ≠s? "") && (prevSeverity ≠s? dd_Severity d) in
  let last := ticketLastCommentedAt cr in
  let debounced := negb (IsZero last) && (Sub now last <? CommentInterval cfg) in
  if debounced then w else
  let body := buildRecurrenceComment d (tc_Cluster cfg) runID wasResolved sevChanged prevSeverity now in
  let '(k, e) := Comment k ref body in
  let log := log ++ [mkLogEntry (GetName cr) now (CallComment ref body e)] in
  match e with
  | Some _ => (r, k, log)
  | None => ((patch_report r (GetName cr) (comment_patch now (dd_Severity d))).1, k, log)
  end.

(** The body of RouteTickets' loop; the counter is of tickets persisted. *)
Definition route_ticket (cfg : TicketingConfig) (postFixSubjects : gset string) (runID : string) (now : Time)
    (bySubject : gmap string json) (st : World * nat) (d : DeltaDiag) : World * nat :=
  let '(w, created) := st in
  if negb (meetsTicketThreshold cfg (dd_Severity d)) then st
  else if negb (bool_decide (dd_Subject d ∈ postFixSubjects)) then st
  else
    match bySubject !! dd_Subject d with
    | None => st
    | Some cr =>
        match readTicketRef cr with
        | Some existing => (maybeCommentOnRecurrence cfg runID now cr d existing w, created)
        | None =>
            let '(r, k, log) := w in
            let ticket := ticketFromDelta d cfg runID now in
            let '(k, res) := Upsert k ticket in
            let log := log ++ [mkLogEntry (GetName cr) now (CallUpsert ticket res)] in
            match res with
            | inl _ => (r, k, log, created)
            | inr ref =>
                let '(r, ok) := patch_report r (GetName cr) (ref_patch ref (dd_Severity d) now) in
                (r, k, log, if ok then S created else created)
            end
        end
    end.
Definition RouteTickets (cfg : TicketingConfig) (live : bool) (postFixSubjects : gset string)
    (toPost : list DeltaDiag) (runID : string) (now : Time) (w : World) : World * nat :=
  if negb (HasSink cfg) || negb live then (w, 0%nat) else
  match indexDriftReportsBySubject w.1.1 with
  | inl _ => (w, 0%nat)
  | inr bySubject => foldl (route_ticket cfg postFixSubjects runID now bySubject) (w, 0%nat) toPost
  end.

(** Close one ticket and remember it. *)
Definition close_ticket (now : Time) (reason : string) (cr : json) (ref : TicketRef) (st : World * nat)
    : World * nat :=
  let '(r, k, log, n) := st in
  let '(k, e) := Resolve k ref reason in
  let log := log ++ [mkLogEntry (GetName cr) now (CallResolve ref reason e)] in
  match e with
  | Some _ => (r, k, log, n)
  | None => ((patch_report r (GetName cr) (resolved_patch now)).1, k, log, S n)
  end.
Definition resolve_reason (now : Time) : string := "Srenix: condition cleared as of " +:+ FormatRFC3339 now.
Definition resolve_subject (now : Time) (bySubject : gmap string json) (st : World * nat) (subj : string)
    : World * nat :=
  match bySubject !! subj with
  | None => st
  | Some cr =>
      match readTicketRef cr with
      | None => st
      | Some ref => if ticketResolved cr then st else close_ticket now (resolve_reason now) cr ref st
      end
  end.
Definition RouteResolves (cfg : TicketingConfig) (live : bool) (clearedSubjects : list string) (now : Time)
    (w : World) : World * nat :=
  if negb (HasSink cfg) || negb live || negb (ResolveOnClear cfg) then (w, 0%nat)
  else if (length clearedSubjects =? 0)%nat then (w, 0%nat)
  else
    match indexDriftReportsBySubject w.1.1 with
    | inl _ => (w, 0%nat)
    | inr bySubject => foldl (resolve_subject now bySubject) (w, 0%nat) clearedSubjects
    end.

Definition cleanup_reason (cfg : TicketingConfig) (now : Time) : string :=
  "Srenix: closed — finding severity is below the ticketing floor (" +:+ ticketFloorLabel cfg +:+
  "); no human action required. Tracked via DriftReport / Slack only. (" +:+ FormatRFC3339 now +:+ ")".
Definition cleanup_report (cfg : TicketingConfig) (now : Time) (st : World * nat) (kv : string * json)
    : World * nat :=
  match readTicketRef kv.2 with
  | None => st
  | Some ref =>
      if ticketResolved kv.2 then st
      else if meetsTicketThreshold cfg (driftReportSeverity kv.2) then st
      else close_ticket now (cleanup_reason cfg now) kv.2 ref st
  end.
Definition RouteTicketCleanup `{MapRange} (cfg : TicketingConfig) (live : bool) (now : Time) (w : World)
    : World * nat :=
  if negb (HasSink cfg) || negb live || negb (ResolveOnClear cfg) then (w, 0%nat) else
  match indexDriftReportsBySubject w.1.1 with
  | inl _ => (w, 0%nat)
  | inr bySubject => foldl (cleanup_report cfg now) (w, 0%nat) (range bySubject)
  end.
End routines.

(** ** What the patches do to a report *)

Definition scalar (v : json) : bool := match v with JObj _ | JNull => false | _ => true end.

Lemma jassoc_members k o : jassoc k (jmembers o) = o ≫= jmember k.
Proof. by destruct o as [[]|]. Qed.
Lemma merge_scalars fs t : forallb (λ kv, scalar kv.2) fs = true → NoDup fs.*1 →
  ∃ l, merge_patch (JObj fs) t = JObj l ∧
    ∀ k, jassoc k l = match jassoc k fs with Some v => Some v | None => t ≫= jmember k end.
Proof.
  intros Hs Hnd. cbn [merge_patch].
  match goal with |- ∃ l, JObj ?go = _ ∧ _ => set (g := go) end. enough (∀ acc, ∃ l,
    (fix go ms acc := match ms with
       | [] => acc
       | (k, v) :: ms => go ms match v with JNull => jremove k acc | _ => jset k (merge_patch v (jassoc k acc)) acc end
       end) fs acc = l ∧ ∀ k, jassoc k l = match jassoc k fs with Some v => Some v | None => jassoc k acc end) as Hg.
  { destruct (Hg (jmembers t)) as (l & El & Hl). exists l. split; [by rewrite <-El|]. intros k. by rewrite Hl, jassoc_members. }
  clear g. induction fs as [|[k v] fs IH]; intros acc; [by eexists|].
  cbn [forallb snd] in Hs. apply andb_true_iff in Hs as [Hv Hs]. cbn in Hnd. apply NoDup_cons in Hnd as [Hk Hnd].
  assert (merge_patch v (jassoc k acc) = v) as Ev by by destruct v.
  destruct (IH Hs Hnd (jset k v acc)) as (l & El & Hl). exists l. split.
  - rewrite <-El, <-Ev at 1. by destruct v.
  - intros k'. rewrite Hl. cbn [jassoc]. destruct (String.eqb_spec k k') as [->|Hne].
    + destruct (jassoc k' fs) as [v'|] eqn:E; [|by rewrite jassoc_jset].
      exfalso. apply Hk. clear -E. induction fs as [|[k1 v1] fs IH]; [done|]. cbn in E |- *.
      destruct (String.eqb_spec k1 k') as [->|]; [left|right; by apply IH].
    + by rewrite jassoc_jset_ne.
Qed.

Lemma ticket_patched fs obj k : (∃ l, obj = JObj l) → forallb (λ kv, scalar kv.2) fs = true → NoDup fs.*1 →
  jpath ["status"; "ticket"; k] (patch_status (ticket_patch fs) obj) =
    match jassoc k fs with Some v => Some v | None => jpath ["status"; "ticket"; k] obj end.
Proof.
  intros [l ->] Hs Hnd. cbn [patch_status ticket_patch jmember jassoc String.eqb Ascii.eqb Bool.eqb].
  cbn [jpath jmember]. rewrite jassoc_jset. cbn [mbind option_bind merge_patch jmembers].
  set (t := jassoc "ticket" (jmembers (jassoc "status" l))).
  destruct (merge_scalars fs t Hs Hnd) as (l' & El & Hl). cbn [merge_patch] in El. rewrite El.
  cbn [jmember]. rewrite jassoc_jset. cbn [jmember mbind option_bind]. rewrite Hl.
  unfold t. rewrite jassoc_members. by destruct (jassoc k fs), (jassoc "status" l) as [st|];
    cbn; [..|destruct (jmember "ticket" st) as [x|]; cbn; [destruct (jmember k x)|]|].
Qed.

Lemma object_path obj k p : NestedString obj (k :: p) ≠ "" → ∃ l, obj = JObj l.
Proof. by destruct obj; eauto. Qed.

(** ** The life of a ticket *)

(** What a report remembers of its ticket. *)
Inductive TState := Untracked | Tracked (ref : TicketRef) (resolved : bool) (last : Time).
Definition cr_view (cr : json) : TState :=
  match readTicketRef cr with
  | Some ref => Tracked ref (ticketResolved cr) (ticketLastCommentedAt cr)
  | None => Untracked
  end.
Definition view (m : gmap string json) (n : string) : TState :=
  match m !! n with Some cr => cr_view cr | None => Untracked end.

(** The calls that went through, for one report. *)
Inductive TAct := AFile (ref : TicketRef) | AComment (ref : TicketRef) (at_ : Time) | AClose (ref : TicketRef).
Definition act_of (e : LogEntry) : option TAct :=
  match le_call e with
  | CallUpsert _ (inr ref) => Some (AFile ref)
  | CallComment ref _ None => Some (AComment ref (le_at e))
  | CallResolve ref _ None => Some (AClose ref)
  | _ => None
  end.
Definition acts (n : string) (log : list LogEntry) : list TAct :=
  omap (λ e, if le_cr e =s? n then act_of e else None) log.

(** A time as a timestamp keeps it. *)
Definition stamp (t : Time) : Time := t / Second * Second.

(** A clock after the first second of year 1 and before the year 10000. *)
Definition clock_ok (t : Time) : Prop := Second ≤ t < year10000.
Lemma clock_range t : clock_ok t → 0 ≤ t < year10000.
Proof. unfold clock_ok, Second. lia. Qed.

(** A ticket is filed once, then commented on no more often than the
    interval allows, closed when open and opened again by a comment; with
    [lost] the report may be deleted, and the ticket is then forgotten. *)
Inductive life (interval : Duration) (lost : bool) : TState → list TAct → TState → Prop :=
  | life_nil v : life interval lost v [] v
  | life_lost v l v' : lost = true → life interval lost Untracked l v' → life interval lost v l v'
  | life_file ref last l v' :
      life interval lost (Tracked ref false last) l v' → life interval lost Untracked (AFile ref :: l) v'
  | life_comment ref resolved last t l v' :
      0 < interval → clock_ok t → last = zeroTime ∨ interval ≤ Sub t last →
      life interval lost (Tracked ref false (stamp t)) l v' →
      life interval lost (Tracked ref resolved last) (AComment ref t :: l) v'
  | life_close ref last l v' :
      life interval lost (Tracked ref true last) l v' →
      life interval lost (Tracked ref false last) (AClose ref :: l) v'.

Lemma life_app i lost v l v' l' v'' : life i lost v l v' → life i lost v' l' v'' → life i lost v (l ++ l') v''.
Proof. induction 1; intros Hl; [done|cbn; eauto using life_lost, life_file, life_comment, life_close..]. Qed.
Lemma acts_app n l l' : acts n (l ++ l') = acts n l ++ acts n l'.
Proof. apply omap_app. Qed.

(** The views after the three patches. *)
Lemma view_ref ref sev now cr : (∃ l, cr = JObj l) → Key ref ≠ "" →
  ∃ last, cr_view (patch_status (ref_patch ref sev now) cr) = Tracked ref false last.
Proof.
  intros Ho Hk. unfold cr_view, readTicketRef, ticketResolved, ticketLastCommentedAt, ticket_field, NestedString, NestedBool, ref_patch.
  rewrite !ticket_patched by (done || (vm_compute; repeat constructor; set_solver)).
  cbn [jassoc String.eqb Ascii.eqb Bool.eqb as_string]. rewrite bool_decide_eq_false_2 by done.
  destruct ref. eexists. reflexivity.
Qed.
Lemma view_resolved t cr ref : readTicketRef cr = Some ref →
  cr_view (patch_status (resolved_patch t) cr) = Tracked ref true (ticketLastCommentedAt cr).
Proof.
  intros Hr. assert (Ho : ∃ l, cr = JObj l).
  { unfold readTicketRef in Hr. case_bool_decide as Hk; [done|]. by apply object_path in Hk. }
  unfold cr_view, readTicketRef, ticketResolved, ticketLastCommentedAt, ticket_field, NestedString, NestedBool, resolved_patch in *.
  rewrite !ticket_patched by (done || (vm_compute; repeat constructor; set_solver)).
  cbn [jassoc String.eqb Ascii.eqb Bool.eqb as_string]. by rewrite Hr.
Qed.
Lemma view_comment t sev cr ref : readTicketRef cr = Some ref → 0 ≤ t < year10000 →
  cr_view (patch_status (comment_patch t sev) cr) = Tracked ref false (stamp t).
Proof.
  intros Hr Ht. assert (Ho : ∃ l, cr = JObj l).
  { unfold readTicketRef in Hr. case_bool_decide as Hk; [done|]. by apply object_path in Hk. }
  unfold cr_view, readTicketRef, ticketResolved, ticketLastCommentedAt, ticket_field, NestedString, NestedBool, comment_patch in *.
  rewrite !ticket_patched by (done || (vm_compute; repeat constructor; set_solver)).
  cbn [jassoc String.eqb Ascii.eqb Bool.eqb as_string]. rewrite Hr, Parse_Format by done.
  rewrite bool_decide_eq_false_2; [done|]. intros E. pose proof (Parse_Format t Ht) as P. by rewrite E in P.
Qed.

(** What the index holds. *)
Section indexed.
Context {R : Type} `{!ReportStore R}.

Lemma index_spec (r : R) bySubject : indexDriftReportsBySubject r = inr bySubject →
  ∀ subj cr, bySubject !! subj = Some cr →
    NestedString cr ["spec"; "subject"] = subj ∧ subj ≠ "" ∧ reports_of r !! GetName cr = Some cr.
Proof.
  unfold indexDriftReportsBySubject. destruct (rs_List r) as [|items] eqn:El; intros E; [done|].
  injection E as <-. destruct (rs_List_ok r items El) as [Hp Hn].
  assert (Hin : ∀ cr, cr ∈ items → reports_of r !! GetName cr = Some cr).
  { intros cr. rewrite Hp, list_elem_of_fmap. intros ([n cr'] & -> & Hc%elem_of_map_to_list). cbn [snd].
    by rewrite (Hn n cr' Hc). }
  clear Hp El. assert (Hg : ∀ m, (∀ subj cr, m !! subj = Some cr →
      NestedString cr ["spec"; "subject"] = subj ∧ subj ≠ "" ∧ reports_of r !! GetName cr = Some cr) →
    ∀ subj cr, foldl index_report m items !! subj = Some cr →
      NestedString cr ["spec"; "subject"] = subj ∧ subj ≠ "" ∧ reports_of r !! GetName cr = Some cr); [|by apply Hg].
  induction items as [|x l IH]; intros m Hm; [done|]. cbn [foldl]. apply IH; [set_solver|]. intros subj cr.
  unfold index_report. case_bool_decide as Hs; [apply Hm|]. intros [[<- <-]|[_ Hc]]%lookup_insert_Some; [|by apply Hm].
  split_and!; [done..|]. apply Hin. set_solver.
Qed.

Variables (r : R) (bySubject : gmap string json).
Hypothesis Hix : indexDriftReportsBySubject r = inr bySubject.

#[local] Set Default Proof Using "All".
Lemma index_current (subs : list string) cr : cr ∈ omap (λ s, bySubject !! s) subs → reports_of r !! GetName cr = Some cr.
Proof. rewrite list_elem_of_omap. intros (s & _ & Hc). by destruct (index_spec r bySubject Hix s cr Hc) as (_ & _ & ?). Qed.
Lemma index_distinct (subs : list string) : NoDup subs → NoDup (GetName <$> omap (λ s, bySubject !! s) subs).
Proof.
  induction 1 as [|s subs Hs Hnd IH]; [constructor|]. cbn [omap list_omap].
  destruct (bySubject !! s) as [cr|] eqn:Ec; [|done]. rewrite fmap_cons. constructor; [|done].
  rewrite list_elem_of_fmap. intros (cr' & En & Hc').
  pose proof (index_current subs cr' Hc') as H1. apply list_elem_of_omap in Hc' as (s' & Hs' & Hc').
  destruct (index_spec r bySubject Hix s cr Ec) as (E & _ & H2). destruct (index_spec r bySubject Hix s' cr' Hc') as (E' & _ & _).
  rewrite En in H2. rewrite H1 in H2. injection H2 as ->. congruence.
Qed.

End indexed.

#[local] Set Default Proof Using "Type*".
Section lifecycle.
Context {R K : Type} `{!ReportStore R, !PatchTaker R, !Sink K, !SinkLaw K}.
Implicit Types w : World (R := R) (K := K).

Definition stored w : gmap string json := reports_of w.1.1.
Definition advances (i : Duration) (lost : bool) (n : string) w w' : Prop :=
  ∃ l, w'.2 = w.2 ++ l ∧ life i lost (view (stored w) n) (acts n l) (view (stored w') n).
(** A step that concerns one current report only. *)
Definition touches (i : Duration) (lost : bool) (cr : json) w w' : Prop :=
  stored w !! GetName cr = Some cr →
  (∀ n, n ≠ GetName cr → stored w' !! n = stored w !! n) ∧
  ∃ l, w'.2 = w.2 ++ l ∧ (∀ n, n ≠ GetName cr → acts n l = []) ∧
    life i lost (cr_view cr) (acts (GetName cr) l) (view (stored w') (GetName cr)).

Lemma advances_refl i lost n w : advances i lost n w w.
Proof. exists []. split; [by rewrite app_nil_r|constructor]. Qed.
Lemma advances_trans i lost n w1 w2 w3 : advances i lost n w1 w2 → advances i lost n w2 w3 → advances i lost n w1 w3.
Proof.
  intros (l & E & H) (l' & E' & H'). exists (l ++ l'). split; [by rewrite E', E, app_assoc|].
  rewrite acts_app. by eapply life_app.
Qed.
Lemma touches_refl i lost cr w : touches i lost cr w w.
Proof.
  intros Hc. split; [done|]. exists []. split; [by rewrite app_nil_r|]. split; [done|].
  unfold view. rewrite Hc. constructor.
Qed.
Lemma touches_advances i lost cr w w' n : stored w !! GetName cr = Some cr → touches i lost cr w w' → advances i lost n w w'.
Proof.
  intros Hc Ht. destruct (Ht Hc) as (Hne & l & El & Hl & Hlife). exists l. split; [done|].
  destruct (decide (n = GetName cr)) as [->|Hn].
  - unfold view at 1. by rewrite Hc.
  - rewrite Hl by done. unfold view. rewrite Hne by done. constructor.
Qed.

(** A loop over items of different current reports. *)
Lemma pass {X} i lost (h : World * nat → X → World * nat) (target : X → option json) xs :
  (∀ st x, target x = None → h st x = st) →
  (∀ st x cr, x ∈ xs → target x = Some cr → touches i lost cr st.1 (h st x).1) →
  NoDup (GetName <$> omap target xs) →
  ∀ st, (∀ cr, cr ∈ omap target xs → stored st.1 !! GetName cr = Some cr) →
  ∀ n, advances i lost n st.1 (foldl h st xs).1.
Proof.
  intros Hnone. induction xs as [|x xs IH]; intros Ht Hnd st Hcur n; [apply advances_refl|]. cbn [foldl].
  cbn [omap list_omap] in Hnd, Hcur. destruct (target x) as [cr|] eqn:Ex.
  - rewrite fmap_cons in Hnd. apply NoDup_cons in Hnd as [Hout Hnd].
    pose proof (Hcur cr ltac:(by left)) as Hc. pose proof (Ht st x cr ltac:(by left) Ex) as Hx.
    eapply advances_trans; [by eapply touches_advances|]. apply IH; [|done|].
    + intros st' x' cr' Hin. apply Ht. by right.
    + intros cr' Hcr'. destruct (Hx Hc) as [Hne _]. rewrite Hne; [apply Hcur; by right|].
      intros E. apply Hout. rewrite <-E. by apply list_elem_of_fmap_2.
  - rewrite Hnone by done. apply IH; [|done..]. intros st' x' cr' Hin. apply Ht. by right.
Qed.

Lemma patch_report_ok (r : R) n j cr : reports_of r !! n = Some cr → wf_json j = true → ticket_schema j = true →
  (patch_report r n j).2 = true ∧ reports_of (patch_report r n j).1 = <[n := patch_status j cr]> (reports_of r).
Proof.
  intros Hc Hw Hs. pose proof (Unmarshal_Marshal j Hw) as Hm. unfold patch_report.
  destruct (Marshal j) as [body|]; [|done]. cbn [mbind option_bind] in Hm.
  pose proof (patch_taken r n body j ltac:(by eexists) Hm Hs) as He. pose proof (rs_Patch_ok r n body) as Hp.
  rewrite He, Hm in Hp. destruct (rs_PatchStatus r n body) as [r' e]. cbn in He, Hp |- *. subst e. split; [done|].
  rewrite Hp. by apply alter_insert_id.
Qed.

(** A successful call whose patch leaves the view [v]. *)
Lemma touches_patched i lost cr (r : R) (k k' : K) log entry patch a v :
  le_cr entry = GetName cr → act_of entry = Some a → wf_json patch = true → ticket_schema patch = true →
  cr_view (patch_status patch cr) = v → life i lost (cr_view cr) [a] v →
  touches i lost cr (r, k, log) ((patch_report r (GetName cr) patch).1, k', log ++ [entry]).
Proof.
  intros Hn Ha Hw Hs Hv Hl Hc. unfold stored in *. cbn [fst snd] in *.
  destruct (patch_report_ok r (GetName cr) patch cr Hc Hw Hs) as [_ ->]. split.
  { intros n Hne. by rewrite lookup_insert_ne. }
  exists [entry]. split; [done|]. unfold acts. cbn [omap list_omap]. rewrite Hn, bool_decide_eq_true_2, Ha by done. split.
  - intros n Hne. by rewrite bool_decide_eq_false_2.
  - unfold view. by rewrite lookup_insert_eq, Hv.
Qed.
(** A failed call. *)
Lemma touches_failed i lost cr (r : R) (k k' : K) log entry : act_of entry = None →
  touches i lost cr (r, k, log) (r, k', log ++ [entry]).
Proof.
  intros Ha Hc. split; [done|]. exists [entry]. split; [done|].
  assert (∀ n, acts n [entry] = []) as E.
  { intros n. unfold acts. cbn [omap list_omap]. rewrite Ha. by destruct (_ =s? _). }
  split; [done|]. rewrite E. unfold view, stored in *. cbn [fst] in *. rewrite Hc. constructor.
Qed.


(** What a cycle hands over: severities of the enum. *)
Lemma severity_bounds sev : sev ∈ severity_enum → ValidString sev = true ∧ (len sev <=? 32)%nat = true.
Proof. intros Hs. split; in_literals Hs. Qed.

Lemma resolved_patch_ok t : wf_json (resolved_patch t) = true ∧ ticket_schema (resolved_patch t) = true.
Proof.
  split; [|done]. unfold resolved_patch, ticket_patch. cbn [wf_json forallb fst snd].
  by rewrite FormatRFC3339_valid.
Qed.
Lemma comment_patch_ok t sev : sev ∈ severity_enum →
  wf_json (comment_patch t sev) = true ∧ ticket_schema (comment_patch t sev) = true.
Proof.
  intros [Hv Hl]%severity_bounds. unfold comment_patch, ticket_patch. split.
  - cbn [wf_json forallb fst snd]. by rewrite FormatRFC3339_valid, Hv.
  - unfold ticket_schema, NestedString. cbn [jpath jmember jassoc String.eqb Ascii.eqb Bool.eqb mbind option_bind as_string].
    rewrite Hl. done.
Qed.
Lemma ref_patch_ok ref t sev : ref_ok ref = true → sev ∈ severity_enum →
  wf_json (ref_patch ref sev t) = true ∧ ticket_schema (ref_patch ref sev t) = true.
Proof.
  unfold ref_ok. rewrite !andb_true_iff. intros ((((((Hk & Hp) & Hkv) & Hu) & Lp) & Lk) & Lu) [Hv Hl]%severity_bounds.
  unfold ref_patch, ticket_patch. split.
  - cbn [wf_json forallb fst snd]. by rewrite FormatRFC3339_valid, Hp, Hkv, Hu, Hv.
  - unfold ticket_schema, NestedString. cbn [jpath jmember jassoc String.eqb Ascii.eqb Bool.eqb mbind option_bind as_string].
    by rewrite Lp, Lk, Lu, Hl.
Qed.

(** *** The three calls *)

Lemma close_touches i lost now reason cr ref st : readTicketRef cr = Some ref → ticketResolved cr = false →
  touches i lost cr st.1 (close_ticket now reason cr ref st).1.
Proof.
  intros Hr Hres. destruct st as [[[r k] log] m]. unfold close_ticket. cbn [fst].
  destruct (Resolve k ref reason) as [k' [e|]]; cbn [fst]; [by apply touches_failed|].
  destruct (resolved_patch_ok now). eapply touches_patched; [done..|by apply view_resolved|].
  unfold cr_view. rewrite Hr, Hres. apply life_close. constructor.
Qed.
Lemma comment_touches cfg lost runID now cr d ref w : clock_ok now → dd_Severity d ∈ severity_enum →
  readTicketRef cr = Some ref →
  touches (CommentInterval cfg) lost cr w (maybeCommentOnRecurrence cfg runID now cr d ref w).
Proof.
  intros Hnow Hsev Hr. unfold maybeCommentOnRecurrence. destruct (Z.leb_spec (CommentInterval cfg) 0); [apply touches_refl|].
  destruct w as [[r k] log]. destruct (negb _ && _) eqn:Edeb; [apply touches_refl|].
  destruct (Comment k ref _) as [k' [e|]]; [by apply touches_failed|].
  destruct (comment_patch_ok now (dd_Severity d) Hsev).
  eapply touches_patched; [done..|by eapply view_comment, clock_range|].
  unfold cr_view. rewrite Hr. apply life_comment; [done..| |constructor].
  unfold IsZero in Edeb. bool_to_prop. destruct Edeb as [?|?]; [left|right]; by bool_to_prop.
Qed.
Lemma route_touches cfg lost postFix runID now bySubject st d cr : clock_ok now → dd_Severity d ∈ severity_enum →
  bySubject !! dd_Subject d = Some cr → (∃ l, cr = JObj l) →
  touches (CommentInterval cfg) lost cr st.1 (route_ticket cfg postFix runID now bySubject st d).1.
Proof.
  intros Hnow Hsev Hcr Ho. destruct st as [[[r k] log] m]. unfold route_ticket. cbn [fst].
  destruct (negb _); [apply touches_refl|]. destruct (negb _); [apply touches_refl|]. rewrite Hcr.
  destruct (readTicketRef cr) as [ref|] eqn:Hr; [by apply comment_touches|].
  pose proof (Upsert_ref k (ticketFromDelta d cfg runID now)) as Hu.
  destruct (Upsert k _) as [k' [e|ref]]; cbn [fst]; [by apply touches_failed|].
  specialize (Hu ref eq_refl). destruct (ref_patch_ok ref now (dd_Severity d) Hu Hsev) as [Hw Hs].
  assert (Hk : Key ref ≠ "") by (unfold ref_ok in Hu; by bool_to_prop).
  destruct (view_ref ref (dd_Severity d) now cr Ho Hk) as [last Hv].
  assert (Ht : touches (CommentInterval cfg) lost cr (r, k, log)
    ((patch_report r (GetName cr) (ref_patch ref (dd_Severity d) now)).1, k',
     log ++ [mkLogEntry (GetName cr) now (CallUpsert (ticketFromDelta d cfg runID now) (inr ref))])).
  { eapply touches_patched; [done..|exact Hv|]. unfold cr_view at 1. rewrite Hr. eapply life_file. constructor. }
  destruct (patch_report r _ _) as [r' ok]. exact Ht.
Qed.

(** *** The three loops *)

Lemma omap_subjects {X} (f : X → string) (m : gmap string json) (l : list X) :
  omap (λ x, m !! f x) l = omap (λ s, m !! s) (f <$> l).
Proof. induction l as [|x l IH]; [done|]. cbn. rewrite IH. done. Qed.

Lemma RouteTickets_life cfg live postFix toPost runID now w lost n :
  clock_ok now → NoDup (dd_Subject <$> toPost) → Forall (λ d, dd_Severity d ∈ severity_enum) toPost →
  advances (CommentInterval cfg) lost n w (RouteTickets cfg live postFix toPost runID now w).1.
Proof.
  intros Hnow Hnd Hsev. unfold RouteTickets. destruct (_ || _); [apply advances_refl|].
  destruct (indexDriftReportsBySubject w.1.1) as [|bySubject] eqn:Ei; [apply advances_refl|].
  apply (pass (CommentInterval cfg) lost _ (λ d, bySubject !! dd_Subject d) toPost).
  - intros [w' m] d Hd. unfold route_ticket. rewrite Hd. destruct (negb _); [done|]. by destruct (negb _).
  - intros st d cr Hd Hcr. rewrite Forall_forall in Hsev. apply route_touches; [done|by apply Hsev|done|].
    destruct (index_spec _ _ Ei _ _ Hcr) as (E & Hne & _). rewrite <-E in Hne. by apply object_path in Hne.
  - rewrite omap_subjects. by eapply index_distinct.
  - intros cr. rewrite omap_subjects. by apply index_current.
Qed.
Lemma RouteResolves_life i cfg live cleared now w lost n : NoDup cleared →
  advances i lost n w (RouteResolves cfg live cleared now w).1.
Proof.
  intros Hnd. unfold RouteResolves. destruct (_ || _); [apply advances_refl|].
  destruct (_ =? _)%nat; [apply advances_refl|].
  destruct (indexDriftReportsBySubject w.1.1) as [|bySubject] eqn:Ei; [apply advances_refl|].
  apply (pass i lost _ (λ s, bySubject !! s) cleared).
  - intros st s Hs. unfold resolve_subject. by rewrite Hs.
  - intros st s cr _ Hcr. unfold resolve_subject. rewrite Hcr.
    destruct (readTicketRef cr) as [ref|] eqn:Hr; [|apply touches_refl].
    destruct (ticketResolved cr) eqn:Hres; [apply touches_refl|by apply close_touches].
  - by eapply index_distinct.
  - by apply index_current.
Qed.
Lemma RouteTicketCleanup_life `{MapRange} i cfg live now w lost n :
  advances i lost n w (RouteTicketCleanup cfg live now w).1.
Proof.
  unfold RouteTicketCleanup. destruct (_ || _); [apply advances_refl|].
  destruct (indexDriftReportsBySubject w.1.1) as [|bySubject] eqn:Ei; [apply advances_refl|].
  assert (Eo : omap (λ kv : string * json, Some kv.2) (range bySubject) = omap (λ s, bySubject !! s) (range bySubject).*1).
  { rewrite <-omap_subjects. apply list_omap_ext. apply Forall_Forall2_diag, Forall_forall.
    intros [k v] Hk%elem_of_range. cbn. by rewrite Hk. }
  apply (pass i lost _ (λ kv, Some kv.2) (range bySubject)).
  - done.
  - intros st [k cr] x _ [= <-]. unfold cleanup_report. cbn [snd].
    destruct (readTicketRef cr) as [ref|] eqn:Hr; [|apply touches_refl].
    destruct (ticketResolved cr) eqn:Hres; [apply touches_refl|].
    destruct (meetsTicketThreshold _ _); [apply touches_refl|by apply close_touches].
  - rewrite Eo. eapply index_distinct; [done|]. apply NoDup_range_fst.
  - rewrite Eo. by apply index_current.
Qed.

(** *** Cycles *)

(** What the watcher hands over in a cycle; [tc_between] is what happens to
    the reports between closing and filing, which is Reconcile. *)
Record TicketCycle := mkTicketCycle {
  tc_cleared : list string;
  tc_resolveAt : Time;
  tc_between : R → R;
  tc_postFix : gset string;
  tc_toPost : list DeltaDiag;
  tc_runID : string;
  tc_fileAt : Time;
}.
Definition ticket_cycle `{MapRange} (cfg : TicketingConfig) (w : World) (c : TicketCycle) : World :=
  let w := (RouteResolves cfg true (tc_cleared c) (tc_resolveAt c) w).1 in
  let w := (RouteTicketCleanup cfg true (tc_resolveAt c) w).1 in
  let '(r, k, log) := w in
  (RouteTickets cfg true (tc_postFix c) (tc_toPost c) (tc_runID c) (tc_fileAt c) (tc_between c r, k, log)).1.
Definition ticket_cycles `{MapRange} (cfg : TicketingConfig) (w : World) (cs : list TicketCycle) : World :=
  foldl (ticket_cycle cfg) w cs.

(** The subjects come from maps, the severities from NormalizeSeverity. *)
Definition cycle_ok (c : TicketCycle) : Prop :=
  clock_ok (tc_fileAt c) ∧ NoDup (tc_cleared c) ∧ NoDup (dd_Subject <$> tc_toPost c) ∧
  Forall (λ d, dd_Severity d ∈ severity_enum) (tc_toPost c).
(** Reconcile does not write status.ticket; with [lost] it may delete the
    report [n] or make it anew. *)
Definition between_ok (lost : bool) (n : string) (c : TicketCycle) : Prop :=
  ∀ r, view (reports_of (tc_between c r)) n = view (reports_of r) n ∨
       lost = true ∧ view (reports_of (tc_between c r)) n = Untracked.

Lemma ticket_cycle_life `{MapRange} cfg lost n w c : cycle_ok c → between_ok lost n c →
  advances (CommentInterval cfg) lost n w (ticket_cycle cfg w c).
Proof.
  intros (Hnow & Hcl & Hnd & Hsev) Hb. unfold ticket_cycle.
  pose proof (RouteResolves_life (CommentInterval cfg) cfg true (tc_cleared c) (tc_resolveAt c) w lost n Hcl) as H1'.
  set (w1 := (RouteResolves cfg true (tc_cleared c) (tc_resolveAt c) w).1) in *.
  pose proof (RouteTicketCleanup_life (CommentInterval cfg) cfg true (tc_resolveAt c) w1 lost n) as H2'.
  destruct (RouteTicketCleanup cfg true (tc_resolveAt c) w1).1 as [[r k] log].
  eapply advances_trans; [exact H1'|]. eapply advances_trans; [exact H2'|].
  eapply advances_trans; [|by apply RouteTickets_life].
  exists []. split; [by rewrite app_nil_r|]. unfold stored. cbn [fst].
  destruct (Hb r) as [-> | [Hl ->]]; [constructor|]. apply life_lost; [done|constructor].
Qed.
Lemma ticket_cycles_life `{MapRange} cfg lost n cs : ∀ w,
  (∀ c, c ∈ cs → cycle_ok c ∧ between_ok lost n c) →
  advances (CommentInterval cfg) lost n w (ticket_cycles cfg w cs).
Proof.
  induction cs as [|c cs IH]; intros w Hcs; [apply advances_refl|]. cbn [ticket_cycles foldl].
  destruct (Hcs c ltac:(by left)). eapply advances_trans; [by apply ticket_cycle_life|].
  apply IH. intros c' Hc'. apply Hcs. by right.
Qed.


End lifecycle.

(** ** Consequences of the automaton *)

Definition comment_times (l : list TAct) : list Time :=
  omap (λ a, match a with AComment _ t => Some t | _ => None end) l.
Definition gap (i : Duration) (t1 t2 : Time) : Prop := i ≤ Sub t2 (stamp t1).
Definition is_file (a : TAct) : Prop := match a with AFile _ => True | _ => False end.
Definition is_close (a : TAct) : Prop := match a with AClose _ => True | _ => False end.

Lemma stamp_nonzero t : clock_ok t → stamp t ≠ zeroTime.
Proof.
  intros [Ht _]. unfold stamp, zeroTime.
  assert (0 < t / Second) by (apply Z.div_str_pos; done). unfold Second in *. lia.
Qed.
Lemma life_tracked i v l v' : life i false v l v' →
  match v with
  | Tracked _ resolved last =>
      (∀ a, a ∈ l → ¬ is_file a) ∧
      Sorted (gap i) (comment_times l) ∧
      (last ≠ zeroTime → ∀ t ts, comment_times l = t :: ts → i ≤ Sub t last) ∧
      (resolved = true → ∀ a l', l = a :: l' → ¬ is_close a) ∧
      (∀ pre a b post, l = pre ++ a :: b :: post → ¬ (is_close a ∧ is_close b))
  | Untracked => l = [] ∨ ∃ ref last l', l = AFile ref :: l' ∧ life i false (Tracked ref false last) l' v'
  end.
Proof.
  induction 1 as [v|v l v' E|ref last l v' Hl IH|ref resolved last t l v' Hi Ht Hlast Hl IH|ref last l v' Hl IH]; [|done|..].
  - destruct v as [|ref resolved last]; [by left|]. split_and!; [set_solver|constructor|done..|].
    intros [] a b post E; discriminate E.
  - right. eauto.
  - destruct IH as (Hf & Hs & Hd & _ & Hc). split_and!.
    + intros a [->|Ha]%elem_of_cons; [by intros []|by apply Hf].
    + cbn. constructor; [done|]. fold (comment_times l). destruct (comment_times l) as [|t2 ts]; constructor.
      exact (Hd (stamp_nonzero t Ht) t2 ts eq_refl).
    + intros Hz t0 ts [= <- _]. by destruct Hlast.
    + intros _ a l' [= <- _]. by intros [].
    + intros [|p pre] a b post E; injection E as <- E; [by intros [? _]|by eapply Hc].
  - destruct IH as (Hf & Hs & Hd & Hr & Hc). split_and!; [|done|done|done|].
    + intros a [->|Ha]%elem_of_cons; [by intros []|by apply Hf].
    + intros [|p pre] a b post E; injection E as <- E; [intros [_ Hb]; by eapply Hr|by eapply Hc].
Qed.

Section discipline.
Context {R K : Type} `{!ReportStore R, !PatchTaker R, !Sink K, !SinkLaw K}.

(** While its report lives, a finding's ticket is filed at most once
    and first, two comments are at least the interval apart, counted from
    the second of the earlier one, and between two closings there is a
    comment. *)
Theorem ticket_discipline `{MapRange} cfg n cs w :
  (∀ c, c ∈ cs → cycle_ok c ∧ between_ok false n c) →
  ∃ l, (ticket_cycles cfg w cs).2 = w.2 ++ l ∧
    Sorted (λ t1 t2, CommentInterval cfg ≤ Sub t2 (t1 / Second * Second)) (comment_times (acts n l)) ∧
    (∀ pre a post, acts n l = pre ++ a :: post → is_file a → pre = [] ∧ view (reports_of w.1.1) n = Untracked) ∧
    (∀ pre a b post, acts n l = pre ++ a :: b :: post → ¬ (is_close a ∧ is_close b)).
Proof.
  intros Hcs. destruct (ticket_cycles_life cfg false n cs w Hcs) as (l & El & Hl). exists l. split; [done|].
  apply life_tracked in Hl. unfold stored in Hl. destruct (view (reports_of w.1.1) n) as [|ref resolved last].
  - destruct Hl as [->|(ref & last & l' & -> & Hl)]; [split_and!; [constructor|by intros []..]|].
    apply life_tracked in Hl. destruct Hl as (Hf & Hs & _ & _ & Hc). split_and!; [done| |].
    + intros [|p pre] a post E; injection E as <- E; [done|]. intros Ha. exfalso. apply (Hf a); [rewrite E; set_solver|done].
    + intros [|p pre] a b post E; injection E as <- E; [by intros [? _]|by eapply Hc].
  - destruct Hl as (Hf & Hs & _ & _ & Hc). split_and!; [done| |done].
    intros pre a post E Ha. exfalso. apply (Hf a); [rewrite E; set_solver|done].
Qed.
End discipline.

(** ** Which calls are made *)

(** A call without its outcome. *)
Inductive Intent := WantUpsert (t : Ticket) | WantComment (ref : TicketRef) (body : string)
  | WantResolve (ref : TicketRef) (reason : string).
Definition intent_of (e : LogEntry) : string * Intent :=
  (le_cr e, match le_call e with
            | CallUpsert t _ => WantUpsert t
            | CallComment ref body _ => WantComment ref body
            | CallResolve ref reason _ => WantResolve ref reason
            end).
(** A comment is due when the last one is the interval ago, or none is known. *)
Definition comment_due (cfg : TicketingConfig) (now : Time) (cr : json) : Prop :=
  0 < CommentInterval cfg ∧
  (ticketLastCommentedAt cr = zeroTime ∨ CommentInterval cfg ≤ Sub now (ticketLastCommentedAt cr)).
#[export] Instance comment_due_dec cfg now cr : Decision (comment_due cfg now cr).
Proof. solve_decision. Defined.
Definition recurrence_comment (cfg : TicketingConfig) (runID : string) (now : Time) (cr : json) (d : DeltaDiag)
    : string :=
  buildRecurrenceComment d (tc_Cluster cfg) runID (ticketResolved cr)
    (bool_decide (ticketSeverity cr ≠ "" ∧ ticketSeverity cr ≠ dd_Severity d)) (ticketSeverity cr) now.
(** What a posted finding asks of the tracker. *)
Definition wanted_call (cfg : TicketingConfig) (postFix : gset string) (runID : string) (now : Time)
    (bySubject : gmap string json) (d : DeltaDiag) : option (string * Intent) :=
  if decide (meetsTicketThreshold cfg (dd_Severity d) = true ∧ dd_Subject d ∈ postFix) then
    cr ← bySubject !! dd_Subject d;
    match readTicketRef cr with
    | None => Some (GetName cr, WantUpsert (ticketFromDelta d cfg runID now))
    | Some ref =>
        if decide (comment_due cfg now cr)
        then Some (GetName cr, WantComment ref (recurrence_comment cfg runID now cr d)) else None
    end
  else None.

Section calls.
Context {R K : Type} `{!ReportStore R, !Sink K}.
Notation W := (World (R := R) (K := K)).
Implicit Types w : W.

(** A loop whose steps each make at most one call. *)
Lemma loop_calls {X} (h : W * nat → X → W * nat) (want : X → option (string * Intent)) xs :
  (∀ st x, ∃ l, (h st x).1.2 = st.1.2 ++ l ∧ intent_of <$> l = option_list (want x)) →
  ∀ st, ∃ l, (foldl h st xs).1.2 = st.1.2 ++ l ∧ intent_of <$> l = omap want xs.
Proof.
  intros Hh. induction xs as [|x xs IH]; intros st; [exists []; by rewrite app_nil_r|]. cbn [foldl].
  destruct (Hh st x) as (l1 & E1 & H1'). destruct (IH (h st x)) as (l2 & E2 & H2').
  exists (l1 ++ l2). rewrite E2, E1, app_assoc, fmap_app, H1', H2'. split; [done|]. cbn. by destruct (want x).
Qed.
Lemma no_call (w : W) : ∃ l, w.2 = w.2 ++ l ∧ intent_of <$> l = [].
Proof. exists []. by rewrite app_nil_r. Qed.

Lemma comment_calls cfg runID now cr d ref w :
  ∃ l, (maybeCommentOnRecurrence cfg runID now cr d ref w).2 = w.2 ++ l ∧
    intent_of <$> l = if decide (comment_due cfg now cr)
      then [(GetName cr, WantComment ref (recurrence_comment cfg runID now cr d))] else [].
Proof.
  unfold maybeCommentOnRecurrence, comment_due.
  destruct (Z.leb_spec (CommentInterval cfg) 0); [rewrite decide_False by lia; apply no_call|].
  destruct w as [[r k] log]. unfold IsZero. destruct (negb _ && _) eqn:Edeb.
  - apply andb_true_iff in Edeb as [Hz%negb_true_iff%Z.eqb_neq Hlt%Z.ltb_lt].
    rewrite decide_False; [apply no_call|]. intros [_ [?|?]]; [done|lia].
  - rewrite decide_True.
    2:{ split; [done|]. bool_to_prop. destruct Edeb as [?|?]; [left|right]; by bool_to_prop. }
    destruct (Comment k ref _) as [k' [e|]]; cbn [snd]; eexists; (split; [reflexivity|]);
      unfold intent_of, recurrence_comment; cbn; do 4 f_equal;
      rewrite bool_decide_and, !bool_decide_not; done.
Qed.

(** RouteTickets calls the tracker exactly for the posted findings that
    are at or above the severity floor, still there after the fixers and
    have a report, in order and once each: an upsert of the finding's ticket
    when the report remembers none, a comment on the remembered one when it
    is due.  It makes no call without a tracker or when the reports cannot
    be listed, and a failed call does not stop the others. *)
Theorem RouteTickets_calls cfg live postFix toPost runID now w :
  ∃ l, (RouteTickets cfg live postFix toPost runID now w).1.2 = w.2 ++ l ∧
    intent_of <$> l =
      if HasSink cfg && live then
        match indexDriftReportsBySubject w.1.1 with
        | inr bySubject => omap (wanted_call cfg postFix runID now bySubject) toPost
        | inl _ => []
        end
      else [].
Proof.
  unfold RouteTickets. destruct (HasSink cfg), live; cbn [negb orb andb]; try apply no_call.
  destruct (indexDriftReportsBySubject w.1.1) as [|bySubject]; [apply no_call|].
  apply (loop_calls _ (wanted_call cfg postFix runID now bySubject) toPost).
  intros [w' m] d. unfold route_ticket, wanted_call. cbn [fst].
  destruct (meetsTicketThreshold _ _); cbn [negb]; [|rewrite decide_False by naive_solver; apply no_call].
  case_bool_decide as Hp; cbn [negb]; [rewrite decide_True by done|rewrite decide_False by naive_solver; apply no_call].
  destruct (bySubject !! dd_Subject d) as [cr|]; cbn [mbind option_bind]; [|apply no_call].
  destruct (readTicketRef cr) as [ref|].
  - destruct (comment_calls cfg runID now cr d ref w') as (l & El & Hl). exists l. split; [exact El|].
    rewrite Hl. by destruct (decide _).
  - destruct w' as [[r k] log]. destruct (Upsert k _) as [k' [e|ref]]; cbn [fst snd].
    + eexists. split; [reflexivity|]. done.
    + destruct (patch_report r _ _) as [r' ok]. eexists. split; [reflexivity|]. done.
Qed.

(** RouteResolves closes exactly the tickets of the cleared subjects
    whose report remembers one that is not closed yet, in order and once
    each, and RouteTicketCleanup those of the reports below the severity
    floor; nothing when closing is switched off. *)
Theorem resolves_calls `{MapRange} cfg live cleared now w :
  let open_ticket cr := if ticketResolved cr then None else readTicketRef cr in
  let enabled := HasSink cfg && live && ResolveOnClear cfg in
  (∃ l, (RouteResolves cfg live cleared now w).1.2 = w.2 ++ l ∧
    intent_of <$> l =
      match indexDriftReportsBySubject w.1.1, enabled with
      | inr bySubject, true =>
          omap (λ s, cr ← bySubject !! s; ref ← open_ticket cr;
                     Some (GetName cr, WantResolve ref (resolve_reason now))) cleared
      | _, _ => []
      end) ∧
  (∃ l, (RouteTicketCleanup cfg live now w).1.2 = w.2 ++ l ∧
    intent_of <$> l ≡ₚ
      match indexDriftReportsBySubject w.1.1, enabled with
      | inr bySubject, true =>
          omap (λ kv, ref ← open_ticket kv.2;
                      if meetsTicketThreshold cfg (driftReportSeverity kv.2) then None
                      else Some (GetName kv.2, WantResolve ref (cleanup_reason cfg now))) (map_to_list bySubject)
      | _, _ => []
      end).
Proof.
  intros open_ticket enabled. unfold enabled, RouteResolves, RouteTicketCleanup.
  assert (Hcl : ∀ reason cr ref st, ∃ l, (close_ticket now reason cr ref st).1.2 = st.1.2 ++ l ∧
    intent_of <$> l = [(GetName cr, WantResolve ref reason)]).
  { intros reason cr ref [[[r k] log] m]. unfold close_ticket.
    destruct (Resolve k ref reason) as [k' [e|]]; eexists; by split; [reflexivity|]. }
  assert (Hno : ∃ l, w.2 = w.2 ++ l ∧ intent_of <$> l ≡ₚ []) by (exists []; by rewrite app_nil_r).
  destruct (HasSink cfg), live, (ResolveOnClear cfg); cbn [negb orb andb];
    try (destruct (indexDriftReportsBySubject w.1.1); split; first [apply no_call|exact Hno]).
  destruct (indexDriftReportsBySubject w.1.1) as [|bySubject]; split;
    [destruct (_ =? _)%nat; apply no_call|exact Hno|..].
  - destruct cleared as [|c cs]; [apply no_call|]. cbn [length Nat.eqb]. apply loop_calls. intros st s.
    unfold resolve_subject, open_ticket. destruct (bySubject !! s) as [cr|]; cbn; [|apply no_call].
    destruct (readTicketRef cr) as [ref|]; destruct (ticketResolved cr); cbn; [apply no_call|apply Hcl|apply no_call..].
  - edestruct (loop_calls (cleanup_report cfg now)) as (l & El & Hl); [|exists l; split; [exact El|]; rewrite Hl; by rewrite range_perm].
    intros st kv. unfold cleanup_report, open_ticket.
    destruct (readTicketRef kv.2) as [ref|]; destruct (ticketResolved kv.2); cbn; [apply no_call| |apply no_call..].
    destruct (meetsTicketThreshold _ _); [apply no_call|apply Hcl].
Qed.
End calls.

(** ** Concrete instances *)

Definition mem_named (m : gmap string json) : Prop := map_Forall (λ n cr, GetName cr = n) m.
Definition mem_List (m : gmap string json) : error + list json :=
  if decide (mem_named m) then inr (map_to_list m).*2 else inl "unnamed object".
Definition mem_Patch (m : gmap string json) (n b : string) : gmap string json * option error :=
  match Unmarshal b, m !! n with
  | Some j, Some _ => (alter (patch_status j) n m, None)
  | _, _ => (m, Some "refused")
  end.
Lemma mem_List_ok m items : mem_List m = inr items →
  items ≡ₚ (map_to_list m).*2 ∧ ∀ n cr, m !! n = Some cr → GetName cr = n.
Proof.
  unfold mem_List. destruct (decide (mem_named m)) as [Hm|]; [|discriminate].
  intros [= <-]. by split; [|exact Hm].
Qed.
Lemma mem_Patch_ok m n b : (mem_Patch m n b).1 =
  match (mem_Patch m n b).2, Unmarshal b with None, Some j => alter (patch_status j) n m | _, _ => m end.
Proof. unfold mem_Patch. by destruct (Unmarshal b), (m !! n). Qed.
Definition mem_store : ReportStore (gmap string json) := {|
  reports_of := λ m, m; rs_List := mem_List; rs_PatchStatus := mem_Patch;
  rs_List_ok := mem_List_ok; rs_Patch_ok := mem_Patch_ok |}.
Lemma mem_taker : @PatchTaker _ mem_store.
Proof. intros m n b j [cr Hc] Hj _. change ((mem_Patch m n b).2 = None). unfold mem_Patch. by rewrite Hj, (Hc : m !! n = Some cr). Qed.

(** A tracker with one ticket, which counts its calls. *)
Definition one_ref : TicketRef := mkTicketRef "openproject" "WP-1" "".
Definition one_ticket : Sink nat := {|
  Upsert k _ := (S k, inr one_ref);
  Comment k _ _ := (S k, None);
  Resolve k _ _ := (S k, None) |}.
Lemma one_ticket_law : @SinkLaw nat one_ticket.
Proof. intros k t ref [= <-]. reflexivity. Qed.

Definition sample_report : json :=
  JObj [("metadata", JObj [("name", JStr "drift-1")]);
        ("spec", JObj [("subject", JStr "Pod/shop/web-0"); ("severity", JStr "critical")])].
Definition ticket_config : TicketingConfig := mkTicketingConfig true "prod" ["srenix"] true (60 * Minute) "".
Definition sample_delta : DeltaDiag := seenEntryToDeltaDiag (diagnostic_seen sample_diag).
Definition sample_world : @World (gmap string json) nat := ({["drift-1" := sample_report]}, 0%nat, []).
Definition sample_cycle (cleared : list string) (m : Z) : TicketCycle (R := gmap string json) :=
  mkTicketCycle cleared (sample_t0 + m * Minute) id {["Pod/shop/web-0"]}
    (if (length cleared =? 0)%nat then [sample_delta] else []) "run" (sample_t0 + m * Minute).
Definition sample_cycles : list (TicketCycle (R := gmap string json)) :=
  [sample_cycle [] 0; sample_cycle [] 10; sample_cycle [] 70; sample_cycle ["Pod/shop/web-0"] 80; sample_cycle [] 140].

Lemma sample_cycles_ok lost n c : c ∈ sample_cycles → cycle_ok c ∧ @between_ok _ mem_store lost n c.
Proof.
  revert c. apply Forall_forall. unfold sample_cycles.
  repeat (apply Forall_cons; split; [split; [|intros r; by left]|]); [..|constructor];
    (split; [vm_compute; split; congruence|]);
    cbn; repeat split; repeat constructor; set_solver.
Qed.

Lemma ticket_discipline_witness :
  ∃ l, (@ticket_cycles _ _ mem_store one_ticket key_order ticket_config sample_world sample_cycles).2 = [] ++ l ∧
    Sorted (λ t1 t2, CommentInterval ticket_config ≤ Sub t2 (t1 / Second * Second)) (comment_times (acts "drift-1" l)) ∧
    (∀ pre a post, acts "drift-1" l = pre ++ a :: post → is_file a →
      pre = [] ∧ view (@reports_of _ mem_store sample_world.1.1) "drift-1" = Untracked) ∧
    (∀ pre a b post, acts "drift-1" l = pre ++ a :: b :: post → ¬ (is_close a ∧ is_close b)).
Proof.
  apply (@ticket_discipline _ _ mem_store mem_taker one_ticket one_ticket_law key_order ticket_config "drift-1"
    sample_cycles sample_world). intros c Hc. by apply sample_cycles_ok.
Defined.

(** The hash of a ticket's fingerprint is not the one in its report's name. *)
Example fingerprint_not_name :
  Fingerprint "Pod/shop/web-0" "prod" = "srenix-" +:+ stake 16 (sdrop 7 (Fingerprint "POD/shop/web-0 " "Prod")) ∧
  sdrop 7 (Fingerprint "Pod/shop/web-0" "prod") ≠ sdrop 6 (nameForSubject "Pod/shop/web-0").
Proof. vm_compute. by split. Qed.
