(* ===== verification/OpenProject.v ===== *)
(** * The OpenProject tracker: pkg/ticketing/openproject

    The [Sink] of sink.go over an MCP client, and the decoding half of
    client.go's [CallTool]: the HTTP exchange is its outcome, with the texts
    of the errors met.  [GoRuntime] is the conversion of a decoded number, a
    float64, to int64, and the %v form of a decoded object. *)

From stdpp Require Import options.
From S2P Require Import Prelude GoString GoTime GoJson GoNum GoFmt Unstructured DriftReport Watcher Ticketing.
Local Open Scope Z_scope.

Class GoRuntime := { float_int64 : string → Z; fmt_v : json → string }.

(** A Go map built by the decoder keeps the last of equal keys. *)
Definition map_get (k : string) (m : json) : option json := jassoc k (rev (jmembers (Some m))).

(** ** client.go *)

Record rpcError := mkRpcError { re_Code : Z; re_Message : string }.
Definition rpcError_Error (e : rpcError) : error := "mcp: " +:+ Itoa (re_Code e) +:+ " " +:+ re_Message e.
(** [rr_Result] is what json.Unmarshal makes of the raw result as a map. *)
Record rpcResponse := mkRpcResponse { rr_Result : option (error + json); rr_Error : option rpcError }.
(** What the POST gives: no response, a body that cannot be read, or a status
    with the body, raw and decoded into an rpcResponse. *)
Inductive McpExchange :=
  | McpUnreachable (e : error) | McpReadError (e : error)
  | McpHTTP (status : Z) (raw : string) (decoded : error + rpcResponse).
Definition truncate (s : string) (n : nat) : string := if (len s <=? n)%nat then s else stake n s +:+ "…".

(** The object a tool answers with; [JNull] is the nil map. *)
Definition tool_payload (wrapper : json) : json :=
  match map_get "structuredContent" wrapper with
  | Some (JObj sc) => JObj sc
  | _ =>
      match map_get "content" wrapper with
      | Some (JArr (item :: _)) =>
          match item with
          | JObj _ =>
              match map_get "text" item with
              | Some (JStr text) =>
                  if text =s? "" then wrapper else
                  match Unmarshal text with
                  | Some (JObj l) => JObj l
                  | Some JNull => JNull
                  | _ => wrapper
                  end
              | _ => wrapper
              end
          | _ => wrapper
          end
      | _ => wrapper
      end
  end.
Definition CallTool_decode (name : string) (x : McpExchange) : error + json :=
  match x with
  | McpUnreachable e => inl ("call mcp tool " +:+ Quote name +:+ ": " +:+ e)
  | McpReadError e => inl ("read mcp response: " +:+ e)
  | McpHTTP status raw decoded =>
      if 400 <=? status then
        inl ("mcp tool " +:+ Quote name +:+ " returned HTTP " +:+ Itoa status +:+ ": " +:+ truncate raw 256)
      else
        match decoded with
        | inl e => inl ("decode mcp response: " +:+ e +:+ " (body=" +:+ truncate raw 256 +:+ ")")
        | inr rpc =>
            match rr_Error rpc with
            | Some e => inl (rpcError_Error e)
            | None =>
                match rr_Result rpc with
                | None => inr (JObj [])
                | Some (inl e) => inl ("decode mcp result: " +:+ e)
                | Some (inr wrapper) => inr (tool_payload wrapper)
                end
            end
        end
  end.

(** A client answers a call of a named tool with its arguments. *)
Class MCPClient (K : Type) := CallTool : K → string → json → K * (error + json).
(** [NopClient()] *)
Definition NopClient {K} : MCPClient K := λ k _ _, (k, inr (JObj [])).

(** ** sink.go *)

Record ToolNames := mkToolNames {
  CreateWorkPackage : string;
  UpdateWorkPackage : string;
  UpdateWorkPackageStatus : string;
  AddWorkPackageComment : string;
  GetWorkPackage : string;
}.
Definition DefaultToolNames : ToolNames :=
  mkToolNames "create_work_package" "update_work_package" "update_work_package_status"
    "add_work_package_comment" "get_work_package".
Record OpConfig := mkOpConfig {
  ProjectID : string;
  TypeID : string;
  SeverityPriority : gmap string string;
  ClosedStatusID : string;
  op_Labels : list string;
  WebURLPrefix : string;
  op_ToolNames : ToolNames;
  op_DryRun : bool;
}.

Definition or_default (s d : string) : string := if s =s? "" then d else s.
(** The configuration and client that [New] keeps. *)
Definition New {K} (cfg : OpConfig) (client : MCPClient K) : OpConfig * MCPClient K :=
  let d := DefaultToolNames in let t := op_ToolNames cfg in
  (mkOpConfig (ProjectID cfg) (TypeID cfg) (SeverityPriority cfg) (ClosedStatusID cfg) (op_Labels cfg)
     (WebURLPrefix cfg)
     (mkToolNames (or_default (CreateWorkPackage t) (CreateWorkPackage d))
        (or_default (UpdateWorkPackage t) (UpdateWorkPackage d))
        (or_default (UpdateWorkPackageStatus t) (UpdateWorkPackageStatus d))
        (or_default (AddWorkPackageComment t) (AddWorkPackageComment d))
        (or_default (GetWorkPackage t) (GetWorkPackage d)))
     (op_DryRun cfg),
   if op_DryRun cfg then NopClient else client).

Definition priorityFor (cfg : OpConfig) (severity : string) : string :=
  default "" (SeverityPriority cfg !! severity).
(** One of the two loops of mergeLabels. *)
Definition add_labels (st : gset string * list string) (labels : list string) : gset string * list string :=
  foldl (λ st l, if bool_decide (l ∈ st.1) then st else ({[l]} ∪ st.1, st.2 ++ [l])) st labels.
Definition mergeLabels (cfg : OpConfig) (ticketLabels : list string) : list string :=
  (add_labels (add_labels (∅, []) ticketLabels) (op_Labels cfg)).2.
Definition appendLabelFooter (body : string) (labels : list string) (fingerprint : string) : string :=
  if (length labels =? 0)%nat && (fingerprint =s? "") then body else
  body +:+ (if HasSuffix body nl then "" else nl) +:+ nl +:+ "---" +:+ para +:+
  (if (0 <? length labels)%nat then "**Labels:** " +:+ Join labels ", " +:+ para else "") +:+
  (if fingerprint ≠s? "" then "**Srenix Fingerprint:** `" +:+ fingerprint +:+ "`" +:+ nl else "").

Definition extractWorkPackage (res : json) : json :=
  match map_get "work_package" res with Some (JObj l) => JObj l | _ => res end.
Definition stringField (m : json) (key : string) : option string :=
  match map_get key m with Some (JStr s) => if s =s? "" then None else Some s | _ => None end.
Definition intField `{GoRuntime} (m : json) (key : string) : option Z :=
  match map_get key m with Some (JNum lit) => Some (float_int64 lit) | _ => None end.
Definition first_some {A} (l : list (option A)) (d : A) : A := default d (foldr (λ x y, match x with Some _ => x | None => y end) None l).

(** The reference in the answer of the create call. *)
Definition work_package_ref `{GoRuntime} (cfg : OpConfig) (res : json) : TicketRef :=
  let wp := extractWorkPackage res in
  let key := first_some [stringField wp "id"; Itoa <$> intField wp "id"] "" in
  let url := first_some [stringField wp "url"; stringField wp "self_link"; stringField wp "selfLink"] "" in
  let url := if (url =s? "") && (key ≠s? "") && (WebURLPrefix cfg ≠s? "")
             then TrimRightByte (WebURLPrefix cfg) "/" +:+ "/work_packages/" +:+ key else url in
  mkTicketRef "openproject" key url.
Definition create_args (cfg : OpConfig) (t : Ticket) : json :=
  let pri := priorityFor cfg (tk_Severity t) in
  JObj ([("description", JStr (appendLabelFooter (tk_Body t) (mergeLabels cfg (tk_Labels t)) (tk_Fingerprint t)))] ++
        (if pri ≠s? "" then [("priority_id", JStr pri)] else []) ++
        [("project_id", JStr (ProjectID cfg)); ("subject", JStr (tk_Title t)); ("type_id", JStr (TypeID cfg))]).

Section sink.
Context {K : Type} `{GoRuntime} (cfg : OpConfig) (client : MCPClient K).

Definition op_Upsert (k : K) (t : Ticket) : K * (error + TicketRef) :=
  let '(cfg, client) := New cfg client in
  if tk_Fingerprint t =s? "" then (k, inl "openproject: ticket fingerprint is required")
  else if ProjectID cfg =s? "" then (k, inl "openproject: ProjectID is required")
  else if TypeID cfg =s? "" then (k, inl "openproject: TypeID is required (look up via list_types)")
  else
    let tool := CreateWorkPackage (op_ToolNames cfg) in
    let '(k, res) := client k tool (create_args cfg t) in
    match res with
    | inl e => (k, inl ("openproject: " +:+ tool +:+ ": " +:+ e))
    | inr res =>
        let ref := work_package_ref cfg res in
        if Key ref =s? "" then (k, inl ("openproject: " +:+ tool +:+ " returned no work-package id (result=" +:+ fmt_v res +:+ ")"))
        else (k, inr ref)
    end.
Definition op_Resolve (k : K) (ref : TicketRef) (reason : string) : K * option error :=
  let '(cfg, client) := New cfg client in
  if Key ref =s? "" then (k, Some "openproject: resolve: empty work_package_id")
  else if ClosedStatusID cfg =s? "" then
    (k, Some "openproject: resolve: ClosedStatusID not configured (look up via list_statuses)")
  else
    let tool := UpdateWorkPackageStatus (op_ToolNames cfg) in
    let '(k, res) := client k tool
      (JObj ((if reason ≠s? "" then [("comment", JStr reason)] else []) ++
             [("status_id", JStr (ClosedStatusID cfg)); ("work_package_id", JStr (Key ref))])) in
    (k, match res with inl e => Some ("openproject: " +:+ tool +:+ ": " +:+ e) | inr _ => None end).
Definition op_Comment (k : K) (ref : TicketRef) (body : string) : K * option error :=
  let '(cfg, client) := New cfg client in
  if Key ref =s? "" then (k, Some "openproject: comment: empty work_package_id")
  else if body =s? "" then (k, None)
  else
    let tool := AddWorkPackageComment (op_ToolNames cfg) in
    let '(k, res) := client k tool (JObj [("comment", JStr body); ("work_package_id", JStr (Key ref))]) in
    (k, match res with inl e => Some ("openproject: " +:+ tool +:+ ": " +:+ e) | inr _ => None end).

Definition openproject_sink : Sink K := {| Upsert := op_Upsert; Comment := op_Comment; Resolve := op_Resolve |}.
End sink.

(** ** Labels *)

Lemma add_labels_spec labels : ∀ seen out, NoDup out → (∀ l, l ∈ seen ↔ l ∈ out) →
  let '(seen', out') := add_labels (seen, out) labels in
  NoDup out' ∧ (∀ l, l ∈ seen' ↔ l ∈ out') ∧
  ∃ new, out' = out ++ new ∧ new `sublist_of` labels ∧ ∀ l, l ∈ out' ↔ l ∈ out ∨ l ∈ labels.
Proof.
  unfold add_labels. induction labels as [|x labels IH]; intros seen out Hnd Hs; cbn [foldl fst snd].
  { split_and!; [done..|]. exists []. rewrite app_nil_r. set_solver. }
  case_bool_decide as Hx.
  - specialize (IH seen out Hnd Hs). destruct (foldl _ _ labels) as [seen' out'].
    destruct IH as (? & ? & new & -> & Hsub & Hin). split_and!; [done..|]. exists new.
    split_and!; [done|by constructor|]. apply Hs in Hx. set_solver.
  - specialize (IH ({[x]} ∪ seen) (out ++ [x])). destruct (foldl _ _ labels) as [seen' out'].
    destruct IH as (? & ? & new & -> & Hsub & Hin).
    + apply NoDup_app. split_and!; [done| |apply NoDup_singleton]. intros y Hy ->%list_elem_of_singleton. by apply Hx, Hs.
    + set_solver.
    + split_and!; [done..|]. exists (x :: new). rewrite <-app_assoc. split_and!; [done|by constructor|]. set_solver.
Qed.

(** [mergeLabels] answers each label of the ticket and of the
    configuration once, at the place of its first occurrence. *)
Theorem mergeLabels_correct cfg ticketLabels :
  let merged := mergeLabels cfg ticketLabels in
  NoDup merged ∧ (∀ l, l ∈ merged ↔ l ∈ ticketLabels ∨ l ∈ op_Labels cfg) ∧
  merged `sublist_of` ticketLabels ++ op_Labels cfg.
Proof.
  intros merged. unfold merged, mergeLabels.
  pose proof (add_labels_spec ticketLabels ∅ [] ltac:(constructor) ltac:(set_solver)) as H1'.
  destruct (add_labels (∅, []) ticketLabels) as [seen out]. destruct H1' as (Hnd & Hs & new & -> & Hsub & Hin).
  pose proof (add_labels_spec (op_Labels cfg) seen ([] ++ new) Hnd Hs) as H2'.
  destruct (add_labels _ _) as [seen' out']. destruct H2' as (Hnd' & _ & new' & -> & Hsub' & Hin'). cbn [app snd] in *.
  split_and!; [done|set_solver|by apply sublist_app].
Qed.

(** ** The contract of a tracker *)

Lemma jassoc_wf k l v : forallb (λ kv, ValidString kv.1 && wf_json kv.2) l = true → jassoc k l = Some v → wf_json v = true.
Proof.
  induction l as [|[k' v'] l IH]; [done|]. cbn. intros [Hv Hl]%andb_true_iff. apply andb_true_iff in Hv as [_ Hv].
  destruct (String.eqb k' k); [by intros [= <-]|by apply IH].
Qed.
Lemma map_get_wf k j v : wf_json j = true → map_get k j = Some v → wf_json v = true.
Proof.
  intros Hw. apply jassoc_wf. rewrite forallb_forall. intros x Hx%in_rev.
  destruct j as [| | | | |l|]; try done. cbn [wf_json jmembers] in *. rewrite forallb_forall in Hw. by apply Hw.
Qed.
Lemma stringField_valid j k s : wf_json j = true → stringField j k = Some s → ValidString s = true.
Proof.
  intros Hw. unfold stringField. destruct (map_get k j) as [[]|] eqn:E; try done.
  apply map_get_wf in E; [|done]. case_bool_decide; [done|]. by intros [= <-].
Qed.
Lemma extract_wf res : wf_json res = true → wf_json (extractWorkPackage res) = true.
Proof.
  intros Hw. unfold extractWorkPackage. destruct (map_get "work_package" res) as [[]|] eqn:E; try done.
  by apply map_get_wf in E.
Qed.

Section contract.
Context {K : Type} `{GoRuntime} (cfg : OpConfig) (client : MCPClient K).

(** The answers are decoded JSON, and the web address is text. *)
Definition client_answers : Prop := ∀ k tool args res, (client k tool args).2 = inr res → wf_json res = true.
Definition web_url_ok : Prop := ValidString (TrimRightByte (WebURLPrefix cfg) "/") = true.

Lemma work_package_ref_valid res : wf_json res = true → web_url_ok →
  ValidString (Key (work_package_ref cfg res)) = true ∧ ValidString (URL (work_package_ref cfg res)) = true.
Proof.
  intros Hw Hurl. pose proof (extract_wf res Hw) as Hwp. unfold work_package_ref. cbn [Key URL].
  set (wp := extractWorkPackage res) in *. set (key := first_some [_; _] "").
  assert (Hkey : ValidString key = true).
  { unfold key, first_some. cbn [foldr]. destruct (stringField wp "id") as [s|] eqn:E; cbn; [by eapply stringField_valid|].
    destruct (intField wp "id"); cbn; [apply Itoa_valid|done]. }
  split; [done|]. set (url := first_some _ _). assert (Hu : ValidString url = true).
  { unfold url, first_some. cbn [foldr]. pose proof (λ k s, stringField_valid wp k s Hwp) as Hf.
    repeat match goal with |- context [stringField wp ?k] =>
      destruct (stringField wp k) as [s|] eqn:?; [by apply (Hf k)|] end. done. }
  destruct (_ && _); [|done]. apply valid_go_app; [done|]. by apply (valid_go_app 0 "/work_packages/").
Qed.

(** The OpenProject sink keeps what the ticket routing relies on: when
    its client answers with decoded JSON, a successful Upsert returns an
    openproject reference with a key, in valid text, so that it can be
    written to status.ticket and found there again. *)
Theorem openproject_contract k t ref :
  client_answers → web_url_ok → (op_Upsert cfg client k t).2 = inr ref →
  Provider ref = "openproject" ∧ Key ref ≠ "" ∧
  ValidString (Provider ref) && ValidString (Key ref) && ValidString (URL ref) = true.
Proof.
  intros Hc Hu. unfold op_Upsert. cbn [New]. set (cl := if op_DryRun cfg then NopClient else client).
  assert (Hcl : ∀ k tool args res, (cl k tool args).2 = inr res → wf_json res = true).
  { unfold cl. destruct (op_DryRun cfg); [|exact Hc]. by intros k' tool args res [= <-]. }
  repeat (case_bool_decide; [done|]). cbn [op_ToolNames CreateWorkPackage].
  destruct (cl k _ _) as [k' [e|res]] eqn:E; [done|].
  specialize (Hcl k _ _ res (f_equal snd E)).
  case_bool_decide as Hk; [done|]. cbn [snd]. intros [= <-].
  pose proof (work_package_ref_valid res Hcl Hu) as [H1' H2']. split; [done|]. split; [exact Hk|].
  change (ValidString (Key (work_package_ref cfg res)) && ValidString (URL (work_package_ref cfg res)) = true).
  by rewrite H1', H2'.
Qed.

(** In a dry run no tool is called, and every Upsert fails, as the
    client that drops calls answers without an id; so nothing is remembered
    as filed. *)
Theorem dry_run_files_nothing k t ref reason body : op_DryRun cfg = true →
  (op_Upsert cfg client k t).1 = k ∧ (∃ e, (op_Upsert cfg client k t).2 = inl e) ∧
  (op_Resolve cfg client k ref reason).1 = k ∧ (op_Comment cfg client k ref body).1 = k.
Proof.
  intros Hd. unfold op_Upsert, op_Resolve, op_Comment. cbn [New]. rewrite Hd. cbn [NopClient op_ToolNames].
  split_and!.
  - repeat (case_bool_decide; [done|]). done.
  - repeat (case_bool_decide; [eexists; reflexivity|]).
    match goal with Hk : Key _ ≠ "" |- _ => by destruct Hk end.
  - by repeat (case_bool_decide; [done|]).
  - by repeat (case_bool_decide; [done|]).
Qed.
End contract.

(** ** Concrete instances *)

Definition toy_runtime : GoRuntime :=
  {| float_int64 lit := default 0 (ParseInt lit); fmt_v _ := "map[]" |}.
(** A server that numbers the work packages it creates. *)
Definition numbering : MCPClient Z := λ k tool args,
  (k + 1, inr (JObj [("success", JBool true); ("work_package", JObj [("id", JNum (Itoa k))])])).
Lemma numbering_answers : client_answers numbering.
Proof.
  intros k tool args res [= <-]. cbn [wf_json forallb fst snd]. rewrite valid_number_Itoa. done.
Qed.
Definition toy_op : OpConfig :=
  mkOpConfig "6" "36" {["critical" := "75"]} "82" ["srenix"] "https://op.example.com/" (mkToolNames "" "" "" "" "") false.
Definition dry_op : OpConfig :=
  mkOpConfig "6" "36" {["critical" := "75"]} "82" ["srenix"] "" (mkToolNames "" "" "" "" "") true.
Definition toy_ticket : Ticket := ticketFromDelta sample_delta ticket_config "run" sample_t0.

Example first_work_package :
  (@op_Upsert _ toy_runtime toy_op numbering 1287 toy_ticket).2 =
    inr (mkTicketRef "openproject" "1287" "https://op.example.com/work_packages/1287").
Proof. vm_compute. reflexivity. Qed.

Lemma openproject_contract_witness :
  let ref := mkTicketRef "openproject" "1287" "https://op.example.com/work_packages/1287" in
  Provider ref = "openproject" ∧ Key ref ≠ "" ∧
  ValidString (Provider ref) && ValidString (Key ref) && ValidString (URL ref) = true.
Proof.
  apply (@openproject_contract _ toy_runtime toy_op numbering 1287 toy_ticket).
  - exact numbering_answers.
  - vm_compute. reflexivity.
  - vm_compute. reflexivity.
Defined.
Lemma dry_run_files_nothing_witness :
  (@op_Upsert _ toy_runtime dry_op numbering 1 toy_ticket).1 = 1 ∧
  (∃ e, (@op_Upsert _ toy_runtime dry_op numbering 1 toy_ticket).2 = inl e) ∧
  (op_Resolve dry_op numbering 1 one_ref "cleared").1 = 1 ∧ (op_Comment dry_op numbering 1 one_ref "still").1 = 1.
Proof. by apply (@dry_run_files_nothing _ toy_runtime dry_op numbering 1 toy_ticket one_ref "cleared" "still"). Defined.

Lemma numbering_Upsert `{GoRuntime} cfg t z s :
  op_DryRun cfg = false → ProjectID cfg ≠ "" → TypeID cfg ≠ "" → tk_Fingerprint t ≠ "" →
  Itoa z = s → float_int64 s = z → s ≠ "" →
  ∃ ref, op_Upsert cfg numbering z t = (z + 1, inr ref) ∧ Key ref = s.
Proof.
  intros Hd Hp Ht Hf Hs Hz Hne. unfold op_Upsert. cbn [New]. rewrite Hd.
  rewrite (bool_decide_eq_false_2 (tk_Fingerprint t = "")) by done.
  cbn [ProjectID TypeID op_ToolNames CreateWorkPackage].
  rewrite (bool_decide_eq_false_2 (ProjectID cfg = "")), (bool_decide_eq_false_2 (TypeID cfg = "")) by done.
  unfold numbering at 1. rewrite Hs.
  match goal with |- context [work_package_ref ?c ?j] => set (ref := work_package_ref c j) end.
  assert (Hkey : Key ref = s).
  { unfold ref, work_package_ref, extractWorkPackage, stringField, intField, first_some. cbn. by rewrite Hz. }
  rewrite Hkey, bool_decide_eq_false_2 by done. by exists ref.
Qed.

(** The sink does not keep the promise of the Sink interface that
    repeated Upserts with one fingerprint are idempotent: with any
    configuration that files tickets, a server that numbers its work
    packages gets two of them for the same ticket. *)
Theorem upsert_not_idempotent `{GoRuntime} cfg t :
  op_DryRun cfg = false → ProjectID cfg ≠ "" → TypeID cfg ≠ "" → tk_Fingerprint t ≠ "" →
  float_int64 "1" = 1 → float_int64 "2" = 2 →
  ∃ ref1 ref2, (op_Upsert cfg numbering 1 t).2 = inr ref1 ∧
    (op_Upsert cfg numbering (op_Upsert cfg numbering 1 t).1 t).2 = inr ref2 ∧ Key ref1 = "1" ∧ Key ref2 = "2".
Proof.
  intros Hd Hp Ht Hf H1' H2'.
  destruct (numbering_Upsert cfg t 1 "1" Hd Hp Ht Hf eq_refl H1' ltac:(done)) as (ref1 & E1 & K1).
  destruct (numbering_Upsert cfg t 2 "2" Hd Hp Ht Hf eq_refl H2' ltac:(done)) as (ref2 & E2 & K2).
  exists ref1, ref2. rewrite E1. cbn [fst snd]. change (1 + 1) with 2. by rewrite E2.
Qed.
Lemma upsert_not_idempotent_witness :
  ∃ ref1 ref2, (@op_Upsert _ toy_runtime toy_op numbering 1 toy_ticket).2 = inr ref1 ∧
    (@op_Upsert _ toy_runtime toy_op numbering (@op_Upsert _ toy_runtime toy_op numbering 1 toy_ticket).1 toy_ticket).2 =
      inr ref2 ∧ Key ref1 = "1" ∧ Key ref2 = "2".
Proof.
  apply (@upsert_not_idempotent toy_runtime toy_op toy_ticket); [reflexivity|discriminate|discriminate| |reflexivity..].
  vm_compute. discriminate.
Defined.
