(* ===== verification/Api.v ===== *)
(** * The AgenticSRE resource: api/v1alpha1/agenticsre_types.go

    What a user writes and the operator reads.  A pointer is an [option], a
    slice a [list], a map of strings a [gmap]; an [int32] or [int64] field is
    a [Z] (the API server has checked its width).  Fields carry a prefix of
    their type. *)

From stdpp Require Import options.
From S2P Require Import Prelude GoString GoTime.
Local Open Scope Z_scope.

Record ImageSpec := mkImageSpec {
  im_Repository : string;
  im_Tag : string;
  im_PullPolicy : string;
  im_PullSecrets : list string;
}.

(** ** Watcher, diagnose, remediate *)

Record WatcherPromTriggerSpec := mkPromTriggerSpec {
  pt_URL : string;
  pt_Interval : string;
  pt_AlertNameFilter : list string;
}.
Record WatcherWebhookTriggerSpec := mkWebhookTriggerSpec {
  wt_Listen : string;
  wt_Sources : list string;
  wt_SecretName : string;
  wt_ServiceEnabled : bool;
  wt_ServicePort : Z;
}.
Record WatcherTriggersSpec := mkTriggersSpec {
  tr_Prom : option WatcherPromTriggerSpec;
  tr_Webhook : option WatcherWebhookTriggerSpec;
}.
Record WatcherSpec := mkWatcherSpec {
  ws_Enabled : bool;
  ws_Replicas : Z;
  ws_Debounce : string;
  ws_ResyncPeriod : string;
  ws_Triggers : option WatcherTriggersSpec;
}.
Record DiagnoseSpec := mkDiagnoseSpec {
  ds_Enabled : bool;
  ds_Schedule : string;
  ds_BackoffLimit : option Z;
  ds_ActiveDeadlineSeconds : Z;
}.
Record RemediateSpec := mkRemediateSpec {
  rs_Enabled : bool;
  rs_Schedule : string;
  rs_DryRun : bool;
  rs_ActiveDeadlineSeconds : Z;
}.

(** ** Alerting *)

Record SlackChannelSpec := mkSlackChannelSpec { sc_SecretName : string; sc_SecretKey : string }.
Record SlackSpec := mkSlackSpec {
  ss_Alerts : option SlackChannelSpec;
  ss_Critical : option SlackChannelSpec;
  ss_HealthInfo : option SlackChannelSpec;
}.
Record AlertmanagerSpec := mkAlertmanagerSpec { am_URL : string; am_ClusterName : string }.
Record AlertingSpec := mkAlertingSpec {
  al_Slack : option SlackSpec;
  al_Alertmanager : option AlertmanagerSpec;
}.

(** ** AI *)

Record AIMetricsSpec := mkMetricsSpec { me_Addr : string; me_Port : Z }.
Record AILLMProposerSpec := mkLLMProposerSpec { lp_Enabled : bool }.
Record DigestPinAttestationSpec := mkAttestationSpec {
  at_SecretName : string;
  at_SecretKey : string;
  at_KeyID : string;
}.
Record AIExtraEnvSecretKeyRef := mkExtraEnvSecretKeyRef { ek_Name : string; ek_Key : string }.
Record AIExtraEnvSource := mkExtraEnvSource { ev_SecretKeyRef : option AIExtraEnvSecretKeyRef }.
Record AIExtraEnv := mkExtraEnv {
  ee_Name : string;
  ee_Value : string;
  ee_ValueFrom : option AIExtraEnvSource;
}.
Record AIAPIKeySpec := mkAPIKeySpec {
  ak_SecretName : string;
  ak_SecretKey : string;
  ak_EnvName : string;
  ak_Header : string;
}.
Record AIT3Spec := mkT3Spec { t3_VaultAllowedPrefixes : list string }.
Record AIMemoryStorageSpec := mkMemoryStorageSpec { st_Size : string; st_ClassName : string }.
Record AIEmbeddingsSpec := mkEmbeddingsSpec { em_Endpoint : string; em_Model : string }.
Record AIMemorySpec := mkMemorySpec {
  mm_Enabled : bool;
  mm_Image : option ImageSpec;
  mm_Storage : option AIMemoryStorageSpec;
  mm_Embeddings : option AIEmbeddingsSpec;
  mm_StoreURL : string;
  mm_TopK : Z;
}.
Record AISpec := mkAISpec {
  ai_Enabled : bool;
  ai_Tier : string;
  ai_Endpoint : string;
  ai_Model : string;
  ai_Interval : string;
  ai_AllowSaaS : bool;
  ai_LLMFixerMatcher : bool;
  ai_AuditLog : string;
  ai_ApprovalServerURL : string;
  ai_Image : option ImageSpec;
  ai_APIKey : option AIAPIKeySpec;
  ai_T3 : option AIT3Spec;
  ai_Memory : option AIMemorySpec;
  ai_ExtraArgs : list string;
  ai_ExtraEnv : list AIExtraEnv;
  ai_Replicas : Z;
  ai_DigestPinAttestation : option DigestPinAttestationSpec;
  ai_Metrics : option AIMetricsSpec;
  ai_LLMProposer : option AILLMProposerSpec;
}.

(** ** Approval server *)

Record ApprovalNetworkPolicySpec := mkApprovalNetworkPolicySpec {
  np_Enabled : bool;
  np_GatewayNamespaceSelector : gmap string string;
}.
Record ApprovalSigningKeySpec := mkSigningKeySpec { sk_SecretName : string }.
Record ApprovalStoreSpec := mkStoreSpec {
  so_Backend : string;
  so_Namespace : string;
  so_ReplayConfigMap : string;
  so_RunbookConfigMap : string;
}.
Record ApprovalSilenceSpec := mkSilenceSpec { si_ShortDuration : string; si_LongDuration : string }.
Record ApprovalIngressTLSSpec := mkIngressTLSSpec { tl_Enabled : bool; tl_SecretName : string }.
Record ApprovalIngressSpec := mkIngressSpec {
  in_Enabled : bool;
  in_IngressClassName : string;
  in_Host : string;
  in_Annotations : gmap string string;
  in_TLS : option ApprovalIngressTLSSpec;
}.
Record ApprovalSpec := mkApprovalSpec {
  ap_Enabled : bool;
  ap_Replicas : Z;
  ap_Image : option ImageSpec;
  ap_SigningKey : option ApprovalSigningKeySpec;
  ap_Store : option ApprovalStoreSpec;
  ap_Silence : option ApprovalSilenceSpec;
  ap_Ingress : option ApprovalIngressSpec;
  ap_NetworkPolicy : option ApprovalNetworkPolicySpec;
  ap_AuditNamespace : string;
}.

(** ** External DNS and ticketing *)

Record CloudflareSecretRef := mkCloudflareSecretRef { cs_Name : string; cs_Key : string }.
Record CloudflareSpec := mkCloudflareSpec {
  cf_Enabled : bool;
  cf_APITokenSecretRef : option CloudflareSecretRef;
  cf_ZoneIDs : list string;
  cf_ExpectedTargets : list string;
}.
Record ExternalDNSSpec := mkExternalDNSSpec { ed_Cloudflare : option CloudflareSpec }.

Record TicketingSecretRef := mkTicketingSecretRef { ts_Name : string; ts_Key : string }.
Record TicketingPrioritySpec := mkTicketingPrioritySpec { tp_Critical : string; tp_Warning : string; tp_Info : string }.
Record TicketingAuthSpec := mkTicketingAuthSpec { ta_Enabled : bool; ta_SecretName : string; ta_SecretKey : string }.
Record TicketingJiraSpec := mkJiraSpec {
  ji_URL : string;
  ji_Project : string;
  ji_Email : string;
  ji_IssueType : string;
  ji_Priority : option TicketingPrioritySpec;
  ji_WebURLBase : string;
  ji_TokenSecret : option TicketingSecretRef;
}.
Record TicketingServiceNowSpec := mkServiceNowSpec {
  sn_URL : string;
  sn_User : string;
  sn_Urgency : option TicketingPrioritySpec;
  sn_Impact : option TicketingPrioritySpec;
  sn_WebURLBase : string;
  sn_PasswordSecret : option TicketingSecretRef;
  sn_BearerSecret : option TicketingSecretRef;
}.
Record TicketingSpec := mkTicketingSpec {
  tk_Enabled : bool;
  tk_Provider : string;
  tk_Cluster : string;
  tk_MCPURL : string;
  tk_Project : string;
  tk_TypeID : string;
  tk_ClosedStatusID : string;
  tk_WebURLPrefix : string;
  tk_SeverityPriority : option TicketingPrioritySpec;
  tk_Labels : list string;
  tk_DryRun : bool;
  tk_ResolveOnClear : option bool;
  tk_CommentInterval : string;
  tk_MinSeverity : string;
  tk_Auth : option TicketingAuthSpec;
  tk_Route : string;
  tk_Jira : option TicketingJiraSpec;
  tk_ServiceNow : option TicketingServiceNowSpec;
}.

(** ** The resource *)

Record AgenticSRESpec := mkSpec {
  Image : ImageSpec;
  Watcher : option WatcherSpec;
  Diagnose : option DiagnoseSpec;
  Remediate : option RemediateSpec;
  Alerting : option AlertingSpec;
  AI : option AISpec;
  Approval : option ApprovalSpec;
  ExternalDNS : option ExternalDNSSpec;
  Ticketing : option TicketingSpec;
  ServiceAccountName : string;
  ProtectedNamespacesExtra : list string;
}.

(** metav1.Condition *)
Inductive ConditionStatus := ConditionTrue | ConditionFalse | ConditionUnknown.
#[global] Instance ConditionStatus_eq_dec : EqDecision ConditionStatus.
Proof. solve_decision. Defined.
Record Condition := mkCondition {
  cd_Type : string;
  cd_Status : ConditionStatus;
  cd_Reason : string;
  cd_Message : string;
  cd_LastTransitionTime : Time;
  cd_ObservedGeneration : Z;
}.
Record AgenticSREStatus := mkStatus {
  ObservedGeneration : Z;
  Conditions : list Condition;
}.
Definition FinalizerOperatorRBAC : string := "srenix.ai/operator-rbac".
Definition ConditionReady : string := "Ready".
Definition ConditionWatcherRunning : string := "WatcherRunning".
Definition ConditionReaderRBACReady : string := "ReaderRBACReady".
Definition ConditionAIWatchRunning : string := "AIWatchRunning".
Definition ConditionMemoryStoreReady : string := "MemoryStoreReady".
Definition ConditionApprovalServerReady : string := "ApprovalServerReady".

(** The metadata the operator uses: name, namespace, generation, finalizers
    and whether a deletion timestamp is set. *)
Record AgenticSRE := mkCR {
  cr_Name : string;
  cr_Namespace : string;
  cr_Generation : Z;
  cr_Finalizers : list string;
  cr_Deleting : bool;
  cr_Spec : AgenticSRESpec;
  cr_CRStatus : AgenticSREStatus;
}.
