(* ===== verification/Builders.v ===== *)
(** * Rendering workloads: internal/operator/builders.go

    The Kubernetes objects are records of the fields the operator sets.  The
    [nil] a builder returns for a disabled feature is [None].  The parser of
    quantities (apimachinery) is the class [QuantityParser]; a quantity is
    its canonical text. *)

From stdpp Require Import options.
From S2P Require Import Prelude GoString GoTime GoNum Protected Api.
Local Open Scope Z_scope.

(** ** Kubernetes objects *)

Inductive EnvSource := EnvValue (v : string) | SecretKeyRef (name key : string) | FieldRef (path : string).
Record EnvVar := mkEnvVar { env_Name : string; env_Source : EnvSource }.
Record KeyToPath := mkKeyToPath { kp_Key : string; kp_Path : string; kp_Mode : option Z }.
Record Volume := mkVolume { vol_Name : string; vol_SecretName : string; vol_Items : list KeyToPath }.
Record VolumeMount := mkVolumeMount { vm_Name : string; vm_MountPath : string; vm_ReadOnly : bool }.
Record ContainerPort := mkContainerPort { cp_Name : string; cp_ContainerPort : Z; cp_Protocol : string }.
Record HTTPProbe := mkHTTPProbe {
  pb_Path : string;
  pb_Port : string;
  pb_InitialDelaySeconds : Z;
  pb_PeriodSeconds : Z;
}.
Record Container := mkContainer {
  ct_Name : string;
  ct_Image : string;
  ct_ImagePullPolicy : string;
  ct_Args : list string;
  ct_Env : list EnvVar;
  ct_Ports : list ContainerPort;
  ct_VolumeMounts : list VolumeMount;
  ct_LivenessProbe : option HTTPProbe;
  ct_ReadinessProbe : option HTTPProbe;
}.
Record PodSpec := mkPodSpec {
  pod_ServiceAccountName : string;
  pod_RestartPolicy : string;
  pod_ImagePullSecrets : list string;
  pod_Volumes : list Volume;
  pod_Containers : list Container;
}.
Record PodTemplate := mkPodTemplate { pt_Labels : gmap string string; pt_Spec : PodSpec }.
Inductive DeploymentStrategy := RecreateStrategy | RollingUpdateStrategy (maxSurge maxUnavailable : Z).
Record DeploymentSpec := mkDeploymentSpec {
  dep_Replicas : Z;
  dep_Selector : gmap string string;
  dep_Strategy : DeploymentStrategy;
  dep_Template : PodTemplate;
}.
Record CronJobSpec := mkCronJobSpec {
  cj_Schedule : string;
  cj_ConcurrencyPolicy : string;
  cj_SuccessfulJobsHistoryLimit : Z;
  cj_FailedJobsHistoryLimit : Z;
  cj_JobLabels : gmap string string;
  cj_BackoffLimit : Z;
  cj_ActiveDeadlineSeconds : Z;
  cj_Template : PodTemplate;
}.
Record VolumeClaim := mkVolumeClaim {
  vc_Name : string;
  vc_AccessMode : string;
  vc_StorageClassName : option string;
  vc_Storage : string;
}.
(** The update strategy is the API's default when the builder leaves it. *)
Record StatefulSetSpec := mkStatefulSetSpec {
  sts_ServiceName : string;
  sts_Replicas : Z;
  sts_Selector : gmap string string;
  sts_Template : PodTemplate;
  sts_UpdateStrategy : string;
  sts_VolumeClaimTemplates : list VolumeClaim;
}.
Record ServicePort := mkServicePort { sp_Name : string; sp_Port : Z; sp_TargetPort : string; sp_Protocol : string }.
Record ServiceSpec := mkServiceSpec {
  svc_Type : string;
  svc_ClusterIP : string;
  svc_Selector : gmap string string;
  svc_Ports : list ServicePort;
}.

(** Name, namespace and labels of a built object, and its spec. *)
Record Built (A : Type) := mkBuilt {
  b_Name : string;
  b_Namespace : string;
  b_Labels : gmap string string;
  b_Spec : A;
}.
Arguments mkBuilt {_} _ _ _ _.
Arguments b_Name {_} _. Arguments b_Namespace {_} _. Arguments b_Labels {_} _. Arguments b_Spec {_} _.

Class QuantityParser := {
  (** The error, or the quantity. *)
  ParseQuantity : string → string + string;
  ParseQuantity_5Gi : ParseQuantity "5Gi" = inr "5Gi";
}.

(** ** Names, labels, images *)

Definition FieldManager : string := "srenix-operator".
Definition defaultWatcherDebounce : string := "10s".
Definition defaultWatcherResync : string := "10m".
Definition defaultDiagnoseSchedule : string := "0 9 * * *".
Definition defaultDiagnoseBackoffLimit : Z := 1.
Definition defaultDiagnoseActiveDeadlineS : Z := 120.
Definition defaultRemediateSchedule : string := "*/30 * * * *".
Definition defaultRemediateBackoffLimit : Z := 1.
Definition defaultRemediateActiveDeadlineS : Z := 120.
Definition defaultSlackSecretKey : string := "WEBHOOK_URL".
Definition defaultCloudflareSecretKey : string := "token".
Definition defaultWebhookServicePort : Z := 8090.
Definition defaultAITier : string := "t0".
Definition defaultAIInterval : string := "60s".
Definition defaultAIAPIKeyEnvName : string := "AI_API_KEY".
Definition defaultAIAPIKeySecretKey : string := "API_KEY".
Definition defaultAIImageRepo : string := "docker4zerocool/srenix-enterprise".
Definition defaultAIMemoryTopK : Z := 5.
Definition defaultQdrantImageRepo : string := "qdrant/qdrant".
Definition defaultQdrantImageTag : string := "v1.12.4".
Definition defaultQdrantStorageSize : string := "5Gi".
Definition qdrantHTTPPort : Z := 6333.
Definition qdrantGRPCPort : Z := 6334.
Definition roleLabelKey : string := "srenix.ai/role".

Record ResourceNames := mkResourceNames {
  rn_ServiceAccount : string;
  rn_Watcher : string;
  rn_Diagnose : string;
  rn_Remediate : string;
  rn_AIWatch : string;
  rn_RAG : string;
}.
Definition NamesFor (cr : AgenticSRE) : ResourceNames :=
  let n := cr_Name cr in
  mkResourceNames (n +:+ "-sa") (n +:+ "-watcher") (n +:+ "-diagnose") (n +:+ "-remediate") (n +:+ "-aiwatch") (n +:+ "-rag").
Definition ServiceAccountNameFor (cr : AgenticSRE) : string :=
  if ServiceAccountName (cr_Spec cr) ≠s? "" then ServiceAccountName (cr_Spec cr) else rn_ServiceAccount (NamesFor cr).
Definition CommonLabels (cr : AgenticSRE) (role : string) : gmap string string :=
  let labels : gmap string string :=
    <["app.kubernetes.io/name" := "agentic-sre"]> (<["app.kubernetes.io/instance" := cr_Name cr]>
      (<["app.kubernetes.io/managed-by" := FieldManager]> ∅)) in
  if role ≠s? "" then <[roleLabelKey := role]> labels else labels.
Definition imageRef (spec : ImageSpec) : string := im_Repository spec +:+ ":" +:+ im_Tag spec.
(** A secret reference is its name. *)
Definition pullSecretRefs (names : list string) : list string := names.
Definition pullPolicy (spec : ImageSpec) : string := if im_PullPolicy spec ≠s? "" then im_PullPolicy spec else "Always".
Definition BuildServiceAccount (cr : AgenticSRE) : Built unit :=
  let name := if ServiceAccountName (cr_Spec cr) ≠s? "" then ServiceAccountName (cr_Spec cr)
              else rn_ServiceAccount (NamesFor cr) in
  mkBuilt name (cr_Namespace cr) (CommonLabels cr "") ().

Definition secretRefEnv (name secretName defaultKey overrideKey : string) : EnvVar :=
  mkEnvVar name (SecretKeyRef secretName (if overrideKey ≠s? "" then overrideKey else defaultKey)).
(** [if v != "" { out = append(out, flag+v) }] *)
Definition flag (f v : string) : list string := if v ≠s? "" then [f +:+ v] else [].
(** The body of an [if p != nil]. *)
Definition on {A B} (p : option A) (f : A → list B) : list B := from_option f [] p.
(** [if v == "" { v = d }] and the same of a number *)
Definition or_default (v d : string) : string := if v =s? "" then d else v.
Definition or_defaultZ (v d : Z) : Z := if v =? 0 then d else v.

(** ** The flags of the watcher *)

Definition named_source (h : WatcherWebhookTriggerSpec) (s : string) : list EnvVar :=
  match Index s "=" with
  | None => []
  | Some eqIdx =>
      if (eqIdx =? len s - 1)%nat then [] else
      let envName := TrimSpace (sdrop (S eqIdx) s) in
      if envName =s? "" then [] else [mkEnvVar envName (SecretKeyRef (wt_SecretName h) envName)]
  end.
Definition watcherTriggerEnv (w : option WatcherSpec) : list EnvVar :=
  on w (λ w, on (ws_Triggers w) (λ t, on (tr_Webhook t) (λ h,
    if (wt_SecretName h =s? "") || (length (wt_Sources h) =? 0)%nat then [] else wt_Sources h ≫= named_source h))).
Definition watcherTriggerArgs (w : option WatcherSpec) : list string :=
  on w (λ w, on (ws_Triggers w) (λ t,
    on (tr_Prom t) (λ p,
      if pt_URL p ≠s? "" then
        ["--prom-trigger-url=" +:+ pt_URL p] ++ flag "--prom-trigger-interval=" (pt_Interval p) ++
        ((λ f, "--prom-trigger-alert-filter=" +:+ f) <$> pt_AlertNameFilter p)
      else []) ++
    on (tr_Webhook t) (λ h,
      if wt_Listen h ≠s? "" then
        ["--webhook-listen=" +:+ wt_Listen h] ++ ((λ s, "--webhook-source=" +:+ s) <$> wt_Sources h)
      else []))).
Definition silenceDurationArgs (s : option ApprovalSilenceSpec) : list string :=
  on s (λ s, flag "--silence-short-duration=" (si_ShortDuration s) ++ flag "--silence-long-duration=" (si_LongDuration s)).
Definition has_secret (c : SlackChannelSpec) : bool := sc_SecretName c ≠s? "".
Definition alertingArgs (a : option AlertingSpec) : list string :=
  on a (λ a,
    on (al_Alertmanager a) (λ m,
      if am_URL m ≠s? "" then ["--alertmanager-url=" +:+ am_URL m; "--cluster-name=" +:+ am_ClusterName m] else []) ++
    on (al_Slack a) (λ s,
      on (ss_Alerts s) (λ c, if has_secret c then ["--slack-alerts=$(SLACK_ALERTS_URL)"] else []) ++
      on (ss_Critical s) (λ c, if has_secret c then ["--slack-critical=$(SLACK_CRITICAL_URL)"] else []))).
Definition diagnoseAlertingArgs (a : option AlertingSpec) : list string :=
  on a (λ a, on (al_Slack a) (λ s, on (ss_HealthInfo s) (λ c,
    if has_secret c then ["--slack-healthinfo=$(SLACK_HEALTHINFO_URL)"] else []))).
Definition channel_env (name : string) (c : SlackChannelSpec) : list EnvVar :=
  if has_secret c then [secretRefEnv name (sc_SecretName c) defaultSlackSecretKey (sc_SecretKey c)] else [].
Definition healthinfoEnv (a : option AlertingSpec) : list EnvVar :=
  on a (λ a, on (al_Slack a) (λ s, on (ss_HealthInfo s) (channel_env "SLACK_HEALTHINFO_URL"))).
Definition alertingEnv (a : option AlertingSpec) : list EnvVar :=
  on a (λ a, on (al_Slack a) (λ s,
    on (ss_Alerts s) (channel_env "SLACK_ALERTS_URL") ++ on (ss_Critical s) (channel_env "SLACK_CRITICAL_URL"))).
Definition priorityArgs (p : TicketingPrioritySpec) : list string :=
  flag "--ticketing-priority-critical=" (tp_Critical p) ++ flag "--ticketing-priority-warning=" (tp_Warning p) ++
  flag "--ticketing-priority-info=" (tp_Info p).
Definition ticketingArgs (t : option TicketingSpec) : list string :=
  on t (λ t, if negb (tk_Enabled t) then [] else
    flag "--ticketing-provider=" (tk_Provider t) ++ flag "--ticketing-mcp-url=" (tk_MCPURL t) ++
    flag "--ticketing-project=" (tk_Project t) ++ flag "--ticketing-type-id=" (tk_TypeID t) ++
    flag "--ticketing-closed-status-id=" (tk_ClosedStatusID t) ++ on (tk_SeverityPriority t) priorityArgs ++
    flag "--ticketing-web-url-prefix=" (tk_WebURLPrefix t) ++ (tk_Labels t ≫= flag "--ticketing-labels=") ++
    (if tk_DryRun t then ["--ticketing-dry-run"] else []) ++
    (if default true (tk_ResolveOnClear t) then ["--ticketing-resolve-on-clear=true"]
     else ["--ticketing-resolve-on-clear=false"]) ++
    flag "--ticketing-comment-interval=" (tk_CommentInterval t) ++
    ["--ticketing-min-severity=" +:+ or_default (tk_MinSeverity t) "critical"]).
Definition ticketingEnv (t : option TicketingSpec) : list EnvVar :=
  on t (λ t, if negb (tk_Enabled t) then [] else on (tk_Auth t) (λ a,
    if negb (ta_Enabled a) || (ta_SecretName a =s? "") then []
    else [secretRefEnv "TICKETING_MCP_API_KEY" (ta_SecretName a) "api-key" (ta_SecretKey a)])).
Definition externalDNSEnv (e : option ExternalDNSSpec) : list EnvVar :=
  on e (λ e, on (ed_Cloudflare e) (λ c, if negb (cf_Enabled c) then [] else on (cf_APITokenSecretRef c) (λ r,
    if cs_Name r =s? "" then [] else [secretRefEnv "SRENIX_CLOUDFLARE_TOKEN" (cs_Name r) defaultCloudflareSecretKey (cs_Key r)]))).
Definition EnvProtectedNamespacesExtra : string := "SRENIX_PROTECTED_NAMESPACES_EXTRA".
Definition protectedNamespacesEnv (cr : AgenticSRE) : list EnvVar :=
  let extras := ParseProtectedNamespacesExtra (Join (ProtectedNamespacesExtra (cr_Spec cr)) ",") in
  if (length extras =? 0)%nat then [] else [mkEnvVar EnvProtectedNamespacesExtra (EnvValue (Join extras ","))].

(** ** The watcher Deployment *)

Definition webhookReceiverOn (w : option WatcherSpec) : option WatcherWebhookTriggerSpec :=
  w ← w; if negb (ws_Enabled w) then None else
  t ← ws_Triggers w; h ← tr_Webhook t; if wt_Listen h ≠s? "" then Some h else None.
Definition webhookServicePort (h : WatcherWebhookTriggerSpec) : Z := or_defaultZ (wt_ServicePort h) defaultWebhookServicePort.
Definition watcherHealthPort : Z := 8081.
Definition watcherContainerPorts (w : option WatcherSpec) : list ContainerPort :=
  [mkContainerPort "health" watcherHealthPort "TCP"] ++
  on (webhookReceiverOn w) (λ h, [mkContainerPort "webhook" (webhookServicePort h) "TCP"]).
Definition watcherHealthProbes : HTTPProbe * HTTPProbe :=
  (mkHTTPProbe "/healthz" "health" 10 10, mkHTTPProbe "/healthz" "health" 5 10).
Definition downward_env : list EnvVar :=
  [mkEnvVar "MY_POD_NAMESPACE" (FieldRef "metadata.namespace"); mkEnvVar "MY_POD_NAME" (FieldRef "metadata.name")].
(** The secret of the signing key, when the watcher is to mint links. *)
Definition watcher_signing (cr : AgenticSRE) : option (string * ApprovalSpec * string) :=
  ai ← AI (cr_Spec cr);
  if ai_ApprovalServerURL ai =s? "" then None else
  ap ← Approval (cr_Spec cr); k ← ap_SigningKey ap;
  if sk_SecretName k ≠s? "" then Some (ai_ApprovalServerURL ai, ap, sk_SecretName k) else None.
Definition keys_mount : VolumeMount := mkVolumeMount "signing-key" "/etc/srenix/keys" true.
Definition watcherArgs (cr : AgenticSRE) (w : WatcherSpec) : list string :=
  ["watch"; "--live"; "--debounce=" +:+ or_default (ws_Debounce w) defaultWatcherDebounce;
   "--resync-period=" +:+ or_default (ws_ResyncPeriod w) defaultWatcherResync] ++
  alertingArgs (Alerting (cr_Spec cr)) ++ ticketingArgs (Ticketing (cr_Spec cr)) ++
  watcherTriggerArgs (Watcher (cr_Spec cr)) ++
  on (watcher_signing cr) (λ '(url, ap, _),
    ["--approval-server-url=" +:+ url; "--signing-key-path=/etc/srenix/keys/signing.key"] ++
    silenceDurationArgs (ap_Silence ap)).
Definition watcherEnv (cr : AgenticSRE) : list EnvVar :=
  downward_env ++ alertingEnv (Alerting (cr_Spec cr)) ++ ticketingEnv (Ticketing (cr_Spec cr)) ++
  watcherTriggerEnv (Watcher (cr_Spec cr)) ++ externalDNSEnv (ExternalDNS (cr_Spec cr)) ++ protectedNamespacesEnv cr.
Definition BuildWatcherDeployment (cr : AgenticSRE) : option (Built DeploymentSpec) :=
  w ← Watcher (cr_Spec cr);
  if negb (ws_Enabled w) then None else
  let labels := CommonLabels cr "watcher" in
  let '(liveness, readiness) := watcherHealthProbes in
  Some (mkBuilt (rn_Watcher (NamesFor cr)) (cr_Namespace cr) labels
    (mkDeploymentSpec (or_defaultZ (ws_Replicas w) 1) labels (RollingUpdateStrategy 1 0)
      (mkPodTemplate labels
        (mkPodSpec (ServiceAccountNameFor cr) "" (pullSecretRefs (im_PullSecrets (Image (cr_Spec cr))))
          (on (watcher_signing cr) (λ '(_, _, secret),
            [mkVolume "signing-key" secret [mkKeyToPath "signing.key" "signing.key" None]]))
          [mkContainer "watcher" (imageRef (Image (cr_Spec cr))) (pullPolicy (Image (cr_Spec cr)))
             (watcherArgs cr w) (watcherEnv cr) (watcherContainerPorts (Watcher (cr_Spec cr)))
             (on (watcher_signing cr) (λ _, [keys_mount])) (Some liveness) (Some readiness)])))).

Definition WebhookServiceNameFor (cr : AgenticSRE) : string := cr_Name cr +:+ "-webhook".
Definition BuildWatcherWebhookService (cr : AgenticSRE) : option (Built ServiceSpec) :=
  h ← webhookReceiverOn (Watcher (cr_Spec cr));
  if negb (wt_ServiceEnabled h) then None else
  Some (mkBuilt (WebhookServiceNameFor cr) (cr_Namespace cr) (CommonLabels cr "watcher-webhook")
    (mkServiceSpec "ClusterIP" "" (CommonLabels cr "watcher") [mkServicePort "webhook" (webhookServicePort h) "webhook" "TCP"])).

(** ** The CronJobs *)

Definition buildCronJobCommon (cr : AgenticSRE) (role name schedule : string) (backoffLimit : option Z) (activeDeadline : Z)
    (args : list string) (extraEnv : list EnvVar) (defaultSchedule : string) (defaultBackoff defaultDeadline : Z)
    : Built CronJobSpec :=
  let labels := CommonLabels cr role in
  mkBuilt name (cr_Namespace cr) labels
    (mkCronJobSpec (or_default schedule defaultSchedule) "Forbid" 3 3 labels (default defaultBackoff backoffLimit)
      (or_defaultZ activeDeadline defaultDeadline)
      (mkPodTemplate labels
        (mkPodSpec (ServiceAccountNameFor cr) "OnFailure" (pullSecretRefs (im_PullSecrets (Image (cr_Spec cr)))) []
          [mkContainer role (imageRef (Image (cr_Spec cr))) (pullPolicy (Image (cr_Spec cr))) args
             (extraEnv ++ protectedNamespacesEnv cr) [] [] None None]))).
Definition diagnoseArgs (cr : AgenticSRE) : list string :=
  ["diagnose"; "--live"; "--format=daily"] ++ diagnoseAlertingArgs (Alerting (cr_Spec cr)).
Definition BuildDiagnoseCronJob (cr : AgenticSRE) : option (Built CronJobSpec) :=
  d ← Diagnose (cr_Spec cr);
  if negb (ds_Enabled d) then None else
  Some (buildCronJobCommon cr "diagnose" (rn_Diagnose (NamesFor cr)) (ds_Schedule d) (ds_BackoffLimit d)
    (ds_ActiveDeadlineSeconds d) (diagnoseArgs cr) (healthinfoEnv (Alerting (cr_Spec cr)))
    defaultDiagnoseSchedule defaultDiagnoseBackoffLimit defaultDiagnoseActiveDeadlineS).
Definition remediateArgs (d : RemediateSpec) : list string :=
  ["remediate"; "--live"] ++ (if rs_DryRun d then ["--dry-run=true"] else []).
Definition BuildRemediateCronJob (cr : AgenticSRE) : option (Built CronJobSpec) :=
  d ← Remediate (cr_Spec cr);
  if negb (rs_Enabled d) then None else
  Some (buildCronJobCommon cr "remediate" (rn_Remediate (NamesFor cr)) (rs_Schedule d) None
    (rs_ActiveDeadlineSeconds d) (remediateArgs d) []
    defaultRemediateSchedule defaultRemediateBackoffLimit defaultRemediateActiveDeadlineS).

(** ** The AI companion *)

(** An image with the overrides of an optional [ImageSpec]. *)
Definition image_override (i : option ImageSpec) (repo tag : string) : string :=
  match i with
  | None => repo +:+ ":" +:+ tag
  | Some i => or_default (im_Repository i) repo +:+ ":" +:+ or_default (im_Tag i) tag
  end.
Definition mutable_tag (t : string) : bool := (t =s? "latest") || (t =s? "main") || (t =s? "dev").
Definition policy_override (i : option ImageSpec) (fallback : string) : string :=
  match i with
  | None => fallback
  | Some i => if im_PullPolicy i ≠s? "" then im_PullPolicy i else if mutable_tag (im_Tag i) then "Always" else fallback
  end.
Definition secrets_override (i : option ImageSpec) (fallback : list string) : list string :=
  match i with
  | Some i => if (0 <? length (im_PullSecrets i))%nat then im_PullSecrets i else fallback
  | None => fallback
  end.

Definition aiImageRef (cr : AgenticSRE) : string :=
  image_override (ai ← AI (cr_Spec cr); ai_Image ai) defaultAIImageRepo ("v" +:+ im_Tag (Image (cr_Spec cr))).
Definition aiPullPolicy (cr : AgenticSRE) : string :=
  policy_override (ai ← AI (cr_Spec cr); ai_Image ai) (pullPolicy (Image (cr_Spec cr))).
Definition aiPullSecrets (cr : AgenticSRE) : list string :=
  secrets_override (ai ← AI (cr_Spec cr); ai_Image ai) (im_PullSecrets (Image (cr_Spec cr))).
Definition AIEnabled (cr : AgenticSRE) : bool := from_option ai_Enabled false (AI (cr_Spec cr)).
Definition MemoryEnabled (cr : AgenticSRE) : bool :=
  from_option mm_Enabled false (ai ← AI (cr_Spec cr); ai_Memory ai).

Definition memoryArgs (cr : AgenticSRE) (mem : AIMemorySpec) : list string :=
  if negb (mm_Enabled mem) then [] else
  ["--memory-store-url=" +:+
     or_default (mm_StoreURL mem) ("http://" +:+ cr_Name cr +:+ "-rag." +:+ cr_Namespace cr +:+ ".svc:6333")] ++
  on (mm_Embeddings mem) (λ e,
    flag "--memory-embeddings-endpoint=" (em_Endpoint e) ++ ["--memory-embeddings-model=" +:+ em_Model e]) ++
  ["--memory-topk=" +:+ Itoa (or_defaultZ (mm_TopK mem) defaultAIMemoryTopK)].
Definition attestation_key (att : DigestPinAttestationSpec) : string := or_default (at_SecretKey att) "attestation.key".
(** [att := ai.DigestPinAttestation; att != nil && att.SecretName != ""] *)
Definition attestation (ai : AISpec) : option DigestPinAttestationSpec :=
  att ← ai_DigestPinAttestation ai; if at_SecretName att ≠s? "" then Some att else None.
Definition metrics_on (ai : AISpec) : option AIMetricsSpec :=
  m ← ai_Metrics ai; if me_Addr m ≠s? "" then Some m else None.
Definition metrics_port (m : AIMetricsSpec) : Z := or_defaultZ (me_Port m) 9090.
Definition aiArgs (cr : AgenticSRE) (ai : AISpec) : list string :=
  ["watch"; "--ai-tier=" +:+ or_default (ai_Tier ai) defaultAITier; "--ai-endpoint=" +:+ ai_Endpoint ai;
   "--ai-model=" +:+ ai_Model ai; "--interval=" +:+ or_default (ai_Interval ai) defaultAIInterval] ++
  on (ai_APIKey ai) (λ k, flag "--ai-api-key-header=" (ak_Header k) ++ flag "--ai-api-key-env=" (ak_EnvName k)) ++
  (if ai_AllowSaaS ai then ["--ai-allow-saas"] else []) ++
  (if ai_LLMFixerMatcher ai then ["--ai-llm-fixer-matcher"] else []) ++
  flag "--ai-audit-log=" (ai_AuditLog ai) ++ flag "--approval-server-url=" (ai_ApprovalServerURL ai) ++
  on (ai_T3 ai) (λ t, (λ p, "--t3-vault-allowed-prefix=" +:+ p) <$> t3_VaultAllowedPrefixes t) ++
  on (ai_Memory ai) (memoryArgs cr) ++
  (if 1 <? ai_Replicas ai then
     ["--leader-election=true"; "--leader-election-namespace=" +:+ cr_Namespace cr;
      "--leader-election-name=" +:+ rn_AIWatch (NamesFor cr) +:+ "-leader"] else []) ++
  on (attestation ai) (λ att,
    ["--digest-pin-attestation-key=/etc/srenix/attestation/" +:+ attestation_key att;
     "--digest-pin-attestation-kid=" +:+ or_default (at_KeyID att) "srenix-digest-pin"]) ++
  on (metrics_on ai) (λ m, ["--metrics-addr=" +:+ me_Addr m]) ++
  on (ai_LLMProposer ai) (λ p, if lp_Enabled p then ["--llm-proposer=true"] else []) ++
  ai_ExtraArgs ai.

Definition plain_env (name v : string) : list EnvVar := if v ≠s? "" then [mkEnvVar name (EnvValue v)] else [].
Definition secret_env (name : string) (ref : option TicketingSecretRef) : list EnvVar :=
  on ref (λ r, if (ts_Name r ≠s? "") && (ts_Key r ≠s? "") then [mkEnvVar name (SecretKeyRef (ts_Name r) (ts_Key r))] else []).
Definition priority_env (prefix : string) (p : TicketingPrioritySpec) : list EnvVar :=
  plain_env (prefix +:+ "_CRITICAL") (tp_Critical p) ++ plain_env (prefix +:+ "_WARNING") (tp_Warning p) ++
  plain_env (prefix +:+ "_INFO") (tp_Info p).
Definition ticketingProviderEnv (t : option TicketingSpec) : list EnvVar :=
  on t (λ t,
    plain_env "SRENIX_TICKETING_ROUTE" (tk_Route t) ++
    on (tk_Jira t) (λ j,
      plain_env "SRENIX_JIRA_URL" (ji_URL j) ++ plain_env "SRENIX_JIRA_PROJECT" (ji_Project j) ++
      plain_env "SRENIX_JIRA_EMAIL" (ji_Email j) ++ plain_env "SRENIX_JIRA_ISSUE_TYPE" (ji_IssueType j) ++
      on (ji_Priority j) (priority_env "SRENIX_JIRA_PRIORITY") ++
      plain_env "SRENIX_JIRA_WEB_URL_BASE" (ji_WebURLBase j) ++ secret_env "SRENIX_JIRA_TOKEN" (ji_TokenSecret j)) ++
    on (tk_ServiceNow t) (λ s,
      plain_env "SRENIX_SERVICENOW_URL" (sn_URL s) ++ plain_env "SRENIX_SERVICENOW_USER" (sn_User s) ++
      on (sn_Urgency s) (priority_env "SRENIX_SERVICENOW_URGENCY") ++
      on (sn_Impact s) (priority_env "SRENIX_SERVICENOW_IMPACT") ++
      plain_env "SRENIX_SERVICENOW_WEB_URL_BASE" (sn_WebURLBase s) ++
      secret_env "SRENIX_SERVICENOW_PASSWORD" (sn_PasswordSecret s) ++
      secret_env "SRENIX_SERVICENOW_BEARER" (sn_BearerSecret s))).
Definition extra_env (ee : AIExtraEnv) : list EnvVar :=
  if ee_Name ee =s? "" then [] else
  [mkEnvVar (ee_Name ee)
    match (v ← ee_ValueFrom ee; r ← ev_SecretKeyRef v; if ek_Name r ≠s? "" then Some r else None) with
    | Some r => SecretKeyRef (ek_Name r) (ek_Key r)
    | None => EnvValue (ee_Value ee)
    end].
Definition aiEnv (cr : AgenticSRE) (ai : AISpec) : list EnvVar :=
  downward_env ++
  on (ai_APIKey ai) (λ k, if ak_SecretName k ≠s? "" then
    [mkEnvVar (or_default (ak_EnvName k) defaultAIAPIKeyEnvName)
       (SecretKeyRef (ak_SecretName k) (or_default (ak_SecretKey k) defaultAIAPIKeySecretKey))] else []) ++
  (ai_ExtraEnv ai ≫= extra_env) ++ ticketingProviderEnv (Ticketing (cr_Spec cr)) ++ protectedNamespacesEnv cr.

(** ** Approval settings the aiwatch needs (approval_builders.go) *)

Definition DefaultApprovalSigningKeySecretName : string := "srenix-approval-signing-key".
Definition ApprovalEnabled (cr : AgenticSRE) : bool := from_option ap_Enabled false (Approval (cr_Spec cr)).
Definition ApprovalSigningKeySecretName (cr : AgenticSRE) : string :=
  or_default (from_option sk_SecretName "" (ap ← Approval (cr_Spec cr); ap_SigningKey ap)) DefaultApprovalSigningKeySecretName.
Definition signing_key_volume (secret : string) : Volume :=
  mkVolume "signing-key" secret
    [mkKeyToPath "signing.key" "signing.key" (Some 292); mkKeyToPath "signing.pub" "signing.pub" (Some 292)].
Definition signing_key_path_env : EnvVar := mkEnvVar "SRENIX_SIGNING_KEY_PATH" (EnvValue "/etc/srenix/keys/signing.key").

Definition BuildAIWatchDeployment (cr : AgenticSRE) : option (Built DeploymentSpec) :=
  ai ← AI (cr_Spec cr);
  if negb (ai_Enabled ai) then None else
  let labels := CommonLabels cr "aiwatch" in
  let signing := ApprovalEnabled cr in
  Some (mkBuilt (rn_AIWatch (NamesFor cr)) (cr_Namespace cr) labels
    (mkDeploymentSpec (if 0 <? ai_Replicas ai then ai_Replicas ai else 1) labels RecreateStrategy
      (mkPodTemplate labels
        (mkPodSpec (ServiceAccountNameFor cr) "" (pullSecretRefs (aiPullSecrets cr))
          ((if signing then [signing_key_volume (ApprovalSigningKeySecretName cr)] else []) ++
           on (attestation ai) (λ att,
             [mkVolume "attestation-key" (at_SecretName att) [mkKeyToPath (attestation_key att) (attestation_key att) (Some 292)]]))
          [mkContainer "aiwatch" (aiImageRef cr) (aiPullPolicy cr) (aiArgs cr ai)
             (aiEnv cr ai ++ (if signing then [signing_key_path_env] else []))
             (on (metrics_on ai) (λ m, [mkContainerPort "metrics" (metrics_port m) "TCP"]))
             ((if signing then [keys_mount] else []) ++
              on (attestation ai) (λ _, [mkVolumeMount "attestation-key" "/etc/srenix/attestation" true]))
             None None])))).
Definition BuildAIWatchMetricsService (cr : AgenticSRE) : option (Built ServiceSpec) :=
  ai ← AI (cr_Spec cr);
  if negb (ai_Enabled ai) then None else
  m ← metrics_on ai;
  Some (mkBuilt (rn_AIWatch (NamesFor cr) +:+ "-metrics") (cr_Namespace cr) (CommonLabels cr "aiwatch-metrics")
    (mkServiceSpec "" "None" (CommonLabels cr "aiwatch") [mkServicePort "metrics" (metrics_port m) "metrics" "TCP"])).

(** ** Qdrant *)

Definition memory_of (cr : AgenticSRE) : option AIMemorySpec := ai ← AI (cr_Spec cr); ai_Memory ai.
Definition qdrantImageRef (m : AIMemorySpec) : string :=
  image_override (mm_Image m) defaultQdrantImageRepo defaultQdrantImageTag.
Definition qdrantPullPolicy (m : AIMemorySpec) : string := policy_override (mm_Image m) "IfNotPresent".
Definition qdrantPullSecrets (cr : AgenticSRE) (m : AIMemorySpec) : list string :=
  secrets_override (mm_Image m) (im_PullSecrets (Image (cr_Spec cr))).
Definition BuildQdrantService (cr : AgenticSRE) : option (Built ServiceSpec) :=
  if negb (MemoryEnabled cr) then None else
  let labels := CommonLabels cr "rag" in
  Some (mkBuilt (rn_RAG (NamesFor cr)) (cr_Namespace cr) labels
    (mkServiceSpec "ClusterIP" "" labels
      [mkServicePort "http" qdrantHTTPPort "http" "TCP"; mkServicePort "grpc" qdrantGRPCPort "grpc" "TCP"])).
Definition qdrant_container (m : AIMemorySpec) : Container :=
  mkContainer "qdrant" (qdrantImageRef m) (qdrantPullPolicy m) []
    [mkEnvVar "QDRANT__STORAGE__SNAPSHOTS_PATH" (EnvValue "/qdrant/storage/snapshots");
     mkEnvVar "QDRANT__STORAGE__TEMP_PATH" (EnvValue "/qdrant/storage/temp")]
    [mkContainerPort "http" qdrantHTTPPort "TCP"; mkContainerPort "grpc" qdrantGRPCPort "TCP"]
    [mkVolumeMount "storage" "/qdrant/storage" false]
    (Some (mkHTTPProbe "/livez" "http" 15 20)) (Some (mkHTTPProbe "/readyz" "http" 5 10)).
Definition qdrant_storage `{QuantityParser} (m : AIMemorySpec) : string :=
  match ParseQuantity (or_default (from_option st_Size "" (mm_Storage m)) defaultQdrantStorageSize) with
  | inr q => q
  | inl _ => "5Gi"
  end.
Definition BuildQdrantStatefulSet `{QuantityParser} (cr : AgenticSRE) : option (Built StatefulSetSpec) :=
  m ← memory_of cr;
  if negb (mm_Enabled m) then None else
  let labels := CommonLabels cr "rag" in
  Some (mkBuilt (rn_RAG (NamesFor cr)) (cr_Namespace cr) labels
    (mkStatefulSetSpec (rn_RAG (NamesFor cr)) 1 labels
      (mkPodTemplate labels (mkPodSpec "" "" (pullSecretRefs (qdrantPullSecrets cr m)) [] [qdrant_container m]))
      ""
      [mkVolumeClaim "storage" "ReadWriteOnce"
         (s ← mm_Storage m; if st_ClassName s ≠s? "" then Some (st_ClassName s) else None) (qdrant_storage m)])).

(** ** What the commands accept: cmd/srenix/main.go

    The flags each subcommand registers.  A flag is given as [--name] or
    [--name=value]. *)

Definition watch_flags : list string :=
  ["live"; "kubeconfig"; "debounce"; "resync-period"; "alertmanager-url"; "prom-trigger-url"; "prom-trigger-interval";
   "prom-trigger-alert-filter"; "webhook-listen"; "webhook-source"; "health-listen"; "cluster-name"; "slack-alerts";
   "slack-critical"; "slack-post-on-resolved"; "slack-repeat-interval"; "slack-critical-repeat-interval";
   "slack-no-change-digest"; "approval-dwell"; "write-driftreports"; "remedy"; "dry-run"; "vault-addr"; "vault-kv-mount";
   "vault-k8s-role"; "ticketing-provider"; "ticketing-mcp-url"; "ticketing-project"; "ticketing-type-id";
   "ticketing-closed-status-id"; "ticketing-priority-critical"; "ticketing-priority-warning"; "ticketing-priority-info";
   "ticketing-web-url-prefix"; "ticketing-labels"; "ticketing-dry-run"; "ticketing-resolve-on-clear";
   "ticketing-comment-interval"; "ticketing-min-severity"; "cloud-aws-enabled"; "cloud-aws-region"; "cloud-gcp-enabled";
   "cloud-gcp-project"; "cloud-gcp-region"; "cloud-azure-enabled"; "cloud-azure-subscription-id"; "cloud-azure-location";
   "include-cloud"; "exclude-cloud"; "cloud-cadence"; "approval-server-url"; "signing-key-path";
   "silence-short-duration"; "silence-long-duration"].
Definition diagnose_flags : list string :=
  ["snapshot"; "live"; "kubeconfig"; "format"; "slack-webhook"; "slack-healthinfo"; "write-driftreports"; "vault-addr";
   "vault-kv-mount"; "vault-k8s-role"; "approval-server-url"; "signing-key-path"; "silence-short-duration";
   "silence-long-duration"].
Definition remediate_flags : list string := ["live"; "kubeconfig"; "format"; "dry-run"; "slack-webhook"].
Definition command_flags (command : string) : list string :=
  if command =s? "watch" then watch_flags
  else if command =s? "diagnose" then diagnose_flags
  else if command =s? "remediate" then remediate_flags else [].

(** The text before the first equals sign. *)
Fixpoint before_eq (s : string) : string :=
  match s with
  | "" => ""
  | String c s => if bool_decide (c = "="%char) then "" else String c (before_eq s)
  end.
Definition flag_name (arg : string) : option string :=
  match arg with
  | String "-" (String "-" s) => Some (before_eq s)
  | _ => None
  end.
Definition registered (flags : list string) (arg : string) : bool :=
  match flag_name arg with
  | Some n => existsb (λ f, f =s? n) flags
  | None => false
  end.
(** The command line of a container: a subcommand and flags it registers. *)
Definition accepted (args : list string) : bool :=
  match args with
  | command :: flags => forallb (registered (command_flags command)) flags
  | [] => false
  end.

Lemma forallb_app_intro {A} (f : A → bool) l k : forallb f l = true → forallb f k = true → forallb f (l ++ k) = true.
Proof. rewrite forallb_app. by intros -> ->. Qed.
Lemma forallb_on {A B} (f : B → bool) (p : option A) g : (∀ x, forallb f (g x) = true) → forallb f (on p g) = true.
Proof. destruct p; [|done]. intros H. apply H. Qed.
Lemma forallb_flag f (flg v : string) : (v ≠ "" → f (flg +:+ v) = true) → forallb f (flag flg v) = true.
Proof. unfold flag. intros H. case_bool_decide; [done|]. cbn. by rewrite H. Qed.
Lemma forallb_fmap {A B} (f : B → bool) (g : A → B) l : (∀ x, f (g x) = true) → forallb f (g <$> l) = true.
Proof. intros H. induction l; cbn; [done|]. by rewrite H. Qed.
Lemma forallb_bind {A B} (f : B → bool) (g : A → list B) l : (∀ x, forallb f (g x) = true) → forallb f (l ≫= g) = true.
Proof. intros H. induction l; cbn; [done|]. rewrite forallb_app. by rewrite H. Qed.
Lemma forallb_if {A} (f : A → bool) (b : bool) l k :
  forallb f l = true → forallb f k = true → forallb f (if b then l else k) = true.
Proof. by destruct b. Qed.

(** Every flag rendered is a literal up to its equals sign. *)
Ltac all_flags :=
  repeat first [ reflexivity | progress intros | apply forallb_app_intro | apply forallb_on | apply forallb_flag
               | apply forallb_fmap | apply forallb_bind | apply forallb_if ].
Lemma watcher_flags_ok cr w : forallb (registered watch_flags) (tail (watcherArgs cr w)) = true.
Proof.
  unfold watcherArgs. cbn [app tail].
  match goal with |- forallb _ (?a :: ?b :: ?c :: ?l) = true => change (a :: b :: c :: l) with ([a; b; c] ++ l) end.
  apply forallb_app_intro; [reflexivity|]. unfold alertingArgs, ticketingArgs, watcherTriggerArgs, priorityArgs.
  repeat (apply forallb_app_intro). all: all_flags.
  destruct x as [[url ap] s]. unfold silenceDurationArgs. all_flags.
Qed.
