(* ===== verification/Rbac.v ===== *)
(** * Permissions and the approval server: internal/operator/rbac_builders.go, approval_builders.go

    The roles, bindings and objects of the approval server.  The signing key
    is generated by crypto/ed25519 from the system's randomness, the class
    [KeyGen]. *)

From stdpp Require Import options.
From S2P Require Import Prelude GoString GoTime GoNum Sha256 Token Protected Api Builders.
Local Open Scope Z_scope.

Record PolicyRule := mkPolicyRule {
  pr_APIGroups : list string;
  pr_Resources : list string;
  pr_ResourceNames : list string;
  pr_Verbs : list string;
}.
Record RoleRef := mkRoleRef { rr_Kind : string; rr_Name : string }.
Record Subject := mkSubject { su_Kind : string; su_Name : string; su_Namespace : string }.
Record BindingSpec := mkBindingSpec { bi_RoleRef : RoleRef; bi_Subjects : list Subject }.
Definition ServiceAccountKind : string := "ServiceAccount".
Definition read_verbs : list string := ["get"; "list"; "watch"].

(** ** The watcher's permissions *)

Definition ReaderClusterRoleName : string := "srenix-operator-watcher-reader".
Definition ManagedByCRLabel : string := "srenix.ai/managed-by-cr".
Definition ManagedByCRNamespaceLabel : string := "srenix.ai/cr-namespace".
Definition ReaderClusterRoleBindingName (cr : AgenticSRE) : string :=
  "srenix-operator-watcher-" +:+ cr_Namespace cr +:+ "-" +:+ cr_Name cr.
Definition operator_labels (component : string) : gmap string string :=
  <["app.kubernetes.io/managed-by" := "srenix-operator"]> (<["app.kubernetes.io/name" := "agentic-sre"]>
    (<["app.kubernetes.io/component" := component]> ∅)).
Definition binding_labels (cr : AgenticSRE) (component : string) : gmap string string :=
  <[ManagedByCRLabel := cr_Name cr]> (<[ManagedByCRNamespaceLabel := cr_Namespace cr]> (operator_labels component)).
Definition readerPolicyRules : list PolicyRule :=
  [mkPolicyRule [""] ["pods"; "nodes"; "persistentvolumeclaims"; "persistentvolumes"; "events"; "namespaces"; "services"; "endpoints"; "resourcequotas"] [] read_verbs;
   mkPolicyRule [""] ["pods/log"] [] ["get"];
   mkPolicyRule ["policy"] ["poddisruptionbudgets"] [] read_verbs;
   mkPolicyRule [""] ["secrets"] [] read_verbs;
   mkPolicyRule ["apps"] ["deployments"; "replicasets"; "statefulsets"; "daemonsets"] [] read_verbs;
   mkPolicyRule ["batch"] ["jobs"; "cronjobs"] [] read_verbs;
   mkPolicyRule ["external-secrets.io"] ["externalsecrets"; "secretstores"; "clustersecretstores"] [] read_verbs;
   mkPolicyRule ["cert-manager.io"] ["certificates"; "certificaterequests"] [] read_verbs;
   mkPolicyRule ["acme.cert-manager.io"] ["orders"; "challenges"] [] read_verbs;
   mkPolicyRule ["argoproj.io"] ["applications"] [] read_verbs;
   mkPolicyRule ["kustomize.toolkit.fluxcd.io"] ["kustomizations"] [] read_verbs;
   mkPolicyRule ["helm.toolkit.fluxcd.io"] ["helmreleases"] [] read_verbs;
   mkPolicyRule ["rbac.authorization.k8s.io"] ["roles"; "rolebindings"; "clusterroles"; "clusterrolebindings"] [] read_verbs;
   mkPolicyRule [""] ["serviceaccounts"] [] read_verbs;
   mkPolicyRule ["apiextensions.k8s.io"] ["customresourcedefinitions"] [] read_verbs;
   mkPolicyRule ["autoscaling"] ["horizontalpodautoscalers"] [] read_verbs;
   mkPolicyRule ["networking.k8s.io"] ["ingresses"; "networkpolicies"] [] read_verbs;
   mkPolicyRule ["discovery.k8s.io"] ["endpointslices"] [] read_verbs;
   mkPolicyRule ["keda.sh"] ["scaledobjects"] [] read_verbs;
   mkPolicyRule ["postgresql.cnpg.io"] ["clusters"] [] read_verbs;
   mkPolicyRule ["ceph.rook.io"] ["cephclusters"] [] read_verbs;
   mkPolicyRule ["configuration.konghq.com"] ["kongplugins"] [] read_verbs;
   mkPolicyRule ["velero.io"] ["backups"] [] read_verbs;
   mkPolicyRule ["srenix.ai"] ["driftreports"; "resolutionrecords"] [] ["get"; "list"; "watch"; "create"; "update"; "patch"; "delete"];
   mkPolicyRule ["srenix.ai"] ["driftreports/status"; "resolutionrecords/status"] [] ["update"; "patch"];
   mkPolicyRule ["srenix.ai"] ["silences"] [] read_verbs;
   mkPolicyRule ["srenix.ai"] ["silences/status"] [] ["update"; "patch"];
   mkPolicyRule ["coordination.k8s.io"] ["leases"] [] ["get"; "list"; "watch"; "create"; "update"; "patch"]].
Definition BuildReaderClusterRole : Built (list PolicyRule) :=
  mkBuilt ReaderClusterRoleName "" (operator_labels "reader") readerPolicyRules.
Definition BuildReaderClusterRoleBinding (cr : AgenticSRE) : Built BindingSpec :=
  mkBuilt (ReaderClusterRoleBindingName cr) "" (binding_labels cr "reader")
    (mkBindingSpec (mkRoleRef "ClusterRole" ReaderClusterRoleName)
      [mkSubject ServiceAccountKind (ServiceAccountNameFor cr) (cr_Namespace cr)]).

(** ** Names and settings of the approval server *)

Definition ApprovalFixerClusterRoleName : string := "srenix-operator-approval-fixer".
Definition DefaultApprovalReplayConfigMap : string := "srenix-approval-replay".
Definition DefaultApprovalRunbookConfigMap : string := "srenix-approval-runbooks".
Definition approvalServerHTTPPort : Z := 8443.

Definition ApprovalServerName (cr : AgenticSRE) : string := cr_Name cr +:+ "-approval-server".
Definition ApprovalFixerClusterRoleBindingName (cr : AgenticSRE) : string :=
  ApprovalFixerClusterRoleName +:+ "-" +:+ cr_Namespace cr +:+ "-" +:+ cr_Name cr.
Definition ApprovalAuditNamespace (cr : AgenticSRE) : string :=
  or_default (from_option ap_AuditNamespace "" (Approval (cr_Spec cr))) (cr_Namespace cr).
Definition approvalReplicas (cr : AgenticSRE) : Z := or_defaultZ (from_option ap_Replicas 0 (Approval (cr_Spec cr))) 1.
Definition approval_store (cr : AgenticSRE) : option ApprovalStoreSpec := ap ← Approval (cr_Spec cr); ap_Store ap.
Definition approvalStoreBackend (cr : AgenticSRE) : string :=
  or_default (from_option so_Backend "" (approval_store cr)) "inmemory".
Definition approvalStoreConfigMaps (cr : AgenticSRE) : string * string :=
  (or_default (from_option so_ReplayConfigMap "" (approval_store cr)) DefaultApprovalReplayConfigMap,
   or_default (from_option so_RunbookConfigMap "" (approval_store cr)) DefaultApprovalRunbookConfigMap).
Definition approval_image (cr : AgenticSRE) : option ImageSpec := ap ← Approval (cr_Spec cr); ap_Image ap.
Definition approvalImageRef (cr : AgenticSRE) : string :=
  image_override (approval_image cr) defaultAIImageRepo ("v" +:+ im_Tag (Image (cr_Spec cr))).
Definition approvalPullPolicy (cr : AgenticSRE) : string :=
  policy_override (approval_image cr) (pullPolicy (Image (cr_Spec cr))).
Definition approvalPullSecrets (cr : AgenticSRE) : list string :=
  secrets_override (approval_image cr) (im_PullSecrets (Image (cr_Spec cr))).

(** ** Its workload *)

Definition approval_labels (cr : AgenticSRE) : gmap string string := CommonLabels cr "approval-server".
Definition BuildApprovalServerServiceAccount (cr : AgenticSRE) : option (Built unit) :=
  if negb (ApprovalEnabled cr) then None else
  Some (mkBuilt (ApprovalServerName cr) (cr_Namespace cr) (approval_labels cr) ()).
Definition BuildApprovalServerService (cr : AgenticSRE) : option (Built ServiceSpec) :=
  if negb (ApprovalEnabled cr) then None else
  Some (mkBuilt (ApprovalServerName cr) (cr_Namespace cr) (approval_labels cr)
    (mkServiceSpec "ClusterIP" "" (approval_labels cr) [mkServicePort "http" approvalServerHTTPPort "http" "TCP"])).
Definition approvalArgs (cr : AgenticSRE) : list string :=
  ["approval-server"; "--listen=:8443"; "--signing-key-path=/etc/srenix/keys/signing.key";
   "--audit-namespace=" +:+ ApprovalAuditNamespace cr] ++
  (let backend := approvalStoreBackend cr in
   if backend ≠s? "inmemory" then
     let '(replayCM, runbookCM) := approvalStoreConfigMaps cr in
     ["--store-backend=" +:+ backend] ++ flag "--store-namespace=" (from_option so_Namespace "" (approval_store cr)) ++
     ["--store-replay-configmap=" +:+ replayCM; "--store-runbook-configmap=" +:+ runbookCM]
   else []).
Definition BuildApprovalServerDeployment (cr : AgenticSRE) : option (Built DeploymentSpec) :=
  if negb (ApprovalEnabled cr) then None else
  let labels := approval_labels cr in
  Some (mkBuilt (ApprovalServerName cr) (cr_Namespace cr) labels
    (mkDeploymentSpec (approvalReplicas cr) labels
      (if approvalStoreBackend cr =s? "configmap" then RollingUpdateStrategy 1 0 else RecreateStrategy)
      (mkPodTemplate labels
        (mkPodSpec (ApprovalServerName cr) "" (pullSecretRefs (approvalPullSecrets cr))
          [signing_key_volume (ApprovalSigningKeySecretName cr)]
          [mkContainer "approval-server" (approvalImageRef cr) (approvalPullPolicy cr) (approvalArgs cr)
             [signing_key_path_env] [mkContainerPort "http" approvalServerHTTPPort "TCP"] [keys_mount]
             (Some (mkHTTPProbe "/healthz" "http" 5 30)) (Some (mkHTTPProbe "/readyz" "http" 2 10))])))).

(** ** Its permissions *)

Definition BuildApprovalFixerClusterRole : Built (list PolicyRule) :=
  mkBuilt ApprovalFixerClusterRoleName "" (operator_labels "approval-fixer")
    [mkPolicyRule [""] ["pods"] [] ["delete"];
     mkPolicyRule ["batch"] ["jobs"] [] ["delete"];
     mkPolicyRule ["apps"] ["deployments"] [] ["patch"];
     mkPolicyRule ["cert-manager.io"] ["certificaterequests"] [] ["delete"];
     mkPolicyRule ["acme.cert-manager.io"] ["orders"] [] ["delete"];
     mkPolicyRule ["networking.k8s.io"] ["ingresses"] [] ["patch"]].
Definition approval_subject (cr : AgenticSRE) : list Subject :=
  [mkSubject ServiceAccountKind (ApprovalServerName cr) (cr_Namespace cr)].
Definition BuildApprovalFixerClusterRoleBinding (cr : AgenticSRE) : Built BindingSpec :=
  mkBuilt (ApprovalFixerClusterRoleBindingName cr) "" (binding_labels cr "approval-fixer")
    (mkBindingSpec (mkRoleRef "ClusterRole" ApprovalFixerClusterRoleName) (approval_subject cr)).

(** One of the namespaced roles and its binding, which shares its name. *)
Definition approval_role (cr : AgenticSRE) (suffix ns : string) (rules : list PolicyRule) : Built (list PolicyRule) :=
  mkBuilt (ApprovalServerName cr +:+ suffix) ns (approval_labels cr) rules.
Definition approval_binding (cr : AgenticSRE) (suffix ns : string) : Built BindingSpec :=
  mkBuilt (ApprovalServerName cr +:+ suffix) ns (approval_labels cr)
    (mkBindingSpec (mkRoleRef "Role" (ApprovalServerName cr +:+ suffix)) (approval_subject cr)).
Definition BuildApprovalSigningReaderRole (cr : AgenticSRE) : option (Built (list PolicyRule)) :=
  if negb (ApprovalEnabled cr) then None else
  Some (approval_role cr "-signing-reader" (cr_Namespace cr)
    [mkPolicyRule [""] ["secrets"] [ApprovalSigningKeySecretName cr] ["get"; "watch"]]).
Definition BuildApprovalSigningReaderRoleBinding (cr : AgenticSRE) : option (Built BindingSpec) :=
  if negb (ApprovalEnabled cr) then None else Some (approval_binding cr "-signing-reader" (cr_Namespace cr)).
Definition BuildApprovalEventsRole (cr : AgenticSRE) : option (Built (list PolicyRule)) :=
  if negb (ApprovalEnabled cr) then None else
  Some (approval_role cr "-events" (ApprovalAuditNamespace cr) [mkPolicyRule [""] ["events"] [] ["create"; "patch"]]).
Definition BuildApprovalEventsRoleBinding (cr : AgenticSRE) : option (Built BindingSpec) :=
  if negb (ApprovalEnabled cr) then None else Some (approval_binding cr "-events" (ApprovalAuditNamespace cr)).
Definition BuildApprovalSilenceWriterRole (cr : AgenticSRE) : option (Built (list PolicyRule)) :=
  if negb (ApprovalEnabled cr) then None else
  Some (approval_role cr "-silence-writer" (cr_Namespace cr)
    [mkPolicyRule ["srenix.ai"] ["silences"] [] ["create"; "get"; "list"]]).
Definition BuildApprovalSilenceWriterRoleBinding (cr : AgenticSRE) : option (Built BindingSpec) :=
  if negb (ApprovalEnabled cr) then None else Some (approval_binding cr "-silence-writer" (cr_Namespace cr)).
Definition stores_on (cr : AgenticSRE) : bool := ApprovalEnabled cr && (approvalStoreBackend cr =s? "configmap").
Definition store_namespace (cr : AgenticSRE) : string :=
  or_default (from_option so_Namespace "" (approval_store cr)) (cr_Namespace cr).
Definition BuildApprovalStoresRole (cr : AgenticSRE) : option (Built (list PolicyRule)) :=
  if negb (stores_on cr) then None else
  let '(replayCM, runbookCM) := approvalStoreConfigMaps cr in
  Some (approval_role cr "-stores" (store_namespace cr)
    [mkPolicyRule [""] ["configmaps"] [replayCM; runbookCM] ["get"; "update"];
     mkPolicyRule [""] ["configmaps"] [] ["create"]]).
Definition BuildApprovalStoresRoleBinding (cr : AgenticSRE) : option (Built BindingSpec) :=
  if negb (stores_on cr) then None else Some (approval_binding cr "-stores" (store_namespace cr)).

(** ** Its key, network policy and ingress *)

Class KeyGen := {
  (** The n-th key pair drawn: public, private; or the error. *)
  GenerateKey : nat → string + string * string;
}.
Record SecretData := mkSecretData { sd_Type : string; sd_Data : gmap string string }.
Definition GenerateSigningKeySecret `{KeyGen} (cr : AgenticSRE) (n : nat) : string + Built SecretData :=
  match GenerateKey n with
  | inl e => inl ("ed25519 keygen: " +:+ e)
  | inr (pub, priv) =>
      inr (mkBuilt (ApprovalSigningKeySecretName cr) (cr_Namespace cr) (approval_labels cr)
        (mkSecretData "Opaque"
          (<["signing.key" := b64_std_encode priv]> (<["signing.pub" := b64_std_encode pub]> ∅))))
  end.

Record NetworkPolicySpec := mkNetworkPolicySpec {
  nps_PodSelector : gmap string string;
  nps_PolicyTypes : list string;
  nps_FromNamespace : gmap string string;
  nps_Ports : list (string * Z);
}.
Definition approval_network_policy (cr : AgenticSRE) : option ApprovalNetworkPolicySpec :=
  ap ← Approval (cr_Spec cr); ap_NetworkPolicy ap.
Definition ApprovalNetworkPolicyEnabled (cr : AgenticSRE) : bool :=
  ApprovalEnabled cr && from_option np_Enabled false (approval_network_policy cr).
Definition BuildApprovalServerNetworkPolicy (cr : AgenticSRE) : option (Built NetworkPolicySpec) :=
  if negb (ApprovalNetworkPolicyEnabled cr) then None else
  Some (mkBuilt (ApprovalServerName cr) (cr_Namespace cr) (approval_labels cr)
    (mkNetworkPolicySpec (approval_labels cr) ["Ingress"]
      (from_option np_GatewayNamespaceSelector ∅ (approval_network_policy cr)) [("TCP", approvalServerHTTPPort)])).

Record IngressSpec := mkIngress {
  ig_ClassName : option string;
  ig_Host : string;
  ig_Paths : list (string * string * string);
  ig_TLS : option (list string * string);
}.
Definition approval_ingress (cr : AgenticSRE) : option ApprovalIngressSpec := ap ← Approval (cr_Spec cr); ap_Ingress ap.
Definition ApprovalIngressEnabled (cr : AgenticSRE) : bool :=
  ApprovalEnabled cr && from_option in_Enabled false (approval_ingress cr).
(** The annotations and the ingress; a path has the service and port name it
    routes to, all of type Prefix. *)
Definition BuildApprovalServerIngress (cr : AgenticSRE) : option (gmap string string * Built IngressSpec) :=
  if negb (ApprovalIngressEnabled cr) then None else
  ing ← approval_ingress cr;
  let path p := (p, ApprovalServerName cr, "http") in
  Some (in_Annotations ing, mkBuilt (ApprovalServerName cr) (cr_Namespace cr) (approval_labels cr)
    (mkIngress (if in_IngressClassName ing ≠s? "" then Some (in_IngressClassName ing) else None) (in_Host ing)
      [path "/approve"; path "/deny"; path "/silence"; path "/healthz"]
      (t ← in_TLS ing;
       if tl_Enabled t then Some ([in_Host ing], or_default (tl_SecretName t) (ApprovalServerName cr +:+ "-tls")) else None))).
