(* ===== verification/Reconciler.v ===== *)
(** * The operator: internal/operator/reconciler.go

    [Reconcile] against an API server that may fail any call, and may have
    done what it reports as failed.  The server is the class [Client]: a
    state with a view of the child objects and one of the AgenticSRE
    resources, and the calls.  During one reconcile nobody else writes; what
    others do between reconciles is in the section on the system. *)

From stdpp Require Import options.
From S2P Require Import Prelude GoString GoTime GoNum Sha256 Protected Api Builders Rbac.
Local Open Scope Z_scope.

(** ** Objects *)

Inductive Kind :=
  | KServiceAccount | KSecret | KService | KDeployment | KStatefulSet | KCronJob
  | KRole | KRoleBinding | KClusterRole | KClusterRoleBinding | KNetworkPolicy | KIngress.
#[global] Instance Kind_eq_dec : EqDecision Kind.
Proof. solve_decision. Defined.
#[global] Instance Kind_countable : Countable Kind.
Proof.
  refine (inj_countable'
    (λ k, match k with KServiceAccount => 0 | KSecret => 1 | KService => 2 | KDeployment => 3 | KStatefulSet => 4
          | KCronJob => 5 | KRole => 6 | KRoleBinding => 7 | KClusterRole => 8 | KClusterRoleBinding => 9
          | KNetworkPolicy => 10 | KIngress => 11 end%nat)
    (λ n, match n with 0 => KServiceAccount | 1 => KSecret | 2 => KService | 3 => KDeployment | 4 => KStatefulSet
          | 5 => KCronJob | 6 => KRole | 7 => KRoleBinding | 8 => KClusterRole | 9 => KClusterRoleBinding
          | 10 => KNetworkPolicy | _ => KIngress end%nat) _).
  by intros [].
Defined.
Definition kind_name (k : Kind) : string :=
  match k with
  | KServiceAccount => "ServiceAccount" | KSecret => "Secret" | KService => "Service" | KDeployment => "Deployment"
  | KStatefulSet => "StatefulSet" | KCronJob => "CronJob" | KRole => "Role" | KRoleBinding => "RoleBinding"
  | KClusterRole => "ClusterRole" | KClusterRoleBinding => "ClusterRoleBinding" | KNetworkPolicy => "NetworkPolicy"
  | KIngress => "Ingress"
  end.
(** Kind, namespace (empty when cluster-scoped), name. *)
Definition Key : Type := Kind * string * string.
Definition key_kind (k : Key) : Kind := k.1.1.

Inductive Body :=
  | ServiceAccountBody
  | SecretBody (d : SecretData)
  | ServiceBody (s : ServiceSpec)
  | DeploymentBody (s : DeploymentSpec) (availableReplicas : Z)
  | StatefulSetBody (s : StatefulSetSpec) (readyReplicas : Z)
  | CronJobBody (s : CronJobSpec)
  | RulesBody (rules : list PolicyRule)
  | BindingBody (b : BindingSpec)
  | NetworkPolicyBody (s : NetworkPolicySpec)
  | IngressBody (annotations : gmap string string) (s : IngressSpec).
(** The owner is the namespace and name of the controlling AgenticSRE. *)
Record Obj := mkObj { o_Labels : gmap string string; o_Owner : option (string * string); o_Body : Body }.

(** An error of the API server with its text. *)
Inductive APIErr := NotFound (m : string) | AlreadyExists (m : string) | OtherErr (m : string).
Definition err_text (e : APIErr) : string := match e with NotFound m | AlreadyExists m | OtherErr m => m end.
Definition IsNotFound (e : APIErr) : bool := match e with NotFound _ => true | _ => false end.
Definition IsAlreadyExists (e : APIErr) : bool := match e with AlreadyExists _ => true | _ => false end.
Definition IgnoreNotFound (e : option APIErr) : option APIErr :=
  match e with Some (NotFound _) => None | _ => e end.

(** ** The API server *)

Definition NN : Type := string * string.
Definition cr_key (cr : AgenticSRE) : NN := (cr_Namespace cr, cr_Name cr).
Definition with_finalizers (fs : list string) (cr : AgenticSRE) : AgenticSRE :=
  mkCR (cr_Name cr) (cr_Namespace cr) (cr_Generation cr) fs (cr_Deleting cr) (cr_Spec cr) (cr_CRStatus cr).
Definition with_status (st : AgenticSREStatus) (cr : AgenticSRE) : AgenticSRE :=
  mkCR (cr_Name cr) (cr_Namespace cr) (cr_Generation cr) (cr_Finalizers cr) (cr_Deleting cr) (cr_Spec cr) st.
(** An Update of the resource: a resource on its way out goes when its last
    finalizer does. *)
Definition put_cr (cr : AgenticSRE) (m : gmap NN AgenticSRE) : gmap NN AgenticSRE :=
  if cr_Deleting cr && (length (cr_Finalizers cr) =? 0)%nat then delete (cr_key cr) m else <[cr_key cr := cr]> m.
Definition put_status (cr : AgenticSRE) (m : gmap NN AgenticSRE) : gmap NN AgenticSRE :=
  alter (with_status (cr_CRStatus cr)) (cr_key cr) m.

(** A call that failed did nothing or did its work after all. *)
Definition may {A} (old new now : A) (e : option APIErr) : Prop :=
  match e with None => now = new | Some _ => now = old ∨ now = new end.

Class Client (S : Type) := {
  objs : S → gmap Key Obj;
  crs : S → gmap NN AgenticSRE;
  Get : Key → S → S * (APIErr + Obj);
  Create : Key → Obj → S → S * option APIErr;
  Update : Key → Obj → S → S * option APIErr;
  Delete : Key → S → S * option APIErr;
  GetCR : NN → S → S * (APIErr + AgenticSRE);
  UpdateCR : AgenticSRE → S → S * option APIErr;
  UpdateStatus : AgenticSRE → S → S * option APIErr;
}.
(** What a call may answer and do. *)
Class ClientLaws (S : Type) `{Client S} := {
  Get_law k s : let '(s', r) := Get k s in
    objs s' = objs s ∧ crs s' = crs s ∧
    match r with inr o => objs s !! k = Some o | inl (NotFound _) => objs s !! k = None | inl _ => True end;
  Create_law k o s : let '(s', e) := Create k o s in
    crs s' = crs s ∧
    match objs s !! k with
    | None => may (objs s) (<[k := o]> (objs s)) (objs s') e ∧ ∀ m, e ≠ Some (AlreadyExists m)
    | Some _ => objs s' = objs s ∧ e ≠ None
    end;
  Update_law k o s : let '(s', e) := Update k o s in
    crs s' = crs s ∧
    match objs s !! k with
    | Some _ => may (objs s) (<[k := o]> (objs s)) (objs s') e
    | None => objs s' = objs s ∧ e ≠ None
    end;
  Delete_law k s : let '(s', e) := Delete k s in
    crs s' = crs s ∧ may (objs s) (delete k (objs s)) (objs s') e ∧ (IgnoreNotFound e = None → objs s' !! k = None);
  GetCR_law k s : let '(s', r) := GetCR k s in
    objs s' = objs s ∧ crs s' = crs s ∧
    match r with
    | inr cr => crs s !! k = Some cr ∧ cr_key cr = k
    | inl (NotFound _) => crs s !! k = None
    | inl _ => True
    end;
  UpdateCR_law cr s : let '(s', e) := UpdateCR cr s in
    objs s' = objs s ∧ may (crs s) (put_cr cr (crs s)) (crs s') e;
  UpdateStatus_law cr s : let '(s', e) := UpdateStatus cr s in
    objs s' = objs s ∧ may (crs s) (put_status cr (crs s)) (crs s') e;
}.

(** ** One child at a time *)

(** [meta.Labels] after [mergeLabels] *)
Definition mergeLabels (desired : gmap string string) (labels : gmap string string) : gmap string string := desired ∪ labels.
Definition labelsUpToDate (current desired : gmap string string) : bool := bool_decide (map_Forall (λ k v, default "" (current !! k) = v) desired).

(** What the callback of [createOrUpdate] takes over from the desired
    object into the live one, besides the labels. *)
Definition mutate_body (desired current : Body) : Body :=
  match desired, current with
  | ServiceBody d, ServiceBody c =>
      ServiceBody (mkServiceSpec (svc_Type c) (svc_ClusterIP c) (svc_Selector d) (svc_Ports d))
  | DeploymentBody d _, DeploymentBody c n =>
      DeploymentBody (mkDeploymentSpec (dep_Replicas d) (dep_Selector c) (dep_Strategy d) (dep_Template d)) n
  | StatefulSetBody d _, StatefulSetBody c n =>
      StatefulSetBody (mkStatefulSetSpec (sts_ServiceName c) (sts_Replicas d) (sts_Selector c) (sts_Template d)
        (sts_UpdateStrategy d) (sts_VolumeClaimTemplates c)) n
  | CronJobBody d, CronJobBody _ => CronJobBody d
  | RulesBody d, RulesBody _ => RulesBody d
  | BindingBody d, BindingBody _ => BindingBody d
  | NetworkPolicyBody d, NetworkPolicyBody _ => NetworkPolicyBody d
  | IngressBody a d, IngressBody b _ => IngressBody (a ∪ b) d
  | _, _ => current
  end.
Definition mutate (desired current : Obj) : Obj :=
  mkObj (mergeLabels (o_Labels desired) (o_Labels current)) (o_Owner current) (mutate_body (o_Body desired) (o_Body current)).

Definition key_text (k : Key) : string := "*v1." +:+ kind_name (key_kind k) +:+ " " +:+ k.1.2 +:+ "/" +:+ k.2.

(** A piece of a reconcile: the state after it and the error. *)
Section pieces.
Context {S : Type} `{!Client S}.
Definition Step : Type := S → S * option string.
Definition skip : Step := λ s, (s, None).
(** [if err := a; err != nil { return err }; b] *)
Definition seq (a b : Step) : Step := λ s, let '(s, e) := a s in match e with Some _ => (s, e) | None => b s end.
(** [fmt.Errorf(m + ": %w", err)] *)
Definition wrap (m : string) (a : Step) : Step := λ s, let '(s, e) := a s in (s, (λ t, m +:+ ": " +:+ t) <$> e).

Definition createOrUpdate (k : Key) (desired : Obj) : Step := λ s,
  let '(s, r) := Get k s in
  match r with
  | inl err =>
      if negb (IsNotFound err) then (s, Some ("get " +:+ key_text k +:+ ": " +:+ err_text err)) else
      let '(s, cerr) := Create k desired s in
      match cerr with
      | Some cerr => if negb (IsAlreadyExists cerr)
                     then (s, Some ("create " +:+ key_text k +:+ ": " +:+ err_text cerr)) else (s, None)
      | None => (s, None)
      end
  | inr current =>
      let '(s, uerr) := Update k (mutate desired current) s in
      (s, (λ u, "update " +:+ key_text k +:+ ": " +:+ err_text u) <$> uerr)
  end.
Definition ignore_not_found (e : option APIErr) : option string := err_text <$> IgnoreNotFound e.
Definition deleteIfExists (k : Key) : Step := λ s,
  let '(s, r) := Get k s in
  match r with
  | inl err => if IsNotFound err then (s, None) else (s, Some (err_text err))
  | inr _ => let '(s, e) := Delete k s in (s, ignore_not_found e)
  end.
End pieces.
Arguments Step : clear implicits.
Infix "⨾" := seq (at level 60, right associativity) : srenix_scope.

(** ** The desired children *)

(** What [controllerutilSetOwnerRef] makes of a built object. *)
Definition owned {A} (cr : AgenticSRE) (b : Built A) (body : Body) : Obj :=
  mkObj (b_Labels b) (Some (cr_key cr)) body.
Definition unowned {A} (b : Built A) (body : Body) : Obj := mkObj (b_Labels b) None body.
Definition built_key {A} (kind : Kind) (b : Built A) : Key := (kind, b_Namespace b, b_Name b).

Section reconcile.
Context {S : Type} `{!Client S} `{!QuantityParser} `{!KeyGen}.

Definition ensure {A} (cr : AgenticSRE) (kind : Kind) (b : Built A) (body : Body) : Step S :=
  createOrUpdate (built_key kind b) (owned cr b body).
(** Create or update when built, delete when disabled. *)
Definition ensure_or_delete {A} (cr : AgenticSRE) (kind : Kind) (name : string) (b : option (Built A)) (body : A → Body)
    : Step S :=
  match b with
  | None => deleteIfExists (kind, cr_Namespace cr, name)
  | Some b => ensure cr kind b (body (b_Spec b))
  end.
Definition deployment (s : DeploymentSpec) : Body := DeploymentBody s 0.
Definition stateful_set (s : StatefulSetSpec) : Body := StatefulSetBody s 0.

Definition reconcileServiceAccount (cr : AgenticSRE) : Step S :=
  if ServiceAccountName (cr_Spec cr) ≠s? "" then skip else
  ensure cr KServiceAccount (BuildServiceAccount cr) ServiceAccountBody.
Definition reconcileReaderRBAC (cr : AgenticSRE) : Step S :=
  wrap "reader ClusterRole"
    (createOrUpdate (built_key KClusterRole BuildReaderClusterRole)
       (unowned BuildReaderClusterRole (RulesBody (b_Spec BuildReaderClusterRole)))) ⨾
  createOrUpdate (built_key KClusterRoleBinding (BuildReaderClusterRoleBinding cr))
    (unowned (BuildReaderClusterRoleBinding cr) (BindingBody (b_Spec (BuildReaderClusterRoleBinding cr)))).
Definition reconcileWatcher (cr : AgenticSRE) : Step S :=
  match BuildWatcherDeployment cr with
  | None =>
      deleteIfExists (KDeployment, cr_Namespace cr, rn_Watcher (NamesFor cr)) ⨾
      deleteIfExists (KService, cr_Namespace cr, WebhookServiceNameFor cr)
  | Some desired =>
      ensure cr KDeployment desired (deployment (b_Spec desired)) ⨾
      ensure_or_delete cr KService (WebhookServiceNameFor cr) (BuildWatcherWebhookService cr) ServiceBody
  end.
Definition reconcileDiagnose (cr : AgenticSRE) : Step S :=
  ensure_or_delete cr KCronJob (rn_Diagnose (NamesFor cr)) (BuildDiagnoseCronJob cr) CronJobBody.
Definition reconcileRemediate (cr : AgenticSRE) : Step S :=
  ensure_or_delete cr KCronJob (rn_Remediate (NamesFor cr)) (BuildRemediateCronJob cr) CronJobBody.
Definition reconcileAIWatch (cr : AgenticSRE) : Step S :=
  let name := rn_AIWatch (NamesFor cr) in
  match BuildAIWatchDeployment cr with
  | None =>
      deleteIfExists (KDeployment, cr_Namespace cr, name) ⨾
      deleteIfExists (KService, cr_Namespace cr, name +:+ "-metrics")
  | Some desired =>
      ensure cr KDeployment desired (deployment (b_Spec desired)) ⨾
      ensure_or_delete cr KService (name +:+ "-metrics") (BuildAIWatchMetricsService cr) ServiceBody
  end.
Definition reconcileQdrant (cr : AgenticSRE) : Step S :=
  let name := rn_RAG (NamesFor cr) in
  match BuildQdrantStatefulSet cr, BuildQdrantService cr with
  | Some desiredSS, Some desiredSvc =>
      wrap "qdrant Service" (ensure cr KService desiredSvc (ServiceBody (b_Spec desiredSvc))) ⨾
      ensure cr KStatefulSet desiredSS (stateful_set (b_Spec desiredSS))
  | _, _ =>
      wrap "delete qdrant StatefulSet" (deleteIfExists (KStatefulSet, cr_Namespace cr, name)) ⨾
      deleteIfExists (KService, cr_Namespace cr, name)
  end.

(** [n] counts the key pairs drawn so far. *)
Definition reconcileSigningKeySecret (cr : AgenticSRE) (n : nat) : Step S := λ s,
  let k : Key := (KSecret, cr_Namespace cr, ApprovalSigningKeySecretName cr) in
  let '(s, r) := Get k s in
  match r with
  | inr existing =>
      if labelsUpToDate (o_Labels existing) (approval_labels cr) then (s, None) else
      let '(s, e) := Update k (mkObj (mergeLabels (approval_labels cr) (o_Labels existing)) (o_Owner existing) (o_Body existing)) s in
      (s, err_text <$> e)
  | inl err =>
      if negb (IsNotFound err) then (s, Some ("get signing Secret: " +:+ err_text err)) else
      match GenerateSigningKeySecret cr n with
      | inl e => (s, Some e)
      | inr desired =>
          let '(s, e) := Create k (owned cr desired (SecretBody (b_Spec desired))) s in
          match e with
          | Some e => if negb (IsAlreadyExists e) then (s, Some ("create signing Secret: " +:+ err_text e)) else (s, None)
          | None => (s, None)
          end
      end
  end.

(** A Role and its binding; owned when they are in the resource's namespace. *)
Definition ensure_pair (cr : AgenticSRE) (label : string) (role : option (Built (list PolicyRule)))
    (binding : option (Built BindingSpec)) : Step S :=
  match role, binding with
  | Some role, Some binding =>
      let obj {A} (b : Built A) body := if b_Namespace role =s? cr_Namespace cr then owned cr b body else unowned b body in
      wrap ("approval " +:+ label +:+ " Role") (createOrUpdate (built_key KRole role) (obj role (RulesBody (b_Spec role)))) ⨾
      wrap ("approval " +:+ label +:+ " RoleBinding")
        (createOrUpdate (built_key KRoleBinding binding) (obj binding (BindingBody (b_Spec binding))))
  | _, _ => skip
  end.
Definition approval_teardown (cr : AgenticSRE) : list Key :=
  let ns := cr_Namespace cr in
  let name := ApprovalServerName cr in
  [(KIngress, ns, name); (KNetworkPolicy, ns, name); (KDeployment, ns, name); (KService, ns, name);
   (KServiceAccount, ns, name);
   (KRole, ns, name +:+ "-signing-reader"); (KRoleBinding, ns, name +:+ "-signing-reader");
   (KRole, ApprovalAuditNamespace cr, name +:+ "-events"); (KRoleBinding, ApprovalAuditNamespace cr, name +:+ "-events");
   (KRole, ns, name +:+ "-stores"); (KRoleBinding, ns, name +:+ "-stores");
   (KClusterRoleBinding, "", ApprovalFixerClusterRoleBindingName cr)].
Fixpoint teardown (ks : list Key) : Step S :=
  match ks with
  | [] => skip
  | k :: ks => wrap ("teardown *v1." +:+ kind_name (key_kind k) +:+ " " +:+ k.2) (deleteIfExists k) ⨾ teardown ks
  end.
Definition reconcileApprovalServer (cr : AgenticSRE) (n : nat) : Step S :=
  let ns := cr_Namespace cr in
  let name := ApprovalServerName cr in
  match BuildApprovalServerServiceAccount cr, BuildApprovalServerService cr, BuildApprovalServerDeployment cr with
  | Some desiredSA, Some desiredSvc, Some desiredDep =>
      wrap "signing-key Secret" (reconcileSigningKeySecret cr n) ⨾
      wrap "approval SA" (ensure cr KServiceAccount desiredSA ServiceAccountBody) ⨾
      wrap "approval fixer ClusterRole"
        (createOrUpdate (built_key KClusterRole BuildApprovalFixerClusterRole)
           (unowned BuildApprovalFixerClusterRole (RulesBody (b_Spec BuildApprovalFixerClusterRole)))) ⨾
      wrap "approval fixer binding"
        (createOrUpdate (built_key KClusterRoleBinding (BuildApprovalFixerClusterRoleBinding cr))
           (unowned (BuildApprovalFixerClusterRoleBinding cr) (BindingBody (b_Spec (BuildApprovalFixerClusterRoleBinding cr))))) ⨾
      ensure_pair cr "signing-reader" (BuildApprovalSigningReaderRole cr) (BuildApprovalSigningReaderRoleBinding cr) ⨾
      ensure_pair cr "events" (BuildApprovalEventsRole cr) (BuildApprovalEventsRoleBinding cr) ⨾
      ensure_pair cr "stores" (BuildApprovalStoresRole cr) (BuildApprovalStoresRoleBinding cr) ⨾
      ensure_pair cr "silence-writer" (BuildApprovalSilenceWriterRole cr) (BuildApprovalSilenceWriterRoleBinding cr) ⨾
      wrap "approval Service" (ensure cr KService desiredSvc (ServiceBody (b_Spec desiredSvc))) ⨾
      wrap "approval Deployment" (ensure cr KDeployment desiredDep (deployment (b_Spec desiredDep))) ⨾
      match BuildApprovalServerNetworkPolicy cr with
      | None => wrap "teardown approval NetworkPolicy" (deleteIfExists (KNetworkPolicy, ns, name))
      | Some p => wrap "approval NetworkPolicy" (ensure cr KNetworkPolicy p (NetworkPolicyBody (b_Spec p)))
      end ⨾
      match BuildApprovalServerIngress cr with
      | None => deleteIfExists (KIngress, ns, name)
      | Some (annotations, i) => ensure cr KIngress i (IngressBody annotations (b_Spec i))
      end
  | _, _, _ => teardown (approval_teardown cr)
  end.

(** ** Finalizer *)

Definition labelled_for (cr : AgenticSRE) (o : Obj) : bool :=
  (default "" (o_Labels o !! ManagedByCRLabel) =s? cr_Name cr) &&
  (default "" (o_Labels o !! ManagedByCRNamespaceLabel) =s? cr_Namespace cr).
Definition finalize_binding (cr : AgenticSRE) (name : string) : Step S := λ s,
  let k : Key := (KClusterRoleBinding, "", name) in
  let '(s, r) := Get k s in
  match r with
  | inl err => if IsNotFound err then (s, None) else (s, Some (err_text err))
  | inr binding =>
      if negb (labelled_for cr binding) then (s, None) else
      let '(s, e) := Delete k s in (s, ignore_not_found e)
  end.
Definition delete_key (k : Key) : Step S := λ s, let '(s, e) := Delete k s in (s, ignore_not_found e).
Definition finalizeReaderRBAC (cr : AgenticSRE) : Step S :=
  finalize_binding cr (ReaderClusterRoleBindingName cr) ⨾
  finalize_binding cr (ApprovalFixerClusterRoleBindingName cr) ⨾
  (let auditNS := ApprovalAuditNamespace cr in
   if auditNS ≠s? cr_Namespace cr then
     delete_key (KRoleBinding, auditNS, ApprovalServerName cr +:+ "-events") ⨾
     delete_key (KRole, auditNS, ApprovalServerName cr +:+ "-events")
   else skip).

(** ** Validation *)

(** The message of the first check that fails. *)
Definition invalid_spec (cr : AgenticSRE) : option string :=
  if im_Tag (Image (cr_Spec cr)) =s? "" then Some "spec.image.tag is required and must be non-empty"
  else if AIEnabled cr && from_option (λ ai, ai_Endpoint ai =s? "") false (AI (cr_Spec cr)) then
    Some "spec.ai.endpoint is required when spec.ai.enabled=true"
  else if AIEnabled cr && from_option (λ ai, ai_Model ai =s? "") false (AI (cr_Spec cr)) then
    Some "spec.ai.model is required when spec.ai.enabled=true"
  else if AIEnabled cr && MemoryEnabled cr &&
          (from_option em_Model "" (m ← memory_of cr; mm_Embeddings m) =s? "") then
    Some "spec.ai.memory.embeddings.model is required when spec.ai.memory.enabled=true"
  else match
    (if MemoryEnabled cr then
       let size := from_option st_Size "" (m ← memory_of cr; mm_Storage m) in
       if size ≠s? "" then match ParseQuantity size with inl e => Some e | inr _ => None end else None
     else None) with
  | Some e => Some ("spec.ai.memory.storage.size: " +:+ e)
  | None =>
  if ApprovalIngressEnabled cr && (from_option in_Host "" (approval_ingress cr) =s? "") then
    Some "spec.approval.ingress.host is required when spec.approval.ingress.enabled=true"
  else if ApprovalNetworkPolicyEnabled cr &&
          bool_decide (from_option np_GatewayNamespaceSelector ∅ (approval_network_policy cr) = ∅) then
    Some ("spec.approval.networkPolicy.gatewayNamespaceSelector is required when " +:+
          "spec.approval.networkPolicy.enabled=true (no safe default exists; " +:+
          "set it to the gateway/oauth2-proxy namespace's labels, e.g. " +:+
          "{kubernetes.io/metadata.name: <gateway-namespace>})")
  else if ApprovalEnabled cr && (approvalStoreBackend cr =s? "inmemory") && (1 <? approvalReplicas cr) then
    Some ("spec.approval.replicas must be 1 when spec.approval.store.backend=inmemory (default); " +:+
          "set store.backend=configmap to run multiple replicas safely")
  else None
  end.
End reconcile.

(** ** Conditions *)

Fixpoint set_condition (condType : string) (status : ConditionStatus) (reason msg : string) (gen : Z) (now : Time)
    (cs : list Condition) : list Condition :=
  match cs with
  | [] => [mkCondition condType status reason msg now gen]
  | c :: cs =>
      if cd_Type c =s? condType then
        mkCondition (cd_Type c) status reason msg
          (if bool_decide (cd_Status c = status) then cd_LastTransitionTime c else now) gen :: cs
      else c :: set_condition condType status reason msg gen now cs
  end.
Definition setCondition (st : AgenticSREStatus) (condType : string) (status : ConditionStatus) (reason msg : string)
    (gen : Z) (now : Time) : AgenticSREStatus :=
  mkStatus (ObservedGeneration st) (set_condition condType status reason msg gen now (Conditions st)).

(** Status, reason and message of a condition. *)
Definition Verdict : Type := ConditionStatus * string * string.
Definition status_text (s : ConditionStatus) : string :=
  match s with ConditionTrue => "True" | ConditionFalse => "False" | ConditionUnknown => "Unknown" end.

Section conditions.
Context {S : Type} `{!Client S}.

(** A Deployment that must have a replica available. *)
Definition deployment_verdict (k : Key) (what : string) (s : S) : S * Verdict :=
  let '(s, r) := Get k s in
  (s, match r with
      | inl err => if IsNotFound err then (ConditionFalse, "DeploymentMissing", what +:+ " Deployment not found")
                   else (ConditionUnknown, "GetFailed", err_text err)
      | inr o =>
          match o_Body o with
          | DeploymentBody d n =>
              if 0 <? n then (ConditionTrue, "AvailableReplicasPositive", "availableReplicas=" +:+ Itoa n +:+ "/" +:+ Itoa (dep_Replicas d))
              else (ConditionFalse, "NoAvailableReplicas", what +:+ " Deployment has no available replicas")
          | _ => (ConditionFalse, "NoAvailableReplicas", what +:+ " Deployment has no available replicas")
          end
      end).
Definition watcher_verdict (cr : AgenticSRE) (s : S) : S * Verdict :=
  if negb (from_option ws_Enabled false (Watcher (cr_Spec cr))) then
    (s, (ConditionFalse, "Disabled", "spec.watcher.enabled is false"))
  else deployment_verdict (KDeployment, cr_Namespace cr, rn_Watcher (NamesFor cr)) "watcher" s.
Definition ai_verdict (cr : AgenticSRE) (s : S) : S * Verdict :=
  if negb (AIEnabled cr) then (s, (ConditionFalse, "Disabled", "spec.ai.enabled is false"))
  else deployment_verdict (KDeployment, cr_Namespace cr, rn_AIWatch (NamesFor cr)) "aiwatch" s.

Definition bindingTargetsSA (b : BindingSpec) (saName saNamespace : string) : bool :=
  existsb (λ u, (su_Kind u =s? ServiceAccountKind) && (su_Name u =s? saName) && (su_Namespace u =s? saNamespace)) (bi_Subjects b).
Definition binding_of (o : Obj) : BindingSpec :=
  match o_Body o with BindingBody b => b | _ => mkBindingSpec (mkRoleRef "" "") [] end.
Definition rbac_verdict (cr : AgenticSRE) (s : S) : S * Verdict :=
  let '(s, role) := Get (KClusterRole, "", ReaderClusterRoleName) s in
  let '(s, binding) := Get (KClusterRoleBinding, "", ReaderClusterRoleBindingName cr) s in
  (s, match role, binding with
      | inl (NotFound _), _ =>
          (ConditionFalse, "ClusterRoleMissing", "reader ClusterRole " +:+ ReaderClusterRoleName +:+ " not found")
      | _, inl (NotFound _) =>
          (ConditionFalse, "ClusterRoleBindingMissing",
           "reader ClusterRoleBinding " +:+ ReaderClusterRoleBindingName cr +:+ " not found")
      | inl e, _ => (ConditionUnknown, "GetFailed", err_text e)
      | _, inl e => (ConditionUnknown, "GetFailed", err_text e)
      | inr _, inr b =>
          if negb (bindingTargetsSA (binding_of b) (ServiceAccountNameFor cr) (cr_Namespace cr)) then
            (ConditionFalse, "WrongSubject", "binding does not target the CR's ServiceAccount")
          else (ConditionTrue, "Provisioned", "reader ClusterRole + per-CR binding present")
      end).
Definition memory_verdict (cr : AgenticSRE) (s : S) : S * Verdict :=
  if negb (MemoryEnabled cr) then (s, (ConditionFalse, "Disabled", "spec.ai.memory.enabled is false")) else
  let name := rn_RAG (NamesFor cr) in
  let '(s, svc) := Get (KService, cr_Namespace cr, name) s in
  let '(s, ss) := Get (KStatefulSet, cr_Namespace cr, name) s in
  (s, match svc, ss with
      | inl (NotFound _), _ => (ConditionFalse, "ServiceMissing", "Qdrant Service " +:+ name +:+ " not found")
      | _, inl (NotFound _) => (ConditionFalse, "StatefulSetMissing", "Qdrant StatefulSet " +:+ name +:+ " not found")
      | inl e, _ => (ConditionUnknown, "GetFailed", err_text e)
      | _, inl e => (ConditionUnknown, "GetFailed", err_text e)
      | inr _, inr o =>
          match o_Body o with
          | StatefulSetBody d n =>
              if 0 <? n then (ConditionTrue, "ReadyReplicasPositive", "readyReplicas=" +:+ Itoa n +:+ "/" +:+ Itoa (sts_Replicas d))
              else (ConditionFalse, "NoReadyReplicas", "Qdrant StatefulSet has no ready replicas")
          | _ => (ConditionFalse, "NoReadyReplicas", "Qdrant StatefulSet has no ready replicas")
          end
      end).
Definition has_both_keys (o : Obj) : bool :=
  match o_Body o with
  | SecretBody d => (default "" (sd_Data d !! "signing.key") ≠s? "") && (default "" (sd_Data d !! "signing.pub") ≠s? "")
  | _ => false
  end.
Definition approval_verdict (cr : AgenticSRE) (s : S) : S * Verdict :=
  if negb (ApprovalEnabled cr) then (s, (ConditionFalse, "Disabled", "spec.approval.enabled is false")) else
  let name := ApprovalServerName cr in
  let secretName := ApprovalSigningKeySecretName cr in
  let '(s, sec) := Get (KSecret, cr_Namespace cr, secretName) s in
  let '(s, svc) := Get (KService, cr_Namespace cr, name) s in
  let '(s, dep) := Get (KDeployment, cr_Namespace cr, name) s in
  (s, match sec with
      | inl (NotFound _) => (ConditionFalse, "SigningKeyMissing", "signing-key Secret " +:+ secretName +:+ " not found")
      | inl e => (ConditionUnknown, "GetFailed", err_text e)
      | inr secret =>
          if negb (has_both_keys secret) then
            (ConditionFalse, "SigningKeyIncomplete", "signing-key Secret missing signing.key or signing.pub")
          else
          match svc, dep with
          | inl (NotFound _), _ => (ConditionFalse, "ServiceMissing", "approval-server Service " +:+ name +:+ " not found")
          | _, inl (NotFound _) => (ConditionFalse, "DeploymentMissing", "approval-server Deployment " +:+ name +:+ " not found")
          | inl e, _ => (ConditionUnknown, "GetFailed", err_text e)
          | _, inl e => (ConditionUnknown, "GetFailed", err_text e)
          | inr _, inr o =>
              match o_Body o with
              | DeploymentBody d n =>
                  if 0 <? n then
                    (ConditionTrue, "AvailableReplicasPositive", "availableReplicas=" +:+ Itoa n +:+ "/" +:+ Itoa (dep_Replicas d))
                  else (ConditionFalse, "NoAvailableReplicas", "approval-server Deployment has no available replicas")
              | _ => (ConditionFalse, "NoAvailableReplicas", "approval-server Deployment has no available replicas")
              end
          end
      end).

Definition is_true (v : Verdict) : bool := bool_decide (v.1.1 = ConditionTrue).
Definition not_ready (reason condition : string) (v : Verdict) : Verdict :=
  (ConditionFalse, reason, condition +:+ "=" +:+ status_text v.1.1 +:+ ": " +:+ v.2).
Definition ready_verdict (cr : AgenticSRE) (firstErr : option string) (rbac ai mem ap : Verdict) : Verdict :=
  match firstErr with
  | Some e => (ConditionFalse, "ReconcileError", e)
  | None =>
      if negb (is_true rbac) then not_ready "ReaderRBACNotReady" "ReaderRBACReady" rbac
      else if AIEnabled cr && negb (is_true ai) then not_ready "AIWatchNotReady" "AIWatchRunning" ai
      else if MemoryEnabled cr && negb (is_true mem) then not_ready "MemoryStoreNotReady" "MemoryStoreReady" mem
      else if ApprovalEnabled cr && negb (is_true ap) then not_ready "ApprovalServerNotReady" "ApprovalServerReady" ap
      else (ConditionTrue, "Reconciled", "all subresources reconciled")
  end.
Definition set_verdict (cr : AgenticSRE) (now : Time) (condType : string) (v : Verdict) (st : AgenticSREStatus) : AgenticSREStatus :=
  setCondition st condType v.1.1 v.1.2 v.2 (cr_Generation cr) now.
Definition computeConditions (cr : AgenticSRE) (firstErr : option string) (now : Time) (s : S) : S * AgenticSRE :=
  let '(s, watcher) := watcher_verdict cr s in
  let '(s, rbac) := rbac_verdict cr s in
  let '(s, ai) := ai_verdict cr s in
  let '(s, mem) := memory_verdict cr s in
  let '(s, ap) := approval_verdict cr s in
  let st := set_verdict cr now ConditionWatcherRunning watcher (cr_CRStatus cr) in
  let st := set_verdict cr now ConditionReaderRBACReady rbac st in
  let st := set_verdict cr now ConditionAIWatchRunning ai st in
  let st := set_verdict cr now ConditionMemoryStoreReady mem st in
  let st := set_verdict cr now ConditionApprovalServerReady ap st in
  let st := set_verdict cr now ConditionReady (ready_verdict cr firstErr rbac ai mem ap) st in
  (s, with_status (mkStatus (cr_Generation cr) (Conditions st)) cr).
End conditions.

(** ** Reconcile *)

Section the_reconcile.
Context {S : Type} `{!Client S} `{!QuantityParser} `{!KeyGen}.

(** [track]: every step runs, the first error is kept. *)
Fixpoint track (steps : list (Step S)) (firstErr : option string) (s : S) : S * option string :=
  match steps with
  | [] => (s, firstErr)
  | a :: steps => let '(s, e) := a s in track steps (match firstErr with Some _ => firstErr | None => e end) s
  end.
Definition subresources (cr : AgenticSRE) (n : nat) : list (Step S) :=
  [reconcileServiceAccount cr; reconcileReaderRBAC cr; reconcileWatcher cr; reconcileDiagnose cr; reconcileRemediate cr;
   reconcileAIWatch cr; reconcileQdrant cr; reconcileApprovalServer cr n].
Definition text_of (m : string) (e : option APIErr) : option string := (λ e, m +:+ ": " +:+ err_text e) <$> e.

Definition reconcile_deleting (cr : AgenticSRE) : Step S :=
  if bool_decide (FinalizerOperatorRBAC ∈ cr_Finalizers cr) then
    wrap "finalize reader RBAC" (finalizeReaderRBAC cr) ⨾
    (λ s, let '(s, e) := UpdateCR (with_finalizers (List.filter (λ f, f ≠s? FinalizerOperatorRBAC) (cr_Finalizers cr)) cr) s in
          (s, text_of "clear finalizer" e))
  else skip.
Definition add_finalizer (cr : AgenticSRE) : AgenticSRE :=
  if bool_decide (FinalizerOperatorRBAC ∈ cr_Finalizers cr) then cr
  else with_finalizers (cr_Finalizers cr ++ [FinalizerOperatorRBAC]) cr.
Definition put_finalizer (cr : AgenticSRE) : Step S := λ s,
  if bool_decide (FinalizerOperatorRBAC ∈ cr_Finalizers cr) then (s, None) else
  let '(s, e) := UpdateCR (add_finalizer cr) s in (s, text_of "add finalizer" e).
Definition updateStatus (cr : AgenticSRE) : Step S := λ s, let '(s, e) := UpdateStatus cr s in (s, err_text <$> e).
Definition markReady (cr : AgenticSRE) (v : Verdict) (now : Time) : AgenticSRE :=
  with_status (set_verdict cr now ConditionReady v (cr_CRStatus cr)) cr.
Definition reconcile_children (cr : AgenticSRE) (n : nat) (now : Time) : Step S := λ s,
  let '(s, firstErr) := track (subresources cr n) None s in
  let '(s, cr) := computeConditions cr firstErr now s in
  let '(s, _) := UpdateStatus cr s in
  (s, firstErr).
Definition reconcile_live (cr : AgenticSRE) (n : nat) (now : Time) : Step S :=
  put_finalizer cr ⨾
  (let cr := add_finalizer cr in
   match invalid_spec cr with
   | Some msg => updateStatus (markReady cr (ConditionFalse, "InvalidSpec", msg) now)
   | None => reconcile_children cr n now
   end).
Definition Reconcile (req : NN) (n : nat) (now : Time) : Step S := λ s,
  let '(s, r) := GetCR req s in
  match r with
  | inl err => if IsNotFound err then (s, None) else (s, Some ("fetch CR: " +:+ err_text err))
  | inr cr => if cr_Deleting cr then reconcile_deleting cr s else reconcile_live cr n now s
  end.
End the_reconcile.
