(* ===== verification/Operator.v ===== *)
(** * What a reconcile does

    [plan] is the operator's intent, a list of acts on the children;
    [reconcile_does] is the refinement: whatever calls fail, a reconcile
    performs some of the acts of the plan and nothing else, and when it
    reports no error it has performed them all, in order.  The theorems on
    keys, bindings and replicas are about plans. *)

From stdpp Require Import options.
From S2P Require Import Prelude GoString GoTime GoNum Sha256 Protected Api Builders Rbac Reconciler.
Local Open Scope Z_scope.

(** ** Acts *)

Inductive Act := Ensure (k : Key) (desired : Obj) | Remove (k : Key).
Definition act_key (a : Act) : Key := match a with Ensure k _ | Remove k => k end.
Definition act (m : gmap Key Obj) (a : Act) : gmap Key Obj :=
  match a with
  | Ensure k d => match m !! k with None => <[k := d]> m | Some o => <[k := mutate d o]> m end
  | Remove k => delete k m
  end.
Definition acts (l : list Act) (m : gmap Key Obj) : gmap Key Obj := foldl act m l.

(** A property of the children that no act of the plan breaks. *)
Definition closed (l : list Act) (Q : gmap Key Obj → Prop) : Prop := ∀ a m, a ∈ l → Q m → Q (act m a).
(** What a step does to the children. *)
Definition does {S} `{Client S} (l : list Act) (a : Step S) : Prop := ∀ s,
  crs (a s).1 = crs s ∧
  (∀ Q, closed l Q → Q (objs s) → Q (objs (a s).1)) ∧
  ((a s).2 = None → objs (a s).1 = acts l (objs s)).

Lemma closed_app_l (l l' : list Act) Q : closed (l ++ l') Q → closed l Q.
Proof. intros H a m Ha. apply H, elem_of_app. by left. Qed.
Lemma closed_app_r (l l' : list Act) Q : closed (l ++ l') Q → closed l' Q.
Proof. intros H a m Ha. apply H, elem_of_app. by right. Qed.
Lemma closed_one (a : Act) (Q : gmap Key Obj → Prop) m : closed [a] Q → Q m → Q (act m a).
Proof. intros H. apply H. by left. Qed.

Section steps.
Context {S : Type} `{!Client S}.

Lemma does_skip : does [] (skip (S := S)).
Proof. by intros s. Qed.
Lemma does_seq l l' (a b : Step S) : does l a → does l' b → does (l ++ l') (a ⨾ b).
Proof.
  intros Ha Hb s. unfold seq. specialize (Ha s). destruct (a s) as [s1 [e|]]; cbn [fst snd] in *.
  - destruct Ha as (? & HQ & _). split_and!; [done| |done]. intros Q Hc. apply HQ. by eapply closed_app_l.
  - destruct Ha as (Hc1 & HQ1 & He1), (Hb s1) as (Hc2 & HQ2 & He2). split_and!.
    + congruence.
    + intros Q Hc HQ. apply HQ2; [by eapply closed_app_r|]. apply HQ1; [by eapply closed_app_l|done].
    + intros He. rewrite He2, He1 by done. unfold acts. by rewrite foldl_app.
Qed.
Lemma does_wrap l m (a : Step S) : does l a → does l (wrap m a).
Proof.
  intros Ha s. unfold wrap. specialize (Ha s). destruct (a s) as [s1 e]; cbn [fst snd] in *.
  destruct Ha as (? & ? & He). split_and!; [done..|]. by destruct e.
Qed.

(** The state after a call that did its one act or nothing. *)
Lemma one_act_does (a : Act) (s s' : S) (e : option string) :
  crs s' = crs s → (objs s' = objs s ∨ objs s' = act (objs s) a) → (e = None → objs s' = act (objs s) a) →
  crs s' = crs s ∧ (∀ Q, closed [a] Q → Q (objs s) → Q (objs s')) ∧ (e = None → objs s' = acts [a] (objs s)).
Proof.
  intros Hc Ho He. split_and!; [done| |done]. intros Q Hcl HQ.
  destruct Ho as [->| ->]; [done|]. by apply closed_one.
Qed.

Section calls.
Context `{!ClientLaws S}.

Lemma update_does k o o' s : objs s !! k = Some o → let '(s', e) := Update k o' s in
  crs s' = crs s ∧ (objs s' = objs s ∨ objs s' = <[k := o']> (objs s)) ∧ (e = None → objs s' = <[k := o']> (objs s)).
Proof using All.
  intros Ho. pose proof (Update_law k o' s) as HL. destruct (Update k o' s) as [s' e]. rewrite Ho in HL.
  destruct HL as [Hc Hm]. unfold may in Hm. destruct e; naive_solver.
Qed.
Lemma create_does k o s : objs s !! k = None → let '(s', e) := Create k o s in
  crs s' = crs s ∧ (objs s' = objs s ∨ objs s' = <[k := o]> (objs s)) ∧
  (e = None → objs s' = <[k := o]> (objs s)) ∧ ∀ m, e ≠ Some (AlreadyExists m).
Proof using All.
  intros Ho. pose proof (Create_law k o s) as HL. destruct (Create k o s) as [s' e]. rewrite Ho in HL.
  destruct HL as (Hc & Hm & Hn). unfold may in Hm. destruct e; naive_solver.
Qed.
Lemma does_createOrUpdate k d : does [Ensure k d] (createOrUpdate (S := S) k d).
Proof using All.
  intros s. unfold createOrUpdate. pose proof (Get_law k s) as HG. destruct (Get k s) as [s1 r].
  destruct HG as (Ho & Hc & Hr). destruct r as [err|current].
  - destruct err as [m|m|m]; cbn [IsNotFound negb]; cbn [fst snd];
      [|apply one_act_does; [congruence|by left; congruence|done]..].
    rewrite <-Ho in Hr. pose proof (create_does k d s1 Hr) as HC.
    destruct (Create k d s1) as [s2 e]. destruct HC as (Hc2 & Ho2 & He2 & Hna).
    assert (Hact : act (objs s) (Ensure k d) = <[k := d]> (objs s1)) by (cbn [act]; by rewrite <-Ho, Hr).
    destruct e as [[m'|m'|m']|]; cbn [IsAlreadyExists negb fst snd]; [|by destruct (Hna m')| |];
      (apply one_act_does; [congruence|rewrite Hact, <-Ho; tauto|rewrite Hact; (done || by intros _; apply He2)]).
  - rewrite <-Ho in Hr. pose proof (update_does k current (mutate d current) s1 Hr) as HU.
    destruct (Update k (mutate d current) s1) as [s2 e]. destruct HU as (Hc2 & Ho2 & He2).
    assert (Hact : act (objs s) (Ensure k d) = <[k := mutate d current]> (objs s1)) by (cbn [act]; by rewrite <-Ho, Hr).
    cbn [fst snd]. apply one_act_does; [congruence|rewrite Hact, <-Ho; tauto|rewrite Hact].
    destruct e; [done|]. intros _. by apply He2.
Qed.

Lemma does_deleteIfExists k : does [Remove k] (deleteIfExists (S := S) k).
Proof using All.
  intros s. unfold deleteIfExists. pose proof (Get_law k s) as HG. destruct (Get k s) as [s1 r].
  destruct HG as (Ho & Hc & Hr). destruct r as [err|current].
  - destruct err as [m|m|m]; cbn [IsNotFound fst snd];
      (apply one_act_does; [congruence|by left; congruence|try done]).
    intros _. cbn [act]. rewrite delete_id by done. congruence.
  - pose proof (Delete_law k s1) as HD. destruct (Delete k s1) as [s2 e]. destruct HD as (Hc2 & Hm & Hn). cbn [fst snd].
    assert (Hor : objs s2 = objs s1 ∨ objs s2 = delete k (objs s1)) by (destruct e; cbn in Hm; tauto).
    apply one_act_does; [congruence|cbn [act]; rewrite <-Ho; tauto|]. unfold ignore_not_found. intros He. cbn [act].
    destruct (IgnoreNotFound e) eqn:E; [done|]. specialize (Hn eq_refl).
    destruct Hor as [E2|E2]; rewrite E2 in *; [rewrite <-Ho; by rewrite delete_id|by rewrite Ho].
Qed.
End calls.
End steps.

(** ** The plan of a resource *)

Section plan.
Context `{!QuantityParser} `{!KeyGen}.

Definition plan_ensure {A} (cr : AgenticSRE) (kind : Kind) (b : Built A) (body : Body) : list Act :=
  [Ensure (built_key kind b) (owned cr b body)].
Definition plan_shared {A} (kind : Kind) (b : Built A) (body : Body) : list Act :=
  [Ensure (built_key kind b) (unowned b body)].
Definition plan_optional {A} (cr : AgenticSRE) (kind : Kind) (name : string) (b : option (Built A)) (body : A → Body) : list Act :=
  match b with
  | None => [Remove (kind, cr_Namespace cr, name)]
  | Some b => plan_ensure cr kind b (body (b_Spec b))
  end.
Definition plan_service_account (cr : AgenticSRE) : list Act :=
  if ServiceAccountName (cr_Spec cr) ≠s? "" then [] else plan_ensure cr KServiceAccount (BuildServiceAccount cr) ServiceAccountBody.
Definition plan_rbac (cr : AgenticSRE) : list Act :=
  plan_shared KClusterRole BuildReaderClusterRole (RulesBody readerPolicyRules) ++
  plan_shared KClusterRoleBinding (BuildReaderClusterRoleBinding cr) (BindingBody (b_Spec (BuildReaderClusterRoleBinding cr))).
(** A Deployment and the Service in front of it, which is there only with it. *)
Definition plan_workload (cr : AgenticSRE) (name svcName : string) (d : option (Built DeploymentSpec))
    (svc : option (Built ServiceSpec)) : list Act :=
  plan_optional cr KDeployment name d deployment ++
  match d with
  | None => [Remove (KService, cr_Namespace cr, svcName)]
  | Some _ => plan_optional cr KService svcName svc ServiceBody
  end.
Definition plan_qdrant (cr : AgenticSRE) : list Act :=
  let name := rn_RAG (NamesFor cr) in
  match BuildQdrantStatefulSet cr, BuildQdrantService cr with
  | Some ss, Some svc =>
      plan_ensure cr KService svc (ServiceBody (b_Spec svc)) ++ plan_ensure cr KStatefulSet ss (stateful_set (b_Spec ss))
  | _, _ => [Remove (KStatefulSet, cr_Namespace cr, name); Remove (KService, cr_Namespace cr, name)]
  end.
Definition signing_key_key (cr : AgenticSRE) : Key := (KSecret, cr_Namespace cr, ApprovalSigningKeySecretName cr).
Definition signing_secret (cr : AgenticSRE) (n : nat) : Obj :=
  mkObj (approval_labels cr) (Some (cr_key cr))
    match GenerateSigningKeySecret cr n with inr b => SecretBody (b_Spec b) | inl _ => SecretBody (mkSecretData "" ∅) end.
Definition plan_pair (cr : AgenticSRE) (role : option (Built (list PolicyRule))) (binding : option (Built BindingSpec)) : list Act :=
  match role, binding with
  | Some role, Some binding =>
      let obj {A} (b : Built A) body := if b_Namespace role =s? cr_Namespace cr then owned cr b body else unowned b body in
      [Ensure (built_key KRole role) (obj role (RulesBody (b_Spec role)));
       Ensure (built_key KRoleBinding binding) (obj binding (BindingBody (b_Spec binding)))]
  | _, _ => []
  end.
Definition plan_approval (cr : AgenticSRE) (n : nat) : list Act :=
  let name := ApprovalServerName cr in
  match BuildApprovalServerServiceAccount cr, BuildApprovalServerService cr, BuildApprovalServerDeployment cr with
  | Some sa, Some svc, Some dep =>
      [Ensure (signing_key_key cr) (signing_secret cr n)] ++
      plan_ensure cr KServiceAccount sa ServiceAccountBody ++
      plan_shared KClusterRole BuildApprovalFixerClusterRole (RulesBody (b_Spec BuildApprovalFixerClusterRole)) ++
      plan_shared KClusterRoleBinding (BuildApprovalFixerClusterRoleBinding cr)
        (BindingBody (b_Spec (BuildApprovalFixerClusterRoleBinding cr))) ++
      plan_pair cr (BuildApprovalSigningReaderRole cr) (BuildApprovalSigningReaderRoleBinding cr) ++
      plan_pair cr (BuildApprovalEventsRole cr) (BuildApprovalEventsRoleBinding cr) ++
      plan_pair cr (BuildApprovalStoresRole cr) (BuildApprovalStoresRoleBinding cr) ++
      plan_pair cr (BuildApprovalSilenceWriterRole cr) (BuildApprovalSilenceWriterRoleBinding cr) ++
      plan_ensure cr KService svc (ServiceBody (b_Spec svc)) ++
      plan_ensure cr KDeployment dep (deployment (b_Spec dep)) ++
      plan_optional cr KNetworkPolicy name (BuildApprovalServerNetworkPolicy cr) NetworkPolicyBody ++
      match BuildApprovalServerIngress cr with
      | None => [Remove (KIngress, cr_Namespace cr, name)]
      | Some (annotations, i) => plan_ensure cr KIngress i (IngressBody annotations (b_Spec i))
      end
  | _, _, _ => Remove <$> approval_teardown cr
  end.
Definition plan (cr : AgenticSRE) (n : nat) : list Act :=
  plan_service_account cr ++ plan_rbac cr ++
  plan_workload cr (rn_Watcher (NamesFor cr)) (WebhookServiceNameFor cr) (BuildWatcherDeployment cr) (BuildWatcherWebhookService cr) ++
  plan_optional cr KCronJob (rn_Diagnose (NamesFor cr)) (BuildDiagnoseCronJob cr) CronJobBody ++
  plan_optional cr KCronJob (rn_Remediate (NamesFor cr)) (BuildRemediateCronJob cr) CronJobBody ++
  plan_workload cr (rn_AIWatch (NamesFor cr)) (rn_AIWatch (NamesFor cr) +:+ "-metrics") (BuildAIWatchDeployment cr)
    (BuildAIWatchMetricsService cr) ++
  plan_qdrant cr ++ plan_approval cr n.
End plan.

(** A goal about every act of a plan, piece by piece. *)
Ltac unfold_plan :=
  unfold plan, plan_approval, plan_qdrant, plan_workload, plan_service_account, plan_rbac, plan_optional, plan_pair,
    plan_ensure, plan_shared, approval_teardown; cbn [fmap list_fmap].
Ltac each_act :=
  repeat first [ apply Forall_app; split | apply Forall_cons; split | apply Forall_nil; exact I
               | match goal with |- Forall _ (match ?x with _ => _ end) => destruct x end ].

(** ** The steps follow the plan *)

Section refinement.
Context {S : Type} `{!Client S} `{!ClientLaws S} `{!QuantityParser} `{!KeyGen}.
Implicit Types (cr : AgenticSRE) (s : S).

Lemma does_ensure_or_delete {A} cr kind name (b : option (Built A)) body :
  does (plan_optional cr kind name b body) (ensure_or_delete (S := S) cr kind name b body).
Proof using All. destruct b; [apply does_createOrUpdate|apply does_deleteIfExists]. Qed.
Lemma does_workload cr name svcName d svc (a : Step S) :
  a = match d with
      | None => deleteIfExists (KDeployment, cr_Namespace cr, name) ⨾ deleteIfExists (KService, cr_Namespace cr, svcName)
      | Some d => ensure cr KDeployment d (deployment (b_Spec d)) ⨾ ensure_or_delete cr KService svcName svc ServiceBody
      end →
  does (plan_workload cr name svcName d svc) a.
Proof using All.
  intros ->. destruct d; apply does_seq; try apply does_createOrUpdate; try apply does_deleteIfExists.
  apply does_ensure_or_delete.
Qed.
Lemma does_qdrant cr : does (plan_qdrant cr) (reconcileQdrant (S := S) cr).
Proof using All.
  unfold plan_qdrant, reconcileQdrant. destruct (BuildQdrantStatefulSet cr), (BuildQdrantService cr);
    try (apply does_seq; [apply does_wrap|]; apply does_createOrUpdate);
    apply (does_seq [_] [_]); [apply does_wrap| |apply does_wrap| |apply does_wrap|]; apply does_deleteIfExists.
Qed.
Lemma does_pair cr label role binding : does (plan_pair cr role binding) (ensure_pair (S := S) cr label role binding).
Proof using All.
  destruct role as [r|], binding as [b|]; try apply does_skip.
  apply (does_seq [_] [_]); apply does_wrap, does_createOrUpdate.
Qed.
Lemma does_teardown ks : does (Remove <$> ks) (teardown (S := S) ks).
Proof using All.
  induction ks as [|k ks IH]; [apply does_skip|]. cbn [teardown].
  change (Remove <$> k :: ks) with ([Remove k] ++ (Remove <$> ks)).
  apply does_seq; [|done]. apply does_wrap, does_deleteIfExists.
Qed.

Lemma mergeLabels_uptodate desired labels : labelsUpToDate labels desired = true →
  map_Forall (λ k v, v ≠ "") desired → mergeLabels desired labels = labels.
Proof.
  unfold labelsUpToDate, mergeLabels. intros Hup Hne. apply bool_decide_eq_true in Hup. apply map_eq. intros k.
  destruct (desired !! k) as [v|] eqn:E.
  - rewrite (lookup_union_Some_l _ _ _ _ E). specialize (Hup k v E). specialize (Hne k v E). cbn in *.
    destruct (labels !! k); [by subst|]. cbn in Hup. by subst.
  - by rewrite lookup_union_r.
Qed.
Lemma approval_labels_nonempty cr : cr_Name cr ≠ "" → map_Forall (λ k v, v ≠ "") (approval_labels cr).
Proof.
  intros Hn. unfold approval_labels, CommonLabels. cbn [negb]. rewrite bool_decide_eq_false_2 by done. cbn [negb].
  repeat (apply map_Forall_insert_2; [done|]). apply map_Forall_empty.
Qed.
Lemma does_signing_key cr n : cr_Name cr ≠ "" →
  does [Ensure (signing_key_key cr) (signing_secret cr n)] (reconcileSigningKeySecret (S := S) cr n).
Proof using All.
  intros Hname s. unfold reconcileSigningKeySecret. fold (signing_key_key cr). set (k := signing_key_key cr).
  pose proof (Get_law k s) as HG. destruct (Get k s) as [s1 r]. destruct HG as (Ho & Hc & Hr). destruct r as [err|existing].
  - destruct err as [m|m|m]; cbn [IsNotFound negb fst snd];
      [|apply one_act_does; [congruence|by left; congruence|done]..].
    destruct (GenerateSigningKeySecret cr n) as [e|b] eqn:Eg; cbn [fst snd];
      [apply one_act_does; [congruence|by left; congruence|done]|].
    assert (Hd : owned cr b (SecretBody (b_Spec b)) = signing_secret cr n).
    { unfold signing_secret, owned. rewrite Eg. unfold GenerateSigningKeySecret in Eg.
      destruct (GenerateKey n) as [?|[? ?]]; [done|]. by injection Eg as <-. }
    rewrite Hd. rewrite <-Ho in Hr. pose proof (create_does k (signing_secret cr n) s1 Hr) as HC.
    destruct (Create k _ s1) as [s2 e]. destruct HC as (Hc2 & Ho2 & He2 & Hna).
    assert (Hact : act (objs s) (Ensure k (signing_secret cr n)) = <[k := signing_secret cr n]> (objs s1))
      by (cbn [act]; by rewrite <-Ho, Hr).
    destruct e as [[m'|m'|m']|]; cbn [IsAlreadyExists negb fst snd]; [|by destruct (Hna m')| |];
      (apply one_act_does; [congruence|rewrite Hact, <-Ho; tauto|rewrite Hact; (done || by intros _; apply He2)]).
  - assert (Hm : mutate (signing_secret cr n) existing =
      mkObj (mergeLabels (approval_labels cr) (o_Labels existing)) (o_Owner existing) (o_Body existing)).
    { unfold mutate, signing_secret. cbn [o_Labels o_Body]. f_equal. by destruct (GenerateSigningKeySecret cr n), (o_Body existing). }
    destruct (labelsUpToDate _ _) eqn:El; cbn [fst snd].
    + apply one_act_does; [congruence|by left; congruence|]. intros _. cbn [act]. rewrite Hr, Hm.
      rewrite (mergeLabels_uptodate _ _ El (approval_labels_nonempty cr Hname)).
      rewrite Ho. symmetry. apply insert_id. rewrite Hr. by destruct existing.
    + rewrite <-Hm. rewrite <-Ho in Hr. pose proof (update_does k existing (mutate (signing_secret cr n) existing) s1 Hr) as HU.
      destruct (Update k _ s1) as [s2 e]. destruct HU as (Hc2 & Ho2 & He2).
      assert (Hact : act (objs s) (Ensure k (signing_secret cr n)) = <[k := mutate (signing_secret cr n) existing]> (objs s1))
        by (cbn [act]; by rewrite <-Ho, Hr).
      cbn [fst snd]. apply one_act_does; [congruence|rewrite Hact, <-Ho; tauto|rewrite Hact].
      destruct e; [done|]. intros _. by apply He2.
Qed.
Lemma does_approval cr n : cr_Name cr ≠ "" → does (plan_approval cr n) (reconcileApprovalServer (S := S) cr n).
Proof using All.
  intros Hname. unfold plan_approval, reconcileApprovalServer.
  destruct (BuildApprovalServerServiceAccount cr), (BuildApprovalServerService cr), (BuildApprovalServerDeployment cr);
    try apply does_teardown.
  repeat apply does_seq; try apply does_wrap; try apply does_createOrUpdate; try apply does_pair.
  - by apply does_signing_key.
  - destruct (BuildApprovalServerNetworkPolicy cr); apply does_wrap; [apply does_createOrUpdate|apply does_deleteIfExists].
  - destruct (BuildApprovalServerIngress cr) as [[? ?]|]; [apply does_createOrUpdate|apply does_deleteIfExists].
Qed.

Lemma does_track ls (steps : list (Step S)) : Forall2 does ls steps → ∀ e s,
  crs (track steps e s).1 = crs s ∧
  (∀ Q, closed (concat ls) Q → Q (objs s) → Q (objs (track steps e s).1)) ∧
  ((track steps e s).2 = None → e = None ∧ objs (track steps e s).1 = acts (concat ls) (objs s)).
Proof using All.
  induction 1 as [|l a ls steps Ha _ IH]; intros e s; [by destruct e|]. cbn [track concat].
  specialize (Ha s). destruct (a s) as [s1 e1]. cbn [fst snd] in Ha. destruct Ha as (Hc1 & HQ1 & He1).
  specialize (IH (match e with Some _ => e | None => e1 end) s1). destruct IH as (Hc2 & HQ2 & He2). split_and!.
  - congruence.
  - intros Q Hcl HQ. apply HQ2; [by eapply closed_app_r|]. apply HQ1; [by eapply closed_app_l|done].
  - intros Hn. destruct (He2 Hn) as [Hee Ho]. destruct e; [done|]. split; [done|].
    rewrite Ho, He1 by done. unfold acts. by rewrite foldl_app.
Qed.
Lemma does_subresources cr n s : cr_Name cr ≠ "" →
  let '(s', e) := track (subresources cr n) None s in
  crs s' = crs s ∧ (∀ Q, closed (plan cr n) Q → Q (objs s) → Q (objs s')) ∧
  (e = None → objs s' = acts (plan cr n) (objs s)).
Proof using All.
  intros Hname.
  set (ls := [plan_service_account cr; plan_rbac cr;
    plan_workload cr (rn_Watcher (NamesFor cr)) (WebhookServiceNameFor cr) (BuildWatcherDeployment cr) (BuildWatcherWebhookService cr);
    plan_optional cr KCronJob (rn_Diagnose (NamesFor cr)) (BuildDiagnoseCronJob cr) CronJobBody;
    plan_optional cr KCronJob (rn_Remediate (NamesFor cr)) (BuildRemediateCronJob cr) CronJobBody;
    plan_workload cr (rn_AIWatch (NamesFor cr)) (rn_AIWatch (NamesFor cr) +:+ "-metrics") (BuildAIWatchDeployment cr)
      (BuildAIWatchMetricsService cr); plan_qdrant cr; plan_approval cr n]).
  assert (Hplan : concat ls = plan cr n) by (unfold ls; cbn [concat]; by rewrite app_nil_r).
  assert (HF : Forall2 does ls (subresources (S := S) cr n)).
  { unfold ls, subresources. repeat apply List.Forall2_cons; [..|apply List.Forall2_nil].
    - unfold plan_service_account, reconcileServiceAccount. destruct (negb _); [apply does_skip|apply does_createOrUpdate].
    - apply does_seq; [apply does_wrap|]; apply does_createOrUpdate.
    - by apply does_workload.
    - apply does_ensure_or_delete.
    - apply does_ensure_or_delete.
    - by apply does_workload.
    - apply does_qdrant.
    - by apply does_approval. }
  pose proof (does_track _ _ HF None s) as HT. rewrite Hplan in HT. destruct (track _ None s) as [s' e].
  destruct HT as (? & ? & He). split_and!; [done..|]. intros Hn. by apply He.
Qed.

(** ** Reading and writing the resource *)

Definition reads {A} (f : S → S * A) : Prop := ∀ s, objs (f s).1 = objs s ∧ crs (f s).1 = crs s.
Lemma reads_Get k : reads (Get k).
Proof using All. intros s. pose proof (Get_law k s) as HG. destruct (Get k s). tauto. Qed.
Lemma reads_pure {A} (a : A) : reads (λ s, (s, a)).
Proof. by intros s. Qed.
Lemma reads_bind {A B} (f : S → S * A) (g : A → S → S * B) : reads f → (∀ a, reads (g a)) →
  reads (λ s, let '(s, a) := f s in g a s).
Proof. intros Hf Hg s. specialize (Hf s). destruct (f s) as [s1 a]. cbn [fst] in *. destruct Hf as [<- <-]. apply Hg. Qed.
Ltac reading := repeat first [apply reads_Get | apply reads_pure | (apply reads_bind; [|intros]) | case_match].
Lemma reads_deployment k what : reads (deployment_verdict k what).
Proof using All. unfold deployment_verdict. reading. Qed.
Lemma reads_watcher cr : reads (watcher_verdict cr).
Proof using All. unfold watcher_verdict. destruct (negb _); [apply reads_pure|apply reads_deployment]. Qed.
Lemma reads_ai cr : reads (ai_verdict cr).
Proof using All. unfold ai_verdict. destruct (negb _); [apply reads_pure|apply reads_deployment]. Qed.
Lemma reads_rbac cr : reads (rbac_verdict cr).
Proof using All. unfold rbac_verdict. reading. Qed.
Lemma reads_memory cr : reads (memory_verdict cr).
Proof using All. unfold memory_verdict. destruct (negb _); [apply reads_pure|]. reading. Qed.
Lemma reads_approval cr : reads (approval_verdict cr).
Proof using All. unfold approval_verdict. destruct (negb _); [apply reads_pure|]. reading. Qed.
Lemma reads_conditions cr e now : reads (computeConditions cr e now).
Proof using All.
  unfold computeConditions.
  repeat (apply reads_bind; [first [apply reads_watcher|apply reads_rbac|apply reads_ai|apply reads_memory|apply reads_approval]|intros]).
  apply reads_pure.
Qed.

Lemma UpdateCR_objs cr s : objs (UpdateCR cr s).1 = objs s.
Proof using All. pose proof (UpdateCR_law cr s) as HL. by destruct (UpdateCR cr s), HL. Qed.
Lemma UpdateStatus_objs cr s : objs (UpdateStatus cr s).1 = objs s.
Proof using All. pose proof (UpdateStatus_law cr s) as HL. by destruct (UpdateStatus cr s), HL. Qed.
Lemma updateStatus_objs cr s : objs (updateStatus cr s).1 = objs s.
Proof using All. unfold updateStatus. rewrite <-(UpdateStatus_objs cr s). by destruct (UpdateStatus cr s). Qed.
Lemma put_finalizer_objs cr s : objs (put_finalizer cr s).1 = objs s.
Proof using All.
  unfold put_finalizer. case_bool_decide; [done|]. rewrite <-(UpdateCR_objs (add_finalizer cr) s).
  by destruct (UpdateCR (add_finalizer cr) s).
Qed.

Lemma children_does cr n now s : cr_Name cr ≠ "" →
  let '(s', e) := reconcile_children cr n now s in
  (∀ Q, closed (plan cr n) Q → Q (objs s) → Q (objs s')) ∧ (e = None → objs s' = acts (plan cr n) (objs s)).
Proof using All.
  intros Hname. unfold reconcile_children. pose proof (does_subresources cr n s Hname) as HS.
  destruct (track _ None s) as [s1 e]. destruct HS as (_ & HQ & He).
  pose proof (reads_conditions cr e now s1) as HC. destruct (computeConditions cr e now s1) as [s2 cr2]. cbn [fst] in HC.
  pose proof (UpdateStatus_objs cr2 s2) as HU. destruct (UpdateStatus cr2 s2) as [s3 e3]. cbn [fst] in HU.
  destruct HC as [HC _]. rewrite HU, HC. done.
Qed.
(** A reconcile of a resource that is there to stay. *)
Lemma live_does cr n now s : cr_Name cr ≠ "" →
  let '(s', e) := reconcile_live cr n now s in
  (∀ Q, closed (plan cr n) Q → Q (objs s) → Q (objs s')) ∧
  (e = None → objs s' = match invalid_spec cr with Some _ => objs s | None => acts (plan cr n) (objs s) end) ∧
  (invalid_spec cr ≠ None → objs s' = objs s).
Proof using All.
  intros Hname. unfold reconcile_live, seq. pose proof (put_finalizer_objs cr s) as HP.
  destruct (put_finalizer cr s) as [s1 [e1|]]; cbn [fst] in HP; [by rewrite HP|].
  assert (Hi : invalid_spec (add_finalizer cr) = invalid_spec cr) by (unfold add_finalizer; by case_bool_decide).
  assert (Hpl : plan (add_finalizer cr) n = plan cr n) by (unfold add_finalizer; by case_bool_decide).
  rewrite Hi. destruct (invalid_spec cr) as [msg|].
  - pose proof (updateStatus_objs (markReady (add_finalizer cr) (ConditionFalse, "InvalidSpec", msg) now) s1) as HU.
    destruct (updateStatus _ s1) as [s2 e2]. cbn [fst] in HU. by rewrite HU, HP.
  - pose proof (children_does (add_finalizer cr) n now s1) as HC. rewrite Hpl in HC.
    destruct (reconcile_children _ n now s1) as [s2 e2]. rewrite HP in HC.
    destruct HC as [HQ He]; [by unfold add_finalizer; case_bool_decide|]. by split_and!.
Qed.

Lemma reconcile_plan_holds req cr n now s :
  crs s !! req = Some cr → cr_Deleting cr = false → cr_Name cr ≠ "" →
  let '(s', e) := Reconcile req n now s in
  (∀ Q, closed (plan cr n) Q → Q (objs s) → Q (objs s')) ∧
  (e = None → invalid_spec cr = None → objs s' = acts (plan cr n) (objs s)) ∧
  (invalid_spec cr ≠ None → objs s' = objs s).
Proof using All.
  intros Hcr Hdel Hname. unfold Reconcile. pose proof (GetCR_law req s) as HG. destruct (GetCR req s) as [s1 r].
  destruct HG as (Ho & Hc & Hr). destruct r as [err|cr'].
  - destruct err as [m|m|m]; cbn [IsNotFound]; [congruence|by rewrite Ho..].
  - destruct Hr as [Hr _]. assert (cr' = cr) as -> by congruence. rewrite Hdel.
    pose proof (live_does cr n now s1 Hname) as HL. destruct (reconcile_live cr n now s1) as [s2 e].
    rewrite Ho in HL. destruct HL as (HQ & He & Hi). split_and!; [done| |done].
    intros He0 Hv. rewrite (He He0), Hv. done.
Qed.

(** C22: whatever calls to the API server fail, a reconcile of a resource
    with a valid spec does to the children only acts of the plan, so every
    property no act of the plan breaks still holds after it; and if it
    returns no error, the children are exactly what the whole plan makes of
    them.  With a spec that does not validate nothing is touched. *)
Theorem reconcile_plan req cr n now s :
  crs s !! req = Some cr → cr_Deleting cr = false → cr_Name cr ≠ "" →
  let '(s', e) := Reconcile req n now s in
  (∀ Q, closed (plan cr n) Q → Q (objs s) → Q (objs s')) ∧
  (e = None → invalid_spec cr = None → objs s' = acts (plan cr n) (objs s)) ∧
  (invalid_spec cr ≠ None → objs s' = objs s).
Proof using All. apply reconcile_plan_holds. Qed.

(** ** The way out *)

Lemma delete_key_does k : does [Remove k] (delete_key (S := S) k).
Proof using All.
  intros s. unfold delete_key. pose proof (Delete_law k s) as HD. destruct (Delete k s) as [s2 e].
  destruct HD as (Hc & Hm & Hn). cbn [fst snd].
  assert (Hor : objs s2 = objs s ∨ objs s2 = delete k (objs s)) by (destruct e; cbn in Hm; tauto).
  apply one_act_does; [done|exact Hor|]. unfold ignore_not_found. intros He. cbn [act].
  destruct (IgnoreNotFound e) eqn:E; [done|]. specialize (Hn eq_refl).
  destruct Hor as [E2|E2]; rewrite E2 in *; [by rewrite delete_id|done].
Qed.
(** The binding is deleted only if it carries the labels of the resource. *)
Lemma finalize_binding_does cr name s :
  let k : Key := (KClusterRoleBinding, "", name) in
  let '(s', e) := finalize_binding cr name s in
  crs s' = crs s ∧ (objs s' = objs s ∨ objs s' = delete k (objs s)) ∧
  (e = None → ∀ o, objs s' !! k = Some o → labelled_for cr o = false).
Proof using All.
  cbv zeta. unfold finalize_binding. set (k := (KClusterRoleBinding, "", name) : Key).
  pose proof (Get_law k s) as HG. destruct (Get k s) as [s1 r]. destruct HG as (Ho & Hc & Hr). destruct r as [err|b].
  - destruct err as [m|m|m]; cbn [IsNotFound]; (split_and!; [done|by left|try done]). intros _ o. by rewrite Ho, Hr.
  - destruct (labelled_for cr b) eqn:El; cbn [negb].
    + pose proof (Delete_law k s1) as HD. destruct (Delete k s1) as [s2 e]. destruct HD as (Hc2 & Hm & Hn).
      rewrite Ho in Hm. split_and!; [congruence|destruct e; cbn in Hm; tauto|]. unfold ignore_not_found. intros He o.
      destruct (IgnoreNotFound e); [done|]. by rewrite Hn.
    + split_and!; [done|by left|]. intros _ o. rewrite Ho. intros ?. assert (o = b) as -> by congruence. done.
Qed.

Definition reader_key cr : Key := (KClusterRoleBinding, "", ReaderClusterRoleBindingName cr).
Definition fixer_key cr : Key := (KClusterRoleBinding, "", ApprovalFixerClusterRoleBindingName cr).
Definition finalizer_plan cr : list Act :=
  [Remove (reader_key cr); Remove (fixer_key cr);
   Remove (KRoleBinding, ApprovalAuditNamespace cr, ApprovalServerName cr +:+ "-events");
   Remove (KRole, ApprovalAuditNamespace cr, ApprovalServerName cr +:+ "-events")].
(** No binding under the names of the resource carries its labels. *)
Definition unbound cr (m : gmap Key Obj) : Prop :=
  ∀ k o, k = reader_key cr ∨ k = fixer_key cr → m !! k = Some o → labelled_for cr o = false.

Lemma closed_Remove (l : list Act) (Q : gmap Key Obj → Prop) (m m' : gmap Key Obj) (k : Key) : closed l Q → Remove k ∈ l → Q m → m' = m ∨ m' = delete k m → Q m'.
Proof. intros Hc Hin HQ [->| ->]; [done|]. exact (Hc _ _ Hin HQ). Qed.
Lemma events_does cr s :
  let a := (if ApprovalAuditNamespace cr ≠s? cr_Namespace cr then
     delete_key (KRoleBinding, ApprovalAuditNamespace cr, ApprovalServerName cr +:+ "-events") ⨾
     delete_key (KRole, ApprovalAuditNamespace cr, ApprovalServerName cr +:+ "-events")
   else skip) : Step S in
  crs (a s).1 = crs s ∧ (∀ Q, closed (finalizer_plan cr) Q → Q (objs s) → Q (objs (a s).1)).
Proof using All.
  cbv zeta. destruct (negb _); [|done].
  pose proof (does_seq _ _ _ _ (delete_key_does (KRoleBinding, ApprovalAuditNamespace cr, ApprovalServerName cr +:+ "-events"))
    (delete_key_does (KRole, ApprovalAuditNamespace cr, ApprovalServerName cr +:+ "-events")) s) as (? & HQ & _).
  split; [done|]. intros Q Hc. apply HQ. intros a m Ha. apply Hc. unfold finalizer_plan. set_solver.
Qed.
Lemma finalize_does cr s :
  let '(s', e) := finalizeReaderRBAC cr s in
  crs s' = crs s ∧ (∀ Q, closed (finalizer_plan cr) Q → Q (objs s) → Q (objs s')) ∧ (e = None → unbound cr (objs s')).
Proof using All.
  unfold finalizeReaderRBAC. cbv zeta. set (ev := if negb _ then _ else _). unfold seq.
  pose proof (finalize_binding_does cr (ReaderClusterRoleBindingName cr) s) as H1'. cbv zeta in H1'. fold (reader_key cr) in H1'.
  destruct (finalize_binding cr (ReaderClusterRoleBindingName cr) s) as [s1 e1]. destruct H1' as (Hc1 & Ho1 & Hn1).
  assert (HQ1 : ∀ Q, closed (finalizer_plan cr) Q → Q (objs s) → Q (objs s1)).
  { intros Q Hcl HQ. eapply (closed_Remove _ Q); [done| |exact HQ|exact Ho1]. left. }
  destruct e1 as [e1|]; [done|]. specialize (Hn1 eq_refl).
  pose proof (finalize_binding_does cr (ApprovalFixerClusterRoleBindingName cr) s1) as H2. cbv zeta in H2. fold (fixer_key cr) in H2.
  destruct (finalize_binding cr (ApprovalFixerClusterRoleBindingName cr) s1) as [s2 e2]. destruct H2 as (Hc2 & Ho2 & Hn2).
  assert (HQ2 : ∀ Q, closed (finalizer_plan cr) Q → Q (objs s1) → Q (objs s2)).
  { intros Q Hcl HQ. eapply (closed_Remove _ Q); [done| |exact HQ|exact Ho2]. right. left. }
  destruct e2 as [e2|]; [split_and!; [congruence|by intros Q ? ?; apply HQ2, HQ1|done]|]. specialize (Hn2 eq_refl).
  assert (Hun : unbound cr (objs s2)).
  { intros k o [-> | ->]; [|apply Hn2]. intros Hk. apply Hn1. destruct Ho2 as [<-|E]; [done|].
    rewrite E in Hk. by apply lookup_delete_Some in Hk as [_ Hk]. }
  pose proof (events_does cr s2) as H3. cbv zeta in H3. fold ev in H3. destruct (ev s2) as [s3 e3]. cbn [fst] in H3.
  destruct H3 as (Hc3 & HQ3). split_and!; [congruence|by intros Q ? ?; apply HQ3, HQ2, HQ1|]. intros _. apply HQ3; [|done].
  intros a m Ha Hu k o Hk. unfold finalizer_plan in Ha.
  assert (∃ k', a = Remove k') as [k' ->] by (repeat (apply elem_of_cons in Ha as [->|Ha]; [by eexists|]); by apply elem_of_nil in Ha).
  cbn [act]. intros [_ ?]%lookup_delete_Some. by eapply Hu.
Qed.

(** ** Secrets *)

(** Every secret of [m] is still there with its data. *)
Definition secrets_kept (m m' : gmap Key Obj) : Prop :=
  ∀ k o d, key_kind k = KSecret → m !! k = Some o → o_Body o = SecretBody d → ∃ o', m' !! k = Some o' ∧ o_Body o' = SecretBody d.
Definition spares_secrets (a : Act) : Prop :=
  match a with Ensure _ _ => True | Remove k => key_kind k ≠ KSecret end.
Lemma mutate_secret d o x : o_Body o = SecretBody x → o_Body (mutate d o) = SecretBody x.
Proof. unfold mutate. cbn [o_Body]. intros ->. by destruct (o_Body d). Qed.
Lemma spares_closed m l : Forall spares_secrets l → closed l (secrets_kept m).
Proof.
  intros HF a m' Ha HQ k o d Hk Hm Hb. rewrite Forall_forall in HF. specialize (HF a Ha).
  destruct (HQ k o d Hk Hm Hb) as (o' & Ho' & Hb'). destruct a as [k' d'|k']; cbn [act].
  - destruct (decide (k = k')) as [<-|]; [|exists o'; split; [|done]; destruct (m' !! k'); by rewrite lookup_insert_ne].
    rewrite Ho'. exists (mutate d' o'). rewrite lookup_insert_eq. split; [done|by apply mutate_secret].
  - exists o'. split; [|done]. cbn in HF. rewrite lookup_delete_ne; [done|]. by intros ->.
Qed.
Lemma plan_spares cr n : Forall spares_secrets (plan cr n).
Proof.
  unfold_plan. each_act; done.
Qed.

(** ** A whole reconcile keeps what the plans keep *)

Lemma deleting_does cr s :
  let '(s', e) := reconcile_deleting cr s in
  (∀ Q, closed (finalizer_plan cr) Q → Q (objs s) → Q (objs s')) ∧
  (crs s' = crs s ∨
   unbound cr (objs s') ∧
   crs s' = put_cr (with_finalizers (List.filter (λ f, f ≠s? FinalizerOperatorRBAC) (cr_Finalizers cr)) cr) (crs s)).
Proof using All.
  unfold reconcile_deleting. case_bool_decide; [|split; [done|by left]]. unfold seq, wrap.
  pose proof (finalize_does cr s) as HF. destruct (finalizeReaderRBAC cr s) as [s1 e1]. destruct HF as (Hc1 & HQ1 & Hu1).
  destruct e1 as [e1|]; cbn [fmap option_fmap option_map]; [split; [done|by left]|].
  set (cr' := with_finalizers _ cr). pose proof (UpdateCR_law cr' s1) as HL. destruct (UpdateCR cr' s1) as [s2 e2].
  destruct HL as (Ho2 & Hm2). rewrite Ho2. split; [done|]. rewrite Hc1 in Hm2. specialize (Hu1 eq_refl).
  destruct e2; cbn in Hm2; [destruct Hm2; [by left|by right]|by right].
Qed.
Lemma Reconcile_keeps (Q : gmap Key Obj → Prop) req n now s :
  (∀ cr, crs s !! req = Some cr →
    (cr_Deleting cr = true → closed (finalizer_plan cr) Q) ∧
    (cr_Deleting cr = false → invalid_spec cr = None → cr_Name cr ≠ "" ∧ closed (plan cr n) Q)) →
  Q (objs s) → Q (objs (Reconcile req n now s).1).
Proof using All.
  intros HP HQ. unfold Reconcile. pose proof (GetCR_law req s) as HG. destruct (GetCR req s) as [s1 r].
  destruct HG as (Ho & Hc & Hr). destruct r as [err|cr]; [by destruct (IsNotFound err); cbn [fst]; rewrite Ho|].
  destruct Hr as [Hr _]. destruct (HP cr Hr) as [HD HL]. destruct (cr_Deleting cr).
  - pose proof (deleting_does cr s1) as HF. destruct (reconcile_deleting cr s1) as [s2 e]. cbn [fst].
    destruct HF as [HF _]. apply HF; [by apply HD|by rewrite Ho].
  - destruct (invalid_spec cr) as [msg|] eqn:Ei.
    + unfold reconcile_live, seq. pose proof (put_finalizer_objs cr s1) as HPf.
      destruct (put_finalizer cr s1) as [s2 [e2|]]; cbn [fst] in *; [by rewrite HPf, Ho|].
      assert (invalid_spec (add_finalizer cr) = Some msg) as -> by (unfold add_finalizer; by case_bool_decide).
      by rewrite updateStatus_objs, HPf, Ho.
    + destruct (HL eq_refl eq_refl) as [Hname Hcl]. pose proof (live_does cr n now s1 Hname) as HLv.
      destruct (reconcile_live cr n now s1) as [s2 e]. cbn [fst]. destruct HLv as [HLv _]. apply HLv; [done|by rewrite Ho].
Qed.

Definition named (c : gmap NN AgenticSRE) : Prop := map_Forall (λ k cr, cr_key cr = k ∧ cr_Name cr ≠ "") c.

(** C8: whatever a reconcile meets and whatever fails in it, every secret
    that was there is there after it with the same data: the signing key is
    generated once and never again, so the links it signed stay good; not
    even the disabling of approvals or the deletion of the resource takes
    it. *)
Theorem signing_key_stable req n now s :
  named (crs s) → secrets_kept (objs s) (objs (Reconcile req n now s).1).
Proof using All.
  intros Hn. apply Reconcile_keeps; [|by intros k o d _ ? ?; exists o].
  intros cr Hcr. split.
  - intros _. apply spares_closed. unfold finalizer_plan. each_act; done.
  - intros _ _. split; [by destruct (Hn _ _ Hcr)|apply spares_closed, plan_spares].
Qed.

(** ** Replay protection *)

(** A Deployment of the approval server with its replay store in memory has
    one replica. *)
Definition replay_safe (d : DeploymentSpec) : Prop :=
  Forall (λ c, ct_Name c = "approval-server" →
    dep_Replicas d ≤ 1 ∨ ∃ backend, backend ≠ "inmemory" ∧ ("--store-backend=" +:+ backend) ∈ ct_Args c)
    (pod_Containers (pt_Spec (dep_Template d))).
Definition all_replay_safe (m : gmap Key Obj) : Prop :=
  ∀ k o d n, m !! k = Some o → o_Body o = DeploymentBody d n → replay_safe d.
Definition act_replay_safe (a : Act) : Prop :=
  match a with Ensure _ d => ∀ sp n, o_Body d = DeploymentBody sp n → replay_safe sp | Remove _ => True end.
Lemma replay_closed (l : list Act) : Forall act_replay_safe l → closed l all_replay_safe.
Proof.
  intros HF a m Ha HQ k o d n Hk Hb. rewrite Forall_forall in HF. specialize (HF a Ha).
  destruct a as [k' d'|k']; cbn [act] in Hk.
  - destruct (decide (k' = k)) as [->|].
    + destruct (m !! k) as [o'|] eqn:E; rewrite lookup_insert_eq in Hk; injection Hk as <-; [|by eapply HF].
      unfold mutate in Hb. cbn [o_Body] in Hb.
      destruct (o_Body d') as [| | |s' n'| | | | | |] eqn:Ed, (o_Body o') as [| | |s'' n''| | | | | |] eqn:Eo;
        cbn [mutate_body] in Hb; try discriminate; try (by injection Hb as <- <-; eapply HQ).
      injection Hb as <- <-. exact (HF _ _ Ed).
    + destruct (m !! k') as [o'|]; rewrite lookup_insert_ne in Hk by done; by eapply HQ.
  - apply lookup_delete_Some in Hk as [_ Hk]. by eapply HQ.
Qed.
Lemma watcher_replay_safe cr b : BuildWatcherDeployment cr = Some b → replay_safe (b_Spec b).
Proof.
  unfold BuildWatcherDeployment. destruct (Watcher (cr_Spec cr)); [|done]. cbn [mbind option_bind].
  destruct (negb _); [done|]. cbn. intros [= <-]. by apply Forall_singleton.
Qed.
Lemma aiwatch_replay_safe cr b : BuildAIWatchDeployment cr = Some b → replay_safe (b_Spec b).
Proof.
  unfold BuildAIWatchDeployment. destruct (AI (cr_Spec cr)); [|done]. cbn [mbind option_bind].
  destruct (negb _); [done|]. intros [= <-]. by apply Forall_singleton.
Qed.
Lemma approval_replay_safe cr b : invalid_spec cr = None → BuildApprovalServerDeployment cr = Some b → replay_safe (b_Spec b).
Proof.
  intros Hv. unfold BuildApprovalServerDeployment. destruct (ApprovalEnabled cr) eqn:Ea; [|done]. intros [= <-].
  unfold replay_safe. cbn [b_Spec dep_Template pt_Spec pod_Containers]. apply Forall_singleton.
  cbn [dep_Replicas ct_Args]. intros _. unfold approvalArgs.
  destruct (decide (approvalStoreBackend cr = "inmemory")) as [Eb|Eb].
  - left. unfold invalid_spec in Hv. rewrite Ea, (bool_decide_eq_true_2 (_ = "inmemory") Eb) in Hv.
    destruct (Z.ltb_spec 1 (approvalReplicas cr)); [|done]. exfalso. cbn [andb] in Hv.
    repeat (case_match; try discriminate).
  - right. exists (approvalStoreBackend cr). split; [done|]. rewrite bool_decide_eq_false_2 by done. cbn [negb].
    destruct (approvalStoreConfigMaps cr). apply elem_of_app. right. left.
Qed.
Lemma plan_replay_safe cr n : invalid_spec cr = None → Forall act_replay_safe (plan cr n).
Proof.
  intros Hv. pose proof (watcher_replay_safe cr) as Hw. pose proof (aiwatch_replay_safe cr) as Ha.
  pose proof (λ b, approval_replay_safe cr b Hv) as Hp. unfold_plan.
  destruct (BuildWatcherDeployment cr), (BuildAIWatchDeployment cr), (BuildApprovalServerDeployment cr).
  all: each_act; try done; cbn [act_replay_safe]; intros sp m E; unfold owned, unowned, deployment, signing_secret in E;
    cbn [o_Body] in E; try discriminate.
  all: first [ injection E as <- <-; first [by apply Hw | by apply Ha | by apply Hp]
             | by destruct (GenerateSigningKeySecret cr n) | by case_bool_decide ].
Qed.
(** No reconcile, complete or not, leaves an approval server that runs
    more than one replica with the in-memory replay store, in which a link
    could be used once on every replica. *)
Theorem replay_protection req n now s :
  named (crs s) → all_replay_safe (objs s) → all_replay_safe (objs (Reconcile req n now s).1).
Proof using All.
  intros Hn. apply Reconcile_keeps. intros cr Hcr. split.
  - intros _. apply replay_closed. unfold finalizer_plan. each_act; done.
  - intros _ Hv. split; [by destruct (Hn _ _ Hcr)|by apply replay_closed, plan_replay_safe].
Qed.

(** ** Bindings and their resource *)

(** The namespace and name in the labels of a binding. *)
Definition labels_cr (o : Obj) : option NN :=
  n ← o_Labels o !! ManagedByCRLabel; ns ← o_Labels o !! ManagedByCRNamespaceLabel; Some (ns, n).
Definition held (c : gmap NN AgenticSRE) (nn : NN) : Prop :=
  ∃ cr, c !! nn = Some cr ∧ FinalizerOperatorRBAC ∈ cr_Finalizers cr.
Definition binding_names (nn : NN) : list string :=
  ["srenix-operator-watcher-" +:+ nn.1 +:+ "-" +:+ nn.2; ApprovalFixerClusterRoleName +:+ "-" +:+ nn.1 +:+ "-" +:+ nn.2].
(** Every cluster-wide binding that carries the operator's labels is one of
    those of a resource that is there and holds the finalizer. *)
Definition tied (c : gmap NN AgenticSRE) (m : gmap Key Obj) : Prop :=
  ∀ name o nn, m !! ((KClusterRoleBinding, "", name) : Key) = Some o → labels_cr o = Some nn →
    held c nn ∧ name ∈ binding_names nn.

Lemma tied_mono c c' m : (∀ nn, held c nn → held c' nn) → tied c m → tied c' m.
Proof. intros Hh HT name o nn Hk Hl. destruct (HT name o nn Hk Hl). split; [by apply Hh|done]. Qed.
Lemma labels_cr_mutate d o nn : labels_cr d = Some nn → labels_cr (mutate d o) = Some nn.
Proof.
  unfold labels_cr, mutate, mergeLabels. cbn [o_Labels]. intros H'.
  destruct (o_Labels d !! ManagedByCRLabel) as [n|] eqn:E1; [|done]. cbn [mbind option_bind] in H'.
  destruct (o_Labels d !! ManagedByCRNamespaceLabel) as [ns|] eqn:E2; [|done].
  rewrite (lookup_union_Some_l _ _ _ _ E1). cbn [mbind option_bind]. by rewrite (lookup_union_Some_l _ _ _ _ E2).
Qed.
Lemma binding_labels_cr cr component body : labels_cr (mkObj (binding_labels cr component) None body) = Some (cr_key cr).
Proof.
  unfold labels_cr, binding_labels. cbn [o_Labels]. rewrite lookup_insert_eq. cbn [mbind option_bind].
  rewrite lookup_insert_ne by discriminate. by rewrite lookup_insert_eq.
Qed.
Lemma labels_cr_labelled cr o : labels_cr o = Some (cr_key cr) → labelled_for cr o = true.
Proof.
  unfold labels_cr, labelled_for. destruct (_ !! ManagedByCRLabel) as [n|]; [|done]. cbn [mbind option_bind].
  destruct (_ !! ManagedByCRNamespaceLabel) as [ns|]; [|done]. cbn. unfold cr_key. intros [= -> ->].
  by rewrite !bool_decide_eq_true_2.
Qed.

Definition act_tied cr (a : Act) : Prop :=
  match a with
  | Ensure k d => key_kind k = KClusterRoleBinding → labels_cr d = Some (cr_key cr) ∧ k.2 ∈ binding_names (cr_key cr)
  | Remove _ => True
  end.
Lemma tied_closed c cr (l : list Act) : Forall (act_tied cr) l → held c (cr_key cr) → closed l (tied c).
Proof.
  intros HF Hh a m Ha HQ name o nn Hk Hl. rewrite Forall_forall in HF. specialize (HF a Ha).
  destruct a as [k' d'|k']; cbn [act] in Hk; [|apply lookup_delete_Some in Hk as [_ Hk]; by eapply HQ].
  destruct (decide (k' = (KClusterRoleBinding, "", name))) as [->|].
  - destruct (HF eq_refl) as [Hd Hn]. cbn [snd] in Hn.
    assert (labels_cr o = Some (cr_key cr)) as E.
    { destruct (m !! _); rewrite lookup_insert_eq in Hk; injection Hk as <-; [by apply labels_cr_mutate|done]. }
    rewrite E in Hl. injection Hl as <-. done.
  - destruct (m !! k'); rewrite lookup_insert_ne in Hk by done; by eapply HQ.
Qed.
Lemma reader_tied cr : act_tied cr (Ensure (built_key KClusterRoleBinding (BuildReaderClusterRoleBinding cr))
  (unowned (BuildReaderClusterRoleBinding cr) (BindingBody (b_Spec (BuildReaderClusterRoleBinding cr))))).
Proof. intros _. split; [apply binding_labels_cr|left]. Qed.
Lemma fixer_tied cr : act_tied cr (Ensure (built_key KClusterRoleBinding (BuildApprovalFixerClusterRoleBinding cr))
  (unowned (BuildApprovalFixerClusterRoleBinding cr) (BindingBody (b_Spec (BuildApprovalFixerClusterRoleBinding cr))))).
Proof. intros _. split; [apply binding_labels_cr|right; left]. Qed.
Lemma plan_tied cr n : Forall (act_tied cr) (plan cr n).
Proof.
  unfold_plan. each_act;
  match goal with
  | |- act_tied _ (Remove _) => exact I
  | |- act_tied _ (Ensure (built_key KClusterRoleBinding (BuildReaderClusterRoleBinding _)) _) => exact (reader_tied cr)
  | |- act_tied _ (Ensure (built_key KClusterRoleBinding _) _) => exact (fixer_tied cr)
  | |- _ => intros Hkind; discriminate Hkind
  end.
Qed.

Lemma held_put_status c cr nn : held c nn → held (put_status cr c) nn.
Proof.
  intros (cr' & Hc & Hf). unfold held, put_status. destruct (decide (nn = cr_key cr)) as [->|].
  - rewrite lookup_alter_eq, Hc. by eexists.
  - rewrite lookup_alter_ne by done. by eexists.
Qed.
Lemma UpdateStatus_held cr s nn : held (crs s) nn → held (crs (UpdateStatus cr s).1) nn.
Proof using All.
  intros Hh. pose proof (UpdateStatus_law cr s) as HL. destruct (UpdateStatus cr s) as [s' e]. destruct HL as [_ Hm]. cbn [fst].
  assert (crs s' = crs s ∨ crs s' = put_status cr (crs s)) as [->| ->] by (destruct e; cbn in Hm; tauto); [done|].
  by apply held_put_status.
Qed.
Lemma children_held cr n now s nn : cr_Name cr ≠ "" → held (crs s) nn → held (crs (reconcile_children cr n now s).1) nn.
Proof using All.
  intros Hname Hh. unfold reconcile_children. pose proof (does_subresources cr n s Hname) as HS.
  destruct (track _ None s) as [s1 e]. destruct HS as (Hc1 & _).
  pose proof (reads_conditions cr e now s1) as HC. destruct (computeConditions cr e now s1) as [s2 cr2]. cbn [fst] in HC.
  destruct HC as [_ Hc2]. pose proof (UpdateStatus_held cr2 s2 nn) as HU. destruct (UpdateStatus cr2 s2) as [s3 e3].
  cbn [fst] in *. apply HU. by rewrite Hc2, Hc1.
Qed.
(** After the finalizer has been put the resource holds it. *)
Lemma put_finalizer_held cr s : crs s !! cr_key cr = Some cr → cr_Deleting cr = false →
  let '(s', e) := put_finalizer cr s in
  (∀ nn, held (crs s) nn → held (crs s') nn) ∧ (e = None → held (crs s') (cr_key cr)).
Proof using All.
  intros Hcr Hd. unfold put_finalizer. case_bool_decide as Hf; [split; [done|]; intros _; by exists cr|].
  assert (Hin : FinalizerOperatorRBAC ∈ cr_Finalizers (add_finalizer cr)).
  { unfold add_finalizer. rewrite bool_decide_eq_false_2 by done. cbn. apply elem_of_app. right. by left. }
  assert (Hput : put_cr (add_finalizer cr) (crs s) = <[cr_key cr := add_finalizer cr]> (crs s)).
  { unfold put_cr, add_finalizer. rewrite bool_decide_eq_false_2 by done. cbn [cr_Deleting with_finalizers]. by rewrite Hd. }
  assert (Hnew : held (put_cr (add_finalizer cr) (crs s)) (cr_key cr)).
  { rewrite Hput. exists (add_finalizer cr). by rewrite lookup_insert_eq. }
  assert (Hold : ∀ nn, held (crs s) nn → held (put_cr (add_finalizer cr) (crs s)) nn).
  { intros nn (cr' & Hc & Hf'). destruct (decide (nn = cr_key cr)) as [->|]; [done|]. rewrite Hput. exists cr'.
    by rewrite lookup_insert_ne. }
  pose proof (UpdateCR_law (add_finalizer cr) s) as HL. destruct (UpdateCR (add_finalizer cr) s) as [s1 e1].
  destruct HL as [_ Hm]. destruct e1; cbn in *; [|by rewrite Hm]. split; [|done]. intros nn. destruct Hm as [->| ->]; [done|apply Hold].
Qed.
Lemma live_tied cr n now s : crs s !! cr_key cr = Some cr → cr_Deleting cr = false → cr_Name cr ≠ "" →
  tied (crs s) (objs s) → let s' := (reconcile_live cr n now s).1 in tied (crs s') (objs s').
Proof using All.
  intros Hcr Hd Hname HT. cbv zeta. unfold reconcile_live, seq. pose proof (put_finalizer_held cr s Hcr Hd) as HP.
  pose proof (put_finalizer_objs cr s) as HPo. destruct (put_finalizer cr s) as [s1 e1]. cbn [fst] in HPo.
  destruct HP as [Hmono Hheld].
  assert (HT1 : tied (crs s1) (objs s1)) by (rewrite HPo; by eapply tied_mono).
  destruct e1 as [e1|]; [done|]. specialize (Hheld eq_refl).
  set (cr' := add_finalizer cr). assert (Hk : cr_key cr' = cr_key cr) by (unfold cr', add_finalizer; by case_bool_decide).
  assert (Hn' : cr_Name cr' ≠ "") by (unfold cr', add_finalizer; by case_bool_decide).
  destruct (invalid_spec cr') as [msg|].
  - unfold updateStatus. set (cr2 := markReady _ _ _). pose proof (λ nn, UpdateStatus_held cr2 s1 nn) as HU.
    pose proof (UpdateStatus_objs cr2 s1) as HUo. destruct (UpdateStatus cr2 s1) as [s2 e2]. cbn [fst] in *.
    rewrite HUo. by eapply tied_mono.
  - pose proof (children_does cr' n now s1 Hn') as HC. pose proof (λ nn, children_held cr' n now s1 nn Hn') as HH.
    destruct (reconcile_children cr' n now s1) as [s2 e2]. cbn [fst] in *. destruct HC as [HQ _].
    eapply tied_mono; [exact HH|]. apply HQ; [|done]. apply (tied_closed _ cr'); [apply plan_tied|by rewrite Hk].
Qed.
Lemma deleting_tied cr s : crs s !! cr_key cr = Some cr → cr_Deleting cr = true →
  tied (crs s) (objs s) → let s' := (reconcile_deleting cr s).1 in tied (crs s') (objs s').
Proof using All.
  intros Hcr Hd HT. cbv zeta. pose proof (deleting_does cr s) as HD. destruct (reconcile_deleting cr s) as [s' e]. cbn [fst].
  destruct HD as (HQ & HD).
  assert (HT' : tied (crs s) (objs s')).
  { apply HQ; [|done]. intros a m Ha HTm name o nn Hk Hl. unfold finalizer_plan in Ha.
    assert (∃ k', a = Remove k') as [k' ->] by (repeat (apply elem_of_cons in Ha as [->|Ha]; [by eexists|]); by apply elem_of_nil in Ha).
    cbn [act] in Hk. apply lookup_delete_Some in Hk as [_ Hk]. by eapply HTm. }
  destruct HD as [->|[Hun Hc]]; [done|]. intros name o nn Hk Hl. destruct (HT' name o nn Hk Hl) as [(cr' & Hc' & Hf') Hn].
  split; [|done]. destruct (decide (nn = cr_key cr)) as [->|Hne].
  - exfalso. apply labels_cr_labelled in Hl. unfold binding_names in Hn.
    rewrite (Hun (KClusterRoleBinding, "", name) o) in Hl; [done| |done].
    apply elem_of_cons in Hn as [->|Hn]; [by left|]. apply list_elem_of_singleton in Hn as ->. by right.
  - exists cr'. split; [|done]. rewrite Hc. unfold put_cr.
    assert (cr_key (with_finalizers (List.filter (λ f, f ≠s? FinalizerOperatorRBAC) (cr_Finalizers cr)) cr) = cr_key cr) as -> by done.
    destruct (_ && _); [by rewrite lookup_delete_ne|by rewrite lookup_insert_ne].
Qed.

Lemma Reconcile_tied req n now s : named (crs s) → tied (crs s) (objs s) →
  let s' := (Reconcile req n now s).1 in tied (crs s') (objs s').
Proof using All.
  intros Hn HT. cbv zeta. unfold Reconcile. pose proof (GetCR_law req s) as HG. destruct (GetCR req s) as [s1 r].
  destruct HG as (Ho & Hc & Hr). destruct r as [err|cr]; [by destruct (IsNotFound err); cbn [fst]; rewrite Ho, Hc|].
  destruct Hr as [Hr Hk]. rewrite <-Hc in Hr. subst req. destruct (cr_Deleting cr) eqn:Ed.
  - apply deleting_tied; [done..|]. by rewrite Ho, Hc.
  - apply live_tied; [done..| |by rewrite Ho, Hc]. rewrite <-Hc in Hn. by destruct (Hn _ _ Hr).
Qed.

(** ** The system

    Between reconciles users create, edit and delete resources (a resource
    that holds the finalizer is only marked), and everybody else does what
    he likes with other objects, but nobody labels a binding as the
    operator's. *)

Definition user_edit (c c' : gmap NN AgenticSRE) : Prop := named c' ∧ ∀ nn, held c nn → held c' nn.
Definition others_edit (m m' : gmap Key Obj) : Prop := ∀ name o nn,
  m' !! ((KClusterRoleBinding, "", name) : Key) = Some o → labels_cr o = Some nn →
  ∃ o', m !! ((KClusterRoleBinding, "", name) : Key) = Some o' ∧ labels_cr o' = Some nn.
Inductive world_step : S → S → Prop :=
| reconcile_step req n now s : world_step s (Reconcile req n now s).1
| user_step s s' : objs s' = objs s → user_edit (crs s) (crs s') → world_step s s'
| others_step s s' : crs s' = crs s → others_edit (objs s) (objs s') → world_step s s'.

Lemma named_insert c cr : named c → cr_Name cr ≠ "" → named (<[cr_key cr := cr]> c).
Proof. intros Hn Hname. by apply map_Forall_insert_2. Qed.
Lemma named_put_cr c cr : named c → cr_Name cr ≠ "" → named (put_cr cr c).
Proof. intros Hn Hname. unfold put_cr. destruct (_ && _); [by apply map_Forall_delete|by apply named_insert]. Qed.
Lemma named_put_status c cr : named c → named (put_status cr c).
Proof.
  intros Hn k cr' Hk. unfold put_status in Hk. apply lookup_alter_Some in Hk as [(<- & cr2 & Hk & ->)|[_ Hk]]; [|by apply Hn].
  apply (Hn _ _ Hk).
Qed.
Lemma may_named c c' c'' (e : option APIErr) : may c c' c'' e → named c → named c' → named c''.
Proof. destruct e; cbn; [|by intros ->]. by intros [->| ->]. Qed.
Lemma Reconcile_named req n now s : named (crs s) → named (crs (Reconcile req n now s).1).
Proof using All.
  intros Hn. unfold Reconcile. pose proof (GetCR_law req s) as HG. destruct (GetCR req s) as [s1 r].
  destruct HG as (Ho & Hc & Hr). destruct r as [err|cr]; [by destruct (IsNotFound err); cbn [fst]; rewrite Hc|].
  destruct Hr as [Hr _]. destruct (Hn _ _ Hr) as [_ Hname]. rewrite <-Hc in Hn. clear Hr Hc Ho s. rename s1 into s.
  destruct (cr_Deleting cr).
  - pose proof (deleting_does cr s) as HD. destruct (reconcile_deleting cr s) as [s' e]. cbn [fst].
    destruct HD as (_ & [->|[_ ->]]); [done|by apply named_put_cr].
  - unfold reconcile_live, seq. assert (HP : named (crs (put_finalizer cr s).1)).
    { unfold put_finalizer. case_bool_decide; [done|]. pose proof (UpdateCR_law (add_finalizer cr) s) as HL.
      destruct (UpdateCR (add_finalizer cr) s) as [s' e]. destruct HL as [_ HL]. cbn [fst].
      eapply may_named; [exact HL|done|]. apply named_put_cr; [done|]. unfold add_finalizer. by case_bool_decide. }
    destruct (put_finalizer cr s) as [s1 [e1|]]; cbn [fst] in *; [done|].
    set (cr' := add_finalizer cr). assert (Hn' : cr_Name cr' ≠ "") by (unfold cr', add_finalizer; by case_bool_decide).
    assert (HU : ∀ cr2 s2, named (crs s2) → named (crs (UpdateStatus cr2 s2).1)).
    { intros cr2 s2 H2. pose proof (UpdateStatus_law cr2 s2) as HL. destruct (UpdateStatus cr2 s2) as [s3 e3].
      destruct HL as [_ HL]. cbn [fst]. eapply may_named; [exact HL|done|]. by apply named_put_status. }
    destruct (invalid_spec cr').
    + unfold updateStatus. set (cr2 := markReady _ _ _). specialize (HU cr2 s1 HP). by destruct (UpdateStatus cr2 s1).
    + unfold reconcile_children. pose proof (does_subresources cr' n s1 Hn') as HS.
      destruct (track _ None s1) as [s2 e2]. destruct HS as (Hc2 & _).
      pose proof (reads_conditions cr' e2 now s2) as HC. destruct (computeConditions cr' e2 now s2) as [s3 cr3]. cbn [fst] in HC.
      destruct HC as [_ Hc3]. specialize (HU cr3 s3). destruct (UpdateStatus cr3 s3). cbn [fst] in *. apply HU.
      by rewrite Hc3, Hc2.
Qed.

(** C6: in any run of the system, in which every call of every reconcile may
    fail or succeed unnoticed, a cluster-wide binding that carries the
    operator's labels belongs to a resource that is still there and holds
    the finalizer; so once a resource is gone, nothing the operator bound
    for it is left. *)
Theorem no_orphan_bindings s0 s :
  named (crs s0) → tied (crs s0) (objs s0) → rtc world_step s0 s →
  ∀ name o nn, objs s !! ((KClusterRoleBinding, "", name) : Key) = Some o → labels_cr o = Some nn →
    held (crs s) nn ∧ name ∈ binding_names nn.
Proof using All.
  intros Hn HT Hr. enough (named (crs s) ∧ tied (crs s) (objs s)) as [_ HT'] by exact HT'.
  induction Hr as [|s s1 s2 Hs Hr IH]; [done|]. apply IH; clear IH Hr s2.
  - destruct Hs as [req n now s|s s' _ [Hn' _]|s s' Hc _]; [by apply Reconcile_named|done|by rewrite Hc].
  - destruct Hs as [req n now s|s s' Ho [_ Hh]|s s' Hc Ho].
    + by apply Reconcile_tied.
    + rewrite Ho. by eapply tied_mono.
    + rewrite Hc. intros name o nn Hk Hl. destruct (Ho name o nn Hk Hl) as (o' & Hk' & Hl'). by eapply HT.
Qed.

(** ** The plan settles *)

Lemma mutate_same d : mutate d d = d.
Proof.
  destruct d as [l o b]. unfold mutate, mergeLabels. cbn [o_Labels o_Owner o_Body]. f_equal; [apply map_union_idemp|].
  destruct b as [| | [] |[] ?|[] ?| | | | |a i]; cbn; try done. by rewrite map_union_idemp.
Qed.
Lemma mutate_idem d o : mutate d (mutate d o) = mutate d o.
Proof.
  destruct d as [dl dw db], o as [l w b]. unfold mutate, mergeLabels. cbn [o_Labels o_Owner o_Body]. f_equal.
  - by rewrite map_union_assoc, map_union_idemp.
  - destruct db, b; cbn; try done. by rewrite map_union_assoc, map_union_idemp.
Qed.

(** What an act leaves under its key. *)
Definition result (a : Act) (o : option Obj) : option Obj :=
  match a with Ensure _ d => Some (from_option (mutate d) d o) | Remove _ => None end.
Lemma act_lookup m a : act m a !! act_key a = result a (m !! act_key a).
Proof. destruct a as [k d|k]; cbn; [destruct (m !! k); by rewrite lookup_insert_eq|apply lookup_delete_eq]. Qed.
Lemma act_lookup_ne m a (k : Key) : act_key a ≠ k → act m a !! k = m !! k.
Proof. destruct a as [k' d|k']; cbn; intros; [destruct (m !! k'); by rewrite lookup_insert_ne|by rewrite lookup_delete_ne]. Qed.
Lemma acts_other (l : list Act) (m : gmap Key Obj) (k : Key) : k ∉ act_key <$> l → acts l m !! k = m !! k.
Proof.
  revert m. induction l as [|a l IH]; intros m Hk; [done|]. cbn [fmap list_fmap] in Hk.
  apply not_elem_of_cons in Hk as [Hne Hk]. unfold acts in *. cbn [foldl]. rewrite IH by done. by apply act_lookup_ne.
Qed.
Lemma acts_lookup (l : list Act) (m : gmap Key Obj) a : NoDup (act_key <$> l) → a ∈ l →
  acts l m !! act_key a = result a (m !! act_key a).
Proof.
  revert m. induction l as [|b l IH]; intros m Hnd Ha; [by apply elem_of_nil in Ha|].
  cbn [fmap list_fmap] in Hnd. apply NoDup_cons in Hnd as [Hb Hnd]. unfold acts in *. cbn [foldl].
  apply elem_of_cons in Ha as [->|Ha].
  - rewrite <-act_lookup. by apply acts_other.
  - rewrite IH by done. f_equal. apply act_lookup_ne. intros E. apply Hb. rewrite E. by apply list_elem_of_fmap_2.
Qed.
Lemma result_idem a o : result a (result a o) = result a o.
Proof. destruct a as [k d|k]; [|done]. destruct o; cbn; [by rewrite mutate_idem|by rewrite mutate_same]. Qed.

(** *** Every child has one act

    The names differ in what follows the name of the resource, or in the
    kind. *)
Definition slot cr (k : Key) : Kind * string :=
  match key_kind k with
  | KSecret => (KSecret, "")
  | KClusterRole | KClusterRoleBinding => (key_kind k, stake 17 k.2)
  | kind => (kind, sdrop (len (cr_Name cr)) k.2)
  end.
Definition cluster_kind (kind : Kind) : bool :=
  match kind with KSecret | KClusterRole | KClusterRoleBinding => true | _ => false end.
Lemma slot_child cr kind ns suffix : cluster_kind kind = false → slot cr (kind, ns, cr_Name cr +:+ suffix) = (kind, suffix).
Proof. intros Hk. unfold slot. destruct kind; try discriminate; cbn [key_kind fst snd]; by rewrite sdrop_app. Qed.
Definition slots cr (l : list Act) : list (Kind * string) := (λ a, slot cr (act_key a)) <$> l.
Lemma slots_app cr l l' : slots cr (l ++ l') = slots cr l ++ slots cr l'.
Proof. apply fmap_app. Qed.
Lemma slots_optional {A} cr kind suffix (b : option (Built A)) body : cluster_kind kind = false →
  (∀ x, b = Some x → b_Name x = cr_Name cr +:+ suffix) →
  slots cr (plan_optional cr kind (cr_Name cr +:+ suffix) b body) = [(kind, suffix)].
Proof.
  intros Hk Hb. unfold plan_optional, plan_ensure, slots. destruct b as [b|]; cbn [fmap list_fmap act_key]; unfold built_key.
  - rewrite (Hb b) by done. by rewrite slot_child.
  - by rewrite slot_child.
Qed.
Lemma slots_workload cr u v d svc :
  (∀ x, d = Some x → b_Name x = cr_Name cr +:+ u) → (∀ x, svc = Some x → b_Name x = cr_Name cr +:+ v) →
  slots cr (plan_workload cr (cr_Name cr +:+ u) (cr_Name cr +:+ v) d svc) = [(KDeployment, u); (KService, v)].
Proof.
  intros Hd Hs. unfold plan_workload. rewrite slots_app, slots_optional by done.
  destruct d; [by rewrite slots_optional|]. unfold slots. cbn [fmap list_fmap act_key]. by rewrite slot_child.
Qed.
(** A builder names what it builds as the plan does. *)
Ltac built_name := intros x; repeat (case_match; try discriminate); intros [= <-]; reflexivity.
Lemma watcher_name cr x : BuildWatcherDeployment cr = Some x → b_Name x = cr_Name cr +:+ "-watcher".
Proof. revert x. unfold BuildWatcherDeployment, mbind, option_bind. built_name. Qed.
Lemma webhook_name cr x : BuildWatcherWebhookService cr = Some x → b_Name x = cr_Name cr +:+ "-webhook".
Proof. revert x. unfold BuildWatcherWebhookService. destruct (webhookReceiverOn _) as [h|]; cbn [mbind option_bind]; built_name. Qed.
Lemma aiwatch_name cr x : BuildAIWatchDeployment cr = Some x → b_Name x = cr_Name cr +:+ "-aiwatch".
Proof. revert x. unfold BuildAIWatchDeployment, mbind, option_bind. built_name. Qed.
Lemma metrics_name cr x : BuildAIWatchMetricsService cr = Some x → b_Name x = cr_Name cr +:+ "-aiwatch-metrics".
Proof.
  revert x. unfold BuildAIWatchMetricsService, mbind, option_bind. intros x. repeat (case_match; try discriminate).
  intros [= <-]. cbn. by rewrite sapp_assoc.
Qed.
Lemma diagnose_name cr x : BuildDiagnoseCronJob cr = Some x → b_Name x = cr_Name cr +:+ "-diagnose".
Proof. revert x. unfold BuildDiagnoseCronJob, mbind, option_bind. built_name. Qed.
Lemma remediate_name cr x : BuildRemediateCronJob cr = Some x → b_Name x = cr_Name cr +:+ "-remediate".
Proof. revert x. unfold BuildRemediateCronJob, mbind, option_bind. built_name. Qed.
Lemma slots_qdrant cr : slots cr (plan_qdrant cr) = [(KService, "-rag"); (KStatefulSet, "-rag")] ∨
  slots cr (plan_qdrant cr) = [(KStatefulSet, "-rag"); (KService, "-rag")].
Proof.
  unfold plan_qdrant. destruct (BuildQdrantStatefulSet cr) as [ss|] eqn:E1, (BuildQdrantService cr) as [svc|] eqn:E2.
  1: left. 2-4: by right; unfold slots; cbn [fmap list_fmap act_key]; unfold NamesFor; cbn [rn_RAG]; rewrite !slot_child.
  assert (b_Name ss = cr_Name cr +:+ "-rag") as Hss.
  { revert E1. unfold BuildQdrantStatefulSet, mbind, option_bind. repeat (case_match; try discriminate); by intros [= <-]. }
  assert (b_Name svc = cr_Name cr +:+ "-rag") as Hsvc.
  { revert E2. unfold BuildQdrantService. case_match; [discriminate|]. by intros [= <-]. }
  unfold plan_ensure, slots. cbn [app fmap list_fmap act_key]; unfold built_key. rewrite Hss, Hsvc. by rewrite !slot_child.
Qed.
Lemma slots_pair cr suffix (role : option (Built (list PolicyRule))) (binding : option (Built BindingSpec)) :
  (∀ x, role = Some x → b_Name x = cr_Name cr +:+ suffix) → (∀ x, binding = Some x → b_Name x = cr_Name cr +:+ suffix) →
  slots cr (plan_pair cr role binding) = [] ∨ slots cr (plan_pair cr role binding) = [(KRole, suffix); (KRoleBinding, suffix)].
Proof.
  intros Hr Hb. unfold plan_pair. destruct role as [r|], binding as [b|]; [right|by left..].
  unfold slots. cbn [fmap list_fmap act_key]; unfold built_key. rewrite (Hr r), (Hb b) by done. by rewrite !slot_child.
Qed.
Ltac pair_name := intros x; unfold BuildApprovalSigningReaderRole, BuildApprovalSigningReaderRoleBinding, BuildApprovalEventsRole,
  BuildApprovalEventsRoleBinding, BuildApprovalStoresRole, BuildApprovalStoresRoleBinding, BuildApprovalSilenceWriterRole,
  BuildApprovalSilenceWriterRoleBinding, approval_role, approval_binding, ApprovalServerName;
  repeat (case_match; try discriminate); intros [= <-]; cbn [b_Name]; by rewrite sapp_assoc.
Lemma slots_approval_on cr n sa svc dep :
  BuildApprovalServerServiceAccount cr = Some sa → BuildApprovalServerService cr = Some svc →
  BuildApprovalServerDeployment cr = Some dep → ∃ p1 p2 p3 p4,
    slots cr (plan_approval cr n) = [(KSecret, ""); (KServiceAccount, "-approval-server"); (KClusterRole, "srenix-operator-a");
      (KClusterRoleBinding, "srenix-operator-a")] ++ p1 ++ p2 ++ p3 ++ p4 ++
      [(KService, "-approval-server"); (KDeployment, "-approval-server"); (KNetworkPolicy, "-approval-server");
       (KIngress, "-approval-server")] ∧
    Forall2 (λ p sfx, p = [] ∨ p = [(KRole, sfx); (KRoleBinding, sfx)]) [p1; p2; p3; p4]
      ["-approval-server-signing-reader"; "-approval-server-events"; "-approval-server-stores"; "-approval-server-silence-writer"].
Proof.
  intros Esa Esvc Edep.
  eexists (slots cr (plan_pair cr (BuildApprovalSigningReaderRole cr) (BuildApprovalSigningReaderRoleBinding cr))),
    (slots cr (plan_pair cr (BuildApprovalEventsRole cr) (BuildApprovalEventsRoleBinding cr))),
    (slots cr (plan_pair cr (BuildApprovalStoresRole cr) (BuildApprovalStoresRoleBinding cr))),
    (slots cr (plan_pair cr (BuildApprovalSilenceWriterRole cr) (BuildApprovalSilenceWriterRoleBinding cr))).
  split; [|repeat apply List.Forall2_cons; [apply slots_pair; pair_name..|apply List.Forall2_nil]].
  unfold plan_approval. rewrite Esa, Esvc, Edep. rewrite !slots_app.
  assert (Hnet : ∀ x, BuildApprovalServerNetworkPolicy cr = Some x → b_Name x = cr_Name cr +:+ "-approval-server").
  { unfold BuildApprovalServerNetworkPolicy. built_name. }
  unfold ApprovalServerName at 1. rewrite (slots_optional cr KNetworkPolicy "-approval-server") by done.
  assert (Hing : slots cr match BuildApprovalServerIngress cr with
      | Some (annotations, i) => plan_ensure cr KIngress i (IngressBody annotations (b_Spec i))
      | None => [Remove (KIngress, cr_Namespace cr, ApprovalServerName cr)]
      end = [(KIngress, "-approval-server")]).
  { unfold BuildApprovalServerIngress, mbind, option_bind. unfold slots, plan_ensure.
    repeat case_match; try discriminate; simplify_eq; cbn [fmap list_fmap act_key]; unfold built_key; cbn [b_Name b_Namespace];
      unfold ApprovalServerName; by rewrite slot_child. }
  rewrite Hing.
  revert Esa Esvc Edep. unfold BuildApprovalServerServiceAccount, BuildApprovalServerService, BuildApprovalServerDeployment.
  destruct (negb (ApprovalEnabled cr)); [intros Hx; discriminate Hx|]. intros [= <-] [= <-] [= <-]. unfold plan_ensure, plan_shared.
  unfold slots at 1 2 3 4 9 10. cbn [fmap list_fmap act_key]; unfold built_key; cbn [b_Name b_Namespace]. unfold ApprovalServerName.
  rewrite !slot_child by done. reflexivity.
Qed.
Lemma slots_teardown cr : slots cr (Remove <$> approval_teardown cr) =
  [(KIngress, "-approval-server"); (KNetworkPolicy, "-approval-server"); (KDeployment, "-approval-server");
   (KService, "-approval-server"); (KServiceAccount, "-approval-server");
   (KRole, "-approval-server-signing-reader"); (KRoleBinding, "-approval-server-signing-reader");
   (KRole, "-approval-server-events"); (KRoleBinding, "-approval-server-events");
   (KRole, "-approval-server-stores"); (KRoleBinding, "-approval-server-stores");
   (KClusterRoleBinding, "srenix-operator-a")].
Proof.
  unfold slots, approval_teardown, ApprovalServerName. cbn [fmap list_fmap act_key]. rewrite !sapp_assoc.
  by rewrite !slot_child.
Qed.
Lemma NoDup_decided `{EqDecision A} (l : list A) : bool_decide (NoDup l) = true → NoDup l.
Proof. apply bool_decide_eq_true_1. Qed.
(** The plan without the approval server. *)
Definition plan_core cr : list Act :=
  plan_service_account cr ++ plan_rbac cr ++
  plan_workload cr (rn_Watcher (NamesFor cr)) (WebhookServiceNameFor cr) (BuildWatcherDeployment cr) (BuildWatcherWebhookService cr) ++
  plan_optional cr KCronJob (rn_Diagnose (NamesFor cr)) (BuildDiagnoseCronJob cr) CronJobBody ++
  plan_optional cr KCronJob (rn_Remediate (NamesFor cr)) (BuildRemediateCronJob cr) CronJobBody ++
  plan_workload cr (rn_AIWatch (NamesFor cr)) (rn_AIWatch (NamesFor cr) +:+ "-metrics") (BuildAIWatchDeployment cr)
    (BuildAIWatchMetricsService cr) ++
  plan_qdrant cr.
Lemma plan_split cr n : plan cr n = plan_core cr ++ plan_approval cr n.
Proof. unfold plan, plan_core. by rewrite <-!app_assoc. Qed.
Definition core_slots : list (Kind * string) :=
  [(KServiceAccount, "-sa"); (KClusterRole, "srenix-operator-w"); (KClusterRoleBinding, "srenix-operator-w");
   (KDeployment, "-watcher"); (KService, "-webhook"); (KCronJob, "-diagnose"); (KCronJob, "-remediate");
   (KDeployment, "-aiwatch"); (KService, "-aiwatch-metrics"); (KService, "-rag"); (KStatefulSet, "-rag")].
Lemma slots_core cr : slots cr (plan_core cr) = core_slots ∨ slots cr (plan_core cr) = tail core_slots ∨
  slots cr (plan_core cr) = take 9 core_slots ++ reverse (drop 9 core_slots) ∨
  slots cr (plan_core cr) = tail (take 9 core_slots) ++ reverse (drop 9 core_slots).
Proof.
  unfold plan_core, NamesFor, WebhookServiceNameFor. cbn [rn_Watcher rn_Diagnose rn_Remediate rn_AIWatch].
  rewrite !slots_app, !sapp_assoc. rewrite slots_workload by (apply watcher_name || apply webhook_name).
  change ("-aiwatch" +:+ "-metrics") with "-aiwatch-metrics".
  rewrite slots_workload by (apply aiwatch_name || apply metrics_name).
  rewrite !slots_optional by (done || apply diagnose_name || apply remediate_name).
  assert (HSA : slots cr (plan_service_account cr) = [] ∨ slots cr (plan_service_account cr) = [(KServiceAccount, "-sa")]).
  { unfold plan_service_account. destruct (negb _) eqn:Es; [by left|right]. unfold slots, plan_ensure.
    cbn [fmap list_fmap act_key]. unfold built_key, BuildServiceAccount. rewrite Es. cbn [b_Namespace b_Name].
    unfold NamesFor. cbn [rn_ServiceAccount]. by rewrite slot_child. }
  assert (HRB : slots cr (plan_rbac cr) = [(KClusterRole, "srenix-operator-w"); (KClusterRoleBinding, "srenix-operator-w")]) by reflexivity.
  rewrite HRB. destruct HSA as [->| ->], (slots_qdrant cr) as [->| ->];
    [right; left|right; right; right|left|right; right; left]; reflexivity.
Qed.
Lemma core_slot cr a : a ∈ plan_core cr → slot cr (act_key a) ∈ core_slots.
Proof.
  intros Ha. assert (Hs : slot cr (act_key a) ∈ slots cr (plan_core cr)).
  { unfold slots. by apply (list_elem_of_fmap_2 (λ a, slot cr (act_key a))). }
  revert Hs. generalize (slot cr (act_key a)). intros x.
  destruct (slots_core cr) as [->|[->|[->| ->]]]; [done|..]; revert x; apply list.Forall_forall;
    eapply bool_decide_eq_true_1; vm_compute; reflexivity.
Qed.
Lemma plan_NoDup cr n : NoDup (act_key <$> plan cr n).
Proof.
  apply (NoDup_fmap_1 (slot cr)). rewrite <-list_fmap_compose. change (NoDup (slots cr (plan cr n))).
  rewrite plan_split, slots_app. pose proof (slots_core cr) as HC.
  destruct (BuildApprovalServerServiceAccount cr) as [sa|] eqn:Esa, (BuildApprovalServerService cr) as [svc|] eqn:Esvc,
    (BuildApprovalServerDeployment cr) as [dep|] eqn:Edep.
  2-8: unfold plan_approval; rewrite ?Esa, ?Esvc, ?Edep, slots_teardown; destruct HC as [->|[->|[->| ->]]];
    apply NoDup_decided; vm_compute; reflexivity.
  destruct (slots_approval_on cr n _ _ _ Esa Esvc Edep) as (p1 & p2 & p3 & p4 & -> & HF).
  apply Forall2_cons_iff in HF as [H1' HF]. apply Forall2_cons_iff in HF as [H2' HF].
  apply Forall2_cons_iff in HF as [H3' HF]. apply Forall2_cons_iff in HF as [H4' _].
  destruct HC as [->|[->|[->| ->]]], H1' as [->| ->], H2' as [->| ->], H3' as [->| ->], H4' as [->| ->];
    apply NoDup_decided; vm_compute; reflexivity.
Qed.

Lemma plan_of_spec cr cr' n : cr_Name cr' = cr_Name cr → cr_Namespace cr' = cr_Namespace cr → cr_Spec cr' = cr_Spec cr →
  plan cr' n = plan cr n ∧ invalid_spec cr' = invalid_spec cr.
Proof. destruct cr, cr'. cbn. by intros -> -> ->. Qed.
Lemma signing_secret_mutate cr n n' o : mutate (signing_secret cr n') o = mutate (signing_secret cr n) o.
Proof. unfold mutate, signing_secret. cbn [o_Labels o_Owner o_Body]. f_equal. by do 2 destruct (GenerateSigningKeySecret _ _). Qed.

Lemma acts_settled (l : list Act) (m : gmap Key Obj) : NoDup (act_key <$> l) →
  (∀ a, a ∈ l → result a (m !! act_key a) = m !! act_key a) → acts l m = m.
Proof.
  intros Hnd Hs. apply map_eq. intros k. destruct (decide (k ∈ act_key <$> l)) as [Hk|Hk]; [|by apply acts_other].
  apply list_elem_of_fmap in Hk as (a & -> & Ha). rewrite acts_lookup by done. by apply Hs.
Qed.
(** Another key pair changes one act only. *)
Lemma plan_keys_drawn cr n n' a : a ∈ plan cr n' → a ∈ plan cr n ∨
  a = Ensure (signing_key_key cr) (signing_secret cr n') ∧ Ensure (signing_key_key cr) (signing_secret cr n) ∈ plan cr n.
Proof.
  unfold plan. rewrite !elem_of_app. unfold plan_approval.
  destruct (BuildApprovalServerServiceAccount cr), (BuildApprovalServerService cr), (BuildApprovalServerDeployment cr); try tauto.
  rewrite !elem_of_app, !list_elem_of_singleton. tauto.
Qed.
Lemma plan_settled cr n n' m a : a ∈ plan cr n' →
  result a (acts (plan cr n) m !! act_key a) = acts (plan cr n) m !! act_key a.
Proof.
  intros [Ha|[-> Ha]]%(plan_keys_drawn cr n); pose proof (acts_lookup _ m _ (plan_NoDup cr n) Ha) as HL.
  - rewrite HL. apply result_idem.
  - cbn [act_key] in *. rewrite HL. cbn [result from_option]. rewrite (signing_secret_mutate cr n n').
    destruct (m !! signing_key_key cr); cbn [from_option]; [by rewrite mutate_idem|by rewrite mutate_same].
Qed.

(** C5: once a reconcile has returned no error, the children are as the spec
    wants them: what the plan ensures is there and agrees with what was
    built in everything the operator manages, what it removes is gone, and
    every other object is untouched; and a second reconcile, whenever it
    comes and whatever the status and finalizers have become, changes
    nothing. *)
Theorem reconcile_converges req cr n now s :
  crs s !! req = Some cr → cr_Deleting cr = false → cr_Name cr ≠ "" → invalid_spec cr = None →
  let '(s', e) := Reconcile req n now s in
  e = None →
  (∀ k d, Ensure k d ∈ plan cr n → ∃ o, objs s' !! k = Some o ∧ mutate d o = o ∧ o_Labels d ⊆ o_Labels o) ∧
  (∀ k, Remove k ∈ plan cr n → objs s' !! k = None) ∧
  (∀ k, k ∉ act_key <$> plan cr n → objs s' !! k = objs s !! k) ∧
  (∀ t cr' n' now', objs t = objs s' → crs t !! req = Some cr' → cr_Deleting cr' = false →
     cr_Name cr' = cr_Name cr → cr_Namespace cr' = cr_Namespace cr → cr_Spec cr' = cr_Spec cr →
     let '(t', e') := Reconcile req n' now' t in e' = None → objs t' = objs t).
Proof using All.
  intros Hcr Hd Hname Hv. pose proof (reconcile_plan_holds req cr n now s Hcr Hd Hname) as HP.
  destruct (Reconcile req n now s) as [s' e]. destruct HP as (_ & HP & _). intros He. specialize (HP He Hv).
  pose proof (plan_NoDup cr n) as Hnd. split_and!.
  - intros k d Hin. rewrite HP. pose proof (acts_lookup _ (objs s) _ Hnd Hin) as HL. cbn [act_key result] in HL. rewrite HL.
    eexists. split; [done|]. destruct (objs s !! k) as [o|]; cbn [from_option];
      [rewrite mutate_idem|rewrite mutate_same]; split; try done.
    unfold mutate, mergeLabels. cbn [o_Labels]. apply map_union_subseteq_l.
  - intros k Hin. rewrite HP. exact (acts_lookup _ (objs s) _ Hnd Hin).
  - intros k Hk. rewrite HP. by apply acts_other.
  - intros t cr' n' now' Ho Hcr' Hd' H1' H2' H3'. destruct (plan_of_spec cr cr' n' H1' H2' H3') as [Hpl Hin].
    assert (Hname' : cr_Name cr' ≠ "") by congruence.
    pose proof (reconcile_plan_holds req cr' n' now' t Hcr' Hd' Hname') as HP'.
    destruct (Reconcile req n' now' t) as [t' e']. destruct HP' as (_ & HP' & _). intros He'.
    rewrite (HP' He') by congruence. rewrite Hpl, Ho, HP. apply acts_settled; [apply plan_NoDup|]. intros a Ha. by apply (plan_settled cr n n').
Qed.
End refinement.
