(* ===== verification/OperatorStatus.v ===== *)
(** * Conditions and shortcomings of the operator

    What the status says of the cluster; what a reconcile leaves behind when
    approvals are switched off; and two resources whose bindings share a
    name.  A concrete API server, all of whose calls succeed, for the
    examples. *)

From stdpp Require Import options.
From S2P Require Import Prelude GoString GoTime GoNum Sha256 Protected Api Builders Rbac Reconciler Operator.
Local Open Scope Z_scope.

(** ** Conditions *)

Definition condition_of (st : AgenticSREStatus) (t : string) : option Condition := List.find (λ c, cd_Type c =s? t) (Conditions st).
Definition condition_is_true (cr : AgenticSRE) (t : string) : Prop := cd_Status <$> condition_of (cr_CRStatus cr) t = Some ConditionTrue.

Lemma set_condition_find t t' status reason msg gen now cs :
  List.find (λ c, cd_Type c =s? t') (set_condition t status reason msg gen now cs) =
    if t =s? t' then
      Some (mkCondition t status reason msg
        match List.find (λ c, cd_Type c =s? t) cs with
        | Some c => if bool_decide (cd_Status c = status) then cd_LastTransitionTime c else now
        | None => now
        end gen)
    else List.find (λ c, cd_Type c =s? t') cs.
Proof.
  induction cs as [|c cs IH]; cbn [set_condition List.find cd_Type]; [by case_bool_decide|].
  destruct (bool_decide_reflect (cd_Type c = t)) as [<-|Hne]; cbn [List.find cd_Type].
  - by case_bool_decide.
  - rewrite IH. destruct (bool_decide_reflect (cd_Type c = t')) as [<-|]; [|done].
    rewrite bool_decide_eq_false_2; [done|]. by intros ->.
Qed.
Lemma set_condition_types t status reason msg gen now cs :
  cd_Type <$> set_condition t status reason msg gen now cs =
    (cd_Type <$> cs) ++ (if bool_decide (t ∈ cd_Type <$> cs) then [] else [t]).
Proof.
  induction cs as [|c cs IH]; [done|]. cbn [set_condition fmap list_fmap].
  destruct (bool_decide_reflect (cd_Type c = t)) as [<-|Hne]; cbn [fmap list_fmap cd_Type].
  - rewrite bool_decide_eq_true_2 by left. by rewrite app_nil_r.
  - change (cd_Type <$> set_condition t status reason msg gen now cs) with
      (list_fmap _ _ cd_Type (set_condition t status reason msg gen now cs)) in IH. cbn. f_equal.
    etrans; [exact IH|]. f_equal. do 2 case_bool_decide; try done; exfalso; set_solver.
Qed.

Lemma condition_of_set st t t' status reason msg gen now :
  condition_of (setCondition st t status reason msg gen now) t' =
    if t =s? t' then
      Some (mkCondition t status reason msg
        match condition_of st t with
        | Some c => if bool_decide (cd_Status c = status) then cd_LastTransitionTime c else now
        | None => now
        end gen)
    else condition_of st t'.
Proof. apply set_condition_find. Qed.

Lemma set_unique st t status reason msg gen now :
  NoDup (cd_Type <$> Conditions st) → NoDup (cd_Type <$> Conditions (setCondition st t status reason msg gen now)).
Proof.
  cbn [setCondition Conditions]. rewrite set_condition_types. case_bool_decide as Hin; [by rewrite app_nil_r|].
  intros Hnd. apply NoDup_app. split_and!; [done| |apply NoDup_singleton]. intros x Hx Hx'. set_solver.
Qed.

(** ** What a verdict of True says *)

Section status.
Context {S : Type} `{!Client S} `{!ClientLaws S} `{!QuantityParser} `{!KeyGen}.
Implicit Types (cr : AgenticSRE) (s : S).

Definition available (m : gmap Key Obj) (k : Key) : Prop :=
  ∃ o d n, m !! k = Some o ∧ o_Body o = DeploymentBody d n ∧ 0 < n.
Definition set_ready (m : gmap Key Obj) (k : Key) : Prop :=
  ∃ o d n, m !! k = Some o ∧ o_Body o = StatefulSetBody d n ∧ 0 < n.
Definition watcher_running cr (m : gmap Key Obj) : Prop :=
  from_option ws_Enabled false (Watcher (cr_Spec cr)) = true ∧
  available m (KDeployment, cr_Namespace cr, rn_Watcher (NamesFor cr)).
Definition rbac_ready cr (m : gmap Key Obj) : Prop :=
  is_Some (m !! ((KClusterRole, "", ReaderClusterRoleName) : Key)) ∧
  ∃ b, m !! ((KClusterRoleBinding, "", ReaderClusterRoleBindingName cr) : Key) = Some b ∧
    bindingTargetsSA (binding_of b) (ServiceAccountNameFor cr) (cr_Namespace cr) = true.
Definition aiwatch_running cr (m : gmap Key Obj) : Prop :=
  AIEnabled cr = true ∧ available m (KDeployment, cr_Namespace cr, rn_AIWatch (NamesFor cr)).
Definition memory_ready cr (m : gmap Key Obj) : Prop :=
  MemoryEnabled cr = true ∧ is_Some (m !! ((KService, cr_Namespace cr, rn_RAG (NamesFor cr)) : Key)) ∧
  set_ready m (KStatefulSet, cr_Namespace cr, rn_RAG (NamesFor cr)).
Definition approval_ready cr (m : gmap Key Obj) : Prop :=
  ApprovalEnabled cr = true ∧
  (∃ sec, m !! ((KSecret, cr_Namespace cr, ApprovalSigningKeySecretName cr) : Key) = Some sec ∧ has_both_keys sec = true) ∧
  is_Some (m !! ((KService, cr_Namespace cr, ApprovalServerName cr) : Key)) ∧
  available m (KDeployment, cr_Namespace cr, ApprovalServerName cr).

(** A call of [Get]: the state it leaves and what its answer says. *)
Ltac calls_get k s m :=
  let H := fresh in pose proof (Get_law k s) as H;
  destruct (Get k s) as [? [[?|?|?]|?]] eqn:?; destruct H as (? & ? & H);
  try (replace (objs s) with m in H by congruence).

Definition true_means (P : gmap Key Obj → Prop) (f : S → S * Verdict) : Prop :=
  ∀ s, is_true (f s).2 = true → P (objs s).
Lemma deployment_true k what : true_means (λ m, available m k) (deployment_verdict k what).
Proof using All.
  intros s. unfold deployment_verdict. calls_get k s (objs s); try done.
  destruct (o_Body o) eqn:E; try done. destruct (Z.ltb_spec 0 availableReplicas); [|done]. intros _. by eexists _, _, _.
Qed.
Lemma watcher_true cr : true_means (watcher_running cr) (watcher_verdict cr).
Proof using All.
  intros s. unfold watcher_verdict, watcher_running. destruct (from_option ws_Enabled false _); [|done].
  intros Ht. split; [done|]. exact (deployment_true _ _ s Ht).
Qed.
Lemma ai_true cr : true_means (aiwatch_running cr) (ai_verdict cr).
Proof using All.
  intros s. unfold ai_verdict, aiwatch_running. destruct (AIEnabled cr); [|done].
  intros Ht. split; [done|]. exact (deployment_true _ _ s Ht).
Qed.
Lemma rbac_true cr : true_means (rbac_ready cr) (rbac_verdict cr).
Proof using All.
  intros s. unfold rbac_verdict. calls_get ((KClusterRole, "", ReaderClusterRoleName) : Key) s (objs s);
    calls_get ((KClusterRoleBinding, "", ReaderClusterRoleBindingName cr) : Key) s0 (objs s); try done.
  cbn [snd]. destruct (bindingTargetsSA _ _ _) eqn:E; [|done]. intros _. split; [by eexists|]. by eexists.
Qed.
Lemma memory_true cr : true_means (memory_ready cr) (memory_verdict cr).
Proof using All.
  intros s. unfold memory_verdict, memory_ready. destruct (MemoryEnabled cr); [|done]. cbn [negb].
  calls_get ((KService, cr_Namespace cr, rn_RAG (NamesFor cr)) : Key) s (objs s);
    calls_get ((KStatefulSet, cr_Namespace cr, rn_RAG (NamesFor cr)) : Key) s0 (objs s); try done.
  cbn [snd]. destruct (o_Body _) eqn:E; try done. destruct (Z.ltb_spec 0 readyReplicas); [|done].
  intros _. split_and!; [done|by eexists|by eexists _, _, _].
Qed.
Lemma approval_true cr : true_means (approval_ready cr) (approval_verdict cr).
Proof using All.
  intros s. unfold approval_verdict, approval_ready. destruct (ApprovalEnabled cr); [|done]. cbn [negb].
  calls_get ((KSecret, cr_Namespace cr, ApprovalSigningKeySecretName cr) : Key) s (objs s);
    calls_get ((KService, cr_Namespace cr, ApprovalServerName cr) : Key) s0 (objs s);
    calls_get ((KDeployment, cr_Namespace cr, ApprovalServerName cr) : Key) s1 (objs s); try done;
    cbn [snd]; destruct (has_both_keys _) eqn:Ek; try done.
  destruct (o_Body _) eqn:E; try done. cbn [negb]. destruct (Z.ltb_spec 0 availableReplicas); [|done].
  intros _. split_and!; [done|by eexists|by eexists|by eexists _, _, _].
Qed.

(** The status after the five verdicts and the one on [Ready]. *)
Definition six cr (now : Time) (w rb ai me ap : Verdict) (firstErr : option string) : AgenticSREStatus :=
  set_verdict cr now ConditionReady (ready_verdict cr firstErr rb ai me ap)
    (set_verdict cr now ConditionApprovalServerReady ap
      (set_verdict cr now ConditionMemoryStoreReady me
        (set_verdict cr now ConditionAIWatchRunning ai
          (set_verdict cr now ConditionReaderRBACReady rb
            (set_verdict cr now ConditionWatcherRunning w (cr_CRStatus cr)))))).
Definition verdict_on cr (w rb ai me ap : Verdict) (firstErr : option string) (t : string) : option Verdict :=
  if ConditionReady =s? t then Some (ready_verdict cr firstErr rb ai me ap)
  else if ConditionApprovalServerReady =s? t then Some ap
  else if ConditionMemoryStoreReady =s? t then Some me
  else if ConditionAIWatchRunning =s? t then Some ai
  else if ConditionReaderRBACReady =s? t then Some rb
  else if ConditionWatcherRunning =s? t then Some w else None.
Lemma six_of cr now w rb ai me ap firstErr t :
  condition_of (six cr now w rb ai me ap firstErr) t =
    match verdict_on cr w rb ai me ap firstErr t with
    | Some v => Some (mkCondition t v.1.1 v.1.2 v.2
        match condition_of (cr_CRStatus cr) t with
        | Some c => if bool_decide (cd_Status c = v.1.1) then cd_LastTransitionTime c else now
        | None => now
        end (cr_Generation cr))
    | None => condition_of (cr_CRStatus cr) t
    end.
Proof.
  unfold six, verdict_on, set_verdict. rewrite !condition_of_set.
  do 6 (match goal with |- context [bool_decide (?x = t)] => destruct (bool_decide_reflect (x = t)) as [<-|] end; [reflexivity|]).
  reflexivity.
Qed.
Lemma six_status cr now w rb ai me ap firstErr t : 
  cd_Status <$> condition_of (six cr now w rb ai me ap firstErr) t =
    match verdict_on cr w rb ai me ap firstErr t with
    | Some v => Some v.1.1
    | None => cd_Status <$> condition_of (cr_CRStatus cr) t
    end.
Proof. rewrite six_of. by destruct (verdict_on cr w rb ai me ap firstErr t). Qed.
Lemma six_unique cr now w rb ai me ap firstErr : NoDup (cd_Type <$> Conditions (cr_CRStatus cr)) →
  NoDup (cd_Type <$> Conditions (six cr now w rb ai me ap firstErr)).
Proof. intros Hnd. unfold six, set_verdict. by repeat apply set_unique. Qed.

Lemma computeConditions_six cr firstErr now s : ∃ w rb ai me ap,
  let '(s', cr') := computeConditions cr firstErr now s in
  objs s' = objs s ∧
  cr' = with_status (mkStatus (cr_Generation cr) (Conditions (six cr now w rb ai me ap firstErr))) cr ∧
  (is_true w = true → watcher_running cr (objs s)) ∧ (is_true rb = true → rbac_ready cr (objs s)) ∧
  (is_true ai = true → aiwatch_running cr (objs s)) ∧ (is_true me = true → memory_ready cr (objs s)) ∧
  (is_true ap = true → approval_ready cr (objs s)).
Proof using All.
  unfold computeConditions.
  pose proof (reads_watcher cr s) as [HR1 _]. pose proof (watcher_true cr s) as T1.
  destruct (watcher_verdict cr s) as [s1 w]. cbn [fst snd] in *.
  pose proof (reads_rbac cr s1) as [HR2 _]. pose proof (rbac_true cr s1) as T2.
  destruct (rbac_verdict cr s1) as [s2 rb]. cbn [fst snd] in *.
  pose proof (reads_ai cr s2) as [HR3 _]. pose proof (ai_true cr s2) as T3.
  destruct (ai_verdict cr s2) as [s3 ai]. cbn [fst snd] in *.
  pose proof (reads_memory cr s3) as [HR4 _]. pose proof (memory_true cr s3) as T4.
  destruct (memory_verdict cr s3) as [s4 me]. cbn [fst snd] in *.
  pose proof (reads_approval cr s4) as [HR5 _]. pose proof (approval_true cr s4) as T5.
  destruct (approval_verdict cr s4) as [s5 ap]. cbn [fst snd] in *.
  rewrite HR4, HR3, HR2, HR1 in T5. rewrite HR3, HR2, HR1 in T4. rewrite HR2, HR1 in T3. rewrite HR1 in T2.
  exists w, rb, ai, me, ap. split_and!; [congruence|done..].
Qed.

Lemma verdict_true (v : Verdict) : Some v.1.1 = Some ConditionTrue ↔ is_true v = true.
Proof. unfold is_true. rewrite bool_decide_eq_true. split; [by intros [=]|by intros ->]. Qed.
Lemma ready_true cr firstErr rb ai me ap : is_true (ready_verdict cr firstErr rb ai me ap) = true ↔
  firstErr = None ∧ is_true rb = true ∧ (AIEnabled cr = true → is_true ai = true) ∧
  (MemoryEnabled cr = true → is_true me = true) ∧ (ApprovalEnabled cr = true → is_true ap = true).
Proof.
  assert (Hb : is_true (ready_verdict cr firstErr rb ai me ap) =
    match firstErr with None => true | Some _ => false end && is_true rb && implb (AIEnabled cr) (is_true ai) &&
    implb (MemoryEnabled cr) (is_true me) && implb (ApprovalEnabled cr) (is_true ap)).
  { unfold ready_verdict. destruct firstErr; [reflexivity|].
    destruct (is_true rb); [|reflexivity]. destruct (AIEnabled cr), (is_true ai); try reflexivity;
    destruct (MemoryEnabled cr), (is_true me); try reflexivity;
    destruct (ApprovalEnabled cr), (is_true ap); reflexivity. }
  rewrite Hb, !andb_true_iff, !implb_true_iff. assert (Hf : match firstErr with None => true | Some _ => false end = true ↔ firstErr = None).
  { by destruct firstErr. }
  rewrite Hf. tauto.
Qed.

(** C23: the status tells the truth.  Each condition that is reported True
    holds of the cluster: the binding gives the watcher's service account
    its role, a Deployment has a replica available, the signing secret holds
    both halves.  [Ready] is True exactly when no step failed and every
    condition of a part that is switched on is True; the watcher's is not
    among them.  A condition's transition time moves only when its status
    does, no type appears twice, and other conditions are left alone. *)
Theorem conditions_correct cr firstErr now s :
  NoDup (cd_Type <$> Conditions (cr_CRStatus cr)) →
  let '(s', cr') := computeConditions cr firstErr now s in
  objs s' = objs s ∧
  (condition_is_true cr' ConditionReady ↔
     firstErr = None ∧ condition_is_true cr' ConditionReaderRBACReady ∧
     (AIEnabled cr = true → condition_is_true cr' ConditionAIWatchRunning) ∧
     (MemoryEnabled cr = true → condition_is_true cr' ConditionMemoryStoreReady) ∧
     (ApprovalEnabled cr = true → condition_is_true cr' ConditionApprovalServerReady)) ∧
  (condition_is_true cr' ConditionWatcherRunning → watcher_running cr (objs s)) ∧
  (condition_is_true cr' ConditionReaderRBACReady → rbac_ready cr (objs s)) ∧
  (condition_is_true cr' ConditionAIWatchRunning → aiwatch_running cr (objs s)) ∧
  (condition_is_true cr' ConditionMemoryStoreReady → memory_ready cr (objs s)) ∧
  (condition_is_true cr' ConditionApprovalServerReady → approval_ready cr (objs s)) ∧
  (∀ t c c', condition_of (cr_CRStatus cr) t = Some c → condition_of (cr_CRStatus cr') t = Some c' →
     cd_Status c' = cd_Status c → cd_LastTransitionTime c' = cd_LastTransitionTime c) ∧
  NoDup (cd_Type <$> Conditions (cr_CRStatus cr')) ∧
  (∀ t, t ∉ [ConditionReady; ConditionWatcherRunning; ConditionReaderRBACReady; ConditionAIWatchRunning;
             ConditionMemoryStoreReady; ConditionApprovalServerReady] →
     condition_of (cr_CRStatus cr') t = condition_of (cr_CRStatus cr) t).
Proof using All.
  intros Hnd. destruct (computeConditions_six cr firstErr now s) as (w & rb & ai & me & ap & HS).
  destruct (computeConditions cr firstErr now s) as [s' cr']. destruct HS as (Ho & -> & Hw & Hrb & Hai & Hme & Hap).
  set (st := cr_CRStatus (with_status _ cr)).
  assert (Hst : ∀ t, condition_of st t = condition_of (six cr now w rb ai me ap firstErr) t) by done.
  assert (HT : ∀ t v, verdict_on cr w rb ai me ap firstErr t = Some v →
    (cd_Status <$> condition_of st t = Some ConditionTrue ↔ is_true v = true)).
  { intros t v Hv. rewrite Hst, six_status, Hv. apply verdict_true. }
  unfold condition_is_true. fold st.
  rewrite (HT ConditionReady _ eq_refl), (HT ConditionReaderRBACReady _ eq_refl), (HT ConditionAIWatchRunning _ eq_refl),
    (HT ConditionMemoryStoreReady _ eq_refl), (HT ConditionApprovalServerReady _ eq_refl),
    (HT ConditionWatcherRunning _ eq_refl).
  split_and!; [done|apply ready_true|done..| |by apply six_unique|].
  - intros t c c' Hc. rewrite Hst, six_of, Hc. destruct (verdict_on _ _ _ _ _ _ _ t); [|congruence].
    intros [= <-]. cbn. intros ->. by rewrite bool_decide_eq_true_2.
  - intros t Ht. rewrite Hst, six_of. unfold verdict_on.
    do 6 (rewrite bool_decide_eq_false_2 by (intros <-; apply Ht; set_solver)). done.
Qed.

(** ** What a reconcile leaves behind *)

(** A role that is neither the core's nor torn down with the approval server. *)
Lemma not_planned cr n (k : Key) : ApprovalEnabled cr = false →
  key_kind k = KRole ∨ key_kind k = KRoleBinding → k ∉ approval_teardown cr → k ∉ act_key <$> plan cr n.
Proof.
  intros Hoff Hk Ht. rewrite plan_split, fmap_app. intros [Hin|Hin]%elem_of_app.
  - apply list_elem_of_fmap in Hin as (a & -> & Ha%core_slot).
    assert (HS : (slot cr (act_key a)).1 = key_kind (act_key a)) by (unfold slot; by destruct (key_kind (act_key a))).
    assert (HF : Forall (λ x, x.1 ≠ KRole ∧ x.1 ≠ KRoleBinding) core_slots) by (eapply bool_decide_eq_true_1; by vm_compute).
    eapply list.Forall_forall in HF; [|exact Ha]. rewrite HS in HF. tauto.
  - unfold plan_approval, BuildApprovalServerServiceAccount in Hin. rewrite Hoff in Hin. cbn [negb] in Hin.
    rewrite <-list_fmap_compose in Hin. apply list_elem_of_fmap in Hin as (k' & -> & Hin). done.
Qed.

(** Switching approvals off tears the approval server down, but not all
    of it: the role that lets its service account write silences and its
    binding stay in the resource's namespace, and so do, in another
    namespace, the role on the store's config maps and its binding. *)
Theorem approval_leftovers req cr n now s :
  crs s !! req = Some cr → cr_Deleting cr = false → cr_Name cr ≠ "" → invalid_spec cr = None → ApprovalEnabled cr = false →
  let '(s', e) := Reconcile req n now s in
  e = None →
  (∀ k, k ∈ approval_teardown cr → objs s' !! k = None) ∧
  (∀ kind, kind = KRole ∨ kind = KRoleBinding →
    (let k : Key := (kind, cr_Namespace cr, ApprovalServerName cr +:+ "-silence-writer") in objs s' !! k = objs s !! k) ∧
    (∀ ns, ns ≠ cr_Namespace cr →
       let k : Key := (kind, ns, ApprovalServerName cr +:+ "-stores") in objs s' !! k = objs s !! k)).
Proof using All.
  intros Hcr Hd Hname Hv Hoff. pose proof (reconcile_plan_holds req cr n now s Hcr Hd Hname) as HP.
  destruct (Reconcile req n now s) as [s' e]. destruct HP as (_ & HP & _). intros He. rewrite (HP He Hv). split.
  - intros k Hk. apply (acts_lookup _ _ (Remove k) (plan_NoDup cr n)). rewrite plan_split, elem_of_app. right.
    unfold plan_approval, BuildApprovalServerServiceAccount. rewrite Hoff. by apply list_elem_of_fmap_2.
  - assert (Hsfx : ∀ a b, ApprovalServerName cr +:+ a = ApprovalServerName cr +:+ b → a = b).
    { intros a b. apply sapp_inj_l. }
    intros kind Hkind. split; [|intros ns Hns]; cbv zeta; apply acts_other, not_planned; try done;
      unfold approval_teardown; intros Hin; repeat (apply elem_of_cons in Hin as [Hin|Hin]); try (by apply elem_of_nil in Hin);
      destruct Hkind as [->| ->]; try discriminate Hin;
      first [by injection Hin as Hin | injection Hin as _ Hin; apply Hsfx in Hin; discriminate Hin
            | injection Hin as Hin; apply Hsfx in Hin; discriminate Hin].
Qed.

(** The name of a binding joins the namespace and the name of its
    resource by a hyphen, which both may contain: when two resources come
    to the same name, the one reconciled last has the binding, and the
    watcher of the other has lost every permission. *)
Theorem binding_collision req cr1 cr2 n now s :
  crs s !! req = Some cr2 → cr_Deleting cr2 = false → cr_Name cr2 ≠ "" → invalid_spec cr2 = None →
  ReaderClusterRoleBindingName cr1 = ReaderClusterRoleBindingName cr2 → cr_Namespace cr1 ≠ cr_Namespace cr2 →
  (∀ o, objs s !! reader_key cr1 = Some o → ∃ b, o_Body o = BindingBody b) →
  let '(s', e) := Reconcile req n now s in
  e = None → ¬ rbac_ready cr1 (objs s') ∧ rbac_ready cr2 (objs s').
Proof using All.
  intros Hcr Hd Hname Hv Hsame Hns Hbody. pose proof (reconcile_plan_holds req cr2 n now s Hcr Hd Hname) as HP.
  destruct (Reconcile req n now s) as [s' e]. destruct HP as (_ & HP & _). intros He. rewrite (HP He Hv).
  set (d := unowned (BuildReaderClusterRoleBinding cr2) (BindingBody (b_Spec (BuildReaderClusterRoleBinding cr2)))).
  assert (Hin : ∀ a, a ∈ plan_rbac cr2 → a ∈ plan cr2 n).
  { intros a Ha. unfold plan. rewrite !elem_of_app. tauto. }
  assert (HB : Ensure (reader_key cr2) d ∈ plan cr2 n) by (apply Hin; right; left).
  pose proof (acts_lookup _ (objs s) _ (plan_NoDup cr2 n) HB) as HL. cbn [act_key result] in HL.
  assert (Hbind : binding_of (from_option (mutate d) d (objs s !! reader_key cr2)) = b_Spec (BuildReaderClusterRoleBinding cr2)).
  { unfold reader_key in *. rewrite <-Hsame. destruct (objs s !! _) as [o|]; [|done].
    destruct (Hbody o eq_refl) as [b Hb]. cbn [from_option]. unfold mutate, binding_of, d, unowned. cbn [o_Body]. by rewrite Hb. }
  unfold rbac_ready. unfold reader_key in HL, Hbind. rewrite Hsame, HL. split.
  - intros (_ & b & [= <-] & Hb). rewrite Hbind in Hb. revert Hb. unfold bindingTargetsSA, BuildReaderClusterRoleBinding. cbn [existsb bi_Subjects b_Spec].
    rewrite orb_false_r, andb_true_iff. intros [_ Hb]. cbn [su_Namespace] in Hb. apply bool_decide_eq_true in Hb. by apply Hns.
  - split.
    + assert (HR : Ensure (KClusterRole, "", ReaderClusterRoleName) (unowned BuildReaderClusterRole (RulesBody readerPolicyRules))
        ∈ plan cr2 n) by (apply Hin; left).
      pose proof (acts_lookup _ (objs s) _ (plan_NoDup cr2 n) HR) as HL'. cbn [act_key result] in HL'. rewrite HL'. by eexists.
    + eexists. split; [done|]. rewrite Hbind. unfold bindingTargetsSA, BuildReaderClusterRoleBinding. cbn [existsb bi_Subjects b_Spec].
      by rewrite !bool_decide_eq_true_2.
Qed.
End status.

(** ** A concrete API server *)

Record Mem := mkMem { mem_objs : gmap Key Obj; mem_crs : gmap NN AgenticSRE }.
#[global] Instance Mem_client : Client Mem := {|
  objs := mem_objs;
  crs := mem_crs;
  Get k s := (s, match mem_objs s !! k with Some o => inr o | None => inl (NotFound "not found") end);
  Create k o s :=
    match mem_objs s !! k with
    | Some _ => (s, Some (AlreadyExists "already exists"))
    | None => (mkMem (<[k := o]> (mem_objs s)) (mem_crs s), None)
    end;
  Update k o s :=
    match mem_objs s !! k with
    | Some _ => (mkMem (<[k := o]> (mem_objs s)) (mem_crs s), None)
    | None => (s, Some (NotFound "not found"))
    end;
  Delete k s := (mkMem (delete k (mem_objs s)) (mem_crs s), None);
  GetCR k s :=
    (s, match mem_crs s !! k with
        | Some cr => if bool_decide (cr_key cr = k) then inr cr else inl (OtherErr "malformed")
        | None => inl (NotFound "not found")
        end);
  UpdateCR cr s := (mkMem (mem_objs s) (put_cr cr (mem_crs s)), None);
  UpdateStatus cr s := (mkMem (mem_objs s) (put_status cr (mem_crs s)), None);
|}.
#[global] Instance Mem_laws : ClientLaws Mem.
Proof.
  split; intros *; cbn.
  - by destruct (mem_objs s !! k).
  - by destruct (mem_objs s !! k).
  - by destruct (mem_objs s !! k).
  - split_and!; [done..|]. intros _. apply lookup_delete_eq.
  - destruct (mem_crs s !! k) as [cr|]; [|done]. by case_bool_decide.
  - done.
  - done.
Qed.
#[global] Instance demo_parser : QuantityParser.
Proof. by refine {| ParseQuantity := inr |}. Defined.
#[global] Instance demo_keygen : KeyGen := {| GenerateKey n := inr ("public " +:+ Itoa (Z.of_nat n), "private " +:+ Itoa (Z.of_nat n)) |}.

Definition demo_approval : ApprovalSpec := mkApprovalSpec true 0 None None None None None None "".
Definition demo_spec : AgenticSRESpec :=
  mkSpec (mkImageSpec "srenix" "1.0" "" []) (Some (mkWatcherSpec true 0 "" "" None)) None None None None
    (Some demo_approval) None None "" [].
Definition demo_named (ns name : string) : AgenticSRE := mkCR name ns 1 [] false demo_spec (mkStatus 0 []).
Definition demo_cr : AgenticSRE := demo_named "ops" "sre".
Definition demo_start : Mem := mkMem ∅ {[ cr_key demo_cr := demo_cr ]}.
Definition demo_end : Mem := (Reconcile ("ops", "sre") 0 0 demo_start).1.
Definition live_with (cr : AgenticSRE) (m : gmap Key Obj) : Mem := mkMem m {[ cr_key cr := cr ]}.
Definition with_spec_approval (ap : option ApprovalSpec) (cr : AgenticSRE) : AgenticSRE :=
  mkCR (cr_Name cr) (cr_Namespace cr) (cr_Generation cr) (cr_Finalizers cr) (cr_Deleting cr)
    (mkSpec (Image (cr_Spec cr)) (Watcher (cr_Spec cr)) None None None None ap None None "" []) (cr_CRStatus cr).
(** Approvals switched off after a while, and a store elsewhere before that. *)
Definition demo_off : AgenticSRE := with_spec_approval None demo_cr.
(** Two resources whose bindings have one name. *)
Definition first_cr : AgenticSRE := demo_named "a-b" "c".
Definition second_cr : AgenticSRE := demo_named "a" "b-c".
Definition first_done : Mem :=
  (Reconcile ("a-b", "c") 0 0 (mkMem ∅ (<[cr_key first_cr := first_cr]> {[ cr_key second_cr := second_cr ]}))).1.
(** Three replicas and the replay store in memory. *)
Definition demo_scaled : AgenticSRE :=
  with_spec_approval (Some (mkApprovalSpec true 3 None None None None None None "")) demo_cr.

Lemma live_named cr m : cr_Name cr ≠ "" → named (crs (live_with cr m)).
Proof. intros Hn. by apply map_Forall_singleton. Qed.
Lemma demo_off_named : cr_Name demo_off ≠ "".
Proof. discriminate. Qed.
Lemma demo_scaled_named : cr_Name demo_scaled ≠ "".
Proof. discriminate. Qed.
Lemma demo_named_crs : named (crs demo_start).
Proof. apply map_Forall_singleton. done. Qed.
Lemma demo_nothing_tied : tied (crs demo_start) (objs demo_start).
Proof. intros name o nn Hk. discriminate Hk. Qed.

Lemma demo_start_ok : (Reconcile (S := Mem) ("ops", "sre") 0 0 demo_start).2 = None.
Proof. by vm_compute. Qed.
Lemma demo_off_ok : (Reconcile (S := Mem) ("ops", "sre") 0 0 (live_with demo_off (objs demo_end))).2 = None.
Proof. by vm_compute. Qed.
Lemma second_ok : (Reconcile (S := Mem) ("a", "b-c") 0 0 first_done).2 = None.
Proof. by vm_compute. Qed.
Lemma reconcile_plan_witness :
  let '(s', e) := Reconcile ("ops", "sre") 0 0 demo_start in
  e = None ∧ objs s' = acts (plan demo_cr 0) ∅ ∧ length (plan demo_cr 0) = 25%nat.
Proof.
  pose proof (reconcile_plan (S := Mem) ("ops", "sre") demo_cr 0 0 demo_start eq_refl eq_refl ltac:(discriminate)) as H.
  pose proof demo_start_ok as Hok. set (r := Reconcile _ _ _ demo_start) in *. destruct r as [s' e]. cbn [snd] in Hok. subst e.
  destruct H as (_ & H & _). split; [reflexivity|]. split; [|by vm_compute]. exact (H eq_refl eq_refl).
Defined.
Lemma reconcile_converges_witness :
  let '(s', e) := Reconcile ("ops", "sre") 0 0 demo_start in
  e = None ∧ (∀ k, Remove k ∈ plan demo_cr 0 → objs s' !! k = None) ∧
  (∀ k d, Ensure k d ∈ plan demo_cr 0 → ∃ o, objs s' !! k = Some o ∧ mutate d o = o ∧ o_Labels d ⊆ o_Labels o).
Proof.
  pose proof (reconcile_converges (S := Mem) ("ops", "sre") demo_cr 0 0 demo_start eq_refl eq_refl ltac:(discriminate) eq_refl) as H.
  pose proof demo_start_ok as Hok. set (r := Reconcile _ _ _ demo_start) in *. destruct r as [s' e]. cbn [snd] in Hok. subst e.
  destruct (H eq_refl) as (H1 & H2 & _). exact (conj eq_refl (conj H2 H1)).
Defined.
Definition demo_later : Mem := live_with demo_off (objs demo_end).
Definition demo_wrong : Mem := live_with demo_scaled ∅.
Lemma signing_key_stable_witness :
  is_Some (objs demo_later !! signing_key_key demo_cr) ∧
  secrets_kept (objs demo_later) (objs (Reconcile ("ops", "sre") 7 1 demo_later).1).
Proof.
  split; [by eexists; vm_compute|].
  exact (signing_key_stable (S := Mem) ("ops", "sre") 7 1 demo_later (live_named demo_off _ demo_off_named)).
Defined.
Lemma replay_protection_witness :
  invalid_spec demo_scaled ≠ None ∧ all_replay_safe (objs (Reconcile ("ops", "sre") 0 0 demo_wrong).1).
Proof.
  split; [by vm_compute|].
  refine (replay_protection (S := Mem) ("ops", "sre") 0 0 demo_wrong (live_named demo_scaled _ demo_scaled_named) _).
  intros k o d n Hk. discriminate Hk.
Defined.
Lemma no_orphan_bindings_witness :
  ∃ o, objs demo_end !! reader_key demo_cr = Some o ∧ labels_cr o = Some ("ops", "sre") ∧ held (crs demo_end) ("ops", "sre").
Proof.
  eexists. split; [by vm_compute|]. split; [by vm_compute|].
  refine (proj1 (no_orphan_bindings (S := Mem) demo_start demo_end demo_named_crs demo_nothing_tied _
    (ReaderClusterRoleBindingName demo_cr) _ _ _ _)); [|by vm_compute|by vm_compute].
  apply rtc_once. apply reconcile_step.
Defined.
Lemma conditions_correct_witness :
  let '(s', cr') := computeConditions demo_off None 5 (Reconcile ("ops", "sre") 0 0 (live_with demo_off ∅)).1 in
  condition_is_true cr' ConditionReady ∧ ¬ condition_is_true cr' ConditionWatcherRunning ∧
  (condition_is_true cr' ConditionReaderRBACReady → rbac_ready demo_off (objs s')).
Proof.
  pose proof (conditions_correct (S := Mem) demo_off None 5 (Reconcile ("ops", "sre") 0 0 (live_with demo_off ∅)).1 ltac:(by apply NoDup_nil_2)) as H.
  destruct (computeConditions _ _ _ _) as [s' cr'] eqn:E.
  destruct H as (-> & _ & _ & Hr & _). split_and!; [| |exact Hr];
    apply (f_equal (λ x, cd_Status <$> condition_of (cr_CRStatus x.2) ConditionReady)) in E as E1;
    apply (f_equal (λ x, cd_Status <$> condition_of (cr_CRStatus x.2) ConditionWatcherRunning)) in E as E2.
  - unfold condition_is_true. cbn [snd] in E1. rewrite <-E1. by vm_compute.
  - unfold condition_is_true. cbn [snd] in E2. rewrite <-E2. by vm_compute.
Defined.
Lemma approval_leftovers_witness :
  let s := live_with demo_off (objs demo_end) in
  let k : Key := (KRole, "ops", "sre-approval-server-silence-writer") in
  is_Some (objs s !! k) ∧
  let '(s', e) := Reconcile ("ops", "sre") 0 0 s in e = None ∧ objs s' !! k = objs s !! k.
Proof.
  cbv zeta. split; [by eexists; vm_compute|]. set (s := live_with demo_off (objs demo_end)).
  pose proof (approval_leftovers (S := Mem) ("ops", "sre") demo_off 0 0 s eq_refl eq_refl ltac:(discriminate) eq_refl eq_refl) as H.
  pose proof demo_off_ok as Hok. fold s in Hok. set (r := Reconcile _ _ _ s) in *. destruct r as [s' e]. cbn [snd] in Hok. subst e.
  destruct (H eq_refl) as [_ H']. split; [reflexivity|]. exact (proj1 (H' KRole (or_introl eq_refl))).
Defined.
Lemma binding_collision_witness :
  rbac_ready first_cr (objs first_done) ∧
  let '(s', e) := Reconcile ("a", "b-c") 0 0 first_done in
  e = None ∧ ¬ rbac_ready first_cr (objs s') ∧ rbac_ready second_cr (objs s').
Proof.
  split; [split; [by eexists; vm_compute|by eexists; split; vm_compute]|].
  pose proof (binding_collision (S := Mem) ("a", "b-c") first_cr second_cr 0 0 first_done eq_refl eq_refl
    ltac:(discriminate) eq_refl eq_refl ltac:(discriminate)) as H.
  pose proof second_ok as Hok. set (r := Reconcile _ _ _ first_done) in *. destruct r as [s' e]. cbn [snd] in Hok. subst e.
  split; [reflexivity|]. apply H; [|reflexivity]. intros o Ho. vm_compute in Ho. injection Ho as <-. by eexists.
Defined.
