(* ===== verification/Rendering.v ===== *)
(** * What the operator renders is well-formed

    Command lines the program parses, the protected namespaces as the
    program reads them back, workloads whose parts refer to each other, and
    Services in front of the right pods. *)

From stdpp Require Import options.
From S2P Require Import Prelude GoString GoTime GoNum Protected Api Builders Rbac.
Local Open Scope Z_scope.

(** ** Command lines *)

Definition container_args (t : PodTemplate) : list (list string) := ct_Args <$> pod_Containers (pt_Spec t).
Definition env_names (env : list EnvVar) : list string := env_Name <$> env.

Lemma diagnose_accepted cr : accepted (diagnoseArgs cr) = true.
Proof.
  unfold diagnoseArgs. cbn [accepted app]. match goal with |- forallb _ (?a :: ?b :: ?l) = true => change (a :: b :: l) with ([a; b] ++ l) end.
  apply forallb_app_intro; [reflexivity|]. unfold diagnoseAlertingArgs. all_flags.
Qed.
Lemma remediate_accepted d : accepted (remediateArgs d) = true.
Proof. unfold remediateArgs. by destruct (rs_DryRun d). Qed.
Lemma watcher_accepted cr w : accepted (watcherArgs cr w) = true.
Proof. exact (watcher_flags_ok cr w). Qed.

(** An argument that names an environment variable, and the variable. *)
Definition alert_refs : list (string * string) :=
  [("--slack-alerts=$(SLACK_ALERTS_URL)", "SLACK_ALERTS_URL"); ("--slack-critical=$(SLACK_CRITICAL_URL)", "SLACK_CRITICAL_URL")].
Definition digest_ref : string * string := ("--slack-healthinfo=$(SLACK_HEALTHINFO_URL)", "SLACK_HEALTHINFO_URL").
Definition together (args : list string) (env : list EnvVar) (r : string * string) : Prop := r.1 ∈ args ↔ r.2 ∈ env_names env.
Lemma alerting_together a : Forall (together (alertingArgs a) (alertingEnv a)) alert_refs.
Proof.
  destruct a as [[slack am]|]; [|repeat (apply Forall_cons; split; [split; intros []%elem_of_nil|]); done].
  assert (Ham : ∀ f, f ∈ alert_refs → ∀ l, f.1 ∈ on am (λ m, if am_URL m ≠s? "" then
    ["--alertmanager-url=" +:+ am_URL m; "--cluster-name=" +:+ am_ClusterName m] else []) ++ l ↔ f.1 ∈ l).
  { intros f Hf l. rewrite elem_of_app. split; [|by right]. intros [Hin|]; [exfalso|done].
    destruct am as [m|]; [|by apply elem_of_nil in Hin]. cbn [on from_option] in Hin. destruct (am_URL m ≠s? ""); [|by apply elem_of_nil in Hin].
    unfold alert_refs in Hf. repeat (apply elem_of_cons in Hf as [->|Hf]); [..|by apply elem_of_nil in Hf];
      (repeat (apply elem_of_cons in Hin as [Hin|Hin]; [discriminate Hin|])); by apply elem_of_nil in Hin. }
  assert (Hs : Forall (together (on slack (λ s, on (ss_Alerts s) (λ c, if has_secret c then ["--slack-alerts=$(SLACK_ALERTS_URL)"] else []) ++
      on (ss_Critical s) (λ c, if has_secret c then ["--slack-critical=$(SLACK_CRITICAL_URL)"] else [])))
    (alertingEnv (Some (mkAlertingSpec slack am)))) alert_refs).
  { unfold alertingEnv, channel_env, together, alert_refs. destruct slack as [[al cr hi]|]; cbn [on from_option al_Slack ss_Alerts ss_Critical].
    - destruct al as [al|], cr as [cr|]; cbn [on from_option]; try destruct (has_secret al); try destruct (has_secret cr);
        eapply bool_decide_eq_true_1; vm_compute; reflexivity.
    - eapply bool_decide_eq_true_1; vm_compute; reflexivity. }
  rewrite list.Forall_forall in Hs |- *. intros r Hr. specialize (Hs r Hr). unfold together in *. rewrite <-Hs.
  exact (Ham r Hr _).
Qed.
Lemma digest_together a : together (diagnoseAlertingArgs a) (healthinfoEnv a) digest_ref.
Proof.
  destruct a as [[[[al cr [hi|]]|] am]|]; unfold together, diagnoseAlertingArgs, healthinfoEnv, channel_env;
    cbn [on from_option al_Slack ss_HealthInfo]; try destruct (has_secret hi);
    eapply bool_decide_eq_true_1; vm_compute; reflexivity.
Qed.


(** ** Protected namespaces *)

(** The value a process finds when these are its variables. *)
Definition lookup_env (env : list EnvVar) (name : string) : string :=
  match List.find (λ v, env_Name v =s? name) env with
  | Some v => match env_Source v with EnvValue s => s | _ => "" end
  | None => ""
  end.
Lemma lookup_protected_env cr :
  ParseProtectedNamespacesExtra (lookup_env (protectedNamespacesEnv cr) EnvProtectedNamespacesExtra) =
    ParseProtectedNamespacesExtra (Join (ProtectedNamespacesExtra (cr_Spec cr)) ",").
Proof.
  unfold protectedNamespacesEnv. cbv zeta. set (l := ParseProtectedNamespacesExtra (Join _ _)). destruct (Nat.eqb_spec (length l) 0) as [Hl|Hl].
  - apply nil_length_inv in Hl. rewrite Hl. by vm_compute.
  - unfold lookup_env. cbn [List.find env_Name]. rewrite bool_decide_eq_true_2 by done. cbn [env_Source]. apply ParseExtra_Join.
Qed.
Lemma Split_sep a c t : Split (a +:+ String c t) c = Split a c ++ Split t c.
Proof.
  induction a as [|d a IH]; cbn [Split String.append]; [by rewrite decide_True|]. case_decide; [by rewrite IH|].
  rewrite IH. pose proof (Split_nonempty a c). by destruct (Split a c).
Qed.
Lemma Split_Join_parts l c x : x ∈ l → sforallb (λ d, bool_decide (d ≠ c)) x = true → x ∈ Split (Join l (String c "")) c.
Proof.
  intros Hx Hc. induction l as [|y l IH]; [by apply elem_of_nil in Hx|]. apply elem_of_cons in Hx. destruct l as [|z l].
  - destruct Hx as [->|Hx]; [|by apply elem_of_nil in Hx]. rewrite Join_one, Split_none by done. by left.
  - rewrite Join_cons. change (String c "" +:+ ?u) with (String c u). rewrite Split_sep. apply elem_of_app.
    destruct Hx as [->|Hx]; [left; rewrite Split_none by done; by left|right; by apply IH].
Qed.

(** C26: the namespaces a resource adds to the protected ones arrive: the
    program, reading its environment variable back, gets exactly what the
    spec lists, and in a process that has just started the fixers and the
    validator of proposals both keep off every namespace listed. *)
Theorem protected_env_roundtrip cr :
  let env := lookup_env (protectedNamespacesEnv cr) EnvProtectedNamespacesExtra in
  ParseProtectedNamespacesExtra env = ParseProtectedNamespacesExtra (Join (ProtectedNamespacesExtra (cr_Spec cr)) ",") ∧
  Forall (λ ns, sforallb (λ d, bool_decide (d ≠ ","%char)) ns = true → TrimSpace ns ≠ "" →
      fix_protects env extraInit (TrimSpace ns) = true ∧ protects env extraInit (TrimSpace ns) = true)
    (ProtectedNamespacesExtra (cr_Spec cr)).
Proof.
  intros env. split; [apply lookup_protected_env|]. apply list.Forall_forall. intros ns Hns Hc Ht.
  assert (Hin : TrimSpace ns ∈ extras env extraInit).
  { change (TrimSpace ns ∈@{gset string} list_to_set (ParseProtectedNamespacesExtra env)). apply elem_of_list_to_set.
    unfold env. rewrite lookup_protected_env. apply elem_of_parse_extra. split_and!; [done|apply not_elem_of_empty|].
    exists ns. split; [by apply Split_Join_parts|done]. }
  rewrite fix_protects_spec, protects_spec. tauto.
Qed.

(** ** The parts of a workload *)

Definition port_named (t : PodTemplate) (name : string) : bool :=
  existsb (λ c, existsb (λ p, cp_Name p =s? name) (ct_Ports c)) (pod_Containers (pt_Spec t)).
Definition container_wired (volumes : list string) (c : Container) : bool :=
  forallb (λ m, existsb (λ v, v =s? vm_Name m) volumes) (ct_VolumeMounts c) &&
  forallb (λ p, from_option (λ p, existsb (λ q, cp_Name q =s? pb_Port p) (ct_Ports c)) true p)
    [ct_LivenessProbe c; ct_ReadinessProbe c].
(** Mounts of volumes that are there, probes of ports that are there; the
    claims of a StatefulSet are volumes too. *)
Definition pod_wired (claims : list string) (t : PodTemplate) : bool :=
  forallb (container_wired ((vol_Name <$> pod_Volumes (pt_Spec t)) ++ claims)) (pod_Containers (pt_Spec t)).
Definition deployment_wired (d : Built DeploymentSpec) : Prop :=
  dep_Selector (b_Spec d) = pt_Labels (dep_Template (b_Spec d)) ∧ pod_wired [] (dep_Template (b_Spec d)) = true.
(** A Service selects the pods and routes to ports they name. *)
Definition service_wired (s : Built ServiceSpec) (t : PodTemplate) : Prop :=
  svc_Selector (b_Spec s) = pt_Labels t ∧
  forallb (λ p, port_named t (sp_TargetPort p)) (svc_Ports (b_Spec s)) = true.

(** The roles whose labels are selectors. *)
Definition pod_roles : list string := ["watcher"; "diagnose"; "remediate"; "aiwatch"; "rag"; "approval-server"].
Lemma CommonLabels_role cr r : r ≠ "" → CommonLabels cr r !! roleLabelKey = Some r.
Proof. intros Hr. unfold CommonLabels. rewrite bool_decide_eq_false_2 by done. cbn [negb]. apply lookup_insert_eq. Qed.
Lemma roles_apart cr r r' : r ∈ pod_roles → r' ∈ pod_roles → CommonLabels cr r ⊆ CommonLabels cr r' → r = r'.
Proof.
  assert (Hne : ∀ x, x ∈ pod_roles → x ≠ "").
  { apply list.Forall_forall. unfold pod_roles. by repeat (apply Forall_cons; split; [discriminate|]). }
  intros Hr Hr' Hsub. eapply lookup_weaken in Hsub; [|apply CommonLabels_role; by apply Hne].
  rewrite CommonLabels_role in Hsub by (by apply Hne). by injection Hsub.
Qed.

Lemma watcher_wired cr d : BuildWatcherDeployment cr = Some d →
  deployment_wired d ∧ pt_Labels (dep_Template (b_Spec d)) = CommonLabels cr "watcher" ∧
  ∀ s, BuildWatcherWebhookService cr = Some s → service_wired s (dep_Template (b_Spec d)).
Proof.
  unfold BuildWatcherDeployment, BuildWatcherWebhookService, watcherContainerPorts.
  destruct (Watcher (cr_Spec cr)) as [w|]; [|done]. generalize (webhookReceiverOn (Some w)). intros r.
  cbn [mbind option_bind]. case_match; [done|]. intros [= <-]. unfold deployment_wired, service_wired. cbn [b_Spec dep_Selector dep_Template pt_Labels].
  split_and!; [done| |done|].
  - destruct (watcher_signing cr) as [[[? ?] ?]|]; reflexivity.
  - destruct r as [h|]; [|done]. cbn [mbind option_bind]. case_match; [done|]. intros s [= <-]. done.
Qed.
Lemma aiwatch_wired cr d : BuildAIWatchDeployment cr = Some d →
  deployment_wired d ∧ pt_Labels (dep_Template (b_Spec d)) = CommonLabels cr "aiwatch" ∧
  ∀ s, BuildAIWatchMetricsService cr = Some s → service_wired s (dep_Template (b_Spec d)).
Proof.
  unfold BuildAIWatchDeployment, BuildAIWatchMetricsService. destruct (AI (cr_Spec cr)) as [ai|]; [|done].
  cbn [mbind option_bind]. case_match; [done|]. intros [= <-]. unfold deployment_wired, service_wired.
  cbn [b_Spec dep_Selector dep_Template pt_Labels]. split_and!; [done| |done|].
  - destruct (ApprovalEnabled cr), (attestation ai); reflexivity.
  - destruct (metrics_on ai) as [m|]; [|done]. cbn [mbind option_bind]. by intros s [= <-].
Qed.
Lemma approval_wired cr d : BuildApprovalServerDeployment cr = Some d →
  deployment_wired d ∧ pt_Labels (dep_Template (b_Spec d)) = CommonLabels cr "approval-server" ∧
  ∀ s, BuildApprovalServerService cr = Some s → service_wired s (dep_Template (b_Spec d)).
Proof.
  unfold BuildApprovalServerDeployment, BuildApprovalServerService. case_match; [done|]. intros [= <-].
  split_and!; [done..|]. by intros s [= <-].
Qed.
(** The ingress routes every path to a port of the Service, and the network
    policy guards the pods and lets the port of their container through. *)
Definition approval_front_wired cr : Prop :=
  (∀ anns i s, BuildApprovalServerIngress cr = Some (anns, i) → BuildApprovalServerService cr = Some s →
     Forall (λ p, p.1.2 = b_Name s ∧ p.2 ∈ sp_Name <$> svc_Ports (b_Spec s)) (ig_Paths (b_Spec i))) ∧
  (∀ p d, BuildApprovalServerNetworkPolicy cr = Some p → BuildApprovalServerDeployment cr = Some d →
     nps_PodSelector (b_Spec p) = pt_Labels (dep_Template (b_Spec d)) ∧
     Forall (λ q, q ∈ (pod_Containers (pt_Spec (dep_Template (b_Spec d))) ≫= λ c, (λ x, (cp_Protocol x, cp_ContainerPort x)) <$> ct_Ports c))
       (nps_Ports (b_Spec p))).
Lemma approval_front cr : approval_front_wired cr.
Proof.
  split.
  - intros anns i s. unfold BuildApprovalServerIngress, BuildApprovalServerService. case_match; [done|].
    destruct (approval_ingress cr) as [ing|]; [|done]. cbn [mbind option_bind]. intros [= <- <-]. case_match; [done|]. intros [= <-].
    cbn [b_Spec ig_Paths b_Name svc_Ports]. by repeat (apply Forall_cons; split; [by split; [|left]|]).
  - intros p d. unfold BuildApprovalServerNetworkPolicy, BuildApprovalServerDeployment. case_match; [done|]. intros [= <-].
    case_match; [done|]. intros [= <-]. split; [done|]. apply Forall_cons. split; [by left|done].
Qed.
Lemma qdrant_wired `{QuantityParser} cr ss svc : BuildQdrantStatefulSet cr = Some ss → BuildQdrantService cr = Some svc →
  sts_Selector (b_Spec ss) = pt_Labels (sts_Template (b_Spec ss)) ∧ sts_ServiceName (b_Spec ss) = b_Name svc ∧
  pod_wired (vc_Name <$> sts_VolumeClaimTemplates (b_Spec ss)) (sts_Template (b_Spec ss)) = true ∧
  service_wired svc (sts_Template (b_Spec ss)) ∧ pt_Labels (sts_Template (b_Spec ss)) = CommonLabels cr "rag".
Proof.
  unfold BuildQdrantStatefulSet, BuildQdrantService. destruct (memory_of cr) as [m|]; [|done]. cbn [mbind option_bind].
  case_match; [done|]. intros [= <-]. case_match; [done|]. by intros [= <-].
Qed.

(** C38: what the operator renders hangs together.  Every Deployment and the
    StatefulSet select their own pods by labels no pods of another part
    carry; a mount names a volume of the pod and a probe a port of its
    container; each Service, the Ingress and the network policy in front of
    a workload select its pods and route to ports they have. *)
Theorem workloads_wired `{QuantityParser} cr :
  (∀ d, BuildWatcherDeployment cr = Some d → deployment_wired d ∧ pt_Labels (dep_Template (b_Spec d)) = CommonLabels cr "watcher" ∧
     ∀ s, BuildWatcherWebhookService cr = Some s → service_wired s (dep_Template (b_Spec d))) ∧
  (∀ d, BuildAIWatchDeployment cr = Some d → deployment_wired d ∧ pt_Labels (dep_Template (b_Spec d)) = CommonLabels cr "aiwatch" ∧
     ∀ s, BuildAIWatchMetricsService cr = Some s → service_wired s (dep_Template (b_Spec d))) ∧
  (∀ d, BuildApprovalServerDeployment cr = Some d →
     deployment_wired d ∧ pt_Labels (dep_Template (b_Spec d)) = CommonLabels cr "approval-server" ∧
     ∀ s, BuildApprovalServerService cr = Some s → service_wired s (dep_Template (b_Spec d))) ∧
  (∀ ss svc, BuildQdrantStatefulSet cr = Some ss → BuildQdrantService cr = Some svc →
     sts_Selector (b_Spec ss) = pt_Labels (sts_Template (b_Spec ss)) ∧ sts_ServiceName (b_Spec ss) = b_Name svc ∧
     pod_wired (vc_Name <$> sts_VolumeClaimTemplates (b_Spec ss)) (sts_Template (b_Spec ss)) = true ∧
     service_wired svc (sts_Template (b_Spec ss)) ∧ pt_Labels (sts_Template (b_Spec ss)) = CommonLabels cr "rag") ∧
  approval_front_wired cr ∧
  (∀ r r', r ∈ pod_roles → r' ∈ pod_roles → CommonLabels cr r ⊆ CommonLabels cr r' → r = r').
Proof.
  refine (conj (watcher_wired cr) (conj (aiwatch_wired cr) (conj (approval_wired cr) (conj (qdrant_wired cr)
    (conj (approval_front cr) (roles_apart cr)))))).
Qed.
