(* ===== verification/Permissions.v ===== *)
(** * What the parts are allowed to do

    The fixers' calls against the roles the operator grants: the approval
    server's role covers every mutation a fixer makes, the watcher's covers
    its reads and none of its mutations, and the watcher's service account,
    under which the operator also runs the remediate job, never has more. *)

From stdpp Require Import options.
From S2P Require Import Prelude GoString GoTime GoNum GoJson Sha256 Protected Cluster Fixers Api Builders Rbac Reconciler Operator OperatorStatus.
Local Open Scope Z_scope.

(** ** Rules *)

(** The API group and resource of internal/snapshot/source.go. *)
Definition group_resource (g : GVR) : string * string :=
  match g with
  | GVRPod => ("", "pods") | GVRJob => ("batch", "jobs") | GVRCronJob => ("batch", "cronjobs")
  | GVRReplicaSet => ("apps", "replicasets") | GVRDeployment => ("apps", "deployments") | GVRSecret => ("", "secrets")
  | GVRIngress => ("networking.k8s.io", "ingresses") | GVRCertificate => ("cert-manager.io", "certificates")
  | GVRCertificateRequest => ("cert-manager.io", "certificaterequests")
  | GVRCertManagerOrder => ("acme.cert-manager.io", "orders")
  end.
Definition mem (x : string) (l : list string) : bool := existsb (λ y, y =s? x) l.
(** A rule allows a verb on every object of the resources it lists, when it
    does not list names. *)
Definition allows_on (verb : string) (gr : string * string) (p : PolicyRule) : bool :=
  mem gr.1 (pr_APIGroups p) && mem gr.2 (pr_Resources p) && mem verb (pr_Verbs p) && (length (pr_ResourceNames p) =? 0)%nat.
Definition rule_allows (verb : string) (g : GVR) : PolicyRule → bool := allows_on verb (group_resource g).
Definition rules_allow (rules : list PolicyRule) (verb : string) (g : GVR) : bool := existsb (rule_allows verb g) rules.

(** The verb and resource a call needs. *)
Definition needs (e : Event) : string * GVR :=
  match e with
  | EvList g _ _ => ("list", g)
  | EvGet g _ _ _ => ("get", g)
  | EvDelete g _ _ _ => ("delete", g)
  | EvPatch g _ _ _ _ _ => ("patch", g)
  end.
Definition mutates (e : Event) : bool := match e with EvDelete _ _ _ _ | EvPatch _ _ _ _ _ _ => true | _ => false end.
Definition fixer_rules : list PolicyRule := b_Spec BuildApprovalFixerClusterRole.

(** C7: every mutation a fixer makes is allowed by the role the operator
    gives the approval server and by none of the rules of the role it gives
    the watcher; every read a fixer makes is allowed by the watcher's. *)
Theorem fixer_permissions {S} `{!Cluster S} `{!Certs} env st tls now live (s : S) :
  let '(_, h, _) := run (RunFixers (OSSFixers (fix_protects env st) tls now) live) s [] in
  Forall (λ e, let '(verb, g) := needs e in
    if mutates e then rules_allow fixer_rules verb g = true ∧ rules_allow readerPolicyRules verb g = false
    else rules_allow readerPolicyRules verb g = true) h.
Proof.
  pose proof (wp_run _ _ _ [] s (judged_nil _) (RunFixers_wp (fix_protects env st) now tls live)) as Hw.
  destruct (run _ s []) as [[s' h] results]. destruct Hw as [Hj _]. apply list.Forall_forall. intros e He.
  apply list_elem_of_split in He as (pre & post & ->). specialize (Hj pre e post eq_refl).
  destruct e as [g ns r|g ns n r|g ns n r|g ns n pt b r]; cbn [needs mutates].
  - destruct g; by vm_compute.
  - destruct g; by vm_compute.
  - destruct Hj as [_ Hj]. destruct g; try done; by vm_compute.
  - destruct Hj as [_ Hj]. destruct g; try done; by vm_compute.
Qed.

(** ** What the watcher's service account holds *)

Section accounts.
Context {S : Type} `{!Client S} `{!ClientLaws S} `{!QuantityParser} `{!KeyGen}.
Implicit Types (cr : AgenticSRE) (m : gmap Key Obj).

Definition reader_ref : RoleRef := mkRoleRef "ClusterRole" ReaderClusterRoleName.
Definition reader_role_key : Key := (KClusterRole, "", ReaderClusterRoleName).
(** The account is bound to nothing but the reader role, and the reader role
    has the rules of this version. *)
Definition bound_to_reader (sa ns : string) m : Prop :=
  ∀ k o b, m !! k = Some o → o_Body o = BindingBody b → bindingTargetsSA b sa ns = true → bi_RoleRef b = reader_ref.
Definition reader_current m : Prop :=
  ∀ o rules, m !! reader_role_key = Some o → o_Body o = RulesBody rules → rules = readerPolicyRules.
(** The API server's authorizer: some binding of the account refers to a role
    that allows the call; a RoleBinding grants in its namespace only, which
    is left out here. *)
Definition granted m (sa ns verb : string) (g : GVR) : Prop :=
  ∃ k o b rk ro rules, m !! k = Some o ∧ o_Body o = BindingBody b ∧ bindingTargetsSA b sa ns = true ∧
    m !! rk = Some ro ∧ o_Body ro = RulesBody rules ∧ rules_allow rules verb g = true ∧
    rk.2 = rr_Name (bi_RoleRef b) ∧
    (if rr_Kind (bi_RoleRef b) =s? "ClusterRole" then rk.1 = (KClusterRole, "") else rk.1 = (KRole, k.1.2)).

Definition act_reads_only (sa ns : string) (a : Act) : Prop :=
  match a with
  | Ensure k d =>
      (∀ b, o_Body d = BindingBody b → bindingTargetsSA b sa ns = true → bi_RoleRef b = reader_ref) ∧
      (∀ rules, k = reader_role_key → o_Body d = RulesBody rules → rules = readerPolicyRules)
  | Remove _ => True
  end.
Lemma mutate_binding d o b : o_Body (mutate d o) = BindingBody b → o_Body d = BindingBody b ∨ o_Body o = BindingBody b.
Proof. unfold mutate. cbn [o_Body]. destruct (o_Body d), (o_Body o); cbn [mutate_body]; try discriminate; auto. Qed.
Lemma mutate_rules d o r : o_Body (mutate d o) = RulesBody r → o_Body d = RulesBody r ∨ o_Body o = RulesBody r.
Proof. unfold mutate. cbn [o_Body]. destruct (o_Body d), (o_Body o); cbn [mutate_body]; try discriminate; auto. Qed.
(** What an act leaves under a key is as it was, or what it ensured, alone or
    over what was there. *)
Lemma act_inv m a k o : act m a !! k = Some o →
  m !! k = Some o ∨ ∃ d, a = Ensure k d ∧ (o = d ∨ ∃ o', m !! k = Some o' ∧ o = mutate d o').
Proof.
  destruct a as [k' d|k']; cbn [act].
  - destruct (decide (k' = k)) as [->|Hne].
    + destruct (m !! k) as [o'|]; rewrite lookup_insert_eq; intros [= <-]; right; exists d; eauto.
    + destruct (m !! k'); rewrite lookup_insert_ne by done; by left.
  - intros [_ Hk]%lookup_delete_Some. by left.
Qed.
Lemma reads_only_closed sa ns (l : list Act) : Forall (act_reads_only sa ns) l →
  closed l (λ m, bound_to_reader sa ns m ∧ reader_current m).
Proof.
  intros HF a m Ha [HB HR]. rewrite list.Forall_forall in HF. specialize (HF a Ha). split.
  - intros k o b [Hk|(d & -> & Hd)]%act_inv Hb Ht; [by eapply HB|]. destruct HF as [HF _].
    destruct Hd as [->|(o' & Hk & ->)]; [by apply HF|]. apply mutate_binding in Hb as [Hb|Hb]; [by apply HF|by eapply HB].
  - intros o rules [Hk|(d & -> & Hd)]%act_inv Hr; [by eapply HR|]. destruct HF as [_ HF].
    destruct Hd as [->|(o' & Hk & ->)]; [by apply HF|]. apply mutate_rules in Hr as [Hr|Hr]; [by apply HF|by eapply HR].
Qed.

Lemma approval_subject_apart cr sa ns ref : (ApprovalServerName cr = sa → cr_Namespace cr ≠ ns) →
  bindingTargetsSA (mkBindingSpec ref (approval_subject cr)) sa ns = false.
Proof.
  intros Hne. unfold bindingTargetsSA, approval_subject. cbn [bi_Subjects existsb su_Kind su_Name su_Namespace].
  rewrite orb_false_r. destruct (bool_decide_reflect (ApprovalServerName cr = sa)) as [E|]; [|by rewrite andb_false_r].
  rewrite (bool_decide_eq_false_2 (cr_Namespace cr = ns)) by auto. by rewrite andb_false_r.
Qed.
Lemma pair_reads_only cr sa ns suffix rns (role : option (Built (list PolicyRule))) (binding : option (Built BindingSpec)) :
  (ApprovalServerName cr = sa → cr_Namespace cr ≠ ns) →
  binding = None ∨ binding = Some (approval_binding cr suffix rns) → Forall (act_reads_only sa ns) (plan_pair cr role binding).
Proof.
  intros Hne Hb. unfold plan_pair. destruct role as [r|]; [|by apply Forall_nil]. destruct Hb as [->| ->]; [by apply Forall_nil|].
  apply Forall_cons; split; [|apply Forall_cons; split; [|by apply Forall_nil]]; split.
  - intros b Hb. by destruct (b_Namespace r =s? cr_Namespace cr).
  - intros rules Hk. discriminate Hk.
  - intros b Hb Ht. assert (b = mkBindingSpec (mkRoleRef "Role" (ApprovalServerName cr +:+ suffix)) (approval_subject cr)) as ->.
    { by destruct (b_Namespace r =s? cr_Namespace cr); injection Hb as <-. }
    by rewrite approval_subject_apart in Ht.
  - intros rules Hk. discriminate Hk.
Qed.

Lemma plan_reads_only cr sa ns n : (ApprovalServerName cr = sa → cr_Namespace cr ≠ ns) →
  Forall (act_reads_only sa ns) (plan cr n).
Proof.
  intros Hne.
  assert (Hrest : ∀ (k : Key) d, match o_Body d with BindingBody _ | RulesBody _ => False | _ => True end →
    act_reads_only sa ns (Ensure k d)).
  { intros k d Hd. split; [intros b Hb|intros rules _ Hr]; [rewrite Hb in Hd|rewrite Hr in Hd]; done. }
  assert (Hfix : act_reads_only sa ns (Ensure (built_key KClusterRoleBinding (BuildApprovalFixerClusterRoleBinding cr))
      (unowned (BuildApprovalFixerClusterRoleBinding cr) (BindingBody (b_Spec (BuildApprovalFixerClusterRoleBinding cr)))))).
  { split; [|intros rules Hk; discriminate Hk]. intros b [= <-] Ht. by rewrite approval_subject_apart in Ht. }
  assert (Hpairs : Forall (act_reads_only sa ns)
    (plan_pair cr (BuildApprovalSigningReaderRole cr) (BuildApprovalSigningReaderRoleBinding cr) ++
     plan_pair cr (BuildApprovalEventsRole cr) (BuildApprovalEventsRoleBinding cr) ++
     plan_pair cr (BuildApprovalStoresRole cr) (BuildApprovalStoresRoleBinding cr) ++
     plan_pair cr (BuildApprovalSilenceWriterRole cr) (BuildApprovalSilenceWriterRoleBinding cr))).
  { repeat (apply Forall_app; split).
    - apply (pair_reads_only _ _ _ "-signing-reader" (cr_Namespace cr)); [done|].
      unfold BuildApprovalSigningReaderRoleBinding. destruct (negb _); auto.
    - apply (pair_reads_only _ _ _ "-events" (ApprovalAuditNamespace cr)); [done|].
      unfold BuildApprovalEventsRoleBinding. destruct (negb _); auto.
    - apply (pair_reads_only _ _ _ "-stores" (store_namespace cr)); [done|].
      unfold BuildApprovalStoresRoleBinding. destruct (negb _); auto.
    - apply (pair_reads_only _ _ _ "-silence-writer" (cr_Namespace cr)); [done|].
      unfold BuildApprovalSilenceWriterRoleBinding. destruct (negb _); auto. }
  rewrite plan_split, Forall_app. split.
  - unfold plan_core. unfold_plan. each_act; try (apply Hrest; exact I); try exact I.
    + split; [intros b Hb; discriminate Hb|]. by intros rules _ [= <-].
    + split; [|intros rules Hk; discriminate Hk]. by intros b [= <-].
  - unfold plan_approval. revert Hpairs. rewrite !Forall_app. intros (? & ? & ? & ?).
    destruct (BuildApprovalServerServiceAccount cr), (BuildApprovalServerService cr), (BuildApprovalServerDeployment cr).
    2-8: unfold approval_teardown; cbn [fmap list_fmap]; each_act; exact I.
    rewrite !Forall_app. split_and!; try done; unfold plan_optional, plan_ensure, plan_shared; each_act; try exact I; try done;
      try (apply Hrest; exact I).
    apply Hrest. unfold signing_secret. cbn [o_Body]. by destruct (GenerateSigningKeySecret cr n).
Qed.
(** Under the invariant the reader role is all there is. *)
Lemma reads_only_granted sa ns m verb g : bound_to_reader sa ns m → reader_current m → granted m sa ns verb g →
  rules_allow readerPolicyRules verb g = true.
Proof.
  intros HB HR (k & o & b & rk & ro & rules & Hk & Hb & Ht & Hrk & Hro & Ha & Hn & Hkind).
  rewrite (HB k o b Hk Hb Ht) in Hn, Hkind. cbn [rr_Name rr_Kind reader_ref] in Hn, Hkind.
  rewrite bool_decide_eq_true_2 in Hkind by done. destruct rk as [rk rn]. cbn [fst snd] in *. subst rk rn.
  by rewrite (HR ro rules Hrk Hro) in Ha.
Qed.

(** C25: the service account of the watcher, under which the remediate job
    of the resource runs too, is bound by no reconcile, complete or not, of
    this resource or any other to anything but the reader role: so the
    operator never lets it delete or patch what the fixers would, and each
    mutation the remediate job attempts is refused, unless somebody else
    grants it. *)
Theorem watcher_reads_only cr req n now (s : S) :
  let sa := ServiceAccountNameFor cr in
  let ns := cr_Namespace cr in
  named (crs s) →
  (∀ nn cr', crs s !! nn = Some cr' → ApprovalServerName cr' = sa → cr_Namespace cr' ≠ ns) →
  bound_to_reader sa ns (objs s) → reader_current (objs s) →
  let m := objs (Reconcile req n now s).1 in
  bound_to_reader sa ns m ∧ reader_current m ∧
  (∀ verb g, granted m sa ns verb g → rules_allow readerPolicyRules verb g = true) ∧
  (∀ g, ¬ granted m sa ns "delete" g ∧ ¬ granted m sa ns "patch" g) ∧
  (∀ j, BuildRemediateCronJob cr = Some j → pod_ServiceAccountName (pt_Spec (cj_Template (b_Spec j))) = sa).
Proof using All.
  intros sa ns Hn Hap HB HR m.
  assert (HQ : bound_to_reader sa ns m ∧ reader_current m).
  { apply (Reconcile_keeps (λ m, bound_to_reader sa ns m ∧ reader_current m)); [|done]. intros cr' Hcr'. split.
    - intros _. apply reads_only_closed. unfold finalizer_plan. each_act; exact I.
    - intros _ _. split; [by destruct (Hn _ _ Hcr')|]. apply reads_only_closed, plan_reads_only. by eapply Hap. }
  destruct HQ as [HB' HR']. pose proof (λ verb g, reads_only_granted sa ns m verb g HB' HR') as HG.
  split_and!; [done..| |].
  - intros g. split; intros Hg%HG; revert Hg; destruct g; by vm_compute.
  - intros j. unfold BuildRemediateCronJob. destruct (Remediate (cr_Spec cr)) as [d|]; [|done]. cbn [mbind option_bind].
    case_match; [done|]. by intros [= <-].
Qed.
End accounts.

Lemma watcher_reads_only_witness :
  let m := objs (Reconcile (S := Mem) ("ops", "sre") 0 0 demo_start).1 in
  granted m "sre-sa" "ops" "list" GVRPod ∧ ¬ granted m "sre-sa" "ops" "delete" GVRPod.
Proof.
  cbv zeta. split.
  - exists (reader_key demo_cr). do 2 eexists. exists reader_role_key. do 2 eexists. split_and!; try (by vm_compute); by vm_compute.
  - refine (proj1 (proj1 (proj2 (proj2 (proj2 (watcher_reads_only (S := Mem) demo_cr ("ops", "sre") 0 0 demo_start
      demo_named_crs _ _ _)))) GVRPod)).
    + intros nn cr' Hcr' Hsa. exfalso. change (({[cr_key demo_cr := demo_cr]} : gmap NN AgenticSRE) !! nn = Some cr') in Hcr'.
      apply lookup_singleton_Some in Hcr' as [_ <-]. discriminate Hsa.
    + intros k o b Hk. discriminate Hk.
    + intros o rules Hk. discriminate Hk.
Defined.
