(* ===== verification/Discovery.v ===== *)
(** * Endpoint targets: internal/probe/ingress_discovery.go, learnt_targets.go

    Which URLs the endpoint probe asks: the configured ones, those learnt,
    and every host of an Ingress.  The cluster's answer to the list call and
    the learnt entries are arguments.  [DiscoverTraefikRouteTargets], which
    the probe does not call, is left out. *)

From stdpp Require Import options.
From S2P Require Import Prelude GoString GoJson GoNum Unstructured.
Local Open Scope Z_scope.

Record EndpointL7Spec := mkL7Spec { l7_Path : string; l7_ExpectBody : string; l7_ExpectStatus : Z }.
Record EndpointTarget := mkTarget {
  t_URL : string;
  t_Name : string;
  t_ExpectStatus : Z;
  t_L7 : option EndpointL7Spec;
}.
Record DiscoveryOptions := mkDiscoveryOptions {
  do_Enabled : bool;
  do_SkipNamespaces : gset string;
  do_OptOutAnnotation : string;
  do_Scheme : string;
}.
Definition defaultSkipNamespaces : gset string :=
  {[ "kube-system"; "kube-public"; "kube-node-lease"; "rook-ceph"; "vault"; "external-secrets"; "cnpg-system" ]}.
Definition DefaultDiscoveryOptions : DiscoveryOptions :=
  mkDiscoveryOptions true defaultSkipNamespaces "srenix.ai/probe-disable" "https".

(** ** Hosts *)

(** [strings.IndexAny(h, "/?")] and the text before it. *)
Definition ends_host (c : ascii) : bool := bool_decide (c = "/"%char) || bool_decide (c = "?"%char).
Fixpoint before_path (h : string) : string :=
  match h with
  | "" => ""
  | String c h' => if ends_host c then "" else String c (before_path h')
  end.
Definition hostOf (rawURL : string) : string :=
  let h := match Index rawURL "://" with Some i => sdrop (i + 3) rawURL | None => rawURL end in
  ToLower (before_path h).
Definition hostnamesOf (targets : list EndpointTarget) : list string := (λ t, hostOf (t_URL t)) <$> targets.

(** ** Learnt targets *)

(** The key of an entry and its display_name, empty when it is no string. *)
Record Entry := mkEntry { en_Key : string; en_DisplayName : string }.
Fixpoint learnt_loop (known : gset string) (entries : list Entry) : list EndpointTarget :=
  match entries with
  | [] => []
  | e :: entries =>
      let host := ToLower (TrimSpace (en_Key e)) in
      if host =s? "" then learnt_loop known entries
      else if decide (host ∈ known) then learnt_loop known entries
      else
        let name := if en_DisplayName e =s? "" then host +:+ " (learnt)" else en_DisplayName e in
        mkTarget ("https://" +:+ host) name 0 None :: learnt_loop ({[host]} ∪ known) entries
  end.
(** [None] is a nil reader or one that fails. *)
Definition learntApexTargets (r : option (list Entry)) (alreadyKnown : list string) : list EndpointTarget :=
  match r with
  | None => []
  | Some entries => learnt_loop (list_to_set ((λ h, ToLower (TrimSpace h)) <$> alreadyKnown)) entries
  end.

(** ** Annotations *)

Fixpoint digit_prefix (s : string) : string :=
  match s with
  | String c s => if is_digit c then String c (digit_prefix s) else ""
  | "" => ""
  end.
(** [fmt.Sscanf(s, "%d", &n)] on text without leading space. *)
Definition Sscanf_d (s : string) : option Z :=
  match s with
  | String c t => if (ord c =? 45) || (ord c =? 43) then ParseInt (String c (digit_prefix t)) else ParseInt (digit_prefix s)
  | "" => None
  end.
Definition annotation (anns : list (string * string)) (key : string) : string := TrimSpace (default "" (lookup_str key anns)).
Definition readL7Annotations (anns : list (string * string)) : option EndpointL7Spec :=
  let path := annotation anns "srenix.ai/probe-l7-path" in
  if path =s? "" then None else
  let path := if negb (HasPrefix path "/") then "/" +:+ path else path in
  let s := annotation anns "srenix.ai/probe-l7-status" in
  Some (mkL7Spec path (annotation anns "srenix.ai/probe-l7-expect") (if s =s? "" then 0 else default 0 (Sscanf_d s))).

(** ** Ingresses *)

Definition isEphemeralIngress (name : string) : bool := HasPrefix name "cm-acme-http-solver-".
Definition opted_out (annotation : string) (ing : json) : bool :=
  match lookup_str annotation (GetAnnotations ing) with
  | Some v => EqualFold v "true"
  | None => false
  end.
(** The state of the loop: the hosts seen and the targets so far. *)
Definition Found : Type := gset string * list EndpointTarget.
Definition rule_host (raw : json) : string :=
  match raw with JObj _ => TrimSpace (ToLower (as_string (jmember "host" raw))) | _ => "" end.
Definition target_of (scheme : string) (ing : json) (host : string) : EndpointTarget :=
  mkTarget (scheme +:+ "://" +:+ host) (GetNamespace ing +:+ "/" +:+ GetName ing +:+ " → " +:+ host) 0
    (readL7Annotations (GetAnnotations ing)).
Definition discover_rule (scheme : string) (existing : gset string) (ing : json) (acc : Found) (raw : json) : Found :=
  let '(seen, out) := acc in
  let host := rule_host raw in
  if host =s? "" then acc
  else if decide (host ∈ existing) then acc
  else if decide (host ∈ seen) then acc
  else ({[host]} ∪ seen, out ++ [target_of scheme ing host]).
Definition discover_ingress (scheme annotation : string) (opts : DiscoveryOptions) (existing : gset string) (acc : Found) (ing : json) : Found :=
  if decide (GetNamespace ing ∈ do_SkipNamespaces opts) then acc
  else if isEphemeralIngress (GetName ing) then acc
  else if opted_out annotation ing then acc
  else foldl (discover_rule scheme existing ing) acc (NestedSlice ing ["spec"; "rules"]).
Definition url_le (a b : EndpointTarget) : Prop := String.leb (t_URL a) (t_URL b) = true.
#[export] Instance url_le_dec a b : Decision (url_le a b).
Proof. unfold url_le. apply _. Defined.
(** [ingresses] is the answer of the list call, [None] when it failed. *)
Definition DiscoverIngressTargets (ingresses : option (list json)) (opts : DiscoveryOptions) (existing : list string) : list EndpointTarget :=
  if negb (do_Enabled opts) then [] else
  let scheme := if do_Scheme opts =s? "" then "https" else do_Scheme opts in
  let annotation := if do_OptOutAnnotation opts =s? "" then "srenix.ai/probe-disable" else do_OptOutAnnotation opts in
  match ingresses with
  | None => []
  | Some items =>
      let existingSet : gset string := list_to_set (ToLower <$> existing) in
      merge_sort url_le (foldl (discover_ingress scheme annotation opts existingSet) (∅, []) items).2
  end.

(** What [Run] probes: static, then learnt, then discovered. *)
Definition all_targets (static : list EndpointTarget) (r : option (list Entry)) (ingresses : option (list json))
    (opts : DiscoveryOptions) : list EndpointTarget * list EndpointTarget :=
  let knownHosts := hostnamesOf static in
  let learnt := learntApexTargets r knownHosts in
  let knownHosts := knownHosts ++ ((λ t, hostOf (t_URL t)) <$> learnt) in
  let discovered := DiscoverIngressTargets ingresses opts knownHosts in
  (static ++ learnt ++ discovered, discovered).

(** ** The candidates *)

(** Every host of a rule with the target it would make, in order. *)
Definition ingress_candidates (scheme annotation : string) (opts : DiscoveryOptions) (ing : json) : list (string * EndpointTarget) :=
  if bool_decide (GetNamespace ing ∈ do_SkipNamespaces opts) || isEphemeralIngress (GetName ing) || opted_out annotation ing then []
  else (λ raw, (rule_host raw, target_of scheme ing (rule_host raw))) <$> NestedSlice ing ["spec"; "rules"].
Definition candidates (scheme annotation : string) (opts : DiscoveryOptions) (items : list json) : list (string * EndpointTarget) :=
  items ≫= ingress_candidates scheme annotation opts.
(** The first of each host, those of [seen] left out. *)
Fixpoint firsts (seen : gset string) (l : list (string * EndpointTarget)) : list (string * EndpointTarget) :=
  match l with
  | [] => []
  | c :: l => if decide (c.1 = "" ∨ c.1 ∈ seen) then firsts seen l else c :: firsts ({[c.1]} ∪ seen) l
  end.

Definition hosts_of (l : list (string * EndpointTarget)) : gset string := list_to_set l.*1.
Lemma hosts_of_nil seen : hosts_of [] ∪ seen = seen.
Proof. apply (left_id_L ∅ (∪)). Qed.
Lemma hosts_of_cons c l seen : hosts_of (c :: l) ∪ seen = hosts_of l ∪ ({[c.1]} ∪ seen).
Proof. unfold hosts_of. cbn. set_solver. Qed.
Lemma firsts_app seen l k : firsts seen (l ++ k) = firsts seen l ++ firsts (hosts_of (firsts seen l) ∪ seen) k.
Proof.
  revert seen. induction l as [|c l IH]; intros seen; cbn [app firsts]; [by rewrite hosts_of_nil|].
  case_decide; [apply IH|]. cbn [app]. f_equal. by rewrite IH, hosts_of_cons.
Qed.
Lemma rules_firsts scheme existing ing raws seen out :
  foldl (discover_rule scheme existing ing) (seen, out) raws =
    let new := firsts (existing ∪ seen) ((λ raw, (rule_host raw, target_of scheme ing (rule_host raw))) <$> raws) in
    (hosts_of new ∪ seen, out ++ new.*2).
Proof.
  revert seen out. induction raws as [|raw raws IH]; intros seen out; cbv zeta; cbn [foldl fmap list_fmap firsts fst snd].
  - by rewrite hosts_of_nil, app_nil_r.
  - unfold discover_rule at 2. case_bool_decide as He; [rewrite IH, decide_True by auto; done|].
    case_decide as Hx; [rewrite IH, decide_True by set_solver; done|].
    case_decide as Hs; [rewrite IH, decide_True by set_solver; done|].
    rewrite IH, decide_False by set_solver. cbn [fmap list_fmap snd]. rewrite <-app_assoc. cbn [app].
    replace (existing ∪ ({[rule_host raw]} ∪ seen)) with ({[rule_host raw]} ∪ (existing ∪ seen)) by set_solver.
    by rewrite hosts_of_cons.
Qed.
Lemma ingress_firsts scheme annotation opts existing ing seen out :
  discover_ingress scheme annotation opts existing (seen, out) ing =
    let new := firsts (existing ∪ seen) (ingress_candidates scheme annotation opts ing) in
    (hosts_of new ∪ seen, out ++ new.*2).
Proof.
  cbv zeta. unfold discover_ingress, ingress_candidates.
  assert (Hno : (seen, out) = (hosts_of (firsts (existing ∪ seen) []) ∪ seen, out ++ (firsts (existing ∪ seen) []).*2))
    by (cbn [firsts fmap list_fmap]; by rewrite hosts_of_nil, app_nil_r).
  case_decide as Hs; [by rewrite bool_decide_eq_true_2|rewrite bool_decide_eq_false_2 by done; cbn [orb]].
  destruct (isEphemeralIngress _); [exact Hno|]. destruct (opted_out _ _); [exact Hno|]. apply rules_firsts.
Qed.
Lemma ingresses_firsts scheme annotation opts existing items seen out :
  foldl (discover_ingress scheme annotation opts existing) (seen, out) items =
    let new := firsts (existing ∪ seen) (candidates scheme annotation opts items) in
    (hosts_of new ∪ seen, out ++ new.*2).
Proof.
  revert seen out. induction items as [|ing items IH]; intros seen out; cbv zeta.
  - change (candidates _ _ _ []) with (@nil (string * EndpointTarget)). cbn [foldl firsts fmap list_fmap].
    by rewrite hosts_of_nil, app_nil_r.
  - cbn [foldl]. unfold candidates. rewrite bind_cons. fold (candidates scheme annotation opts items).
    rewrite firsts_app, ingress_firsts. cbv zeta. set (new := firsts (existing ∪ seen) (ingress_candidates _ _ _ _)).
    rewrite IH. cbv zeta. replace (existing ∪ (hosts_of new ∪ seen)) with (hosts_of new ∪ (existing ∪ seen)) by set_solver.
    rewrite fmap_app, app_assoc. f_equal. unfold hosts_of. rewrite fmap_app, list_to_set_app_L. set_solver.
Qed.
Lemma elem_of_firsts seen l c : c ∈ firsts seen l ↔
  c.1 ≠ "" ∧ c.1 ∉ seen ∧ ∃ pre post, l = pre ++ c :: post ∧ c.1 ∉ pre.*1.
Proof.
  revert seen. induction l as [|x l IH]; intros seen; cbn [firsts].
  - split; [intros []%elem_of_nil|]. intros (_ & _ & [|] & post & E & _); discriminate.
  - assert (Hcons : (∃ pre post, x :: l = pre ++ c :: post ∧ c.1 ∉ pre.*1) ↔
      x = c ∨ (c.1 ≠ x.1 ∧ ∃ pre post, l = pre ++ c :: post ∧ c.1 ∉ pre.*1)).
    { split.
      - intros ([|y pre] & post & E & Hn); cbn in E; injection E as <- El; [by left|right].
        cbn in Hn. apply not_elem_of_cons in Hn as [? ?]. split; [done|]. by exists pre, post.
      - intros [->|(Hne & pre & post & -> & Hn)]; [by exists [], l; split; [|apply not_elem_of_nil]|].
        exists (x :: pre), post. split; [done|]. cbn. by apply not_elem_of_cons. }
    rewrite Hcons. case_decide as Hx.
    + rewrite IH. split; [|intros (He & Hs & [->|[Hne HP]]); [tauto|auto]].
      intros (He & Hs & HP). split_and!; [done..|]. right. split; [|done]. intros E. rewrite <-E in Hx. tauto.
    + rewrite elem_of_cons, IH. rewrite not_elem_of_union, not_elem_of_singleton.
      split; [intros [->|(? & [? ?] & HP)]; [tauto|tauto]|]. intros (He & Hs & [->|[Hne HP]]); [by left|right; tauto].
Qed.
Lemma firsts_distinct seen l : NoDup (firsts seen l).*1.
Proof.
  revert seen. induction l as [|x l IH]; intros seen; cbn [firsts]; [by apply NoDup_nil_2|]. case_decide; [apply IH|].
  cbn. apply NoDup_cons. split; [|apply IH]. intros ((h & t) & Hh & Hin)%list_elem_of_fmap. cbn in Hh. subst h.
  apply elem_of_firsts in Hin as (_ & Hin & _). cbn in Hin. set_solver.
Qed.

(** The entries of the reader the same way. *)
Definition learnt_candidate (e : Entry) : string * EndpointTarget :=
  let host := ToLower (TrimSpace (en_Key e)) in
  (host, mkTarget ("https" +:+ "://" +:+ host) (if en_DisplayName e =s? "" then host +:+ " (learnt)" else en_DisplayName e) 0 None).
Lemma learnt_firsts known entries : learnt_loop known entries = (firsts known (learnt_candidate <$> entries)).*2.
Proof.
  revert known. induction entries as [|e entries IH]; intros known; [reflexivity|].
  cbn [learnt_loop fmap list_fmap firsts]. cbn [learnt_candidate fst]. set (host := ToLower (TrimSpace (en_Key e))).
  case_bool_decide as He; [rewrite decide_True by auto; apply IH|].
  case_decide as Hk; [rewrite decide_True by auto; apply IH|]. rewrite decide_False by tauto. cbn [fmap list_fmap snd]. f_equal. apply IH.
Qed.

(** A list of candidates whose targets are at their own hosts. *)
Definition at_host (scheme : string) (c : string * EndpointTarget) : Prop := t_URL c.2 = scheme +:+ "://" +:+ c.1.
Lemma firsts_sub seen l c : c ∈ firsts seen l → c ∈ l ∧ c.1 ≠ "" ∧ c.1 ∉ seen.
Proof. intros (? & ? & pre & post & -> & _)%elem_of_firsts. split; [|done]. apply elem_of_app. right. apply list_elem_of_here. Qed.
Lemma urls_of scheme seen l : Forall (at_host scheme) l →
  (t_URL ∘ snd) <$> firsts seen l = (λ h, scheme +:+ "://" +:+ h) <$> (firsts seen l).*1.
Proof.
  intros Hl. rewrite <-list_fmap_compose. apply Forall_fmap_ext_1, Forall_forall. intros c (Hc & _)%firsts_sub.
  rewrite Forall_forall in Hl. exact (Hl c Hc).
Qed.
Lemma candidates_at scheme annotation opts items : Forall (at_host scheme) (candidates scheme annotation opts items).
Proof.
  apply Forall_forall. intros c. unfold candidates. rewrite list_elem_of_bind. intros (ing & Hc & _). unfold ingress_candidates in Hc.
  destruct (_ || _ || _); [by apply elem_of_nil in Hc|]. apply list_elem_of_fmap in Hc as (raw & -> & _). reflexivity.
Qed.
Lemma sapp_inj_l s t u : s +:+ t = s +:+ u → t = u.
Proof. induction s as [|c s IH]; cbn; [done|]. intros E. injection E. exact IH. Qed.
#[export] Instance url_le_total : Total url_le.
Proof. intros a b. unfold url_le. destruct (String.leb (t_URL a) (t_URL b)) eqn:E; [auto|]. right.
  destruct (String.leb_total (t_URL a) (t_URL b)) as [H|H]; [congruence|exact H]. Qed.

(** The scheme and the annotation in force. *)
Definition scheme_of (opts : DiscoveryOptions) : string := if do_Scheme opts =s? "" then "https" else do_Scheme opts.
Definition annotation_of (opts : DiscoveryOptions) : string :=
  if do_OptOutAnnotation opts =s? "" then "srenix.ai/probe-disable" else do_OptOutAnnotation opts.
Lemma DiscoverIngressTargets_firsts items opts existing : do_Enabled opts = true →
  DiscoverIngressTargets (Some items) opts existing =
    merge_sort url_le (firsts (list_to_set (ToLower <$> existing)) (candidates (scheme_of opts) (annotation_of opts) opts items)).*2.
Proof.
  intros He. unfold DiscoverIngressTargets. rewrite He. cbn [negb]. cbv zeta. fold (scheme_of opts) (annotation_of opts).
  rewrite ingresses_firsts. cbv zeta. cbn [snd app]. by rewrite (right_id_L ∅ (∪)).
Qed.

(** Discovery is a function of the hosts of the rules in their order:
    the result is sorted by URL, no URL occurs twice, and a target is in it
    exactly when it is the first for its host among the rules of the
    Ingresses that are not skipped, not a solver's and not opted out, and
    the host is neither empty nor already covered. *)
Theorem discovered_correct items opts existing (He : do_Enabled opts = true) :
  let out := DiscoverIngressTargets (Some items) opts existing in
  Sorted url_le out ∧ NoDup (t_URL <$> out) ∧
  ∀ t, t ∈ out ↔ ∃ host pre post, candidates (scheme_of opts) (annotation_of opts) opts items = pre ++ (host, t) :: post ∧
    host ∉ pre.*1 ∧ host ≠ "" ∧ host ∉ ToLower <$> existing.
Proof.
  cbv zeta. rewrite DiscoverIngressTargets_firsts by done.
  set (seen := list_to_set (ToLower <$> existing)). set (cs := candidates _ _ _ _).
  split_and!.
  - apply Sorted_merge_sort. apply _.
  - rewrite merge_sort_Permutation. rewrite <-list_fmap_compose, (urls_of (scheme_of opts)) by apply candidates_at.
    apply NoDup_fmap_2; [|apply firsts_distinct]. intros a b E. apply sapp_inj_l in E. cbn in E. by injection E.
  - intros t. rewrite merge_sort_Permutation, list_elem_of_fmap. split.
    + intros ([host u] & -> & (Hne & Hs & pre & post & E & Hp)%elem_of_firsts). exists host, pre, post.
      split_and!; [exact E|exact Hp|exact Hne|]. intros Hin. apply Hs, elem_of_list_to_set, Hin.
    + intros (host & pre & post & E & Hp & Hne & Hs). exists (host, t). split; [done|]. apply elem_of_firsts.
      split_and!; [exact Hne| |by exists pre, post]. intros Hin%elem_of_list_to_set. exact (Hs Hin).
Qed.

(** ** The hosts of the whole list *)

Definition plain (h : string) : bool := sforallb (λ c, negb (ends_host c)) h.
Definition lowered (h : string) : bool := sforallb (λ c, bool_decide (lower c = c)) h.
Lemma lower_idem c : lower (lower c) = lower c.
Proof. destruct c as [[] [] [] [] [] [] [] []]; reflexivity. Qed.
Lemma lowered_fixed h : lowered h = true → ToLower h = h.
Proof. unfold lowered, ToLower. induction h as [|c h IH]; cbn; [done|]. intros [->%bool_decide_eq_true Hh]%andb_prop. f_equal. exact (IH Hh). Qed.
Lemma lowered_ToLower s : lowered (ToLower s) = true.
Proof. unfold lowered, ToLower. induction s as [|c s IH]; cbn; [done|]. rewrite bool_decide_eq_true_2 by apply lower_idem. exact IH. Qed.
Lemma before_path_plain h : plain h = true → before_path h = h.
Proof. unfold plain. induction h as [|c h IH]; cbn; [done|]. intros [Hc Hh]%andb_prop. destruct (ends_host c); [discriminate|]. f_equal. exact (IH Hh). Qed.
Lemma Index_scheme sch h : sforallb (λ c, bool_decide (c ≠ ":"%char)) sch = true →
  Index (sch +:+ "://" +:+ h) "://" = Some (len sch).
Proof.
  induction sch as [|c sch IH]; intros Hs.
  - rewrite Index_unfold. by rewrite (HasPrefix_app "://" h : String.prefix "://" ("" +:+ "://" +:+ h) = true).
  - cbn [sforallb] in Hs. apply andb_prop in Hs as [Hc%bool_decide_eq_true Hs]. rewrite Index_unfold.
    assert (String.prefix "://" (String c sch +:+ "://" +:+ h) = false) as ->.
    { apply not_true_iff_false. intros [t E]%prefix_spec. cbn in E. injection E as E _. exact (Hc E). }
    change (S <$> Index (sch +:+ "://" +:+ h) "://" = Some (len (String c sch))). by rewrite IH.
Qed.
Lemma hostOf_url sch h : sforallb (λ c, bool_decide (c ≠ ":"%char)) sch = true → plain h = true → lowered h = true →
  hostOf (sch +:+ "://" +:+ h) = h.
Proof.
  intros Hs Hp Hl. unfold hostOf. rewrite Index_scheme by done.
  replace (sdrop (len sch + 3) (sch +:+ "://" +:+ h)) with h.
  2:{ rewrite <-sapp_assoc. replace (len sch + 3)%nat with (len (sch +:+ "://")) by (rewrite sapp_length; reflexivity). by rewrite sdrop_app. }
  rewrite before_path_plain by done. exact (lowered_fixed h Hl).
Qed.

(** The hosts of a list of candidates whose hosts can be read back. *)
Lemma firsts_hosts scheme seen cs : sforallb (λ c, bool_decide (c ≠ ":"%char)) scheme = true → Forall (at_host scheme) cs →
  Forall (λ c : string * EndpointTarget, plain c.1 = true ∧ lowered c.1 = true) cs →
  hostnamesOf (firsts seen cs).*2 = (firsts seen cs).*1.
Proof.
  intros Hs Hat Hpl. unfold hostnamesOf. rewrite <-list_fmap_compose. apply Forall_fmap_ext_1, Forall_forall.
  intros c (Hc & _)%firsts_sub. rewrite Forall_forall in Hat, Hpl. cbn. rewrite (Hat c Hc). destruct (Hpl c Hc). by apply hostOf_url.
Qed.
Lemma learnt_lowered e : lowered (learnt_candidate e).1 = true.
Proof. apply lowered_ToLower. Qed.
Lemma rule_host_lowered raw : lowered (rule_host raw) = true.
Proof. destruct raw; try reflexivity. apply sforallb_TrimSpace, lowered_ToLower. Qed.
Lemma firsts_hosts_distinct seen cs known : (∀ h, h ∈ known → h ∈ seen) → NoDup known → NoDup (known ++ (firsts seen cs).*1).
Proof.
  intros Hk Hn. apply NoDup_app. split_and!; [exact Hn| |apply firsts_distinct]. intros h Hh ([k t] & -> & Hin)%list_elem_of_fmap.
  apply firsts_sub in Hin as (_ & _ & Hin). exact (Hin (Hk _ Hh)).
Qed.

Lemma candidates_lowered scheme annotation opts items c : c ∈ candidates scheme annotation opts items → lowered c.1 = true.
Proof.
  unfold candidates. rewrite list_elem_of_bind. intros (ing & Hc & _). unfold ingress_candidates in Hc.
  destruct (_ || _ || _); [by apply elem_of_nil in Hc|]. apply list_elem_of_fmap in Hc as (raw & -> & _). apply rule_host_lowered.
Qed.
Lemma hostnamesOf_app l k : hostnamesOf (l ++ k) = hostnamesOf l ++ hostnamesOf k.
Proof. apply fmap_app. Qed.
Lemma hostnamesOf_lowered l h : h ∈ hostnamesOf l → ToLower h = h.
Proof. intros (t & -> & _)%list_elem_of_fmap. apply lowered_fixed, lowered_ToLower. Qed.

(** The static hosts are host names, and so are the others. *)
Record Hosts (static : list EndpointTarget) (entries : list Entry) (items : list json) (opts : DiscoveryOptions) : Prop := {
  static_distinct : NoDup (hostnamesOf static);
  static_trimmed : Forall (λ h, TrimSpace h = h) (hostnamesOf static);
  learnt_plain : Forall (λ e, plain (learnt_candidate e).1 = true) entries;
  found_plain : Forall (λ c : string * EndpointTarget, plain c.1 = true) (candidates (scheme_of opts) (annotation_of opts) opts items);
  no_colon : sforallb (λ c, bool_decide (c ≠ ":"%char)) (scheme_of opts) = true;
}.
Lemma learnt_hosts entries seen : Forall (λ e, plain (learnt_candidate e).1 = true) entries →
  hostnamesOf (firsts seen (learnt_candidate <$> entries)).*2 = (firsts seen (learnt_candidate <$> entries)).*1.
Proof.
  intros Hl. apply (firsts_hosts "https"); [reflexivity|apply Forall_fmap, Forall_true; reflexivity|]. apply Forall_fmap.
  eapply Forall_impl; [exact Hl|]. intros e He. exact (conj He (learnt_lowered e)).
Qed.
Lemma found_hosts items opts seen : sforallb (λ c, bool_decide (c ≠ ":"%char)) (scheme_of opts) = true →
  Forall (λ c : string * EndpointTarget, plain c.1 = true) (candidates (scheme_of opts) (annotation_of opts) opts items) →
  let d := firsts seen (candidates (scheme_of opts) (annotation_of opts) opts items) in hostnamesOf d.*2 = d.*1.
Proof.
  intros Hs Hd. apply (firsts_hosts (scheme_of opts)); [exact Hs|apply candidates_at|]. rewrite Forall_forall in Hd |- *. intros c Hc.
  exact (conj (Hd c Hc) (candidates_lowered _ _ _ _ _ Hc)).
Qed.

(** The same host is not probed twice: when the configured targets have
    different hosts and every host is a host name, all targets of the cycle
    have different hosts, whatever the reader and the Ingresses repeat. *)
Theorem targets_distinct static entries items opts (Hen : do_Enabled opts = true) (Hh : Hosts static entries items opts) :
  NoDup (hostnamesOf (all_targets static (Some entries) (Some items) opts).1).
Proof.
  destruct Hh as [Hst Htr Hl Hd Hs]. unfold all_targets. cbn [learntApexTargets]. rewrite learnt_firsts, DiscoverIngressTargets_firsts by done.
  cbn [fst]. set (l := firsts _ _). assert (El : hostnamesOf l.*2 = l.*1) by exact (learnt_hosts entries _ Hl).
  replace ((λ t, hostOf (t_URL t)) <$> l.*2) with l.*1 by (symmetry; exact El).
  set (d := firsts _ _). assert (Ed : hostnamesOf d.*2 = d.*1) by exact (found_hosts items opts _ Hs Hd).
  assert (Hp : hostnamesOf (merge_sort url_le d.*2) ≡ₚ d.*1) by (rewrite <-Ed; apply fmap_Permutation, merge_sort_Permutation).
  rewrite !hostnamesOf_app, El, app_assoc, Hp.
  assert (Hn : NoDup (hostnamesOf static ++ l.*1)).
  { apply firsts_hosts_distinct; [|exact Hst]. intros h Hin. apply elem_of_list_to_set, list_elem_of_fmap. exists h. split; [|done].
    rewrite Forall_forall in Htr. rewrite (Htr h Hin). symmetry. exact (hostnamesOf_lowered _ _ Hin). }
  apply firsts_hosts_distinct; [|exact Hn]. intros h Hin. apply elem_of_list_to_set, list_elem_of_fmap. exists h. split; [|done].
  apply elem_of_app in Hin as [Hin|Hin]; symmetry; [exact (hostnamesOf_lowered _ _ Hin)|].
  apply (hostnamesOf_lowered l.*2). rewrite El. exact Hin.
Qed.

(** ** An example *)

Definition ingress (ns name : string) (hosts : list string) : json :=
  JObj [("metadata", JObj [("namespace", JStr ns); ("name", JStr name)]);
        ("spec", JObj [("rules", JArr ((λ h, JObj [("host", JStr h)]) <$> hosts))])].
Definition shop : list json := [ingress "web" "shop" ["b.example.com"; "A.example.com"; "b.example.com"]; ingress "vault" "ui" ["vault.example.com"]].
Definition www : list EndpointTarget := [mkTarget "https://www.example.com/health" "www" 200 None].
Definition zone : list Entry := [mkEntry "example.com" ""; mkEntry " WWW.example.com " "home"].
Example shop_targets : t_URL <$> (all_targets www (Some zone) (Some shop) DefaultDiscoveryOptions).1 =
  ["https://www.example.com/health"; "https://example.com"; "https://a.example.com"; "https://b.example.com"].
Proof. vm_compute. reflexivity. Qed.
Lemma discovered_correct_witness : NoDup (t_URL <$> DiscoverIngressTargets (Some shop) DefaultDiscoveryOptions ["www.example.com"]).
Proof. exact (proj1 (proj2 (discovered_correct shop DefaultDiscoveryOptions ["www.example.com"] eq_refl))). Defined.
Lemma shop_hosts : Hosts www zone shop DefaultDiscoveryOptions.
Proof.
  split; [| | | |reflexivity].
  - apply (bool_decide_unpack _). vm_compute. exact I.
  - apply (bool_decide_unpack _). vm_compute. exact I.
  - apply (bool_decide_unpack _). vm_compute. exact I.
  - apply (bool_decide_unpack _). vm_compute. exact I.
Qed.
Lemma targets_distinct_witness : NoDup (hostnamesOf (all_targets www (Some zone) (Some shop) DefaultDiscoveryOptions).1).
Proof. exact (targets_distinct www zone shop DefaultDiscoveryOptions eq_refl shop_hosts). Defined.
