(* ===== verification/Endpoints.v ===== *)
(** * The endpoint probe: internal/probe/endpoints.go

    One pass asks every target once, a flake twice, and turns the failures
    into findings; the tracker that the runs share decides how loud.  The
    HTTP client below [net/http], the clock, [net/url] and [regexp] are the
    operations of a class; a response body is its [Read]s. *)

From stdpp Require Import options.
From S2P Require Import Prelude GoString GoTime GoJson GoFmt Types Discovery.
Local Open Scope Z_scope.

(** ** Bodies *)

Inductive ReadError := EOF | ReadFailed (e : string).
(** What the i-th [Read(tmp)] gives. *)
Definition Reader : Type := nat → string * option ReadError.
Definition maxBytes : Z := 64 * 1024.
Definition slen (s : string) : Z := Z.of_nat (len s).
(** The loop from its [i]-th read on, [None] when the fuel runs out. *)
Fixpoint read_loop (fuel : nat) (r : Reader) (i : nat) (buf : string) : option (string * option string) :=
  if slen buf <? maxBytes then
    match fuel with
    | O => None
    | S fuel =>
        let '(tmp, err) := r i in
        let buf := buf +:+ tmp in
        match err with
        | Some EOF => Some (buf, None)
        | Some (ReadFailed e) => Some (buf, Some e)
        | None => read_loop fuel r (S i) buf
        end
    end
  else Some (buf, None).
(** A body with the number of reads in a row that may give nothing. *)
Record Body := mkBody { b_Read : Reader; b_stall : nat }.
Definition read_fuel (stall : nat) : nat := Z.to_nat (maxBytes * (Z.of_nat stall + 1)).
Definition readBoundedBody (b : Body) : string * option string :=
  default ("", None) (read_loop (read_fuel (b_stall b)) (b_Read b) 0 "").

(** ** The network *)

Record DoError := mkDoError { de_Error : string; de_Unwrapped : string }.
Record Response := mkResponse { r_StatusCode : Z; r_Body : Body }.
Class Net (S : Type) := {
  now : S → Time;
  (** [client.Do] of a GET that must end by the deadline. *)
  do_get : S → Time → string → string → S * (DoError + Response);
  (** Waits; [false] when [ctx] is done first. *)
  wait : S → Duration → S * bool;
  (** [http.NewRequestWithContext], its error. *)
  NewRequest : string → option string;
  (** [url.Parse], the host required, with the path replaced and printed. *)
  l7_url : string → string → option string;
  (** [regexp.Compile] and [MatchString]. *)
  Compile : string → option (string → bool);
}.

Definition isTLSError (e : DoError) : bool :=
  let s := de_Error e in
  Contains s "tls:" || Contains s "x509:" || Contains s "certificate signed by unknown authority" || Contains s "self-signed certificate".
Definition unwrapErr (e : DoError) : string := de_Unwrapped e.
Definition truncate (s : string) (n : nat) : string :=
  if slen s <=? Z.of_nat n then s else stake n s +:+ "…".

Definition noFinding : Finding := mkFinding "" "" "" "" "".
Definition isTransientFailure (f : Finding) : bool :=
  let m := f_Message f in
  Contains m "connection failed" &&
    (Contains m "context deadline exceeded" || Contains m "connection reset by peer" || Contains m "EOF"
     || Contains m "no such host" || Contains m "i/o timeout").
Definition isDeterministicFailure (f : Finding) : bool :=
  let m := f_Message f in
  if Contains m "TLS verification failed" then true
  else if Contains m "expected " && Contains m "HTTP " then true
  else Contains m "invalid URL".

(** The tracker's counts by URL. *)
Notation Streaks := (gmap string Z).

Section probe.
Context {S : Type} `{Net S}.

Definition matchBody (body expect : string) : bool :=
  if HasPrefix expect "regex:" then
    match Compile (TrimPrefix expect "regex:") with
    | None => false
    | Some matches => matches body
    end
  else Contains body expect.

(** A context is its deadline, and [context.WithTimeout] the earlier one. *)
Definition Ctx : Type := option Time.
Definition WithTimeout (s : S) (ctx : Ctx) (d : Duration) : Time :=
  match ctx with Some t => Z.min t (now s + d) | None => now s + d end.
(** The client adds its own time limit. *)
Definition client_deadline (s : S) (Timeout : Duration) (ctx : Time) : Time :=
  if 0 <? Timeout then Z.min ctx (now s + Timeout) else ctx.
Definition client_Do (s : S) (Timeout : Duration) (ctx : Time) (agent url : string) : S * (DoError + Response) :=
  do_get s (client_deadline s Timeout ctx) agent url.

Definition l7_expected (t : EndpointTarget) (l7 : EndpointL7Spec) : Z :=
  if l7_ExpectStatus l7 =? 0 then t_ExpectStatus t else l7_ExpectStatus l7.
Definition l7_finding (t : EndpointTarget) (sev msg rem : string) : Finding :=
  mkFinding ("Endpoint(L7): " +:+ t_Name t) sev msg rem "".
(** What the response says of the target. *)
Definition l7_verdict (t : EndpointTarget) (l7 : EndpointL7Spec) (u : string) (resp : Response) : Finding * bool :=
  let expectStatus := l7_expected t l7 in
  if negb (expectStatus =? 0) && negb (r_StatusCode resp =? expectStatus) then
    (l7_finding t SeverityCritical (u +:+ ": L7 HTTP " +:+ Itoa (r_StatusCode resp) +:+ " (expected " +:+ Itoa expectStatus +:+ ")") "", false)
  else if l7_ExpectBody l7 =s? "" then (noFinding, true)
  else
    let body := (readBoundedBody (r_Body resp)).1 in
    if negb (matchBody body (l7_ExpectBody l7)) then
      (l7_finding t SeverityCritical
         (u +:+ ": L7 body assertion failed — expected " +:+ Quote (l7_ExpectBody l7) +:+ ", got first 200 chars " +:+ Quote (truncate body 200))
         "Backend returned 2xx but body content drifted — inspect the workload's recent deploy or feature-flag state", false)
    else (noFinding, true).
Definition checkEndpointL7 (s : S) (Timeout : Duration) (ctx : Time) (t : EndpointTarget) (l7 : EndpointL7Spec) : S * (Finding * bool) :=
  match l7_url (t_URL t) (l7_Path l7) with
  | None => (s, (l7_finding t SeverityWarning ("L7 check skipped — invalid base URL " +:+ Quote (t_URL t)) "", false))
  | Some u =>
      match NewRequest u with
      | Some err => (s, (l7_finding t SeverityWarning ("L7 check: build request: " +:+ err) "", false))
      | None =>
          let '(s, r) := client_Do s Timeout ctx "srenix-endpoint-probe-l7/1.0" u in
          match r with
          | inl err => (s, (l7_finding t SeverityWarning (u +:+ ": L7 connection failed — " +:+ unwrapErr err) "", false))
          | inr resp => (s, l7_verdict t l7 u resp)
          end
      end
  end.

Definition finding (t : EndpointTarget) (msg rem : string) : Finding :=
  mkFinding ("Endpoint: " +:+ t_Name t) SeverityCritical msg rem "".
Definition checkEndpoint (s : S) (Timeout : Duration) (ctx : Time) (t : EndpointTarget) : S * (Finding * bool) :=
  match NewRequest (t_URL t) with
  | Some err => (s, (finding t ("invalid URL " +:+ Quote (t_URL t) +:+ ": " +:+ err) "", false))
  | None =>
      let '(s, r) := client_Do s Timeout ctx "srenix-endpoint-probe/1.0" (t_URL t) in
      match r with
      | inl err =>
          if isTLSError err then
            (s, (finding t (t_URL t +:+ ": TLS verification failed — " +:+ unwrapErr err)
                   "Check cert-manager certificate status and DNS/Cloudflare proxy settings", false))
          else
            (s, (finding t (t_URL t +:+ ": connection failed — " +:+ unwrapErr err)
                   "Check DNS, Kong ingress route, and pod readiness for this host", false))
      | inr resp =>
          if negb (t_ExpectStatus t =? 0) && negb (r_StatusCode resp =? t_ExpectStatus t) then
            (s, (finding t (t_URL t +:+ ": HTTP " +:+ Itoa (r_StatusCode resp) +:+ " (expected " +:+ Itoa (t_ExpectStatus t) +:+ ")")
                   "Check Kong ingress rules, backend deployment readiness, and cert-manager TLS secrets", false))
          else
            match t_L7 t with
            | Some l7 => if l7_Path l7 =s? "" then (s, (noFinding, true)) else checkEndpointL7 s Timeout ctx t l7
            | None => (s, (noFinding, true))
            end
      end
  end.

(** One attempt under a time of its own. *)
Definition attempt (s : S) (ctx : Ctx) (Timeout timeout : Duration) (t : EndpointTarget) : S * (Finding * bool) :=
  checkEndpoint s Timeout (WithTimeout s ctx timeout) t.
Definition probeWithRetry (s : S) (ctx : Ctx) (Timeout : Duration) (t : EndpointTarget) (baseTimeout : Duration) (retryOnFlake : bool)
    : S * (Finding * bool) :=
  let '(s, (f, ok)) := attempt s ctx Timeout baseTimeout t in
  if ok || negb retryOnFlake || negb (isTransientFailure f) then (s, (f, ok)) else
  let '(s, waited) := wait s (1500 * Millisecond) in
  if negb waited then (s, (f, false)) else
  let retryTimeout := baseTimeout + Z.quot baseTimeout 2 in
  let '(s, (f, ok)) := attempt s ctx Timeout retryTimeout t in
  if ok then (s, (noFinding, true)) else (s, (f, false)).

(** ** The tracker *)

Definition record (m : Streaks) (target : string) (failed : bool) : Streaks * Z :=
  let m' := if failed then <[target := default 0 (m !! target) + 1]> m else delete target m in
  (m', default 0 (m' !! target)).

(** ** A run *)

Record Endpoints := mkEndpoints {
  e_Targets : list EndpointTarget;
  e_Discovery : DiscoveryOptions;
  e_Timeout : Duration;
  e_MinConsecutiveFailures : Z;
  e_RetryOnFlake : bool;
}.
Definition NewEndpoints (targets : list EndpointTarget) (disc : DiscoveryOptions) : Endpoints :=
  mkEndpoints targets disc 0 2 true.
Definition timeout_of (e : Endpoints) : Duration := if e_Timeout e =? 0 then 10 * Second else e_Timeout e.
Definition minStreak_of (e : Endpoints) : Z := if e_MinConsecutiveFailures e <? 1 then 2 else e_MinConsecutiveFailures e.

(** The loop's variables. *)
Record Tally := mkTally { ta_Findings : list Finding; ta_issues : Z; ta_healthy : Z; ta_suppressed : Z }.
Definition warned (minStreak streak : Z) (f : Finding) : Finding :=
  mkFinding (f_Component f) SeverityWarning ("[transient, " +:+ Itoa streak +:+ "/" +:+ Itoa minStreak +:+ "] " +:+ f_Message f)
    (f_Remediation f) (f_Investigation f).
Definition escalated (f : Finding) : Finding :=
  mkFinding (f_Component f) SeverityCritical (f_Message f) (f_Remediation f) (f_Investigation f).
(** The body of the loop after the probe of [t]. *)
Definition account (minStreak : Z) (st : Streaks * Tally) (t : EndpointTarget) (outcome : Finding * bool) : Streaks * Tally :=
  let '(m, mkTally fs issues healthy suppressed) := st in
  let '(f, ok) := outcome in
  if ok then ((record m (t_URL t) false).1, mkTally fs issues (healthy + 1) suppressed)
  else if isDeterministicFailure f then ((record m (t_URL t) true).1, mkTally (fs ++ [f]) (issues + 1) healthy suppressed)
  else
    let '(m, streak) := record m (t_URL t) true in
    if streak <? minStreak then (m, mkTally (fs ++ [warned minStreak streak f]) issues healthy (suppressed + 1))
    else (m, mkTally (fs ++ [escalated f]) (issues + 1) healthy suppressed).
Fixpoint run_loop (s : S) (ctx : Ctx) (e : Endpoints) (st : Streaks * Tally) (ts : list EndpointTarget) : S * (Streaks * Tally) :=
  match ts with
  | [] => (s, st)
  | t :: ts =>
      let '(s, outcome) := probeWithRetry s ctx (timeout_of e) t (timeout_of e) (e_RetryOnFlake e) in
      run_loop s ctx e (account (minStreak_of e) st t outcome) ts
  end.
Definition verdict (ta : Tally) (total discovered : Z) : ComponentResult :=
  let '(mkTally _ issues healthy suppressed) := ta in
  if (issues =? 0) && (suppressed =? 0) then
    mkComponentResult "External Endpoints" "HEALTHY"
      ("All " +:+ Itoa healthy +:+ " endpoints reachable (" +:+ Itoa discovered +:+ " auto-discovered)")
  else if issues =? 0 then
    mkComponentResult "External Endpoints" "HEALTHY"
      ("All " +:+ Itoa healthy +:+ " endpoints reachable (" +:+ Itoa discovered +:+ " auto-discovered, " +:+ Itoa suppressed +:+
       " transient under threshold)")
  else
    mkComponentResult "External Endpoints" "CRITICAL"
      (Itoa issues +:+ "/" +:+ Itoa total +:+ " endpoints failing (" +:+ Itoa discovered +:+ " auto-discovered, " +:+ Itoa suppressed +:+
       " transient suppressed)").
(** [Run]; a nil tracker is replaced by a new one that is dropped. *)
Definition Run (s : S) (ctx : Ctx) (e : Endpoints) (streaks : option Streaks) (snapshot : bool)
    (learnt : option (list Entry)) (ingresses : option (list json)) : S * option Streaks * ProbeResult :=
  if snapshot then
    (s, streaks, mkProbeResult (mkComponentResult "External Endpoints" "SKIPPED" "network probes skipped in snapshot mode") [])
  else
    let '(allTargets, discovered) := all_targets (e_Targets e) learnt ingresses (e_Discovery e) in
    if (length allTargets =? 0)%nat then
      (s, streaks, mkProbeResult (mkComponentResult "External Endpoints" "SKIPPED"
        "no targets configured and auto-discovery returned no hosts") [])
    else
      let '(s, (m, ta)) := run_loop s ctx e (default ∅ streaks, mkTally [] 0 0 0) allTargets in
      (s, (λ _, m) <$> streaks, mkProbeResult (verdict ta (Z.of_nat (length allTargets)) (Z.of_nat (length discovered))) (ta_Findings ta)).

(** The passes that share the tracker of [NewEndpoints]: what the clock, the
    reader and the cluster say at each. *)
Definition Pass : Type := Ctx * option (list Entry) * option (list json).
Fixpoint passes (s : S) (e : Endpoints) (m : Streaks) (ps : list Pass) : S * Streaks * list ProbeResult :=
  match ps with
  | [] => (s, m, [])
  | (ctx, learnt, ingresses) :: ps =>
      let '(s, m', r) := Run s ctx e (Some m) false learnt ingresses in
      let '(s, m, rs) := passes s e (default m m') ps in
      (s, m, r :: rs)
  end.

(** ** The specification *)

(** Asking every target, nothing else. *)
Definition Probe : Type := EndpointTarget * (Finding * bool).
Fixpoint probe_all (s : S) (ctx : Ctx) (e : Endpoints) (ts : list EndpointTarget) : S * list Probe :=
  match ts with
  | [] => (s, [])
  | t :: ts =>
      let '(s, outcome) := probeWithRetry s ctx (timeout_of e) t (timeout_of e) (e_RetryOnFlake e) in
      let '(s, ps) := probe_all s ctx e ts in
      (s, (t, outcome) :: ps)
  end.
Fixpoint probe_passes (s : S) (e : Endpoints) (ps : list Pass) : S * list Probe :=
  match ps with
  | [] => (s, [])
  | (ctx, learnt, ingresses) :: ps =>
      let '(s, l) := probe_all s ctx e (all_targets (e_Targets e) learnt ingresses (e_Discovery e)).1 in
      let '(s, l') := probe_passes s e ps in
      (s, l ++ l')
  end.
End probe.

(** The failures in a row that [l], the latest first, starts with. *)
Fixpoint leading (l : list bool) : Z := match l with true :: l => leading l + 1 | _ => 0 end.
(** [past] is every probe so far, the latest first. *)
Definition failures (u : string) (past : list Probe) : list bool :=
  (λ p : Probe, negb p.2.2) <$> filter (λ p : Probe, t_URL p.1 = u) past.
Definition in_a_row (u : string) (past : list Probe) : Z := leading (failures u past).
(** What a probe should add to the findings, given those before it. *)
Definition expected (minStreak : Z) (past : list Probe) (p : Probe) : list Finding :=
  let '(t, (f, ok)) := p in
  if ok then []
  else if isDeterministicFailure f then [f]
  else
    let k := in_a_row (t_URL t) (p :: past) in
    [if k <? minStreak then warned minStreak k f else escalated f].
Fixpoint report (minStreak : Z) (past : list Probe) (ps : list Probe) : list Finding :=
  match ps with
  | [] => []
  | p :: ps => expected minStreak past p ++ report minStreak (p :: past) ps
  end.

(** ** The tracker holds the failures in a row *)

Definition Tracks (m : Streaks) (past : list Probe) : Prop := ∀ u, default 0 (m !! u) = in_a_row u past.
Lemma leading_nonneg l : 0 ≤ leading l.
Proof. induction l as [|[] l IH]; cbn; lia. Qed.
Lemma in_a_row_cons u p past :
  in_a_row u (p :: past) = if decide (t_URL p.1 = u) then (if p.2.2 then 0 else in_a_row u past + 1) else in_a_row u past.
Proof. unfold in_a_row, failures. rewrite filter_cons. case_decide; [cbn [fmap list_fmap]; by destruct (p.2.2)|done]. Qed.
Lemma record_tracks m past t f ok : Tracks m past →
  Tracks (record m (t_URL t) (negb ok)).1 ((t, (f, ok)) :: past) ∧
  (record m (t_URL t) (negb ok)).2 = in_a_row (t_URL t) ((t, (f, ok)) :: past).
Proof.
  intros Hm. assert (HT : Tracks (record m (t_URL t) (negb ok)).1 ((t, (f, ok)) :: past)).
  { intros u. rewrite in_a_row_cons. cbn [fst snd]. unfold record. cbn [fst]. case_decide as E; [subst u|]; destruct ok; cbn [negb].
    - by rewrite lookup_delete_eq.
    - rewrite lookup_insert_eq. cbn. by rewrite Hm.
    - rewrite lookup_delete_ne by done. apply Hm.
    - rewrite lookup_insert_ne by done. apply Hm. }
  split; [exact HT|]. apply HT.
Qed.

Definition accounts (minStreak : Z) (st : Streaks * Tally) (ps : list Probe) : Streaks * Tally :=
  foldl (λ st p, account minStreak st p.1 p.2) st ps.
Lemma account_expected minStreak m ta past p : Tracks m past →
  Tracks (account minStreak (m, ta) p.1 p.2).1 (p :: past) ∧
  ta_Findings (account minStreak (m, ta) p.1 p.2).2 = ta_Findings ta ++ expected minStreak past p.
Proof.
  destruct p as [t [f ok]], ta as [fs i h sp]. intros Hm. destruct (record_tracks m past t f ok Hm) as [HT Hk].
  unfold account, expected. cbn [fst snd]. destruct ok; cbn [negb] in *; [split; [exact HT|by rewrite app_nil_r]|].
  destruct (isDeterministicFailure f); [split; [exact HT|reflexivity]|].
  destruct (record m (t_URL t) true) as [m' k]. cbn [fst snd] in *. subst k. destruct (_ <? _); (split; [exact HT|reflexivity]).
Qed.
Lemma accounts_report minStreak m ta past ps : Tracks m past →
  Tracks (accounts minStreak (m, ta) ps).1 (reverse ps ++ past) ∧
  ta_Findings (accounts minStreak (m, ta) ps).2 = ta_Findings ta ++ report minStreak past ps.
Proof.
  revert m ta past. induction ps as [|p ps IH]; intros m ta past Hm; [split; [exact Hm|cbn; by rewrite app_nil_r]|].
  destruct (account_expected minStreak m ta past p Hm) as [HT HF]. unfold accounts. cbn [foldl].
  destruct (account minStreak (m, ta) p.1 p.2) as [m' ta']. cbn [fst snd] in *. destruct (IH m' ta' (p :: past) HT) as [HT' HF'].
  split; [by rewrite reverse_cons, <-app_assoc|]. unfold accounts in HF'. rewrite HF', HF. cbn [report]. by rewrite app_assoc.
Qed.

Section refinement.
Context {S : Type} `{Net S}.

(** The loop asks and accounts in turn; the asking does not depend on it. *)
Lemma run_loop_split s ctx e st ts :
  run_loop s ctx e st ts = let '(s', ps) := probe_all s ctx e ts in (s', accounts (minStreak_of e) st ps).
Proof.
  revert s st. induction ts as [|t ts IH]; intros s st; cbn [run_loop probe_all]; [reflexivity|].
  destruct (probeWithRetry _ _ _ _ _ _) as [s1 o]. rewrite IH. by destruct (probe_all s1 ctx e ts).
Qed.
Lemma Run_report s ctx e m learnt ingresses past : Tracks m past →
  let '(s', ps) := probe_all s ctx e (all_targets (e_Targets e) learnt ingresses (e_Discovery e)).1 in
  let '(s1, m', r) := Run s ctx e (Some m) false learnt ingresses in
  s1 = s' ∧ Tracks (default m m') (reverse ps ++ past) ∧ pr_Findings r = report (minStreak_of e) past ps.
Proof.
  intros Hm. unfold Run. destruct (all_targets _ _ _ _) as [ts disc]. cbn [fst]. destruct ts as [|t ts].
  - cbn [probe_all length Nat.eqb]. split_and!; [reflexivity|exact Hm|reflexivity].
  - cbn [length Nat.eqb]. rewrite run_loop_split. destruct (probe_all s ctx e (t :: ts)) as [s' ps]. cbn [default from_option].
    destruct (accounts_report (minStreak_of e) m (mkTally [] 0 0 0) past ps Hm) as [HT HF].
    destruct (accounts _ _ ps) as [m' ta]. cbn [fst snd] in *. split_and!; [reflexivity|exact HT|exact HF].
Qed.
Lemma report_app n past ps qs : report n past (ps ++ qs) = report n past ps ++ report n (reverse ps ++ past) qs.
Proof.
  revert past. induction ps as [|p ps IH]; intros past; [reflexivity|]. cbn [app report]. rewrite IH, reverse_cons, <-!app_assoc. reflexivity.
Qed.
Lemma passes_report s e m ps past : Tracks m past →
  let '(s', probes) := probe_passes s e ps in
  let '(s1, m', rs) := passes s e m ps in
  s1 = s' ∧ Tracks m' (reverse probes ++ past) ∧ concat (pr_Findings <$> rs) = report (minStreak_of e) past probes.
Proof.
  revert s m past. induction ps as [|[[ctx learnt] ingresses] ps IH]; intros s m past Hm; cbn [probe_passes passes].
  - split_and!; [reflexivity|exact Hm|reflexivity].
  - pose proof (Run_report s ctx e m learnt ingresses past Hm) as HR.
    destruct (probe_all s ctx e _) as [s1 l], (Run s ctx e _ _ _ _) as [[s1' m'] r]. destruct HR as (-> & HT & HF).
    specialize (IH s1 (default m m') (reverse l ++ past) HT).
    destruct (probe_passes s1 e ps) as [s2 l'], (passes s1 e (default m m') ps) as [[s2' m''] rs]. destruct IH as (-> & HT' & HF').
    split_and!; [reflexivity|by rewrite reverse_app, <-app_assoc|]. cbn [fmap list_fmap concat]. by rewrite HF, HF', report_app.
Qed.

(** C19: over any passes that share one tracker, whatever the network, the
    clock, the reader and the cluster do meanwhile, the findings are those
    the probes alone call for: none for a target that answered; at once for
    a failure that is not a flake; otherwise critical exactly when the last
    [minStreak] probes of the URL all failed, and until then a warning that
    says how many did. *)
Theorem endpoint_severity s e ps :
  let '(_, probes) := probe_passes s e ps in
  let '(_, _, results) := passes s e ∅ ps in
  concat (pr_Findings <$> results) = report (minStreak_of e) [] probes.
Proof.
  assert (Tracks ∅ []) as H0 by (intros u; rewrite lookup_empty; reflexivity).
  pose proof (passes_report s e ∅ ps [] H0) as HP. destruct (probe_passes s e ps), (passes s e ∅ ps) as [[? ?] ?]. apply HP.
Qed.

(** ** The retry *)

Lemma client_deadline_le s T ctx : 0 < T → client_deadline s T ctx = Z.min ctx (now s + T).
Proof. intros ?. unfold client_deadline. by rewrite (proj2 (Z.ltb_lt 0 T)). Qed.
Definition no_l7 (t : EndpointTarget) : bool :=
  match t_L7 t with Some l7 => l7_Path l7 =s? "" | None => true end.
Lemma checkEndpoint_deadline s T c1 c2 t : no_l7 t = true → client_deadline s T c1 = client_deadline s T c2 →
  checkEndpoint s T c1 t = checkEndpoint s T c2 t.
Proof.
  unfold no_l7, checkEndpoint, client_Do. intros Hl ->. destruct (NewRequest _); [reflexivity|].
  destruct (do_get _ _ _ _) as [s' [err|resp]]; [reflexivity|]. destruct (_ && _); [reflexivity|].
  destruct (t_L7 t) as [l7|]; [|reflexivity]. rewrite Hl. reflexivity.
Qed.

(** The retry is no more patient than the first attempt: the client's
    own time limit is the base timeout, so for a target without a body check
    a retry with one and a half times the timeout (or any longer one) and a
    retry with the timeout itself are the same request. *)
Theorem retry_not_longer s ctx t base (Hb : 0 < base) (Hl : no_l7 t = true) longer (Hlong : base ≤ longer) :
  attempt s ctx base longer t = attempt s ctx base base t.
Proof.
  apply checkEndpoint_deadline; [exact Hl|]. rewrite !client_deadline_le by exact Hb. unfold WithTimeout. destruct ctx; lia.
Qed.
End refinement.

(** ** Reading a body *)

(** What the reads from the [i]-th to before the [i + n]-th give. *)
Fixpoint chunks (r : Reader) (i n : nat) : string :=
  match n with O => "" | S n => (r i).1 +:+ chunks r (S i) n end.
Definition outcome_of (e : ReadError) : option string := match e with EOF => None | ReadFailed x => Some x end.
(** The loop may stop after the reads before [k]. *)
Definition stopped (r : Reader) (i k : nat) (out : string) (err : option string) : Prop :=
  (maxBytes ≤ slen out ∧ err = None) ∨ ∃ j e, k = S j ∧ (i ≤ j)%nat ∧ (r j).2 = Some e ∧ err = outcome_of e.
Lemma slen_app s t : slen (s +:+ t) = slen s + slen t.
Proof. unfold slen. rewrite sapp_length. lia. Qed.
Lemma slen_pos s : s ≠ "" → 0 < slen s.
Proof. unfold slen. destruct s; cbn; [done|lia]. Qed.
Lemma read_loop_result fuel r i buf out err : read_loop fuel r i buf = Some (out, err) →
  ∃ n, out = buf +:+ chunks r i n ∧ stopped r i (i + n) out err ∧ (∀ j, (i ≤ j)%nat → (j + 1 < i + n)%nat → (r j).2 = None).
Proof.
  revert i buf. induction fuel as [|fuel IH]; intros i buf; cbn [read_loop]; destruct (Z.ltb_spec (slen buf) maxBytes) as [Hlt|Hge].
  1: discriminate.
  1,3: intros E; injection E as <- <-; exists 0%nat; cbn [chunks]; rewrite sapp_nil_r; split_and!; [done|left; done|lia].
  destruct (r i) as [tmp er] eqn:Er. destruct er as [e|].
  - assert (Hstop : ∀ x, x = (buf +:+ tmp, outcome_of e) → x = (out, err) → ∃ n, out = buf +:+ chunks r i n ∧
        stopped r i (i + n) out err ∧ (∀ j, (i ≤ j)%nat → (j + 1 < i + n)%nat → (r j).2 = None)).
    { intros x -> E. injection E as <- <-. exists 1%nat. cbn [chunks]. rewrite Er. cbn [fst]. rewrite sapp_nil_r. split_and!; [done| |lia].
      right. exists i, e. rewrite Er. split_and!; [lia|lia|done|done]. }
    destruct e; intros E; injection E; intros; eapply Hstop; [reflexivity|cbn; congruence|reflexivity|cbn; congruence].
  - intros (n & -> & Hst & Hno)%IH. exists (Datatypes.S n). cbn [chunks]. rewrite Er. cbn [fst]. rewrite <-sapp_assoc. split_and!; [done| |].
    + destruct Hst as [Hst|(j & e & Hk & Hi & Hst)]; [by left|]. right. exists j, e. split; [lia|]. split; [lia|exact Hst].
    + intros j Hi Hj. destruct (decide (j = i)) as [->|]; [by rewrite Er|]. apply Hno; lia.
Qed.
Lemma read_loop_bound fuel r i buf out err : (∀ j, slen (r j).1 ≤ 4096) → slen buf < maxBytes + 4096 →
  read_loop fuel r i buf = Some (out, err) → slen out < maxBytes + 4096.
Proof.
  intros Hs. revert i buf. induction fuel as [|fuel IH]; intros i buf Hb; cbn [read_loop]; destruct (Z.ltb_spec (slen buf) maxBytes) as [Hlt|Hge].
  1: discriminate.
  1,3: intros E; injection E as <- <-; exact Hb.
  specialize (Hs i). destruct (r i) as [tmp er]. cbn [fst] in Hs.
  assert (slen (buf +:+ tmp) < maxBytes + 4096) by (rewrite slen_app; lia).
  destruct er as [[|e]|]; [intros E; injection E as <- <-; done..|]. by apply IH.
Qed.

(** A read in [n] more that gives bytes or ends the body. *)
Definition moves (r : Reader) (i n : nat) : Prop := ∃ j, (i ≤ j ≤ i + n)%nat ∧ ((r j).1 ≠ "" ∨ (r j).2 ≠ None).
Lemma read_loop_total r stall : (∀ i, moves r i stall) →
  ∀ fuel i n buf, moves r i n → (maxBytes - slen buf - 1) * (Z.of_nat stall + 1) + Z.of_nat n + 1 ≤ Z.of_nat fuel →
  is_Some (read_loop fuel r i buf).
Proof.
  intros Hm. induction fuel as [|fuel IH]; intros i n buf Hi Hf; cbn [read_loop]; destruct (Z.ltb_spec (slen buf) maxBytes) as [Hlt|Hge];
    [nia|eauto| |eauto].
  destruct Hi as (j & Hj & Hmove), (r i) as [tmp er] eqn:Er. destruct er as [[]|]; [eauto..|].
  destruct (decide (tmp = "")) as [->|Hne].
  - assert (j ≠ i) by (intros ->; rewrite Er in Hmove; cbn in Hmove; tauto). rewrite sapp_nil_r.
    apply (IH (Datatypes.S i) (n - 1)%nat); [exists j; split; [lia|exact Hmove]|lia].
  - apply (IH (Datatypes.S i) stall); [apply Hm|]. apply slen_pos in Hne. rewrite slen_app. nia.
Qed.

(** C20: reading a response body ends: for a reader that honours
    [io.Reader], at most 4096 bytes a read and something within any
    [stall + 1] reads, the loop returns after at most 65536 times as many
    reads; what it returns is what the reads gave, in order and whole, less
    than 68 KiB of it, and it stopped at the limit or at the read that ended
    the body or failed. *)
Theorem readBoundedBody_terminates r stall (Hsmall : ∀ i, slen (r i).1 ≤ 4096) (Hmoves : ∀ i, moves r i stall) :
  ∃ n, let '(out, err) := readBoundedBody (mkBody r stall) in
    read_loop (read_fuel stall) r 0 "" = Some (out, err) ∧
    out = chunks r 0 n ∧ slen out < maxBytes + 4096 ∧ stopped r 0 n out err ∧
    ∀ j, (j + 1 < n)%nat → (r j).2 = None.
Proof.
  destruct (read_loop_total r stall Hmoves (read_fuel stall) 0 stall "" (Hmoves 0%nat)) as [[out err] E].
  { unfold read_fuel, maxBytes. change (slen "") with 0. lia. }
  destruct (read_loop_result _ _ _ _ _ _ E) as (n & Hout & Hst & Hno). exists n. unfold readBoundedBody. cbn [b_stall b_Read].
  rewrite E. cbn [default from_option]. split_and!; [done|exact Hout| |exact Hst|intros j; apply Hno; lia].
  eapply read_loop_bound; [exact Hsmall| |exact E]. reflexivity.
Qed.
(** A reader that never gives anything nor an error is read forever. *)
Lemma read_loop_stuck fuel r i : (∀ j, r j = ("", None)) → read_loop fuel r i "" = None.
Proof. intros Hr. revert i. induction fuel as [|fuel IH]; intros i; cbn [read_loop]; [reflexivity|]. rewrite Hr. apply IH. Qed.

(** ** Which failures wait for the tracker *)

Section flakes.
Context {S : Type} `{Net S}.

(** The failures of [t] that may pass by themselves. *)
Inductive Flake (t : EndpointTarget) : Finding → Prop :=
  | Flake_connection err : isTLSError err = false →
      Flake t (finding t (t_URL t +:+ ": connection failed — " +:+ unwrapErr err)
        "Check DNS, Kong ingress route, and pod readiness for this host")
  | Flake_l7_base : Flake t (l7_finding t SeverityWarning ("L7 check skipped — invalid base URL " +:+ Quote (t_URL t)) "")
  | Flake_l7_request err : Flake t (l7_finding t SeverityWarning ("L7 check: build request: " +:+ err) "")
  | Flake_l7_connection u err : Flake t (l7_finding t SeverityWarning (u +:+ ": L7 connection failed — " +:+ unwrapErr err) "")
  | Flake_l7_body u l7 body rem : t_L7 t = Some l7 → matchBody body (l7_ExpectBody l7) = false →
      Flake t (l7_finding t SeverityCritical
        (u +:+ ": L7 body assertion failed — expected " +:+ Quote (l7_ExpectBody l7) +:+ ", got first 200 chars " +:+ Quote (truncate body 200)) rem).

Lemma Contains_at u sub v m : m = u +:+ sub +:+ v → Contains m sub = true.
Proof. intros ->. apply Contains_spec. eauto. Qed.
Lemma status_deterministic f pre mid post :
  f_Message f = pre +:+ "HTTP " +:+ mid +:+ " (expected " +:+ post → isDeterministicFailure f = true.
Proof.
  intros E. unfold isDeterministicFailure. destruct (Contains _ "TLS verification failed"); [reflexivity|].
  rewrite (Contains_at (pre +:+ "HTTP " +:+ mid +:+ " (") "expected " post), (Contains_at pre "HTTP " (mid +:+ " (expected " +:+ post)).
  - reflexivity.
  - exact E.
  - rewrite E, !sapp_assoc. reflexivity.
Qed.
Lemma tls_deterministic f pre post : f_Message f = pre +:+ "TLS verification failed" +:+ post → isDeterministicFailure f = true.
Proof. intros E. unfold isDeterministicFailure. by rewrite (Contains_at _ _ _ _ E). Qed.
Lemma url_deterministic f post : f_Message f = "invalid URL " +:+ post → isDeterministicFailure f = true.
Proof.
  intros E. unfold isDeterministicFailure. destruct (Contains _ "TLS verification failed"); [reflexivity|].
  destruct (_ && _); [reflexivity|]. apply (Contains_at "" "invalid URL" (" " +:+ post)). exact E.
Qed.

Lemma l7_verdict_class t l7 u resp f : t_L7 t = Some l7 → l7_verdict t l7 u resp = (f, false) → isDeterministicFailure f = true ∨ Flake t f.
Proof.
  intros Hl. unfold l7_verdict. destruct (_ && _).
  - intros E. injection E as <-. left. eapply (status_deterministic _ (u +:+ ": L7 ")). cbn [l7_finding f_Message]. rewrite sapp_assoc. reflexivity.
  - case_bool_decide; [discriminate|]. destruct (matchBody _ _) eqn:Em; [discriminate|]. intros E. injection E as <-. right. by eapply Flake_l7_body.
Qed.
Lemma checkEndpointL7_class s T ctx t l7 s' f : t_L7 t = Some l7 → checkEndpointL7 s T ctx t l7 = (s', (f, false)) →
  isDeterministicFailure f = true ∨ Flake t f.
Proof.
  intros Hl. unfold checkEndpointL7. destruct (l7_url _ _) as [u|]; [|intros E; injection E as _ <-; right; constructor].
  destruct (NewRequest u); [intros E; injection E as _ <-; right; constructor|].
  destruct (client_Do _ _ _ _ _) as [s1 [err|resp]]; [intros E; injection E as _ <-; right; constructor|].
  intros E. injection E as _ E. by eapply l7_verdict_class.
Qed.
Lemma checkEndpoint_class s T ctx t s' f : checkEndpoint s T ctx t = (s', (f, false)) → isDeterministicFailure f = true ∨ Flake t f.
Proof.
  unfold checkEndpoint. destruct (NewRequest _) as [err|]; [intros E; injection E as _ <-; left; eapply url_deterministic; reflexivity|].
  destruct (client_Do _ _ _ _ _) as [s1 [err|resp]].
  - destruct (isTLSError err) eqn:Et; intros E; injection E as _ <-.
    + left. eapply (tls_deterministic _ (t_URL t +:+ ": ")). cbn [finding f_Message]. rewrite sapp_assoc. reflexivity.
    + right. by constructor.
  - destruct (_ && _).
    + intros E. injection E as _ <-. left. eapply (status_deterministic _ (t_URL t +:+ ": ")). cbn [finding f_Message]. rewrite sapp_assoc. reflexivity.
    + destruct (t_L7 t) as [l7|] eqn:El; [|discriminate]. case_bool_decide; [discriminate|]. by apply checkEndpointL7_class.
Qed.
Lemma attempt_class s ctx T d t s' f : attempt s ctx T d t = (s', (f, false)) → isDeterministicFailure f = true ∨ Flake t f.
Proof. apply checkEndpoint_class. Qed.

(** What the tracker may hold back: a probe that failed gives a finding
    that goes out at once, or its failure is one that may pass: the
    connection broke (and not over its certificate), or the body check could
    not be asked or did not match.  A wrong status, a refused certificate
    and a URL that is none are never held back. *)
Theorem suppressed_failures s ctx T t base retry s' f : probeWithRetry s ctx T t base retry = (s', (f, false)) →
  isDeterministicFailure f = true ∨ Flake t f.
Proof.
  unfold probeWithRetry. destruct (attempt s ctx T base t) as [s1 [f1 ok1]] eqn:E1. destruct ok1; cbn [orb]; [discriminate|].
  apply attempt_class in E1. destruct (negb retry || _); [intros E; by injection E as _ <-|].
  destruct (wait s1 _) as [s2 [|]]; cbn [negb]; [|intros E; by injection E as _ <-].
  destruct (attempt s2 ctx T _ t) as [s3 [f3 [|]]] eqn:E3; intros E; [discriminate|]. injection E as _ <-. by eapply attempt_class.
Qed.
End flakes.

(** ** Runs *)

(** A network that answers from a script and then times out. *)
Definition Script : Type := Time * list (DoError + Response).
Definition timed_out : DoError := mkDoError "Get: context deadline exceeded" "context deadline exceeded".
#[export] Instance script_net : Net Script := {
  now s := s.1;
  do_get s deadline agent url :=
    match s.2 with
    | r :: rs => ((s.1 + Second, rs), r)
    | [] => ((Z.max s.1 deadline, []), inl timed_out)
    end;
  wait s d := ((s.1 + d, s.2), true);
  NewRequest url := if Contains url " " then Some "invalid character in host name" else None;
  l7_url base path := Some (base +:+ path);
  Compile p := Some (λ body, Contains body p);
}.
Definition site : EndpointTarget := mkTarget "https://shop.example.com" "shop" 200 None.
Definition off : DiscoveryOptions := mkDiscoveryOptions false ∅ "" "".
Definition page (code : Z) : Response := mkResponse code (mkBody (λ _, ("", Some EOF)) 0).
Definition statuses {A B} (x : A * B * list ProbeResult) : list (string * list string) :=
  (λ r, (cr_Status (pr_Component r), f_Severity <$> pr_Findings r)) <$> x.2.
Definition pass : Pass := (None, None, None).

(** Three passes: an answer, then silence. *)
Example three_passes : statuses (passes (0, [inr (page 200)]) (NewEndpoints [site] off) ∅ [pass; pass; pass]) =
  [("HEALTHY", []); ("HEALTHY", ["warning"]); ("CRITICAL", ["critical"])].
Proof. vm_compute. reflexivity. Qed.
(** A wrong status is critical at once. *)
Example wrong_status : statuses (passes (0, [inr (page 503)]) (NewEndpoints [site] off) ∅ [pass]) = [("CRITICAL", ["critical"])].
Proof. vm_compute. reflexivity. Qed.
(** The watcher runs the probe again after its fixers: the first cycle in
    which a site is away already counts two failures. *)
Example rerun_escalates : statuses (passes (0, []) (NewEndpoints [site] off) ∅ [pass; pass]) =
  [("HEALTHY", ["warning"]); ("CRITICAL", ["critical"])].
Proof. vm_compute. reflexivity. Qed.
(** So does a URL that is configured twice, in one run. *)
Example duplicate_escalates : statuses (passes (0, []) (NewEndpoints [site; site] off) ∅ [pass]) = [("CRITICAL", ["warning"; "critical"])].
Proof. vm_compute. reflexivity. Qed.
(** A body can be longer than the limit. *)
Fixpoint pad_a (n : nat) : string := match n with O => "" | S n => String "a" (pad_a n) end.
Definition uneven : Body := mkBody (λ i, (pad_a (if (i <? 16)%nat then 4095 else if (i =? 16)%nat then 15 else 4096), None)) 0.
Example body_over_limit : slen (readBoundedBody uneven).1 = maxBytes + 4095.
Proof. vm_compute. reflexivity. Qed.

Lemma retry_not_longer_witness :
  attempt (0, []) None (10 * Second) (10 * Second + Z.quot (10 * Second) 2) site = attempt (0, []) None (10 * Second) (10 * Second) site.
Proof. apply (retry_not_longer (0, []) None site (10 * Second)); [reflexivity|reflexivity|discriminate]. Defined.
Definition answer : Reader := λ i, if (i =? 0)%nat then ("ok", None) else if (i =? 1)%nat then ("", None) else ("", Some EOF).
Lemma answer_small i : slen (answer i).1 ≤ 4096.
Proof. unfold answer. by destruct (i =? 0)%nat, (i =? 1)%nat. Qed.
Lemma answer_moves i : moves answer i 1.
Proof.
  unfold moves, answer. destruct i as [|[|i]]; [exists 0%nat|exists 2%nat|exists (S (S i))]; (split; [lia|]); [left|right|right]; discriminate.
Qed.
Lemma readBoundedBody_terminates_witness : ∃ n, let '(out, err) := readBoundedBody (mkBody answer 1) in
    read_loop (read_fuel 1) answer 0 "" = Some (out, err) ∧
    out = chunks answer 0 n ∧ slen out < maxBytes + 4096 ∧ stopped answer 0 n out err ∧ ∀ j, (j + 1 < n)%nat → (answer j).2 = None.
Proof. exact (readBoundedBody_terminates answer 1 answer_small answer_moves). Defined.
Lemma suppressed_failures_witness :
  isDeterministicFailure (probeWithRetry (0, []) None (10 * Second) site (10 * Second) true).2.1 = true ∨
  Flake site (probeWithRetry (0, []) None (10 * Second) site (10 * Second) true).2.1.
Proof.
  eapply (suppressed_failures (0, []) None (10 * Second) site (10 * Second) true _ _). vm_compute. reflexivity.
Defined.
