(* ===== verification/Netpol.v ===== *)
(** * NetworkPolicy proposals: pkg/netpol

    [DetectCNI] tells whether a policy would be enforced and
    [ProposeForNamespace] writes one for a namespace without.  The cluster is
    a [Source]; whether a namespace is protected is an argument
    (Protected.v).  The second half says what Kubernetes lets through under
    such a policy. *)

From stdpp Require Import options.
From S2P Require Import Prelude GoString GoJson GoNum GoFmt Unstructured Types.
Local Open Scope Z_scope.

(** [src.List] by the plural name of the resource, [None] for an error. *)
Definition Source : Type := string → string → option (list json).
Definition items (l : option (list json)) : list json := default [] l.

(** ** cni.go *)

Record CNIDetection := mkCNI { Enforces : bool; CNIName : string; Evidence : string }.
Definition ds_evidence (ds : json) : string := "DaemonSet " +:+ GetNamespace ds +:+ "/" +:+ GetName ds.
(** The cases of the switch: a verdict, or what to remember. *)
Inductive DSCase := Verdict (d : CNIDetection) | KubeRouter | Flannel | NoCNI.
Definition ds_case (ds : json) : DSCase :=
  let ns := GetNamespace ds in
  let lname := ToLower (GetName ds) in
  let ev := ds_evidence ds in
  if Contains lname "cilium" && negb (Contains lname "operator") then Verdict (mkCNI true "cilium" ev)
  else if (lname =s? "anetd") || Contains lname "anetd" then Verdict (mkCNI true "gke-dataplane-v2" (ev +:+ " (GKE Cilium-based)"))
  else if HasPrefix lname "calico-" || (ns =s? "calico-system") || (ns =s? "tigera-operator") then Verdict (mkCNI true "calico" ev)
  else if lname =s? "aws-node" then
    Verdict (mkCNI true "aws-vpc-cni" (ev +:+ " (NetPol enforcement requires ENABLE_NETWORK_POLICY=true on the addon)"))
  else if Contains lname "azure-npm" then Verdict (mkCNI true "azure-cni" ev)
  else if Contains lname "kube-router" then KubeRouter
  else if Contains lname "flannel" then Flannel
  else NoCNI.
Fixpoint detect_loop (kubeRouter flannel : option string) (dss : list json) : CNIDetection :=
  match dss with
  | ds :: dss =>
      match ds_case ds with
      | Verdict d => d
      | KubeRouter => detect_loop (Some (ds_evidence ds)) flannel dss
      | Flannel => detect_loop kubeRouter (Some (ds_evidence ds)) dss
      | NoCNI => detect_loop kubeRouter flannel dss
      end
  | [] =>
      match kubeRouter, flannel with
      | Some ev, _ =>
          let base := match flannel with Some f => "+ Flannel (" +:+ f +:+ ")" | None => "(standalone)" end in
          mkCNI true "kube-router" (ev +:+ " " +:+ base +:+ ". kube-router enforces NetworkPolicy via its KUBE-ROUTER-FORWARD chain.")
      | None, Some f =>
          mkCNI false "flannel-only" (f +:+ ". Flannel-only (no Calico/Cilium/AWS-VPC-CNI/Azure-NPM/kube-router signal). Flannel does not enforce NetworkPolicy.")
      | None, None => mkCNI false "unknown" "No recognized CNI DaemonSet pattern matched"
      end
  end.
Definition DetectCNI (src : Source) : CNIDetection :=
  match src "daemonsets" "" with
  | None => mkCNI false "unknown" "DaemonSet list failed or empty"
  | Some dss => detect_loop None None dss
  end.

(** ** proposer.go *)

Record AllowRule := mkAllow { ar_Kind : string; ar_Namespace : string; ar_Why : string }.
Record Proposal := mkProposal {
  p_Namespace : string;
  p_PolicyKind : string;
  p_PolicyName : string;
  p_PolicyYAML : string;
  p_Rationale : string;
  p_AllowSources : list AllowRule;
}.
Record SnapshotProposer := mkSnapshotProposer {
  IngressControllerNamespaces : list string;
  IncludeSystemNamespaceAllow : option bool;
  IncludeLoadBalancerExternalAllow : option bool;
}.
Definition commonIngressControllerNamespaces : list string := ["kong"; "ingress-nginx"; "traefik"; "istio-system"; "kong-system"].

Definition includeSystemNamespaceAllow (p : SnapshotProposer) : bool := default true (IncludeSystemNamespaceAllow p).
Definition includeLoadBalancerExternalAllow (p : SnapshotProposer) : bool := default true (IncludeLoadBalancerExternalAllow p).
Definition fallbackNamespaces (p : SnapshotProposer) : list string :=
  if (0 <? length (IngressControllerNamespaces p))%nat then sort_strings (IngressControllerNamespaces p)
  else sort_strings commonIngressControllerNamespaces.
Definition controller_of (className : string) : string :=
  if className =s? "kong" then "kong"
  else if className =s? "nginx" then "ingress-nginx"
  else if className =s? "traefik" then "traefik"
  else "kong".
Definition ingress_controllers (targetNS : string) (ings : list json) : gset string :=
  foldl (λ found ing,
    if GetNamespace ing ≠s? targetNS then found
    else {[controller_of (NestedString ing ["spec"; "ingressClassName"])]} ∪ found) ∅ ings.
Definition detectControllerNamespaces (p : SnapshotProposer) (src : Source) (targetNS : string) : list string :=
  match src "ingresses" "" with
  | None => fallbackNamespaces p
  | Some ings => sort_strings (elements (ingress_controllers targetNS ings))
  end.

(** (protocol, port) *)
Definition externalPort : Type := string * Z.
Definition port_le (a b : externalPort) : Prop :=
  if a.2 =? b.2 then String.leb a.1 b.1 = true else a.2 < b.2.
#[export] Instance port_le_dec a b : Decision (port_le a b).
Proof. unfold port_le. destruct (_ =? _); apply _. Defined.
Definition exposes (svc : json) : bool :=
  let typ := NestedString svc ["spec"; "type"] in (typ =s? "LoadBalancer") || (typ =s? "NodePort").
Definition port_proto (pm : json) : string :=
  let proto := as_string (jmember "protocol" pm) in if proto =s? "" then "TCP" else proto.
Definition add_port (seen : gset externalPort) (pm : json) : gset externalPort :=
  match pm with
  | JObj _ =>
      let portN := NestedInt64 pm ["port"] in
      if portN =? 0 then seen else {[(port_proto pm, portN)]} ∪ seen
  | _ => seen
  end.
Definition add_service (seen : gset externalPort) (svc : json) : gset externalPort :=
  if negb (exposes svc) then seen else foldl add_port seen (NestedSlice svc ["spec"; "ports"]).
Definition detectExternalPorts (src : Source) (namespace : string) : list externalPort :=
  match src "services" namespace with
  | None => []
  | Some svcs => merge_sort port_le (elements (foldl add_service ∅ svcs))
  end.

(** The text of the manifest. *)
Definition text (l : list string) : string := Join l nl.
Definition same_block : string :=
  text ["    - from:"; "        - podSelector: {}                 # allow from any pod in this namespace"].
Definition q : string := String quote "".
Definition namespace_block (ns comment : string) : string :=
  text ["    - from:"; "        - namespaceSelector:"; "            matchExpressions:"; "              - key: kubernetes.io/metadata.name";
        "                operator: In"; "                values: [" +:+ q +:+ ns +:+ q +:+ "]"; "      # " +:+ comment].
Definition port_line (p : externalPort) : string := text ["        - protocol: " +:+ p.1; "          port: " +:+ Itoa p.2].
Definition external_block (ports : list externalPort) : string :=
  text ["    - from:"; "        - ipBlock:"; "            cidr: 0.0.0.0/0"; "      ports:"; text (port_line <$> ports);
        "      # external traffic via LoadBalancer / NodePort (MetalLB / cloud LB)"].
Definition policyName : string := "srenix-proposed-allow-intracluster".
Definition policy_yaml (namespace : string) (ingressBlocks : list string) : string :=
  text ["apiVersion: networking.k8s.io/v1"; "kind: NetworkPolicy"; "metadata:"; "  name: " +:+ policyName; "  namespace: " +:+ namespace;
        "  annotations:"; "    srenix.ai/proposer: snapshot-proposer"; "    srenix.ai/policy-tier: default-deny-plus-observed-allows";
        "spec:"; "  podSelector: {}"; "  policyTypes:"; "    - Ingress"; "  ingress:"; text ingressBlocks; ""].

Definition controller_allow (namespace cns : string) : AllowRule :=
  mkAllow "controller-namespace" cns ("Ingress objects route into " +:+ namespace +:+ " via " +:+ cns).
Definition external_allow (p : externalPort) : AllowRule :=
  mkAllow "external-ipblock" "0.0.0.0/0"
    ("external traffic to " +:+ p.1 +:+ "/" +:+ Itoa p.2 +:+ " (LoadBalancer / NodePort exposed)").

Section proposer.
(** [isProtectedNS] *)
Variable protected : string → bool.

Definition ProposeForNamespace (p : SnapshotProposer) (src : Source) (namespace : string) : option Proposal :=
  if protected namespace then None
  else if (0 <? length (items (src "networkpolicies" namespace)))%nat then None
  else if (length (items (src "pods" namespace)) =? 0)%nat then None
  else
    let controllerNS := detectControllerNamespaces p src namespace in
    let allows := [mkAllow "same-namespace" "*" "intra-namespace pod-to-pod"] in
    let ingressBlocks := [same_block] in
    let allows := allows ++ (controller_allow namespace <$> controllerNS) in
    let ingressBlocks := ingressBlocks ++ ((λ cns, namespace_block cns ("ingress-controller in " +:+ cns)) <$> controllerNS) in
    let '(allows, ingressBlocks) :=
      if includeSystemNamespaceAllow p then
        (allows ++ [mkAllow "controller-namespace" "kube-system" "CoreDNS + kubelet probes + scheduler health checks"],
         ingressBlocks ++ [namespace_block "kube-system" "CoreDNS / kubelet probes / scheduler"])
      else (allows, ingressBlocks) in
    let '(allows, ingressBlocks) :=
      if includeLoadBalancerExternalAllow p then
        let ports := detectExternalPorts src namespace in
        if (0 <? length ports)%nat then (allows ++ (external_allow <$> ports), ingressBlocks ++ [external_block ports])
        else (allows, ingressBlocks)
      else (allows, ingressBlocks) in
    let rationale := "default-deny ingress + allow-from same namespace" +:+
      (if (0 <? length controllerNS)%nat then
         " + allow-from " +:+ Join controllerNS "," +:+ " (Ingress controllers routing into this ns)"
       else "") in
    Some (mkProposal namespace "NetworkPolicy" policyName (policy_yaml namespace ingressBlocks) rationale allows).
End proposer.

(** ** Which daemon sets enforce *)

Definition enforcing (ds : json) : bool := match ds_case ds with Verdict _ | KubeRouter => true | _ => false end.
Lemma verdict_enforces ds d : ds_case ds = Verdict d → Enforces d = true.
Proof. unfold ds_case. repeat case_match; intros E; try discriminate; injection E as <-; reflexivity. Qed.
Lemma detect_loop_enforces kr fl dss : Enforces (detect_loop kr fl dss) = bool_decide (is_Some kr) || existsb enforcing dss.
Proof.
  revert kr fl. induction dss as [|ds dss IH]; intros kr fl; cbn [detect_loop existsb].
  - destruct kr as [k|]; [reflexivity|]. by destruct fl.
  - unfold enforcing at 1. destruct (ds_case ds) as [d| | |] eqn:E.
    + rewrite (verdict_enforces ds d E). by rewrite orb_true_r.
    + rewrite IH. by destruct kr.
    + by rewrite IH.
    + by rewrite IH.
Qed.

(** A policy counts as enforced exactly when some DaemonSet of the
    cluster is one of the enforcing network plugins, whatever else is
    installed beside it and in whatever order they are listed; Flannel
    alone, an unknown plugin and a failed list do not count. *)
Theorem DetectCNI_enforces src : Enforces (DetectCNI src) = true ↔ ∃ dss ds, src "daemonsets" "" = Some dss ∧ ds ∈ dss ∧ enforcing ds = true.
Proof.
  unfold DetectCNI. destruct (src "daemonsets" "") as [dss|]; [|split; [discriminate|intros (? & ? & ? & _); discriminate]].
  rewrite detect_loop_enforces. rewrite bool_decide_eq_false_2 by (by intros [? ?]). cbn [orb]. rewrite existsb_elem. split.
  - intros (ds & Hin & He). by exists dss, ds.
  - intros (dss' & ds & E & Hin & He). injection E as <-. by exists ds.
Qed.

(** ** What a policy lets through *)

(** Where a connection comes from, and the port of the pod it goes to. *)
Inductive Peer := PodIn (ns : string) | Outside.
#[export] Instance Peer_eq_dec : EqDecision Peer.
Proof. solve_decision. Defined.
Record Conn := mkConn { c_src : Peer; c_proto : string; c_port : Z }.

(** Kubernetes' reading of the parts of an ingress rule that are used here:
    the name label of namespaces, the pods of the policy's own namespace,
    and the block of all addresses; no peers or no ports are all of them. *)
Definition expr_selects (n : string) (e : json) : bool :=
  (NestedString e ["key"] =s? "kubernetes.io/metadata.name") && (NestedString e ["operator"] =s? "In") &&
  bool_decide (n ∈ NestedStringSlice e ["values"]).
Definition peer_admits (own : string) (src : Peer) (from : json) : bool :=
  match jmember "ipBlock" from, jmember "namespaceSelector" from with
  | Some b, _ => NestedString b ["cidr"] =s? "0.0.0.0/0"
  | None, Some sel =>
      match src with PodIn n => forallb (expr_selects n) (NestedSlice sel ["matchExpressions"]) | Outside => false end
  | None, None => bool_decide (src = PodIn own)
  end.
Definition port_admits (c : Conn) (port : json) : bool :=
  (NestedString port ["protocol"] =s? c_proto c) && (NestedInt64 port ["port"] =? c_port c).
Definition all_or_some {A} (f : A → bool) (l : list A) : bool := (length l =? 0)%nat || existsb f l.
Definition rule_admits (own : string) (c : Conn) (rule : json) : bool :=
  all_or_some (peer_admits own (c_src c)) (NestedSlice rule ["from"]) && all_or_some (port_admits c) (NestedSlice rule ["ports"]).
Definition policy_admits (policy : json) (c : Conn) : bool :=
  existsb (rule_admits (GetNamespace policy) c) (NestedSlice policy ["spec"; "ingress"]).

(** ** The manifest as an object *)

Inductive Block := Same | From (ns comment : string) | External (ports : list externalPort).
Definition block_text (b : Block) : string :=
  match b with Same => same_block | From ns c => namespace_block ns c | External ports => external_block ports end.
Definition port_object (p : externalPort) : json := JObj [("protocol", JStr p.1); ("port", JNum (Itoa p.2))].
Definition block_object (b : Block) : json :=
  match b with
  | Same => JObj [("from", JArr [JObj [("podSelector", JObj [])]])]
  | From ns _ =>
      JObj [("from", JArr [JObj [("namespaceSelector", JObj [("matchExpressions", JArr [
        JObj [("key", JStr "kubernetes.io/metadata.name"); ("operator", JStr "In"); ("values", JArr [JStr ns])]])])]])]
  | External ports =>
      JObj [("from", JArr [JObj [("ipBlock", JObj [("cidr", JStr "0.0.0.0/0")])]]); ("ports", JArr (port_object <$> ports))]
  end.
Definition policy_object (ns : string) (blocks : list Block) : json :=
  JObj [("apiVersion", JStr "networking.k8s.io/v1"); ("kind", JStr "NetworkPolicy");
        ("metadata", JObj [("name", JStr policyName); ("namespace", JStr ns);
          ("annotations", JObj [("srenix.ai/proposer", JStr "snapshot-proposer");
                                ("srenix.ai/policy-tier", JStr "default-deny-plus-observed-allows")])]);
        ("spec", JObj [("podSelector", JObj []); ("policyTypes", JArr [JStr "Ingress"]); ("ingress", JArr (block_object <$> blocks))])].

(** What is relied on of the YAML library: it reads this manifest's text as
    the object it is laid out as.  (It does for namespaces that are not YAML
    words or numbers.) *)
Definition reads_as_laid_out (Unmarshal : string → option (option json)) (ns : string) (blocks : list Block) : Prop :=
  Unmarshal (policy_yaml ns (block_text <$> blocks)) = Some (Some (policy_object ns blocks)).

(** The blocks a proposal is made of. *)
Definition blocks_of (p : SnapshotProposer) (src : Source) (ns : string) : list Block :=
  Same :: ((λ cns, From cns ("ingress-controller in " +:+ cns)) <$> detectControllerNamespaces p src ns) ++
  (if includeSystemNamespaceAllow p then [From "kube-system" "CoreDNS / kubelet probes / scheduler"] else []) ++
  (if includeLoadBalancerExternalAllow p && (0 <? length (detectExternalPorts src ns))%nat then [External (detectExternalPorts src ns)] else []).

Lemma ProposeForNamespace_blocks protected p src ns pr : ProposeForNamespace protected p src ns = Some pr →
  protected ns = false ∧ items (src "networkpolicies" ns) = [] ∧ items (src "pods" ns) ≠ [] ∧
  p_Namespace pr = ns ∧ p_PolicyKind pr = "NetworkPolicy" ∧ p_PolicyYAML pr = policy_yaml ns (block_text <$> blocks_of p src ns).
Proof.
  unfold ProposeForNamespace. destruct (protected ns); [discriminate|].
  destruct (items (src "networkpolicies" ns)) as [|? ?]; [|discriminate]. cbn [length Nat.ltb Nat.leb].
  destruct (items (src "pods" ns)) as [|? ?]; [discriminate|]. cbn [length Nat.eqb]. unfold blocks_of.
  set (cs := detectControllerNamespaces p src ns). set (ports := detectExternalPorts src ns).
  assert (Ec : block_text <$> ((λ cns, From cns ("ingress-controller in " +:+ cns)) <$> cs) =
    (λ cns, namespace_block cns ("ingress-controller in " +:+ cns)) <$> cs) by (rewrite <-list_fmap_compose; reflexivity).
  destruct (includeSystemNamespaceAllow p), (includeLoadBalancerExternalAllow p); try destruct (length ports) as [|np] eqn:Elen;
    intros E; injection E as <-; cbn [p_Namespace p_PolicyKind p_PolicyYAML andb Nat.ltb Nat.leb];
    (split_and!; [done..|]); rewrite fmap_cons, !fmap_app, Ec; cbn [fmap list_fmap block_text]; f_equal;
    rewrite ?app_nil_r, <-?app_assoc; reflexivity.
Qed.
Lemma ProposeForNamespace_is_Some protected p src ns : is_Some (ProposeForNamespace protected p src ns) ↔
  protected ns = false ∧ items (src "networkpolicies" ns) = [] ∧ items (src "pods" ns) ≠ [].
Proof.
  split; [intros [pr E]; apply ProposeForNamespace_blocks in E; tauto|]. intros (Hp & Hn & Hpods).
  unfold ProposeForNamespace. rewrite Hp, Hn. destruct (items (src "pods" ns)); [done|]. cbn [length Nat.ltb Nat.leb Nat.eqb].
  cbv zeta. repeat case_match; eauto.
Qed.

(** *** The ports *)

Lemma ParseInt_range s z : ParseInt s = Some z → in_int64 z = true.
Proof.
  unfold ParseInt. destruct (match s with "" => _ | _ => _ end) as [neg ds]. case_bool_decide; [discriminate|].
  destruct (digits_val 0 ds) as [n|]; [|discriminate]. cbn [mbind option_bind]. destruct (in_int64 _) eqn:E; [|discriminate].
  intros H'. injection H' as <-. exact E.
Qed.
Lemma NestedInt64_range j path : in_int64 (NestedInt64 j path) = true.
Proof. unfold NestedInt64. repeat case_match; try reflexivity. destruct (ParseInt _) eqn:E; [by eapply ParseInt_range|reflexivity]. Qed.

(** A port some service that is reached from outside has. *)
Definition exposed_by (svcs : list json) (c : externalPort) : Prop :=
  ∃ svc pm, svc ∈ svcs ∧ exposes svc = true ∧ pm ∈ NestedSlice svc ["spec"; "ports"] ∧
    (∃ l, pm = JObj l) ∧ port_proto pm = c.1 ∧ NestedInt64 pm ["port"] = c.2 ∧ c.2 ≠ 0.
Lemma elem_of_ports seen ports c : c ∈ foldl add_port seen ports ↔
  c ∈ seen ∨ ∃ pm, pm ∈ ports ∧ (∃ l, pm = JObj l) ∧ port_proto pm = c.1 ∧ NestedInt64 pm ["port"] = c.2 ∧ c.2 ≠ 0.
Proof.
  revert seen. induction ports as [|pm ports IH]; intros seen; cbn [foldl].
  - split; [auto|]. intros [?|(? & []%elem_of_nil & _)]. done.
  - rewrite IH. setoid_rewrite elem_of_cons. assert (Hp : c ∈ add_port seen pm ↔
      c ∈ seen ∨ (∃ l, pm = JObj l) ∧ port_proto pm = c.1 ∧ NestedInt64 pm ["port"] = c.2 ∧ c.2 ≠ 0).
    { destruct pm; cbn [add_port]; try (split; [by left|intros [?|[[? ?] _]]; [done|discriminate]]).
      destruct (Z.eqb_spec (NestedInt64 (JObj l) ["port"]) 0) as [E|E].
      - split; [by left|]. intros [?|(_ & _ & <- & Hne)]; [done|]. by destruct Hne.
      - rewrite elem_of_union, elem_of_singleton. destruct c as [pr n]. cbn. split.
        + intros [Ec|?]; [right|by left]. injection Ec as -> ->. split_and!; eauto.
        + intros [?|(_ & <- & <- & _)]; auto. }
    rewrite Hp. split.
    + intros [[?|?]|(x & Hin & Hx)]; [auto|right; exists pm; auto|right; exists x; auto].
    + intros [?|(x & [->|Hin] & Hx)]; [auto|left; right; exact Hx|right; exists x; auto].
Qed.
Lemma elem_of_services seen svcs c : c ∈ foldl add_service seen svcs ↔ c ∈ seen ∨ exposed_by svcs c.
Proof.
  revert seen. induction svcs as [|svc svcs IH]; intros seen; cbn [foldl].
  - split; [auto|]. intros [?|(? & ? & []%elem_of_nil & _)]. done.
  - rewrite IH. unfold exposed_by. setoid_rewrite elem_of_cons. unfold add_service. destruct (exposes svc) eqn:E; cbn [negb].
    + rewrite elem_of_ports. split.
      * intros [[?|(pm & H1 & H2)]|(s & pm & H1 & H2)]; [auto|right; exists svc, pm; auto|right; exists s, pm; tauto].
      * intros [?|(s & pm & [->|H1] & He & H2)]; [auto|left; right; exists pm; tauto|right; exists s, pm; tauto].
    + split; [intros [?|(s & pm & H1 & H2)]; [auto|right; exists s, pm; tauto]|].
      intros [?|(s & pm & [->|H1] & H2 & H3)]; [auto|congruence|right; exists s, pm; tauto].
Qed.
Lemma elem_of_detectExternalPorts src ns c : c ∈ detectExternalPorts src ns ↔ exposed_by (items (src "services" ns)) c.
Proof.
  unfold detectExternalPorts. destruct (src "services" ns) as [svcs|]; cbn [items default from_option].
  - rewrite merge_sort_Permutation, elem_of_elements, elem_of_services. split; [intros [[]%elem_of_empty|?]; done|auto].
  - split; [intros []%elem_of_nil|]. intros (? & ? & []%elem_of_nil & _).
Qed.

(** *** The rules *)

Lemma same_admits own c : rule_admits own c (block_object Same) = bool_decide (c_src c = PodIn own).
Proof. unfold rule_admits, all_or_some. cbn. by rewrite orb_false_r, andb_true_r. Qed.
Lemma from_admits own c ns t : rule_admits own c (block_object (From ns t)) = bool_decide (c_src c = PodIn ns).
Proof.
  unfold rule_admits, all_or_some. cbn. rewrite orb_false_r, andb_true_r. destruct (c_src c) as [n|]; [|by rewrite bool_decide_eq_false_2].
  rewrite andb_true_r. apply bool_decide_ext. change (n ∈ [ns] ↔ PodIn n = PodIn ns). rewrite list_elem_of_singleton. split; [by intros ->|by intros [= ->]].
Qed.
Lemma external_admits own c ports : ports ≠ [] → Forall (λ p : externalPort, in_int64 p.2 = true) ports →
  rule_admits own c (block_object (External ports)) = bool_decide ((c_proto c, c_port c) ∈ ports).
Proof.
  intros Hne Hr. unfold rule_admits, all_or_some.
  change (NestedSlice (block_object (External ports)) ["from"]) with [JObj [("ipBlock", JObj [("cidr", JStr "0.0.0.0/0")])]].
  change (NestedSlice (block_object (External ports)) ["ports"]) with (port_object <$> ports). cbn [length Nat.eqb existsb orb].
  change (peer_admits own (c_src c) (JObj [("ipBlock", JObj [("cidr", JStr "0.0.0.0/0")])])) with true. cbn [orb andb].
  destruct ports as [|p ports]; [done|]. cbn [fmap list_fmap length Nat.eqb orb]. change (port_object p :: _) with (port_object <$> (p :: ports)).
  apply eq_bool_prop_intro. rewrite bool_decide_spec, !Is_true_true, existsb_elem. split.
  - intros (j & ([pr n] & -> & Hin)%list_elem_of_fmap & Hj). rewrite Forall_forall in Hr. specialize (Hr _ Hin). cbn in Hr.
    unfold port_admits, NestedInt64 in Hj. cbn in Hj. rewrite ParseInt_Itoa in Hj by done. cbn in Hj.
    apply andb_prop in Hj as [->%bool_decide_eq_true ->%Z.eqb_eq]. exact Hin.
  - intros Hin. exists (port_object (c_proto c, c_port c)). split; [by apply list_elem_of_fmap_2|].
    rewrite Forall_forall in Hr. specialize (Hr _ Hin). cbn in Hr. unfold port_admits, NestedInt64. cbn.
    rewrite ParseInt_Itoa by done. cbn. rewrite Z.eqb_refl. by rewrite bool_decide_eq_true_2.
Qed.
Lemma detected_range src ns : Forall (λ p : externalPort, in_int64 p.2 = true) (detectExternalPorts src ns).
Proof.
  apply Forall_forall. intros c (svc & pm & _ & _ & _ & _ & _ & <- & _)%elem_of_detectExternalPorts. apply NestedInt64_range.
Qed.
Lemma detected_one src ns : (0 <? length (detectExternalPorts src ns))%nat = bool_decide (detectExternalPorts src ns ≠ []).
Proof. by destruct (detectExternalPorts src ns). Qed.

(** Who the policy of the blocks lets in. *)
Definition let_in (p : SnapshotProposer) (src : Source) (ns : string) (c : Conn) : Prop :=
  c_src c = PodIn ns ∨
  (∃ n, n ∈ detectControllerNamespaces p src ns ∧ c_src c = PodIn n) ∨
  (includeSystemNamespaceAllow p = true ∧ c_src c = PodIn "kube-system") ∨
  (includeLoadBalancerExternalAllow p = true ∧ exposed_by (items (src "services" ns)) (c_proto c, c_port c)).
Lemma blocks_admit p src ns c : policy_admits (policy_object ns (blocks_of p src ns)) c = true ↔ let_in p src ns c.
Proof.
  unfold policy_admits. change (NestedSlice (policy_object ns (blocks_of p src ns)) _) with (block_object <$> blocks_of p src ns).
  change (GetNamespace _) with ns. unfold blocks_of. rewrite fmap_cons, !fmap_app. cbn [existsb].
  rewrite !existsb_app, !orb_true_iff, same_admits, bool_decide_eq_true.
  apply Morphisms_Prop.or_iff_morphism; [reflexivity|]. apply Morphisms_Prop.or_iff_morphism; [|apply Morphisms_Prop.or_iff_morphism].
  - rewrite <-list_fmap_compose, existsb_elem. split.
    + intros (j & (n & -> & Hn)%list_elem_of_fmap & Hj). unfold compose in Hj. rewrite from_admits, bool_decide_eq_true in Hj. by exists n.
    + intros (n & Hn & E). eexists. split; [by apply list_elem_of_fmap_2|]. unfold compose. by rewrite from_admits, bool_decide_eq_true.
  - destruct (includeSystemNamespaceAllow p); [|split; [discriminate|intros [? _]; discriminate]].
    cbn [fmap list_fmap existsb]. rewrite orb_false_r, from_admits, bool_decide_eq_true. tauto.
  - destruct (includeLoadBalancerExternalAllow p); [|split; [discriminate|intros [? _]; discriminate]].
    rewrite <-elem_of_detectExternalPorts. rewrite detected_one. cbn [andb]. case_bool_decide as Hne; cbn [fmap list_fmap existsb].
    + rewrite orb_false_r, external_admits, bool_decide_eq_true by (done || apply detected_range). tauto.
    + split; [discriminate|]. intros [_ Hin]. rewrite Hne in Hin. by apply elem_of_nil in Hin.
Qed.



(** *** Traffic from outside *)

(** The number of the pod's port a service port leads to, unless it is named. *)
Definition target_port (pm : json) : option Z :=
  match jmember "targetPort" pm with
  | None => Some (NestedInt64 pm ["port"])
  | Some (JNum lit) => ParseInt lit
  | Some _ => None
  end.
(** [c] comes from outside through the port [pm] of the service [svc]. *)
Definition delivered (svcs : list json) (svc pm : json) (c : Conn) : Prop :=
  c_src c = Outside ∧ svc ∈ svcs ∧ exposes svc = true ∧ pm ∈ NestedSlice svc ["spec"; "ports"] ∧
    (∃ l, pm = JObj l) ∧ port_proto pm = c_proto c ∧ target_port pm = Some (c_port c) ∧ NestedInt64 pm ["port"] ≠ 0.


(** ** An example *)

(** A shop behind nginx and a load balancer that sends port 80 to 8080 and
    443 to 443. *)
Definition object_in (ns name : string) (spec : list (string * json)) : json :=
  JObj [("metadata", JObj [("namespace", JStr ns); ("name", JStr name)]); ("spec", JObj spec)].
Definition shop_services : list json :=
  [object_in "shop" "web" [("type", JStr "LoadBalancer");
     ("ports", JArr [JObj [("port", JNum "80"); ("targetPort", JNum "8080")]; JObj [("port", JNum "443"); ("targetPort", JNum "443")]])]].
Definition shop_src : Source := λ resource ns,
  if resource =s? "daemonsets" then Some [object_in "kube-flannel" "kube-flannel-ds" []; object_in "kube-system" "kube-router" []]
  else if resource =s? "namespaces" then Some [JObj [("metadata", JObj [("name", JStr "vault")])]; JObj [("metadata", JObj [("name", JStr "shop")])]]
  else if (resource =s? "pods") && ((ns =s? "") || (ns =s? "shop")) then Some [object_in "shop" "web-0" []]
  else if (resource =s? "services") && (ns =s? "shop") then Some shop_services
  else if resource =s? "ingresses" then Some [object_in "shop" "web" [("ingressClassName", JStr "nginx")]]
  else Some [].
Definition plain_proposer : SnapshotProposer := mkSnapshotProposer [] None None.
Definition unprotected (ns : string) : bool := false.
Definition shop_blocks : list Block := blocks_of plain_proposer shop_src "shop".
(** A parser that reads this one manifest. *)
Definition shop_reader (y : string) : option (option json) :=
  if y =s? policy_yaml "shop" (block_text <$> shop_blocks) then Some (Some (policy_object "shop" shop_blocks)) else None.
Definition shop_proposal : Proposal := default (mkProposal "" "" "" "" "" []) (ProposeForNamespace unprotected plain_proposer shop_src "shop").
Lemma shop_proposed : ProposeForNamespace unprotected plain_proposer shop_src "shop" = Some shop_proposal.
Proof. reflexivity. Qed.
Lemma shop_reads : reads_as_laid_out shop_reader "shop" shop_blocks.
Proof. unfold reads_as_laid_out, shop_reader. by rewrite bool_decide_eq_true_2. Qed.
Example shop_blocks_are : shop_blocks =
  [Same; From "ingress-nginx" "ingress-controller in ingress-nginx"; From "kube-system" "CoreDNS / kubelet probes / scheduler";
   External [("TCP", 80); ("TCP", 443)]].
Proof. vm_compute. reflexivity. Qed.

(** The connection the load balancer forwards to port 8080 is refused. *)
Definition web_port : json := JObj [("port", JNum "80"); ("targetPort", JNum "8080")].
