(* ===== verification/NetpolAnalyzers.v ===== *)
(** * Namespaces without a policy: internal/diagnose

    netpol_proposer.go offers a few policies a cycle and
    [checkNetworkPolicyCoverage] of security_drift.go complains of the same
    namespaces; that they are the same is a theorem. *)

From stdpp Require Import options.
From S2P Require Import Prelude GoString GoJson GoFmt Unstructured Types Netpol.
Local Open Scope Z_scope.

(** ** netpol_proposer.go *)

Section analyzers.
(** [isProtectedNS] of the proposer. *)
Variable protected : string → bool.

Definition DefaultNetpolMaxPerCycle : Z := 5.
Definition systemSecurityNamespaces : gset string :=
  {[ "kube-system"; "kube-public"; "kube-node-lease"; "cnpg-system"; "rook-ceph"; "vault"; "external-secrets" ]}.
Definition proposal_diagnostic (cni : CNIDetection) (name : string) (proposal : Proposal) : Diagnostic :=
  mkDiagnostic ("Namespace/cluster/" +:+ name +:+ "/missing-network-policy")
    ("Namespace " +:+ name +:+ " runs pods on a " +:+ CNIName cni +:+ " cluster (NetPol enforced) but has zero NetworkPolicies. Proposed: " +:+
     p_Rationale proposal)
    ("Review the proposed NetworkPolicy below. Approve to apply, Deny to dismiss. The proposer is deterministic: default-deny ingress + allow-from same namespace + allow-from detected Ingress controllers. Egress is left unrestricted (DNS, in-cluster service calls, external APIs all keep working)."
     +:+ para +:+ p_PolicyYAML proposal)
    "warning" "NetworkPolicyProposer" "" "" "" "" (p_PolicyYAML proposal) (p_PolicyKind proposal).
Definition batched_diagnostic (cni : CNIDetection) (skipped : list string) (cap : Z) : Diagnostic :=
  mkDiagnostic "Namespace/cluster/batched/missing-network-policy"
    (Itoa (Z.of_nat (length skipped)) +:+ " more namespace(s) on this " +:+ CNIName cni +:+
     " cluster have no NetworkPolicy (batched to avoid Slack flood): " +:+ print_slice skipped +:+ ". Approve the current " +:+ Itoa cap +:+
     " proposals; remaining namespaces will be proposed in subsequent cycles.")
    "" "info" "NetworkPolicyProposer" "" "" "" "" "" "".
(** The loop over the namespaces; [propose] is the proposer's call. *)
Fixpoint propose_loop (cni : CNIDetection) (propose : string → option Proposal) (cap : Z) (out : list Diagnostic) (skipped : list string)
    (nss : list json) : list Diagnostic * list string :=
  match nss with
  | [] => (out, skipped)
  | ns :: nss =>
      let name := GetName ns in
      if decide (name ∈ systemSecurityNamespaces) then propose_loop cni propose cap out skipped nss
      else
        match propose name with
        | None => propose_loop cni propose cap out skipped nss
        | Some proposal =>
            if cap <=? Z.of_nat (length out) then propose_loop cni propose cap out (skipped ++ [name]) nss
            else propose_loop cni propose cap (out ++ [proposal_diagnostic cni name proposal]) skipped nss
        end
  end.
Definition effective_cap (MaxPerCycle : Z) : Z := if MaxPerCycle <=? 0 then DefaultNetpolMaxPerCycle else MaxPerCycle.
Definition NetworkPolicyProposer_Run (p : SnapshotProposer) (MaxPerCycle : Z) (src : Source) : list Diagnostic :=
  let cni := DetectCNI src in
  if negb (Enforces cni) then [] else
  match src "namespaces" "" with
  | None => []
  | Some nss =>
      let cap := effective_cap MaxPerCycle in
      let '(out, skipped) := propose_loop cni (ProposeForNamespace protected p src) cap [] [] nss in
      if (0 <? length skipped)%nat then out ++ [batched_diagnostic cni skipped cap] else out
  end.

(** ** security_drift.go *)

Definition namespaces_of (l : option (list json)) : gset string := list_to_set (GetNamespace <$> items l).
(** The first pass: namespaces with pods and without a policy. *)
Definition coverage_candidates (src : Source) (nss : list json) : list string :=
  let netpolNamespaces := namespaces_of (src "networkpolicies" "") in
  let podNamespaces := namespaces_of (src "pods" "") in
  filter (λ name, name ∉ systemSecurityNamespaces ∧ name ∈ podNamespaces ∧ name ∉ netpolNamespaces) (GetName <$> nss).
Definition unenforced_diagnostic (cni : CNIDetection) (candidates : list string) : Diagnostic :=
  mkDiagnostic "Cluster/cni-no-netpol-enforcement"
    (Itoa (Z.of_nat (length candidates)) +:+ " namespace(s) have no NetworkPolicy, but CNI " +:+ Quote (CNIName cni) +:+
     " does NOT enforce them. " +:+ Evidence cni +:+ ". Adding NetworkPolicies here would be decorative-only.")
    "For real zero-trust enforcement: add Calico-for-policy alongside Flannel, or swap to Cilium. The Srenix NetworkPolicy proposer (Phase 2d-β) only activates on CNIs that enforce — barebones k3s with Flannel-only is intentionally left alone. See docs/design/2026-06-rag-networkpolicy-proposer.md."
    "info" "SecurityDrift" "" "" "" "" "" "".
Definition coverage_diagnostic (name : string) : Diagnostic :=
  mkDiagnostic ("Namespace/cluster/" +:+ name)
    ("Namespace " +:+ name +:+ " runs pods but has zero NetworkPolicies; any pod can reach any other pod cluster-wide")
    ("Add at least a default-deny NetworkPolicy: `kubectl apply -n " +:+ name +:+ " -f - <<EOF" +:+ nl +:+
     "apiVersion: networking.k8s.io/v1" +:+ nl +:+ "kind: NetworkPolicy" +:+ nl +:+ "metadata:" +:+ nl +:+ "  name: default-deny-all" +:+ nl +:+
     "spec:" +:+ nl +:+ "  podSelector: {}" +:+ nl +:+ "  policyTypes: [Ingress, Egress]" +:+ nl +:+
     "EOF`" +:+ nl +:+ "Then add explicit allow-rules for the inter-pod and egress paths the workloads need. Helm-managed apps typically ship NetworkPolicies in-chart; missing here usually means the `networkPolicy.enabled=true` value wasn't set at install.")
    "warning" "SecurityDrift" "" "" "" "" "" "".
Definition checkNetworkPolicyCoverage (src : Source) : list Diagnostic :=
  match src "namespaces" "" with
  | None => []
  | Some nss =>
      let candidates := coverage_candidates src nss in
      if (length candidates =? 0)%nat then [] else
      let cni := DetectCNI src in
      if negb (Enforces cni) then [unenforced_diagnostic cni candidates] else coverage_diagnostic <$> candidates
  end.

(** ** The proposer's batch *)

(** The namespaces the proposer has a policy for, in order. *)
Definition needy (p : SnapshotProposer) (src : Source) (nss : list json) : list (string * Proposal) :=
  omap (λ name, if decide (name ∈ systemSecurityNamespaces) then None else (λ pr, (name, pr)) <$> ProposeForNamespace protected p src name)
    (GetName <$> nss).
Definition offer (cni : CNIDetection) (w : string * Proposal) : Diagnostic := proposal_diagnostic cni w.1 w.2.
Lemma propose_loop_spec cni p src cap out skipped nss : let ws := needy p src nss in let room := Z.to_nat (cap - Z.of_nat (length out)) in
  propose_loop cni (ProposeForNamespace protected p src) cap out skipped nss =
    (out ++ (offer cni <$> take room ws), skipped ++ (drop room ws).*1).
Proof.
  cbv zeta. revert out skipped. induction nss as [|ns nss IH]; intros out skipped.
  - cbn. by rewrite take_nil, drop_nil, !app_nil_r.
  - cbn [propose_loop]. unfold needy. cbn [fmap list_fmap omap list_omap]. case_decide; [apply IH|].
    destruct (ProposeForNamespace protected p src (GetName ns)) as [pr|]; cbn [fmap option_fmap option_map]; [|apply IH].
    fold (needy p src nss). destruct (Z.leb_spec cap (Z.of_nat (length out))) as [Hc|Hc].
    + rewrite IH. replace (Z.to_nat (cap - Z.of_nat (length out))) with 0%nat by lia. cbn [take drop fmap list_fmap].
      by rewrite <-app_assoc.
    + rewrite IH, length_app. cbn [length].
      replace (Z.to_nat (cap - Z.of_nat (length out))) with (S (Z.to_nat (cap - Z.of_nat (length out + 1)))) by lia.
      cbn [take drop fmap list_fmap]. by rewrite <-app_assoc.
Qed.

Lemma wanted_names p src nss : (needy p src nss).*1 =
  filter (λ name, name ∉ systemSecurityNamespaces ∧ is_Some (ProposeForNamespace protected p src name)) (GetName <$> nss).
Proof.
  unfold needy. induction (GetName <$> nss) as [|n l IH]; [reflexivity|]. cbn [omap list_omap]. rewrite filter_cons.
  case_decide as Hn; [rewrite decide_False by tauto; exact IH|].
  destruct (ProposeForNamespace protected p src n) as [pr|] eqn:E; cbn [fmap option_fmap option_map].
  - rewrite decide_True by (split; [done|eauto]). cbn [list_fmap fst]. f_equal. exact IH.
  - rewrite decide_False; [exact IH|]. intros [_ [? ?]]. congruence.
Qed.
Lemma wanted_elem p src nss name : name ∈ (needy p src nss).*1 ↔ name ∈ GetName <$> nss ∧ name ∉ systemSecurityNamespaces ∧
  protected name = false ∧ items (src "networkpolicies" name) = [] ∧ items (src "pods" name) ≠ [].
Proof. rewrite wanted_names, list_elem_of_filter, ProposeForNamespace_is_Some. tauto. Qed.

(** What the proposer offers in a cycle: nothing where policies are not
    enforced; otherwise a diagnostic with its manifest for the first [cap]
    namespaces, in the order of the cluster's list, that are neither the
    system's nor protected, have pods and have no policy, and one diagnostic
    naming all the others.  The same namespaces come first again in the next
    cycle as long as nobody approves. *)
Theorem proposer_batch p MaxPerCycle src nss (Hen : Enforces (DetectCNI src) = true) (Hns : src "namespaces" "" = Some nss) :
  let ws := needy p src nss in
  let cap := effective_cap MaxPerCycle in
  NetworkPolicyProposer_Run p MaxPerCycle src =
    (offer (DetectCNI src) <$> take (Z.to_nat cap) ws) ++
    (if decide (length ws ≤ Z.to_nat cap)%nat then [] else [batched_diagnostic (DetectCNI src) (drop (Z.to_nat cap) ws).*1 cap]) ∧
  (∀ name, name ∈ ws.*1 ↔ name ∈ GetName <$> nss ∧ name ∉ systemSecurityNamespaces ∧ protected name = false ∧
     items (src "networkpolicies" name) = [] ∧ items (src "pods" name) ≠ []) ∧
  ws.*1 `sublist_of` (GetName <$> nss).
Proof.
  cbv zeta. split_and!.
  - unfold NetworkPolicyProposer_Run. rewrite Hen, Hns. cbn [negb]. cbv zeta. rewrite propose_loop_spec. cbn [length app].
    rewrite Z.sub_0_r. set (n := Z.to_nat _). set (ws := needy p src nss). rewrite length_fmap, length_drop.
    case_decide as Hl; destruct (Nat.ltb_spec 0 (length ws - n)); try lia; [|reflexivity]. by rewrite app_nil_r.
  - apply wanted_elem.
  - rewrite wanted_names. apply sublist_filter.
Qed.

(** ** The two analyzers agree *)

Lemma filter_ext_in {A} (P Q : A → Prop) `{!∀ x, Decision (P x), !∀ x, Decision (Q x)} l :
  Forall (λ x, P x ↔ Q x) l → filter P l = filter Q l.
Proof.
  induction 1 as [|x l HPQ _ IH]; [reflexivity|]. rewrite !filter_cons, IH. destruct (decide (P x)), (decide (Q x)); tauto.
Qed.

(** A source whose namespaced lists are the parts of its cluster-wide ones,
    and that answers. *)
Definition lists_by_namespace (src : Source) (resource : string) : Prop :=
  ∃ l, src resource "" = Some l ∧ ∀ ns, ns ≠ "" → src resource ns = Some (filter (λ j, GetNamespace j = ns) l).
Lemma namespaced_items src resource ns : lists_by_namespace src resource → ns ≠ "" →
  (items (src resource ns) ≠ [] ↔ ns ∈ namespaces_of (src resource "")).
Proof.
  intros (l & Hl & Hns) Hne. rewrite Hl, (Hns ns Hne). unfold namespaces_of. cbn [items default from_option].
  rewrite elem_of_list_to_set, list_elem_of_fmap. split.
  - destruct (filter _ l) as [|j l'] eqn:E; [done|]. intros _. assert (j ∈ filter (λ j, GetNamespace j = ns) l) as Hj by (rewrite E; apply list_elem_of_here).
    apply list_elem_of_filter in Hj as [<- Hj]. by exists j.
  - intros (j & -> & Hj) E. assert (j ∈ filter (λ x, GetNamespace x = GetNamespace j) l) as Hin by (by apply list_elem_of_filter).
    unfold id in E. rewrite E in Hin. by apply elem_of_nil in Hin.
Qed.

(** The warning of the security analyzer and the offer of the proposer
    are about the same namespaces: on a cluster that enforces policies, the
    namespaces warned about are, but for the protected ones, exactly those
    there is a policy to offer for, in the same order. *)
Theorem coverage_agrees p src nss (Hen : Enforces (DetectCNI src) = true) (Hns : src "namespaces" "" = Some nss)
    (Hnames : Forall (λ ns, GetName ns ≠ "") nss)
    (Hnp : lists_by_namespace src "networkpolicies") (Hpods : lists_by_namespace src "pods") :
  ∃ names, checkNetworkPolicyCoverage src = coverage_diagnostic <$> names ∧
    filter (λ n, protected n = false) names = (needy p src nss).*1.
Proof.
  exists (coverage_candidates src nss). split.
  - unfold checkNetworkPolicyCoverage. rewrite Hns, Hen. cbn [negb]. by destruct (coverage_candidates src nss).
  - unfold coverage_candidates. rewrite wanted_names, list_filter_filter. apply filter_ext_in.
    apply Forall_fmap. eapply Forall_impl; [exact Hnames|]. intros ns Hne. cbn.
    rewrite ProposeForNamespace_is_Some. rewrite (namespaced_items src "pods" _ Hpods Hne).
    rewrite <-(namespaced_items src "networkpolicies" _ Hnp Hne). destruct (items (src "networkpolicies" (GetName ns))); intuition congruence.
Qed.
End analyzers.

(** ** The shop *)

Definition shop_nss : list json := items (shop_src "namespaces" "").
Example shop_coverage : d_Subject <$> checkNetworkPolicyCoverage shop_src = ["Namespace/cluster/shop"].
Proof. vm_compute. reflexivity. Qed.
Lemma shop_enforces : Enforces (DetectCNI shop_src) = true.
Proof. vm_compute. reflexivity. Qed.
Lemma shop_lists_policies : lists_by_namespace shop_src "networkpolicies".
Proof. exists []. split; [reflexivity|]. intros ns _. reflexivity. Qed.
Lemma shop_lists_pods : lists_by_namespace shop_src "pods".
Proof.
  exists [object_in "shop" "web-0" []]. split; [reflexivity|]. intros ns Hne. unfold shop_src. cbn [andb].
  rewrite !bool_decide_eq_false_2 by discriminate. rewrite (bool_decide_eq_true_2 ("pods" = "pods")) by reflexivity. cbn [andb].
  rewrite (bool_decide_eq_false_2 (ns = "")) by done. cbn [orb]. rewrite filter_cons, filter_nil.
  change (GetNamespace (object_in "shop" "web-0" [])) with "shop". case_bool_decide as E; [by rewrite decide_True|by rewrite decide_False].
Qed.
Lemma proposer_batch_witness : d_Subject <$> NetworkPolicyProposer_Run unprotected plain_proposer 0 shop_src =
  ["Namespace/cluster/shop/missing-network-policy"].
Proof.
  destruct (proposer_batch unprotected plain_proposer 0 shop_src shop_nss shop_enforces eq_refl) as [-> _]. vm_compute. reflexivity.
Defined.
Lemma coverage_agrees_witness : ∃ names, checkNetworkPolicyCoverage shop_src = coverage_diagnostic <$> names ∧
  filter (λ n, unprotected n = false) names = (needy unprotected plain_proposer shop_src shop_nss).*1.
Proof.
  apply (coverage_agrees unprotected plain_proposer shop_src shop_nss shop_enforces eq_refl).
  - repeat constructor; discriminate.
  - exact shop_lists_policies.
  - exact shop_lists_pods.
Defined.
