(* ===== verification/ManifestBridge.v ===== *)
(** * From a proposed manifest to an action: pkg/ai/manifest_bridge.go

    The bridge turns the manifest a diagnostic proposes into an action to be
    signed and approved.  The manifests of the policy proposer (Netpol.v)
    pass through it, the validators (Ai.v) included. *)

From stdpp Require Import options.
From S2P Require Import Prelude GoString GoTime GoJson Unstructured Protected Types Ai Netpol NetpolAnalyzers.

Section bridge.
Context `{UrlApi, YamlApi} (env : string) (st : ExtraState).

Definition DefaultProposalTTL : Duration := (15 * Minute)%Z.
Record manifestTarget := mkTarget { mt_Kind : string; mt_Namespace : string; mt_Name : string }.
Definition parseManifestTarget (yamlBytes : string) : option (manifestTarget * string) :=
  match yaml_Unmarshal yamlBytes with
  | Some (Some u) =>
      let t := mkTarget (GetKind u) (Ai.GetNamespace u) (Ai.GetName u) in
      if (mt_Kind t =s? "") || (mt_Namespace t =s? "") || (mt_Name t =s? "") then None else Some (t, mt_Kind t)
  | _ => None
  end.
Definition bridge_action (d : Diagnostic) (target : manifestTarget) (kindLabel : string) (now : Time) (ttl : Duration) : AIProposedAction :=
  {| ActionID := d_Subject d +:+ ":apply-manifest"; PlanID := ""; StepN := 0; PrerequisiteActionID := "";
     a_Tier := TierT1; a_ActionKind := ActionApplyManifest;
     a_Target := mkObjectRef (mt_Kind target) (mt_Namespace target) (mt_Name target);
     PatchPayload := ""; ManifestYAML := d_ProposedPolicyYAML d; PullRequestURL := "";
     a_Rationale := "Apply " +:+ kindLabel +:+ " emitted by " +:+ d_Source d +:+ " analyzer";
     Rollback := mkRollbackInfo ("kubectl delete " +:+ ToLower (mt_Kind target) +:+ " -n " +:+ mt_Namespace target +:+ " " +:+ mt_Name target)
                   "" (mkObjectRef "" "" "") "";
     DiagnosticSubject := d_Subject d; a_CreatedAt := now; a_ExpiresAt := Add now ttl |}.
Definition BuildApplyManifestProposalWithTTL (now : Time) (d : Diagnostic) (ttl : Duration) : option AIProposedAction :=
  match parseManifestTarget (d_ProposedPolicyYAML d) with
  | None => None
  | Some (target, kindLabel) =>
      let ttl := if (ttl <=? 0)%Z then DefaultProposalTTL else ttl in
      let action := bridge_action d target kindLabel now ttl in
      match Validate env st action with Some _ => None | None => Some action end
  end.
Definition ManifestBridge_Propose (ProposalTTL : Duration) (now : Time) (d : Diagnostic) : option AIProposedAction :=
  if d_ProposedPolicyYAML d =s? "" then None else BuildApplyManifestProposalWithTTL now d ProposalTTL.

Lemma Validate_none a : Validate env st a = None ↔ executable env st a ∧ TrimSpace (rb_Description (Rollback a)) ≠ "".
Proof. unfold Validate. rewrite orelse_none, guard_none, bool_decide_eq_false, validateStructural_none. tauto. Qed.

(** C24: an action the bridge makes applies exactly the manifest of the
    diagnostic, a safe NetworkPolicy outside the protected namespaces, and
    names as its target the object that manifest is about, so that what is
    shown, what is checked and what is applied are one object. *)
Theorem bridge_safe ttl now d a (Ha : ManifestBridge_Propose ttl now d = Some a) :
  executable env st a ∧ ManifestYAML a = d_ProposedPolicyYAML d ∧ DiagnosticSubject a = d_Subject d ∧
  ∃ u, yaml_Unmarshal (ManifestYAML a) = Some (Some u) ∧ safe_policy env st u ∧
    a_Target a = mkObjectRef "NetworkPolicy" (Ai.GetNamespace u) (Ai.GetName u).
Proof.
  unfold ManifestBridge_Propose, BuildApplyManifestProposalWithTTL, parseManifestTarget in Ha. case_bool_decide; [discriminate|].
  destruct (yaml_Unmarshal (d_ProposedPolicyYAML d)) as [[u|]|] eqn:Eu; [|discriminate..]. cbv zeta in Ha.
  cbn [mt_Kind mt_Namespace mt_Name] in Ha. destruct (_ || _ || _); [discriminate|].
  destruct (Validate _ _ _) as [|] eqn:Ev; [discriminate|]. injection Ha as <-. apply Validate_none in Ev as [Hex _].
  split_and!; [exact Hex|reflexivity..|]. destruct (ex_manifest _ _ _ Hex eq_refl) as (_ & u' & Eu' & Hs).
  cbn [bridge_action ManifestYAML] in Eu' |- *. rewrite Eu in Eu'. injection Eu' as <-. exists u. split_and!; [exact Eu|exact Hs|].
  cbn [bridge_action a_Target mt_Kind mt_Namespace mt_Name]. by rewrite (sp_kind _ _ _ Hs).
Qed.
End bridge.

(** ** Manifests as JSON values *)

(** The accessors of Unstructured.v over a parser that yields JSON values. *)
Definition json_yaml (Unmarshal : string → option (option json)) : YamlApi := {|
  object := json;
  node := json;
  yaml_Unmarshal := Unmarshal;
  GetAPIVersion := λ u, Unstructured.NestedString u ["apiVersion"];
  GetKind := λ u, Unstructured.NestedString u ["kind"];
  Ai.GetName := Unstructured.GetName;
  Ai.GetNamespace := Unstructured.GetNamespace;
  Ai.NestedStringSlice := Unstructured.NestedStringSlice;
  Ai.NestedSlice := λ u path, match jpath path u with Some (JArr l) => (l, true) | _ => ([], false) end;
  asMap := λ j, match j with JObj _ => Some j | _ => None end;
  Ai.NestedString := λ u path, match jpath path u with Some (JStr s) => (s, true) | _ => ("", false) end;
|}.

Section proposals.
Context `{UrlApi} (Unmarshal : string → option (option json)) (env : string) (st : ExtraState).
#[local] Instance yaml : YamlApi := json_yaml Unmarshal.

Lemma policy_yaml_nonempty ns blocks : policy_yaml ns blocks ≠ "".
Proof. unfold policy_yaml, text. rewrite Join_cons. discriminate. Qed.
Lemma policy_object_safe ns blocks : ns ≠ "" → protects env st ns = false → safe_policy env st (policy_object ns blocks).
Proof.
  intros Hne Hp. split; [reflexivity|reflexivity|discriminate|exact (conj Hne Hp)| |discriminate|].
  - cbn. by rewrite list_elem_of_singleton.
  - intros ir irMap f fMap cidr Hir Hm Hf Hfm Hc. change (ir ∈ block_object <$> blocks) in Hir.
    apply list_elem_of_fmap in Hir as (b & -> & _). destruct b as [|n t|ports]; cbn in Hm; injection Hm as <-;
      cbn in Hf; apply list_elem_of_singleton in Hf as ->; cbn in Hfm; injection Hfm as <-; cbn in Hc; by injection Hc as <-.
Qed.

Definition rollback_of (ns : string) : string := "kubectl delete networkpolicy -n " +:+ ns +:+ " " +:+ policyName.
Lemma rollback_text ns : TrimSpace (rollback_of ns) ≠ "".
Proof.
  unfold TrimSpace, rollback_of. change (trim_front is_space2 is_space3 ("kubectl delete networkpolicy -n " +:+ ns +:+ " " +:+ policyName))
    with ("kubectl delete networkpolicy -n " +:+ ns +:+ " " +:+ policyName).
  rewrite <-!sapp_assoc, srev_app. generalize (srev (("kubectl delete networkpolicy -n " +:+ ns) +:+ " ")). intros x. change (srev policyName) with "retsulcartni-wolla-desoporp-xiners".
  change (trim_front _ _ ("retsulcartni-wolla-desoporp-xiners" +:+ x)) with ("retsulcartni-wolla-desoporp-xiners" +:+ x).
  rewrite srev_app. intros E. apply (f_equal len) in E. rewrite sapp_length in E. cbn in E. lia.
Qed.
Definition ttl_of (ttl : Duration) : Duration := if (ttl <=? 0)%Z then DefaultProposalTTL else ttl.
Lemma ttl_pos ttl : (0 < ttl_of ttl)%Z.
Proof. unfold ttl_of. destruct (Z.leb_spec ttl 0); [reflexivity|lia]. Qed.
Lemma bridge_accepts d ns blocks now ttl : ns ≠ "" → protects env st ns = false → d_ProposedPolicyYAML d ≠ "" → (0 < now)%Z →
  Unmarshal (d_ProposedPolicyYAML d) = Some (Some (policy_object ns blocks)) →
  ManifestBridge_Propose env st ttl now d =
    Some (bridge_action d (mkTarget "NetworkPolicy" ns policyName) "NetworkPolicy" now (ttl_of ttl)).
Proof.
  intros Hne Hprot Hy Hnow Hread. unfold ManifestBridge_Propose, BuildApplyManifestProposalWithTTL, parseManifestTarget.
  rewrite bool_decide_eq_false_2 by done. cbn [yaml yaml_Unmarshal json_yaml]. rewrite Hread. cbv zeta.
  set (t := {| mt_Kind := _ |}). assert (t = mkTarget "NetworkPolicy" ns policyName) as -> by reflexivity.
  cbn [mt_Kind mt_Namespace mt_Name]. rewrite (bool_decide_eq_false_2 (ns = "")) by done.
  change (("NetworkPolicy" =s? "") || false || (policyName =s? "")) with false. cbv iota beta. fold (ttl_of ttl).
  assert (Validate env st (bridge_action d (mkTarget "NetworkPolicy" ns policyName) "NetworkPolicy" now (ttl_of ttl)) = None) as Hv;
    [|by rewrite Hv].
  apply Validate_none. split; [|apply (rollback_text ns)]. pose proof (ttl_pos ttl) as Ht.
  split; cbn [bridge_action a_ActionKind a_Target or_Kind or_Namespace or_Name PatchPayload ManifestYAML PullRequestURL a_CreatedAt a_ExpiresAt a_Tier].
  - unfold ActionApplyManifest. set_solver.
  - done.
  - split; intros Hin; assert (protects env st ns = true) as Ht' by (apply protects_spec; auto); congruence.
  - done.
  - intros E. discriminate.
  - done.
  - intros _. split; [exact Hy|]. exists (policy_object ns blocks). split; [exact Hread|by apply policy_object_safe].
  - done.
  - intros E. discriminate.
  - unfold Add. lia.
  - unfold TierT1. set_solver.
Qed.

End proposals.

(** ** The shop *)

#[local] Instance no_urls : UrlApi := {| URL := unit; url_Parse := λ _, None; u_Scheme := λ _, ""; u_Host := λ _, "" |}.
Definition no_extras : ExtraState := mkExtraState ∅ [] true.
Lemma shop_is_proposed : ProposeForNamespace (protects "" no_extras) plain_proposer shop_src "shop" = Some shop_proposal.
Proof. vm_compute. reflexivity. Qed.
Definition shop_cni : CNIDetection := DetectCNI shop_src.
Definition shop_action : AIProposedAction :=
  default (bridge_action (proposal_diagnostic shop_cni "shop" shop_proposal) (mkTarget "" "" "") "" 0%Z 0%Z)
    (@ManifestBridge_Propose _ (json_yaml shop_reader) "" no_extras 0%Z Second (proposal_diagnostic shop_cni "shop" shop_proposal)).
Lemma bridge_safe_witness : @executable _ (json_yaml shop_reader) "" no_extras shop_action.
Proof.
  refine (proj1 (@bridge_safe _ (json_yaml shop_reader) "" no_extras 0%Z Second (proposal_diagnostic shop_cni "shop" shop_proposal) shop_action _)).
  vm_compute. reflexivity.
Defined.
