(* ===== verification/Snapshot.v ===== *)
(** * What analyzers read: internal/snapshot/source.go

    An analyzer only reads; what the cluster answers during one run is a pair
    of functions. *)

From stdpp Require Import options.
From S2P Require Import Prelude GoJson Unstructured Cluster.

(** [schema.GroupVersionResource] *)
Record GroupVersionResource := mkGVR { gv_Group : string; gv_Version : string; gv_Resource : string }.
#[export] Instance GroupVersionResource_eq_dec : EqDecision GroupVersionResource.
Proof. solve_decision. Defined.
Definition GVR_Pod : GroupVersionResource := mkGVR "" "v1" "pods".
Definition GVR_ServiceAccount : GroupVersionResource := mkGVR "" "v1" "serviceaccounts".
Definition GVR_Ingress : GroupVersionResource := mkGVR "networking.k8s.io" "v1" "ingresses".
Definition GVR_Service : GroupVersionResource := mkGVR "" "v1" "services".
Definition GVR_Endpoints : GroupVersionResource := mkGVR "" "v1" "endpoints".
Definition GVR_EndpointSlice : GroupVersionResource := mkGVR "discovery.k8s.io" "v1" "endpointslices".

(** [List] and [Get] of [Source]; an error comes without an object. *)
Record Reads := mkReads {
  rd_List : GroupVersionResource → string → error + list json;
  rd_Get : GroupVersionResource → string → string → error + json;
}.
Definition items_of (r : error + list json) : list json := match r with inl _ => [] | inr l => l end.
(** [unstructured.NestedBool] with its [found]. *)
Definition found_bool (j : json) (path : list string) : option bool := match jpath path j with Some (JBool b) => Some b | _ => None end.
