(* ===== verification/RbacDrift.v ===== *)
(** * Roles and service accounts: internal/diagnose/rbac_drift.go

    The analyzer of wildcard roles and unbound service accounts with its
    allowlist, as a function of what the cluster answers.  The order in which
    it visits the set of account references is left open, as Go leaves it. *)

From stdpp Require Import options.
From S2P Require Import Prelude GoString GoJson GoNum GoFmt Unstructured Types Cluster Rbac Permissions Snapshot.
Local Open Scope Z_scope.

(** ** The lists *)

Definition rbac_group : string := "rbac.authorization.k8s.io".
Definition gvrRole : GroupVersionResource := mkGVR rbac_group "v1" "roles".
Definition gvrRoleBinding : GroupVersionResource := mkGVR rbac_group "v1" "rolebindings".
Definition gvrClusterRole : GroupVersionResource := mkGVR rbac_group "v1" "clusterroles".
Definition gvrClusterRoleBinding : GroupVersionResource := mkGVR rbac_group "v1" "clusterrolebindings".
Definition gvrConfigMap : GroupVersionResource := mkGVR "" "v1" "configmaps".

Definition systemRBACNamespaces : gset string :=
  {[ "kube-system"; "kube-public"; "kube-node-lease"; "calico-system"; "tigera-operator"; "minio-operator"; "kasten-io"; "olm"; "operators";
     "rook-ceph"; "cert-manager"; "longhorn-system"; "cnpg-system"; "external-secrets"; "vault"; "local-path-storage"; "cattle-system";
     "openshift-operators" ]}.
Definition systemRBACNamePrefixes : list string :=
  ["system:"; "cluster-admin"; "k10-"; "kasten-"; "calico-"; "tigera-"; "minio-"; "olm."; "olm-"; "k3s-"; "local-path-"; "console-"; "rook-";
   "cert-manager"; "velero"; "longhorn-"; "cnpg-"; "external-secrets"; "vault-"; "openshift-"].
Definition systemRBACExactNames : gset string := {[ "admin"; "edit"; "view"; "cluster-owner"; "local-clusterowner" ]}.

Record rbacAllowlist := mkAllowlist {
  extraNamespaces : gset string;
  extraPrefixes : list string;
  extraExactNames : gset string;
}.
Definition no_allowlist : rbacAllowlist := mkAllowlist ∅ [] ∅.

Definition has_prefix_of (prefixes : list string) (name : string) : bool := existsb (HasPrefix name) prefixes.
Definition isSystemRBAC (name namespace : string) : bool :=
  if bool_decide (namespace ∈ systemRBACNamespaces) then true
  else if has_prefix_of systemRBACNamePrefixes name then true
  else bool_decide (name ∈ systemRBACExactNames).
Definition isSystemRBACWithExtra (name namespace : string) (extra : rbacAllowlist) : bool :=
  if isSystemRBAC name namespace then true
  else if bool_decide (namespace ∈ extraNamespaces extra) then true
  else if has_prefix_of (extraPrefixes extra) name then true
  else bool_decide (name ∈ extraExactNames extra).
Definition onlySystemAPIGroups (groups : list string) : bool :=
  match groups with
  | [] => false
  | _ => forallb (λ g, (g =s? "authentication.k8s.io") || (g =s? "authorization.k8s.io") || (g =s? "certificates.k8s.io")) groups
  end.
Definition nsOrCluster (ns : string) : string := if ns =s? "" then "cluster" else ns.
Definition containsString (slice : list string) (s : string) : bool := existsb (λ x, x =s? s) slice.

(** ** The ConfigMap *)

(** [strings.FieldsFunc] over ASCII separators; [cur] is the field so far. *)
Fixpoint fields_func (f : ascii → bool) (cur s : string) : list string :=
  match s with
  | "" => if cur =s? "" then [] else [cur]
  | String c s =>
      if f c then (if cur =s? "" then fields_func f "" s else cur :: fields_func f "" s)
      else fields_func f (cur +:+ String c "") s
  end.
Definition FieldsFunc (s : string) (f : ascii → bool) : list string := fields_func f "" s.
Definition entry_separator (c : ascii) : bool := (ord c =? 44) || (ord c =? 10) || (ord c =? 13).
Definition parseEntries (raw : string) : list string := List.filter (λ p, p ≠s? "") (TrimSpace <$> FieldsFunc raw entry_separator).

Definition installNamespace (POD_NAMESPACE : string) : string := if POD_NAMESPACE ≠s? "" then POD_NAMESPACE else "agentic-sre".
Definition loadRBACAllowlist (POD_NAMESPACE : string) (src : Reads) : rbacAllowlist :=
  match rd_Get src gvrConfigMap (installNamespace POD_NAMESPACE) "srenix-rbac-allowlist" with
  | inl _ => no_allowlist
  | inr obj =>
      let data := NestedStringMap obj ["data"] in
      if (length data =? 0)%nat then no_allowlist else
      let entries key := parseEntries (default "" (lookup_str key data)) in
      mkAllowlist (list_to_set (entries "allowNamespaces")) (entries "allowRolePrefixes") (list_to_set (entries "allowRoleNames"))
  end.

Example entries_parsed : parseEntries (" istio-system ,," +:+ nl +:+ "argo,  ") = ["istio-system"; "argo"].
Proof. vm_compute. reflexivity. Qed.

(** ** Wildcard verbs *)

Definition wild_rule (rule : json) : bool :=
  containsString (NestedStringSlice rule ["verbs"]) "*" && negb (onlySystemAPIGroups (NestedStringSlice rule ["apiGroups"])).
Definition wildcard_diagnostic (kind name subject : string) (rule : json) : Diagnostic :=
  mkDiagnostic subject
    (kind +:+ " " +:+ name +:+ " grants wildcard verb (verbs=[*], apiGroups=" +:+ print_slice (NestedStringSlice rule ["apiGroups"]) +:+
     ", resources=" +:+ print_slice (NestedStringSlice rule ["resources"]) +:+ ")")
    ("Wildcard verbs grant broader privileges than typical workloads need. Confirm this " +:+ ToLower kind +:+
     " genuinely needs *. If not: replace `verbs: [" +:+ Quote "*" +:+
     "]` with the explicit verb set (get/list/watch/create/update/patch/delete) the workload uses, and re-apply.")
    "warning" "RBACDrift" "" "" "" "" "" "".
(** The second pass over the rules stops at the first. *)
Fixpoint first_wild (kind name subject : string) (rules : list json) (out : list Diagnostic) : list Diagnostic :=
  match rules with
  | [] => out
  | rule :: rules => if wild_rule rule then out ++ [wildcard_diagnostic kind name subject rule] else first_wild kind name subject rules out
  end.
Definition check_role (kind : string) (extra : rbacAllowlist) (acc : list Diagnostic * list string) (role : json)
    : list Diagnostic * list string :=
  let '(out, suppressed) := acc in
  let name := GetName role in
  let ns := GetNamespace role in
  let subject := kind +:+ "/" +:+ nsOrCluster ns +:+ "/" +:+ name in
  let rules := NestedSlice role ["rules"] in
  if negb (existsb wild_rule rules) then acc
  else if isSystemRBACWithExtra name ns extra then (out, suppressed ++ [subject])
  else (first_wild kind name subject rules out, suppressed).
Definition checkWildcardVerbs (src : Reads) (gvr : GroupVersionResource) (kind : string) (extra : rbacAllowlist) : list Diagnostic * list string :=
  match rd_List src gvr "" with
  | inl _ => ([], [])
  | inr roles => foldl (check_role kind extra) ([], []) roles
  end.

(** ** Service accounts *)

Definition saRef : Type := string * string.
Definition sa_automount (sas : error + list json) : gmap string bool :=
  match sas with
  | inl _ => ∅
  | inr sas =>
      foldl (λ m sa, match found_bool sa ["automountServiceAccountToken"] with
                     | Some v => <[GetNamespace sa +:+ "/" +:+ GetName sa := v]> m
                     | None => m
                     end) ∅ sas
  end.
(** The account whose token a pod mounts, where it counts. *)
Definition pod_ref (extra : rbacAllowlist) (saAutomount : gmap string bool) (p : json) : option saRef :=
  let ns := GetNamespace p in
  if bool_decide (ns ∈ systemRBACNamespaces) then None else
  if bool_decide (ns ∈ extraNamespaces extra) then None else
  let saName := NestedString p ["spec"; "serviceAccountName"] in
  if (saName =s? "") || (saName =s? "default") then None else
  let automount :=
    match found_bool p ["spec"; "automountServiceAccountToken"] with
    | Some v => v
    | None => default true (saAutomount !! (ns +:+ "/" +:+ saName))
    end in
  if automount then Some (ns, saName) else None.
Definition binding_subjects (rb : json) : list saRef :=
  omap (λ sub,
    if NestedString sub ["kind"] ≠s? "ServiceAccount" then None else
    let ns := NestedString sub ["namespace"] in
    Some (if ns =s? "" then GetNamespace rb else ns, NestedString sub ["name"])) (NestedSlice rb ["subjects"]).
Definition listed_subjects (bindings : error + list json) : list saRef :=
  match bindings with inl _ => [] | inr l => l ≫= binding_subjects end.
Definition unbound_diagnostic (ref : saRef) : Diagnostic :=
  let '(ns, name) := ref in
  mkDiagnostic ("ServiceAccount/" +:+ ns +:+ "/" +:+ name)
    ("ServiceAccount " +:+ ns +:+ "/" +:+ name +:+ " is mounted by a Pod but has no RoleBinding or ClusterRoleBinding")
    ("Workloads using this ServiceAccount run with default-token permissions only. Symptoms: intermittent 'forbidden' errors, controller cannot watch its own CRD, etc. Pick a Role appropriate for what the workload needs (list candidates with `kubectl -n "
     +:+ ns +:+ " get role,clusterrole`), then bind it via `kubectl -n " +:+ ns +:+ " create rolebinding " +:+ name +:+
     "-binding --serviceaccount=" +:+ ns +:+ ":" +:+ name +:+
     " --role=NAME` (substitute NAME with your chosen role). Or, if the workload doesn't need API access at all, switch the Pod to `serviceAccountName: default`.")
    "warning" "RBACDrift" "" "" "" "" "" "".
Definition ref_subject (ref : saRef) : string := "ServiceAccount/" +:+ ref.1 +:+ "/" +:+ ref.2.
Definition ref_allowed (extra : rbacAllowlist) (ref : saRef) : bool :=
  if bool_decide (ref.2 ∈ extraExactNames extra) then true else has_prefix_of (extraPrefixes extra) ref.2.
Definition check_ref (extra : rbacAllowlist) (bound : gset saRef) (acc : list Diagnostic * list string) (ref : saRef)
    : list Diagnostic * list string :=
  let '(out, suppressed) := acc in
  if bool_decide (ref ∈ bound) then acc
  else if ref_allowed extra ref then (out, suppressed ++ [ref_subject ref])
  else (out ++ [unbound_diagnostic ref], suppressed).

(** ** The run *)

Section run.
(** [for ref := range refs] *)
Variable range_refs : gset saRef → list saRef.

Definition checkUnboundServiceAccounts (src : Reads) (extra : rbacAllowlist) : list Diagnostic * list string :=
  match rd_List src GVR_Pod "" with
  | inl _ => ([], [])
  | inr pods =>
      let saAutomount := sa_automount (rd_List src GVR_ServiceAccount "") in
      let refs : gset saRef := list_to_set (omap (pod_ref extra saAutomount) pods) in
      if decide (refs = ∅) then ([], []) else
      let bound : gset saRef := list_to_set (listed_subjects (rd_List src gvrRoleBinding "") ++ listed_subjects (rd_List src gvrClusterRoleBinding "")) in
      foldl (check_ref extra bound) ([], []) (range_refs refs)
  end.
Definition maxDisplay : nat := 12.
Definition digest_message (suppressed : list string) : string :=
  let overflow := (length suppressed - maxDisplay)%nat in
  Itoa (Z.of_nat (length suppressed)) +:+ " expected-system RBAC finding(s) suppressed as allowlisted: " +:+ Join (take maxDisplay suppressed) ", " +:+
  (if (0 <? overflow)%nat then " +" +:+ Itoa (Z.of_nat overflow) +:+ " more" else "").
Definition digest (suppressed : list string) : list Diagnostic :=
  if (0 <? length suppressed)%nat then
    [mkDiagnostic "RBACDrift/cluster/suppressed-expected-system" (digest_message suppressed)
       ("These are RBAC wildcard/unbound-SA findings on known system/operator components, suppressed to reduce noise. To extend or shrink the allowlist, create or edit the `srenix-rbac-allowlist` ConfigMap in the Srenix install namespace (keys: allowNamespaces / allowRolePrefixes / allowRoleNames, comma- or newline-separated).")
       "info" "RBACDrift" "" "" "" "" "" ""]
  else [].
Definition RBACDrift_Run (POD_NAMESPACE : string) (src : Reads) : list Diagnostic :=
  let extra := loadRBACAllowlist POD_NAMESPACE src in
  let '(wildcardOut, wildcardSuppressed) := checkWildcardVerbs src gvrClusterRole "ClusterRole" extra in
  let '(roleOut, roleSuppressed) := checkWildcardVerbs src gvrRole "Role" extra in
  let '(saOut, saSuppressed) := checkUnboundServiceAccounts src extra in
  wildcardOut ++ roleOut ++ saOut ++ digest (wildcardSuppressed ++ roleSuppressed ++ saSuppressed).
End run.

(** ** What a run reports *)

Definition has_wild (role : json) : bool := existsb wild_rule (NestedSlice role ["rules"]).
Definition role_subject (kr : string * json) : string := kr.1 +:+ "/" +:+ nsOrCluster (GetNamespace kr.2) +:+ "/" +:+ GetName kr.2.
Definition role_allowed (extra : rbacAllowlist) (kr : string * json) : bool := isSystemRBACWithExtra (GetName kr.2) (GetNamespace kr.2) extra.
(** The report names the first wildcard rule. *)
Definition role_report (kr : string * json) : Diagnostic :=
  wildcard_diagnostic kr.1 (GetName kr.2) (role_subject kr) (default JNull (List.find wild_rule (NestedSlice kr.2 ["rules"]))).
Definition wild_roles (src : Reads) (gvr : GroupVersionResource) (kind : string) : list (string * json) :=
  pair kind <$> List.filter has_wild (items_of (rd_List src gvr "")).
Definition all_wild (src : Reads) : list (string * json) := wild_roles src gvrClusterRole "ClusterRole" ++ wild_roles src gvrRole "Role".
(** A listed pod mounts the account's token, outside the skipped namespaces;
    a listed binding has it among its subjects. *)
Definition mounted (extra : rbacAllowlist) (src : Reads) (ref : saRef) : Prop :=
  ∃ p, p ∈ items_of (rd_List src GVR_Pod "") ∧ pod_ref extra (sa_automount (rd_List src GVR_ServiceAccount "")) p = Some ref.
Definition bound_ref (src : Reads) (ref : saRef) : Prop :=
  ∃ gvr rb, (gvr = gvrRoleBinding ∨ gvr = gvrClusterRoleBinding) ∧ rb ∈ items_of (rd_List src gvr "") ∧ ref ∈ binding_subjects rb.

Lemma first_wild_spec kind name subject rules out : existsb wild_rule rules = true →
  first_wild kind name subject rules out = out ++ [wildcard_diagnostic kind name subject (default JNull (List.find wild_rule rules))].
Proof. induction rules as [|r l IH]; [discriminate|]. cbn [existsb first_wild List.find]. by destruct (wild_rule r). Qed.
Lemma check_roles_spec kind extra roles out sup : let wild := pair kind <$> List.filter has_wild roles in
  foldl (check_role kind extra) (out, sup) roles =
    (out ++ (role_report <$> List.filter (negb ∘ role_allowed extra) wild), sup ++ (role_subject <$> List.filter (role_allowed extra) wild)).
Proof.
  cbv zeta. revert out sup. induction roles as [|r roles IH]; intros out sup; [by rewrite !app_nil_r|]. cbn [foldl].
  unfold check_role at 2. cbv beta iota zeta. fold (has_wild r).
  change (isSystemRBACWithExtra _ _ extra) with (role_allowed extra (kind, r)).
  change (kind +:+ _) with (role_subject (kind, r)). cbn [List.filter].
  destruct (has_wild r) eqn:Ew; cbn [negb]; [|apply IH]. cbn [fmap list_fmap List.filter compose].
  destruct (role_allowed extra (kind, r)); cbn [negb fmap list_fmap].
  - by rewrite IH, <-app_assoc.
  - by rewrite first_wild_spec, IH, <-app_assoc.
Qed.
Lemma checkWildcardVerbs_spec src gvr kind extra : checkWildcardVerbs src gvr kind extra =
  (role_report <$> List.filter (negb ∘ role_allowed extra) (wild_roles src gvr kind),
   role_subject <$> List.filter (role_allowed extra) (wild_roles src gvr kind)).
Proof. unfold checkWildcardVerbs, wild_roles. destruct (rd_List src gvr ""); [done|]. apply check_roles_spec. Qed.

Lemma check_refs_spec extra bound refs out sup : let free := filter (.∉ bound) refs in
  foldl (check_ref extra bound) (out, sup) refs =
    (out ++ (unbound_diagnostic <$> List.filter (negb ∘ ref_allowed extra) free), sup ++ (ref_subject <$> List.filter (ref_allowed extra) free)).
Proof.
  cbv zeta. revert out sup. induction refs as [|r refs IH]; intros out sup; [by rewrite !app_nil_r|]. cbn [foldl].
  unfold check_ref at 2. rewrite filter_cons. case_bool_decide as Hb.
  - rewrite decide_False by tauto. apply IH.
  - rewrite decide_True by done. cbn [List.filter compose]. destruct (ref_allowed extra r); cbn [negb fmap list_fmap]; rewrite IH, <-app_assoc; done.
Qed.
Lemma elem_of_listed src gvr ref : ref ∈ listed_subjects (rd_List src gvr "") ↔ ∃ rb, rb ∈ items_of (rd_List src gvr "") ∧ ref ∈ binding_subjects rb.
Proof.
  unfold listed_subjects, items_of. destruct (rd_List src gvr ""); [set_solver|]. rewrite list_elem_of_bind. naive_solver.
Qed.
Lemma elem_of_bound src ref :
  ref ∈ listed_subjects (rd_List src gvrRoleBinding "") ++ listed_subjects (rd_List src gvrClusterRoleBinding "") ↔ bound_ref src ref.
Proof. rewrite elem_of_app, !elem_of_listed. unfold bound_ref. naive_solver. Qed.

Section reported.
Context (range_refs : gset saRef → list saRef) (range_refs_perm : ∀ X, range_refs X ≡ₚ elements X).

Lemma checkUnbound_spec src extra : ∃ refs, NoDup refs ∧ (∀ ref, ref ∈ refs ↔ mounted extra src ref ∧ ¬ bound_ref src ref) ∧
  checkUnboundServiceAccounts range_refs src extra =
    (unbound_diagnostic <$> List.filter (negb ∘ ref_allowed extra) refs, ref_subject <$> List.filter (ref_allowed extra) refs).
Proof using All.
  unfold checkUnboundServiceAccounts, mounted. destruct (rd_List src GVR_Pod "") as [e|pods]; cbn [items_of].
  { exists []. split_and!; [constructor|set_solver|done]. }
  set (autom := sa_automount _). set (all := list_to_set (omap _ pods)).
  assert (Hall : ∀ ref, ref ∈ all ↔ ∃ p, p ∈ pods ∧ pod_ref extra autom p = Some ref).
  { intros ref. unfold all. by rewrite elem_of_list_to_set, list_elem_of_omap. }
  case_decide as E.
  { exists []. split_and!; [constructor| |done]. intros ref. rewrite <-Hall, E. set_solver. }
  cbv zeta. set (bound := list_to_set _). exists (filter (.∉ bound) (range_refs all)). split_and!.
  - apply NoDup_filter. rewrite range_refs_perm. apply NoDup_elements.
  - intros ref. rewrite list_elem_of_filter, range_refs_perm, elem_of_elements, Hall. unfold bound. rewrite elem_of_list_to_set, elem_of_bound. tauto.
  - apply check_refs_spec.
Qed.

End reported.

(** ** Under the role the operator grants *)

(** The API server refuses what no rule of the role allows. *)
Definition permits (rules : list PolicyRule) (verb : string) (g : GroupVersionResource) : bool :=
  existsb (allows_on verb (gv_Group g, gv_Resource g)) rules.
Definition forbidden (verb : string) (g : GroupVersionResource) : error := gv_Resource g +:+ " is forbidden: cannot " +:+ verb.
Definition authorized (rules : list PolicyRule) (src : Reads) : Reads := {|
  rd_List := λ g ns, if permits rules "list" g then rd_List src g ns else inl (forbidden "list" g);
  rd_Get := λ g ns n, if permits rules "get" g then rd_Get src g ns n else inl (forbidden "get" g);
|}.

(** C18: with the permissions the operator grants the watcher, the analyzer
    gets every list it asks for but never its allowlist: whatever
    srenix-rbac-allowlist holds, the reports are those of a cluster that has
    no ConfigMap at all.  (ConfigMaps are in no rule of the role.) *)
Theorem allowlist_unreadable range_refs POD_NAMESPACE src :
  RBACDrift_Run range_refs POD_NAMESPACE (authorized readerPolicyRules src) =
  RBACDrift_Run range_refs POD_NAMESPACE (mkReads (rd_List src) (λ g ns n, inl "not found")).
Proof.
  assert (Hl : ∀ g ns, g ∈ [gvrRole; gvrClusterRole; GVR_Pod; GVR_ServiceAccount; gvrRoleBinding; gvrClusterRoleBinding] →
    rd_List (authorized readerPolicyRules src) g ns = rd_List src g ns).
  { intros g ns Hg. cbn [authorized rd_List]. replace (permits readerPolicyRules "list" g) with true; [done|].
    set_unfold. by destruct Hg as [->|[->|[->|[->|[->|[->|[]]]]]]]; vm_compute. }
  assert (Hg : loadRBACAllowlist POD_NAMESPACE (authorized readerPolicyRules src) = no_allowlist).
  { unfold loadRBACAllowlist. cbn [authorized rd_Get]. by replace (permits readerPolicyRules "get" gvrConfigMap) with false by (vm_compute; reflexivity). }
  unfold RBACDrift_Run. rewrite Hg. change (loadRBACAllowlist _ (mkReads _ _)) with no_allowlist.
  unfold checkWildcardVerbs, checkUnboundServiceAccounts. cbn [rd_List]. rewrite !Hl by set_solver. reflexivity.
Qed.

(** ** A concrete cluster *)

Definition named (ns name : string) (fields : list (string * json)) : json :=
  JObj (("metadata", JObj [("name", JStr name); ("namespace", JStr ns)]) :: fields).
Definition sample_role (ns name : string) (verb group : string) : json :=
  named ns name [("rules", JArr [JObj [("verbs", JArr [JStr "get"]); ("apiGroups", JArr [JStr ""])];
                                 JObj [("verbs", JArr [JStr verb]); ("apiGroups", JArr [JStr group]); ("resources", JArr [JStr "pods"])]])].
Definition mounting (ns sa : string) : json := named ns "pod" [("spec", JObj [("serviceAccountName", JStr sa)])].
Definition sample_reads : Reads := {|
  rd_List := λ g _, inr (
    if decide (g = gvrClusterRole) then [sample_role "" "k10-admin" "*" "apps"; sample_role "" "payments-admin" "*" "apps"; sample_role "" "viewer" "get" "apps"]
    else if decide (g = gvrRole) then [sample_role "shop" "certs" "*" "certificates.k8s.io"; sample_role "vault" "server" "*" ""]
    else if decide (g = GVR_Pod) then [mounting "shop" "web"; mounting "shop" "web"; mounting "shop" "default"; mounting "shop" "batch";
                                      mounting "shop" "job-a"; mounting "shop" "job-b"; mounting "shop" "quiet"; mounting "vault" "vault"]
    else if decide (g = GVR_ServiceAccount) then [named "shop" "quiet" [("automountServiceAccountToken", JBool false)]]
    else if decide (g = gvrRoleBinding) then [named "shop" "b" [("subjects", JArr [JObj [("kind", JStr "ServiceAccount"); ("name", JStr "batch")]])]]
    else []);
  rd_Get := λ g ns n, if decide ((g, ns, n) = (gvrConfigMap, "agentic-sre", "srenix-rbac-allowlist"))
    then inr (named ns n [("data", JObj [("allowRolePrefixes", JStr "job-")])]) else inl "not found";
|}.
Example sample_reported : d_Subject <$> RBACDrift_Run elements "" sample_reads =
  ["ClusterRole/cluster/payments-admin"; "ServiceAccount/shop/web"; "RBACDrift/cluster/suppressed-expected-system"].
Proof. vm_compute. reflexivity. Qed.
Example sample_authorized : d_Subject <$> RBACDrift_Run elements "" (authorized readerPolicyRules sample_reads) =
  ["ClusterRole/cluster/payments-admin"; "ServiceAccount/shop/web"; "ServiceAccount/shop/job-a"; "ServiceAccount/shop/job-b";
   "RBACDrift/cluster/suppressed-expected-system"].
Proof. vm_compute. reflexivity. Qed.
(** The digest lists the accounts in the order they were visited in, which
    Go changes from one cycle to the next: the same cluster, another text. *)
Example digest_unstable :
  last (RBACDrift_Run elements "" sample_reads) ≠ last (RBACDrift_Run (λ X, reverse (elements X)) "" sample_reads).
Proof. vm_compute. discriminate. Qed.
