(* ===== verification/DnsChain.v ===== *)
(** * From a host name to its pods: internal/diagnose/dns_chain_drift.go

    The analyzer that follows each host an Ingress claims through its DNS
    record, its Ingress, the Service behind it and that Service's endpoints,
    and reports where the chain breaks.  [url_Hostname] is net/url's reading
    of a seed target, [range_paths] the order Go visits a map in. *)

From stdpp Require Import options.
From S2P Require Import Prelude GoString GoJson GoNum GoFmt Unstructured Types Cluster Snapshot.
Local Open Scope Z_scope.

(** ** Data *)

Record Zone := mkZone { z_ID : string; z_Name : string }.
Record DNSRecord := mkDNSRecord { r_Name : string; r_Type : string; r_Content : string; r_Proxied : bool }.
Record CloudflareClient := mkCloudflare {
  ListZones : error + list Zone;
  ListDNSRecords : string → error + list DNSRecord;
}.
Record ingressBackend := mkBackend { be_ns : string; be_ingName : string; be_svcNs : string; be_svcName : string; be_svcPort : string }.
Definition pathKey : Type := string * string.
Record DNSChainDrift := mkDNSChainDrift {
  dc_Client : option CloudflareClient;
  dc_SeedTargets : list string;
  dc_OptOutAnno : string;
}.

Definition subj (category detail : string) : string := "DNSChainDrift/" +:+ category +:+ "/" +:+ detail.
Definition dns_diagnostic (subject severity message remediation : string) : Diagnostic :=
  mkDiagnostic subject message remediation severity "DNSChainDrift" "" "" "" "" "" "".

(** ** Hosts and their backends *)

Definition as_map (j : option json) : option json := match j with Some (JObj l) => Some (JObj l) | _ => None end.
(** [.(int64)], printed with [%d]. *)
Definition as_int64 (j : option json) : option string := match j with Some (JNum lit) => Itoa <$> ParseInt lit | _ => None end.
Definition resolveIngressBackend (ns ingName : string) (rule : json) : ingressBackend :=
  let be name port := mkBackend ns ingName ns name port in
  match as_map (jmember "http" rule) with
  | None => be "" ""
  | Some http =>
      match NestedSlice http ["paths"] with
      | [] => be "" ""
      | path0 :: _ =>
          match as_map (jmember "backend" path0) with
          | None => be "" ""
          | Some backend =>
              match as_map (jmember "service" backend) with
              | Some svcMap =>
                  be (as_string (jmember "name" svcMap))
                    (match as_map (jmember "port" svcMap) with
                     | Some portMap =>
                         let portName := as_string (jmember "name" portMap) in
                         if portName ≠s? "" then portName else default "" (as_int64 (jmember "number" portMap))
                     | None => ""
                     end)
              | None =>
                  be (as_string (jmember "serviceName" backend))
                    (match jmember "servicePort" backend with
                     | Some (JStr svcPort) => svcPort
                     | j => default "" (as_int64 j)
                     end)
              end
          end
      end
  end.
(** The (path, pathType) pairs a rule claims. *)
Definition path_key (pm : json) : option pathKey :=
  match pm with
  | JObj _ =>
      let p := NestedString pm ["path"] in
      let pt := NestedString pm ["pathType"] in
      Some (if p =s? "" then "/" else p, if pt =s? "" then "Prefix" else pt)
  | _ => None
  end.
Definition rule_paths (rm : json) : list pathKey :=
  match NestedSlice rm ["http"; "paths"] with
  | [] => [("/", "Prefix")]
  | paths => omap path_key paths
  end.
Record Collected := mkCollected {
  hostBackend : gmap string (option ingressBackend);
  hostPathClaimants : gmap string (gmap pathKey (list string));
}.
Definition add_claim (claimant : string) (m : gmap pathKey (list string)) (k : pathKey) : gmap pathKey (list string) :=
  <[k := default [] (m !! k) ++ [claimant]]> m.
Definition collect_rule (ns ingName : string) (st : Collected) (rm : json) : Collected :=
  let host := ToLower (TrimSpace (NestedString rm ["host"])) in
  if host =s? "" then st else
  let claims := foldl (add_claim (ns +:+ "/" +:+ ingName)) (default ∅ (hostPathClaimants st !! host)) (rule_paths rm) in
  mkCollected
    (match hostBackend st !! host with
     | Some _ => hostBackend st
     | None => <[host := Some (resolveIngressBackend ns ingName rm)]> (hostBackend st)
     end)
    (<[host := claims]> (hostPathClaimants st)).
Definition collect_ingress (optOut : string) (st : Collected) (ing : json) : Collected :=
  let ns := GetNamespace ing in
  let ingName := GetName ing in
  if match lookup_str optOut (GetAnnotations ing) with Some v => EqualFold v "true" | None => false end then st
  else if HasPrefix ingName "cm-acme-http-solver-" then st
  else foldl (collect_rule ns ingName) st (NestedSlice ing ["spec"; "rules"]).

Section chain.
(** [u.Hostname()] of [url.Parse], where that succeeds. *)
Variable url_Hostname : string → option string.
(** [for k, ings := range pathMap] *)
Variable range_paths : gmap pathKey (list string) → list (pathKey * list string).

Definition hostFromURL (rawURL : string) : string :=
  if rawURL =s? "" then ""
  else if negb (Contains rawURL "://") then ToLower (TrimSpace rawURL)
  else match url_Hostname rawURL with None => "" | Some h => ToLower (TrimSpace h) end.
Definition merge_seed (acc : gmap string (option ingressBackend) * gset string) (rawURL : string)
    : gmap string (option ingressBackend) * gset string :=
  let '(backends, seeds) := acc in
  let h := hostFromURL rawURL in
  if h =s? "" then acc
  else (match backends !! h with Some _ => backends | None => <[h := None]> backends end, {[h]} ∪ seeds).
(** The insertion sort of [sortedBackendKeys]: [sorted] is reversed. *)
Fixpoint insert_key (k : string) (sorted : list string) : list string :=
  match sorted with
  | [] => [k]
  | y :: sorted => if bool_decide (str_le y k) then k :: y :: sorted else y :: insert_key k sorted
  end.
Definition sortedBackendKeys (keys : list string) : list string := reverse (foldl (λ sorted k, insert_key k sorted) [] keys).

(** ** The ingress controller *)

Definition isIngressControllerService (labels : list (string * string)) : bool :=
  if match lookup_str "app.kubernetes.io/name" labels with
     | Some v => bool_decide (ToLower v ∈ ["ingress-kong"; "kong"; "ingress-nginx"; "nginx-ingress"; "traefik"])
     | None => false
     end then true
  else match lookup_str "app" labels with
       | Some v => bool_decide (ToLower v ∈ ["ingress-kong"; "kong"; "ingress-nginx"; "nginx"; "traefik"])
       | None => false
       end.
Definition extractLBIP (svc : json) : string :=
  match NestedSlice svc ["status"; "loadBalancer"; "ingress"] with
  | [] => ""
  | f :: _ => TrimSpace (NestedString f ["ip"])
  end.
Fixpoint first_LBIP (svcs : list json) : string :=
  match svcs with
  | [] => ""
  | svc :: svcs =>
      if negb (isIngressControllerService (GetLabels svc)) then first_LBIP svcs
      else let ip := extractLBIP svc in if ip ≠s? "" then ip else first_LBIP svcs
  end.
Definition findIngressControllerLBIP (src : Reads) : string :=
  match rd_List src GVR_Service "" with inl _ => "" | inr svcs => first_LBIP svcs end.

(** ** Cloudflare *)

Definition add_record (cache : gmap string (list DNSRecord)) (r : DNSRecord) : gmap string (list DNSRecord) :=
  let name := ToLower (r_Name r) in <[name := default [] (cache !! name) ++ [r]]> cache.
Definition add_zone (client : CloudflareClient) (cache : gmap string (list DNSRecord)) (z : Zone) : gmap string (list DNSRecord) :=
  match ListDNSRecords client (z_ID z) with
  | inl _ => cache
  | inr records => foldl add_record cache records
  end.
(** [None] stands for [cfDisabled]. *)
Definition buildCFRecordCache (client : CloudflareClient) : option (gmap string (list DNSRecord)) :=
  match ListZones client with
  | inl _ => None
  | inr zones => Some (foldl (add_zone client) ∅ zones)
  end.
(** The finding, and whether the chain goes on. *)
Definition checkCFLayer (host : string) (cfRecords : gmap string (list DNSRecord)) (lbIP k8sSummary : string) : option Diagnostic * bool :=
  match default [] (cfRecords !! host) with
  | [] =>
      let msg := "*" +:+ host +:+ "*: no Cloudflare DNS record found. The host is not reachable from the internet until a DNS record is created." in
      let msg := if k8sSummary ≠s? "" then msg +:+ " " +:+ k8sSummary else msg in
      (Some (dns_diagnostic (subj "missing-cloudflare-record" host) "critical" msg
        ("Add `" +:+ host +:+ "` to `deploy/lib/dns.sh` with target `" +:+ lbIP +:+ "` and re-run the deploy step." +:+ nl +:+
         "Suggested record: A " +:+ host +:+ " → " +:+ lbIP +:+ " (proxied=false).")), false)
  | records =>
      if lbIP =s? "" then (None, true)
      else if existsb (λ r, r_Content r =s? lbIP) records then (None, true)
      else
        let observed := (λ r, r_Type r +:+ "→" +:+ r_Content r) <$> records in
        (Some (dns_diagnostic (subj "cloudflare-points-elsewhere" host) "critical"
          ("*" +:+ host +:+ "*: Cloudflare DNS record exists but points elsewhere. Observed: [" +:+ Join observed ", " +:+
           "]. Expected target (ingress-controller LB): `" +:+ lbIP +:+ "`.")
          ("Update the Cloudflare record for `" +:+ host +:+ "` to point at `" +:+ lbIP +:+
           "`, or update `expectedTargets` in the Srenix config if the current target is intentional." +:+ nl +:+
           "File to update: `deploy/lib/dns.sh`.")), true)
  end.

(** ** Endpoints *)

Definition ready_addresses (e : json) : nat :=
  if bool_decide (found_bool e ["conditions"; "ready"] = Some false) then 0 else length (NestedStringSlice e ["addresses"]).
Definition slice_of (name : string) (s : json) : bool :=
  NestedString s ["metadata"; "labels"; "kubernetes.io/service-name"] =s? name.
Definition readyAddressCount (ep : json) : nat := sum_list ((λ sm, length (NestedSlice sm ["addresses"])) <$> NestedSlice ep ["subsets"]).
(** [None] where neither interface answers. *)
Definition serviceReadyAddressCount (src : Reads) (ns name : string) : option nat :=
  let fallback := match rd_Get src GVR_Endpoints ns name with inl _ => None | inr ep => Some (readyAddressCount ep) end in
  match rd_List src GVR_EndpointSlice ns with
  | inl _ => fallback
  | inr slices =>
      match List.filter (slice_of name) slices with
      | [] => fallback
      | matched => Some (sum_list ((λ s, sum_list (ready_addresses <$> NestedSlice s ["endpoints"])) <$> matched))
      end
  end.
Definition has_endpoints (count : option nat) : bool := match count with Some (S _) => true | _ => false end.
Definition buildK8sSummary (src : Reads) (be : option ingressBackend) : string :=
  match be with
  | None => ""
  | Some be =>
      if be_svcName be =s? "" then "" else
      let ing := "Ingress `" +:+ be_ns be +:+ "/" +:+ be_ingName be +:+ "` exists and " in
      let svc := "Service `" +:+ be_svcNs be +:+ "/" +:+ be_svcName be +:+ "`" in
      match rd_Get src GVR_Service (be_svcNs be) (be_svcName be) with
      | inl _ => "Ingress `" +:+ be_ns be +:+ "/" +:+ be_ingName be +:+ "` exists but references a missing " +:+ svc +:+ "."
      | inr _ =>
          let count := serviceReadyAddressCount src (be_svcNs be) (be_svcName be) in
          if negb (has_endpoints count) then ing +:+ "points at " +:+ svc +:+ " (zero ready endpoints)."
          else ing +:+ "points at " +:+ svc +:+ " (" +:+ Itoa (Z.of_nat (default 0%nat count)) +:+
            " ready endpoint(s)) — the cluster side is healthy; only the external DNS hop is missing."
      end
  end.

(** ** One host *)

Fixpoint uniq_from (seen : gset string) (l : list string) : list string :=
  match l with
  | [] => []
  | n :: l => if bool_decide (n ∈ seen) then uniq_from seen l else n :: uniq_from ({[n]} ∪ seen) l
  end.
Definition collision (entry : pathKey * list string) : option string :=
  let '((path, pathType), ings) := entry in
  if (length ings <=? 1)%nat then None else
  let uniq := uniq_from ∅ ings in
  if (length uniq <=? 1)%nat then None
  else Some ("`" +:+ path +:+ "` (" +:+ pathType +:+ ") on " +:+ Join (sort_strings uniq) " + ").
Definition duplicate_report (host : string) (pathMap : gmap pathKey (list string)) : list Diagnostic :=
  let colliding := sort_strings (omap collision (range_paths pathMap)) in
  if (0 <? length colliding)%nat then
    [dns_diagnostic (subj "duplicate-ingress-host" host) "warning"
       ("*" +:+ host +:+ "* has " +:+ Itoa (Z.of_nat (length colliding)) +:+ " colliding path(s) claimed by multiple Ingresses: " +:+
        Join colliding "; " +:+ ". Pick one Ingress per (path, pathType); the router otherwise picks non-deterministically.") ""]
  else [].
Definition orphan_diagnostic (host : string) (be : ingressBackend) : Diagnostic :=
  let svc := be_svcNs be +:+ "/" +:+ be_svcName be in
  dns_diagnostic (subj "ingress-orphan-service" (be_ns be +:+ "/" +:+ be_ingName be +:+ "/" +:+ host)) "critical"
    ("Ingress `" +:+ be_ns be +:+ "/" +:+ be_ingName be +:+ "` routes host *" +:+ host +:+ "* to Service `" +:+ svc +:+ "` (port " +:+
     be_svcPort be +:+ ") but that Service does not exist in the cluster.")
    ("Either deploy Service `" +:+ svc +:+ "`, or update Ingress `" +:+ be_ingName be +:+ "` to reference an existing Service." +:+ nl +:+
     "To list Services in the namespace: kubectl -n " +:+ be_svcNs be +:+ " get svc").
Definition external_name_diagnostic (host : string) (be : ingressBackend) : Diagnostic :=
  let svc := be_svcNs be +:+ "/" +:+ be_svcName be in
  dns_diagnostic (subj "service-external-name-mismatch" (svc +:+ "/" +:+ host)) "warning"
    ("Ingress `" +:+ be_ns be +:+ "/" +:+ be_ingName be +:+ "` for host *" +:+ host +:+ "* references Service `" +:+ svc +:+
     "` which has `spec.type=ExternalName`. ExternalName Services proxy to an external DNS name, not in-cluster pods; the Ingress may not behave as expected.")
    "".
Definition no_endpoints_diagnostic (host : string) (be : ingressBackend) : Diagnostic :=
  let svc := be_svcNs be +:+ "/" +:+ be_svcName be in
  dns_diagnostic (subj "service-no-endpoints" (svc +:+ "/" +:+ host)) "critical"
    ("Service `" +:+ svc +:+ "` (backing host *" +:+ host +:+ "* via Ingress `" +:+ be_ns be +:+ "/" +:+ be_ingName be +:+
     "`) has zero ready endpoint addresses. Traffic to " +:+ host +:+ " will be dropped at the Service layer.")
    ("Check the Deployment/StatefulSet whose selector matches Service `" +:+ svc +:+ "`:" +:+ nl +:+
     "  kubectl -n " +:+ be_svcNs be +:+ " get pods -l $(kubectl -n " +:+ be_svcNs be +:+ " get svc " +:+ be_svcName be +:+
     " -o jsonpath='{.spec.selector}' 2>/dev/null)" +:+ nl +:+
     "Look for CrashLoopBackOff, Pending, or failed readiness probes. The WorkloadStateDrift analyzer may have additional detail.").
(** The reports on the Service behind an Ingress. *)
Definition service_reports (src : Reads) (host : string) (be : ingressBackend) : list Diagnostic :=
  if be_svcName be =s? "" then [] else
  match rd_Get src GVR_Service (be_svcNs be) (be_svcName be) with
  | inl _ => [orphan_diagnostic host be]
  | inr svc =>
      if EqualFold (NestedString svc ["spec"; "type"]) "ExternalName" then [external_name_diagnostic host be]
      else if negb (has_endpoints (serviceReadyAddressCount src (be_svcNs be) (be_svcName be))) then [no_endpoints_diagnostic host be]
      else []
  end.
Definition sanitizeForName (host : string) : string := smap (λ c, if bool_decide (c = "."%char) || bool_decide (c = "_"%char) then "-"%char else c) host.
Definition renderMissingIngressRemediation (host : string) : string :=
  "Create an Ingress for " +:+ host +:+ " pointing at the Service that should serve traffic. List candidates with `kubectl get svc -A`, then write a manifest like:" +:+ para +:+
  "  apiVersion: networking.k8s.io/v1" +:+ nl +:+ "  kind: Ingress" +:+ nl +:+ "  metadata:" +:+ nl +:+
  "    name: " +:+ sanitizeForName host +:+ "-ingress" +:+ nl +:+ "    namespace: <namespace-of-target-service>" +:+ nl +:+
  "  spec:" +:+ nl +:+ "    rules:" +:+ nl +:+ "      - host: " +:+ host +:+ nl +:+ "        http:" +:+ nl +:+ "          paths:" +:+ nl +:+
  "            - path: /" +:+ nl +:+ "              pathType: Prefix" +:+ nl +:+ "              backend:" +:+ nl +:+
  "                service:" +:+ nl +:+ "                  name: <target-service-name>" +:+ nl +:+ "                  port:" +:+ nl +:+
  "                    number: <target-service-port>" +:+ para +:+
  "If " +:+ host +:+ " is intentionally external (Cloudflare-only, no K8s backend), remove it from the static endpoint target list instead.".
Definition missing_ingress_diagnostic (host : string) : Diagnostic :=
  dns_diagnostic (subj "missing-ingress" host) "critical"
    ("*" +:+ host +:+ "* is in the static endpoint target list but has no Ingress in any namespace. Create an Ingress with `spec.rules[].host=" +:+
     host +:+ "` pointing at the intended backend Service, or mark this host external-only by removing it from the static target list.")
    (renderMissingIngressRemediation host).
(** The Ingress layer and what is behind it. *)
Definition k8s_reports (src : Reads) (claims : gmap string (gmap pathKey (list string))) (seeds : gset string) (host : string)
    (be : option ingressBackend) : list Diagnostic :=
  let isExternalOnly := match be with Some _ => false | None => bool_decide (host ∈ seeds) end in
  if isExternalOnly then [] else
  match be with
  | None => [missing_ingress_diagnostic host]
  | Some be => (match claims !! host with Some pathMap => duplicate_report host pathMap | None => [] end) ++ service_reports src host be
  end.
(** What the loop adds for a host, and whether it counts as not verified. *)
Definition host_reports (src : Reads) (claims : gmap string (gmap pathKey (list string))) (seeds : gset string)
    (cfRecords : option (gmap string (list DNSRecord))) (lbIP host : string) (be : option ingressBackend) : list Diagnostic * bool :=
  match cfRecords with
  | None => (k8s_reports src claims seeds host be, true)
  | Some cfRecords =>
      let '(cfDiag, cfOK) := checkCFLayer host cfRecords lbIP (buildK8sSummary src be) in
      match cfDiag with
      | Some d => if negb cfOK then ([d], false) else (d :: k8s_reports src claims seeds host be, false)
      | None => (k8s_reports src claims seeds host be, false)
      end
  end.
Definition unverified_diagnostic (cfMissingHosts : nat) : Diagnostic :=
  dns_diagnostic "DNSChainDrift/external-dns-not-verified" "info"
    ("Cloudflare credentials not configured; external DNS hop not checked for " +:+ Itoa (Z.of_nat cfMissingHosts) +:+
     " host(s). Set `SRENIX_CLOUDFLARE_API_TOKEN` (and optionally `SRENIX_CLOUDFLARE_ZONE_ID`) to enable the full DNS-chain analysis including the Cloudflare layer.")
    "".

(** ** The run *)

Context `{MR : MapRange}.

Definition analyze_host (src : Reads) (backends : gmap string (option ingressBackend)) (claims : gmap string (gmap pathKey (list string)))
    (seeds : gset string) (cfRecords : option (gmap string (list DNSRecord))) (lbIP : string) (acc : list Diagnostic * nat) (host : string)
    : list Diagnostic * nat :=
  let '(out, cfMissingHosts) := acc in
  let '(ds, unverified) := host_reports src claims seeds cfRecords lbIP host (mjoin (backends !! host)) in
  (out ++ ds, (if unverified then S cfMissingHosts else cfMissingHosts)).
Definition DNSChainDrift_Run (a : DNSChainDrift) (snapshot_mode : bool) (src : Reads) : list Diagnostic :=
  let optOut := if dc_OptOutAnno a =s? "" then "srenix.ai/probe-disable" else dc_OptOutAnno a in
  match rd_List src GVR_Ingress "" with
  | inl _ | inr [] => []
  | inr ingresses =>
      let st := foldl (collect_ingress optOut) (mkCollected ∅ ∅) ingresses in
      let '(backends, seeds) := foldl merge_seed (hostBackend st, ∅) (dc_SeedTargets a) in
      if bool_decide (backends = ∅) then [] else
      let lbIP := findIngressControllerLBIP src in
      let cfRecords :=
        match dc_Client a with
        | Some client => if snapshot_mode then None else buildCFRecordCache client
        | None => None
        end in
      let '(out, cfMissingHosts) :=
        foldl (analyze_host src backends (hostPathClaimants st) seeds cfRecords lbIP) ([], 0%nat) (sortedBackendKeys (range backends).*1) in
      if (0 <? cfMissingHosts)%nat then out ++ [unverified_diagnostic cfMissingHosts] else out
  end.
End chain.

(** ** The claims of the Ingresses *)

(** A rule of an Ingress that is not left out, with its host. *)
Record Claim := mkClaim { cl_host : string; cl_ns : string; cl_ing : string; cl_rule : json }.
Definition rule_claim (ns ingName : string) (rm : json) : option Claim :=
  let host := ToLower (TrimSpace (NestedString rm ["host"])) in
  if host =s? "" then None else Some (mkClaim host ns ingName rm).
Definition left_out (optOut : string) (ing : json) : bool :=
  match lookup_str optOut (GetAnnotations ing) with Some v => EqualFold v "true" | None => false end ||
  HasPrefix (GetName ing) "cm-acme-http-solver-".
Definition ingress_claims (optOut : string) (ing : json) : list Claim :=
  if left_out optOut ing then [] else omap (rule_claim (GetNamespace ing) (GetName ing)) (NestedSlice ing ["spec"; "rules"]).
Definition claimant (c : Claim) : string := cl_ns c +:+ "/" +:+ cl_ing c.
Definition claim_backend (c : Claim) : ingressBackend := resolveIngressBackend (cl_ns c) (cl_ing c) (cl_rule c).
(** The first claim of a host decides its backend. *)
Definition first_claim (claims : list Claim) (host : string) : option Claim := List.find (λ c, cl_host c =s? host) claims.
(** Who claims a path of a host, once per rule and path. *)
Definition claimants_of (claims : list Claim) (host : string) (k : pathKey) : list string :=
  claims ≫= λ c, if cl_host c =s? host then (λ _, claimant c) <$> filter (.= k) (rule_paths (cl_rule c)) else [].

Definition step (st : Collected) (c : Claim) : Collected := collect_rule (cl_ns c) (cl_ing c) st (cl_rule c).
Lemma collect_rules_claims ns ingName rules st :
  foldl (collect_rule ns ingName) st rules = foldl step st (omap (rule_claim ns ingName) rules).
Proof.
  revert st. induction rules as [|rm rules IH]; intros st; [done|]. cbn [foldl omap list_omap]. rewrite IH.
  unfold rule_claim at 2. cbv zeta. case_bool_decide as E; [|done]. unfold collect_rule. cbv zeta. by rewrite bool_decide_eq_true_2 by exact E.
Qed.
Lemma collect_claims optOut ings st :
  foldl (collect_ingress optOut) st ings = foldl step st (ings ≫= ingress_claims optOut).
Proof.
  revert st. induction ings as [|ing ings IH]; intros st; [done|]. cbn [foldl mbind list_bind]. rewrite IH, foldl_app. f_equal.
  unfold collect_ingress, ingress_claims, left_out. cbv zeta. destruct (lookup_str _ _) as [v|]; [destruct (EqualFold v "true"); [reflexivity|]|]; cbn [orb];
    (destruct (HasPrefix _ _); [reflexivity|apply collect_rules_claims]).
Qed.
Definition claim_ok (c : Claim) : Prop := cl_host c ≠ "" ∧ cl_host c = ToLower (TrimSpace (NestedString (cl_rule c) ["host"])).
Lemma ingress_claims_ok optOut ings : Forall claim_ok (ings ≫= ingress_claims optOut).
Proof.
  apply Forall_forall. intros c (ing & Hc & _)%list_elem_of_bind. unfold ingress_claims in Hc. destruct (left_out _ _); [by apply elem_of_nil in Hc|].
  apply list_elem_of_omap in Hc as (rm & _ & Hc). unfold rule_claim in Hc. cbv zeta in Hc.
  case_bool_decide as E; [discriminate|]. injection Hc as <-. by split.
Qed.

Definition claimed (st : Collected) (host : string) (k : pathKey) : list string := default [] (default ∅ (hostPathClaimants st !! host) !! k).
Lemma add_claims_lookup cl keys m k : default [] (foldl (add_claim cl) m keys !! k) = default [] (m !! k) ++ ((λ _, cl) <$> filter (.= k) keys).
Proof.
  revert m. induction keys as [|k' keys IH]; intros m; [by rewrite app_nil_r|]. cbn [foldl]. rewrite IH, filter_cons. unfold add_claim.
  destruct (decide (k' = k)) as [->|Hne].
  - rewrite lookup_insert_eq. cbn. by rewrite <-app_assoc.
  - by rewrite lookup_insert_ne.
Qed.
Lemma step_spec st c : claim_ok c →
  hostBackend (step st c) = (match hostBackend st !! cl_host c with Some _ => hostBackend st
    | None => <[cl_host c := Some (claim_backend c)]> (hostBackend st) end) ∧
  ∀ host k, claimed (step st c) host k = claimed st host k ++ (if cl_host c =s? host then (λ _, claimant c) <$> filter (.= k) (rule_paths (cl_rule c)) else []).
Proof.
  intros [Hne E]. unfold step, collect_rule. cbv zeta. rewrite <-E. rewrite bool_decide_eq_false_2 by done. split; [done|].
  intros host k. unfold claimed. cbn [hostPathClaimants]. case_bool_decide as Eh.
  - subst host. rewrite lookup_insert_eq. exact (add_claims_lookup _ _ _ _).
  - by rewrite lookup_insert_ne, app_nil_r.
Qed.
Lemma steps_spec claims : Forall claim_ok claims → ∀ st,
  (∀ host, hostBackend (foldl step st claims) !! host =
    match hostBackend st !! host with Some b => Some b | None => (λ c, Some (claim_backend c)) <$> first_claim claims host end) ∧
  ∀ host k, claimed (foldl step st claims) host k = claimed st host k ++ claimants_of claims host k.
Proof.
  induction 1 as [|c claims Hc _ IH]; intros st.
  - split; [|intros; by rewrite app_nil_r]. intros host. cbn. by destruct (hostBackend st !! host).
  - cbn [foldl]. destruct (step_spec st c Hc) as [H1 H2], (IH (step st c)) as [H3 H4]. split.
    + intros host. rewrite H3, H1. unfold first_claim. cbn [List.find]. case_bool_decide as Eh.
      * subst host. destruct (hostBackend st !! cl_host c) eqn:El; [by rewrite El|]. by rewrite lookup_insert_eq.
      * destruct (hostBackend st !! cl_host c) eqn:El; [done|]. by rewrite lookup_insert_ne.
    + intros host k. rewrite H4, H2, <-app_assoc. done.
Qed.

(** ** The hosts *)

Section hosts.
Context (url_Hostname : string → option string) (range_paths : gmap pathKey (list string) → list (pathKey * list string)) `{MR : MapRange}.
Local Notation Run := (DNSChainDrift_Run url_Hostname range_paths).
Local Notation hostFromURL := (hostFromURL url_Hostname).

Definition seed_hosts (urls : list string) : list string := filter (λ h, h ≠ "") (hostFromURL <$> urls).
Lemma merge_seeds_spec urls backends seeds : let r := foldl (merge_seed url_Hostname) (backends, seeds) urls in
  r.2 = list_to_set (seed_hosts urls) ∪ seeds ∧
  ∀ h, r.1 !! h = match backends !! h with Some b => Some b | None => if decide (h ∈ seed_hosts urls) then Some None else None end.
Proof.
  cbv zeta. revert backends seeds. induction urls as [|u urls IH]; intros backends seeds.
  - cbn. split; [set_solver|]. intros h. by destruct (backends !! h).
  - cbn [foldl]. unfold merge_seed at 2 4. cbv zeta. unfold seed_hosts. cbn [fmap list_fmap]. fold (seed_hosts urls).
    rewrite filter_cons. case_bool_decide as E.
    + rewrite decide_False by (intros H; exact (H E)). apply IH.
    + rewrite decide_True by done. destruct (IH (match backends !! hostFromURL u with Some _ => backends | None => <[hostFromURL u := None]> backends end)
        ({[hostFromURL u]} ∪ seeds)) as [H1 H2]. split; [rewrite H1; set_solver|]. intros h. rewrite H2.
      destruct (decide (hostFromURL u = h)) as [->|Hne].
      * destruct (backends !! h) as [b|] eqn:Eb; [by rewrite Eb|]. rewrite lookup_insert_eq, decide_True by set_solver. done.
      * replace (match backends !! hostFromURL u with Some _ => backends | None => _ end !! h) with (backends !! h)
          by (destruct (backends !! hostFromURL u); [done|by rewrite lookup_insert_ne]).
        destruct (backends !! h); [done|]. apply decide_ext. set_solver.
Qed.

(** The insertion sort sorts. *)
Lemma insert_key_perm k l : insert_key k l ≡ₚ k :: l.
Proof. induction l as [|y l IH]; cbn; [done|]. case_bool_decide; [done|]. rewrite IH. apply Permutation_swap. Qed.
Lemma insert_key_sorted k l : StronglySorted (flip str_le) l → StronglySorted (flip str_le) (insert_key k l).
Proof.
  induction 1 as [|y l Hs IH Hy]; cbn; [by repeat constructor|]. case_bool_decide as E.
  - constructor; [by constructor|]. constructor; [exact E|]. eapply Forall_impl; [exact Hy|]. intros z Hz. unfold flip in *. by trans y.
  - constructor; [exact IH|]. rewrite insert_key_perm. constructor; [|exact Hy]. unfold flip. by destruct (total str_le y k).
Qed.
Lemma reverse_sorted l : StronglySorted (flip str_le) l → StronglySorted str_le (reverse l).
Proof.
  induction 1 as [|y l Hs IH Hy]; [constructor|]. rewrite reverse_cons. apply StronglySorted_app. split_and!; [|exact IH|by repeat constructor].
  intros a b Ha Hb. rewrite elem_of_reverse in Ha. apply list_elem_of_singleton in Hb as ->. rewrite Forall_forall in Hy. exact (Hy a Ha).
Qed.
Lemma sortedBackendKeys_sorts keys : sortedBackendKeys keys = sort_strings keys.
Proof.
  assert (H : ∀ l, StronglySorted (flip str_le) l → StronglySorted (flip str_le) (foldl (λ s k, insert_key k s) l keys) ∧
    foldl (λ s k, insert_key k s) l keys ≡ₚ keys ++ l).
  { induction keys as [|k keys IH]; intros l Hl; [done|]. destruct (IH (insert_key k l) (insert_key_sorted _ _ Hl)) as [H1 H2].
    split; [exact H1|]. cbn [foldl]. by rewrite H2, insert_key_perm, <-Permutation_middle. }
  destruct (H [] ltac:(constructor)) as [H1 H2]. rewrite app_nil_r in H2.
  apply (StronglySorted_unique str_le); [by apply reverse_sorted|apply StronglySorted_merge_sort; apply _|].
  unfold sortedBackendKeys, sort_strings. by rewrite reverse_Permutation, H2, merge_sort_Permutation.
Qed.

(** ** The run, host by host *)

Definition anno_of (a : DNSChainDrift) : string := if dc_OptOutAnno a =s? "" then "srenix.ai/probe-disable" else dc_OptOutAnno a.
Definition claims_in (a : DNSChainDrift) (ings : list json) : list Claim := ings ≫= ingress_claims (anno_of a).
Definition hosts_of (a : DNSChainDrift) (ings : list json) : list string :=
  sort_strings (elements (list_to_set (cl_host <$> claims_in a ings) ∪ list_to_set (seed_hosts (dc_SeedTargets a)) : gset string)).
Definition backend_of (claims : list Claim) (host : string) : option ingressBackend := claim_backend <$> first_claim claims host.

Lemma first_claim_host claims host : is_Some (first_claim claims host) ↔ host ∈ cl_host <$> claims.
Proof.
  clear. unfold first_claim. induction claims as [|c claims IH]; cbn [List.find fmap list_fmap]; [split; [intros [? ?]; discriminate|set_solver]|].
  case_bool_decide as E; [split; [set_solver|eauto]|]. rewrite IH. set_solver.
Qed.
Lemma analyze_loop src b c s cf ip f hosts out n : (∀ h, mjoin (b !! h) = f h) → foldl (analyze_host range_paths src b c s cf ip) (out, n) hosts =
  (out ++ (hosts ≫= λ h, (host_reports range_paths src c s cf ip h (f h)).1),
   (n + length (List.filter (λ h, (host_reports range_paths src c s cf ip h (f h)).2) hosts))%nat).
Proof.
  intros Hf. revert out n. induction hosts as [|h hosts IH]; intros out n; [by rewrite app_nil_r, Nat.add_0_r|]. cbn [foldl mbind list_bind List.filter].
  unfold analyze_host at 2. rewrite Hf. destruct (host_reports _ _ _ _ _ _ _ _) as [ds u]. rewrite IH, <-app_assoc. cbn [fst snd]. f_equal.
  destruct u; cbn [length]; lia.
Qed.

(** What is known of a run over the listed Ingresses: the maps it builds and
    the records it has. *)
Lemma Run_hosts a (snap : bool) src ing ings (Hl : rd_List src GVR_Ingress "" = inr (ing :: ings)) :
  let claims := claims_in a (ing :: ings) in
  let cf := match dc_Client a with Some client => if snap then None else buildCFRecordCache client | None => None end in
  ∃ c : gmap string (gmap pathKey (list string)), (∀ h k, default [] (default ∅ (c !! h) !! k) = claimants_of claims h k) ∧
  let r h := host_reports range_paths src c (list_to_set (seed_hosts (dc_SeedTargets a))) cf (findIngressControllerLBIP src) h (backend_of claims h) in
  let hosts := hosts_of a (ing :: ings) in
  let n := length (List.filter (λ h, (r h).2) hosts) in
  Run a snap src = (hosts ≫= λ h, (r h).1) ++ (if (0 <? n)%nat then [unverified_diagnostic n] else []).
Proof.
  intros claims cf. unfold DNSChainDrift_Run. rewrite Hl. cbv zeta. fold (anno_of a). fold cf.
  rewrite collect_claims. fold (claims_in a (ing :: ings)). fold claims.
  destruct (steps_spec claims (ingress_claims_ok _ _) (mkCollected ∅ ∅)) as [Hb Hc].
  set (st := foldl step _ claims) in *. exists (hostPathClaimants st). split.
  { intros h k. specialize (Hc h k). unfold claimed in Hc. cbn [hostPathClaimants] in Hc. rewrite lookup_empty in Hc. exact Hc. }
  destruct (merge_seeds_spec (dc_SeedTargets a) (hostBackend st) ∅) as [Hs Hm].
  destruct (foldl (merge_seed _) _ _) as [backends seeds]. cbn [fst snd] in Hs, Hm. rewrite (right_id_L ∅ (∪)) in Hs. subst seeds.
  assert (Hk : ∀ h, mjoin (backends !! h) = backend_of claims h).
  { intros h. rewrite Hm, Hb. cbn [hostBackend]. rewrite lookup_empty. unfold backend_of. destruct (first_claim claims h); [done|]. cbn.
    by destruct (decide _). }
  assert (Hh : sortedBackendKeys (range backends).*1 = hosts_of a (ing :: ings)).
  { rewrite sortedBackendKeys_sorts. apply sort_strings_perm, NoDup_Permutation; [apply NoDup_range_fst|apply NoDup_elements|].
    intros h. rewrite elem_of_elements, elem_of_union, !elem_of_list_to_set. fold claims. rewrite <-first_claim_host.
    rewrite list_elem_of_fmap. transitivity (is_Some (backends !! h)).
    - split; [intros ([h' b] & -> & H%elem_of_range); eauto|intros [b H]; exists (h, b); split; [done|by apply elem_of_range]].
    - rewrite Hm, Hb. cbn [hostBackend]. rewrite lookup_empty. destruct (first_claim claims h); cbn.
      + split; [intros _; left; eauto|eauto].
      + case_decide; split; try (intros [? ?]; discriminate); eauto. intros [[? ?]|?]; [discriminate|done]. }
  rewrite (analyze_loop _ _ _ _ _ _ (backend_of claims)), Hh by exact Hk. cbn [app plus]. case_bool_decide as E.
  - subst backends. unfold hosts_of. fold claims.
    replace (elements _) with (@nil string); [done|]. symmetry. apply elements_empty_iff, leibniz_equiv_iff.
    apply elem_of_equiv_empty_L. intros h. rewrite elem_of_union, !elem_of_list_to_set. rewrite <-first_claim_host.
    specialize (Hm h). specialize (Hb h). rewrite Hb in Hm. cbn [hostBackend] in Hm. rewrite !lookup_empty in Hm. intros [[x Hx]|Hx].
    + rewrite Hx in Hm. discriminate.
    + destruct (first_claim claims h); [discriminate|]. cbn in Hm. by rewrite decide_True in Hm.
  - destruct (0 <? _)%nat; [done|]. by rewrite app_nil_r.
Qed.

(** ** Paths claimed twice *)

Lemma uniq_from_spec seen l : NoDup (uniq_from seen l) ∧ ∀ n, n ∈ uniq_from seen l ↔ n ∈ l ∧ n ∉ seen.
Proof.
  clear. revert seen. induction l as [|x l IH]; intros seen; cbn [uniq_from]; [split; [constructor|set_solver]|].
  case_bool_decide as E.
  - destruct (IH seen) as [H1 H2]. split; [done|]. intros n. rewrite H2. set_solver.
  - destruct (IH ({[x]} ∪ seen)) as [H1 H2]. split.
    + constructor; [|done]. rewrite H2. set_solver.
    + intros n. rewrite elem_of_cons, H2, elem_of_cons. destruct (decide (n = x)) as [->|]; set_solver.
Qed.
Lemma two_distinct (l : list string) : NoDup l → (1 < length l)%nat ↔ ∃ a b, a ∈ l ∧ b ∈ l ∧ a ≠ b.
Proof.
  clear. intros H. destruct l as [|x [|y l]]; cbn.
  - split; [lia|set_solver].
  - split; [lia|]. intros (a & b & Ha & Hb & Hne). apply list_elem_of_singleton in Ha, Hb. congruence.
  - split; [|lia]. intros _. exists x, y. inversion H. split_and!; [set_solver..|]. intros ->. set_solver.
Qed.
Lemma collision_is_Some k ings : is_Some (collision (k, ings)) ↔ ∃ a b, a ∈ ings ∧ b ∈ ings ∧ a ≠ b.
Proof.
  clear. destruct k as [p pt]. unfold collision. destruct (uniq_from_spec ∅ ings) as [Hn He].
  assert (Ht : (1 < length (uniq_from ∅ ings))%nat ↔ ∃ a b, a ∈ ings ∧ b ∈ ings ∧ a ≠ b).
  { rewrite (two_distinct _ Hn). setoid_rewrite He. split; intros (a & b & ?); exists a, b; set_solver. }
  destruct (Nat.leb_spec (length ings) 1) as [H|_].
  - split; [intros [? ?]; discriminate|]. intros (a & b & Ha & Hb & Hne). destruct ings as [|x [|y l]]; [set_solver| |cbn in H; lia]. set_solver.
  - rewrite <-Ht. cbv zeta. destruct (Nat.leb_spec (length (uniq_from ∅ ings)) 1); split; try done; try (intros [? ?]; discriminate); try lia; eauto.
Qed.
(** Two Ingresses claim one path of the host. *)
Definition doubly_claimed (claims : list Claim) (host : string) : Prop :=
  ∃ k c1 c2, c1 ∈ claimants_of claims host k ∧ c2 ∈ claimants_of claims host k ∧ c1 ≠ c2.
Context (range_paths_perm : ∀ m, range_paths m ≡ₚ map_to_list m).
Lemma duplicate_report_spec (host : string) (m : gmap pathKey (list string)) claims :
  (∀ k, default [] (m !! k) = claimants_of claims host k) →
  (∃ d, duplicate_report range_paths host m = [d] ∧ d_Severity d = "warning" ∧ doubly_claimed claims host) ∨
  (duplicate_report range_paths host m = [] ∧ ¬ doubly_claimed claims host).
Proof using All.
  intros Hm. unfold duplicate_report. cbv zeta. set (l := omap collision _).
  assert (Hl : (0 < length (sort_strings l))%nat ↔ doubly_claimed claims host).
  { unfold sort_strings. rewrite merge_sort_Permutation. trans (∃ x, x ∈ l).
    - destruct l; cbn; split; [lia|set_solver|set_solver|lia].
    - unfold l, doubly_claimed. setoid_rewrite list_elem_of_omap. setoid_rewrite <-Hm. split.
      + intros (x & [k ings] & Hin & Hx). rewrite range_paths_perm in Hin. apply elem_of_map_to_list in Hin.
        destruct (proj1 (collision_is_Some k ings)) as (c1 & c2 & ?); [eauto|]. exists k, c1, c2. by rewrite Hin.
      + intros (k & c1 & c2 & H1 & H2 & Hne). destruct (m !! k) as [ings|] eqn:Ek; [|by apply elem_of_nil in H1].
        destruct (proj2 (collision_is_Some k ings)) as [x Hx]; [by exists c1, c2|]. exists x, (k, ings). split; [|exact Hx].
        rewrite range_paths_perm. by apply elem_of_map_to_list. }
  destruct (Nat.ltb_spec 0 (length (sort_strings l))) as [H|H].
  - left. eexists. split_and!; [reflexivity..|]. by apply Hl.
  - right. split; [done|]. rewrite <-Hl. lia.
Qed.

(** ** The chain *)

(** What a client that asks for the host runs into: the Service its Ingress
    names is missing, or has no endpoint that is ready. *)
Definition broken (src : Reads) (be : ingressBackend) : Prop :=
  be_svcName be ≠ "" ∧
  match rd_Get src GVR_Service (be_svcNs be) (be_svcName be) with
  | inl _ => True
  | inr svc => EqualFold (NestedString svc ["spec"; "type"]) "ExternalName" = false ∧
      has_endpoints (serviceReadyAddressCount src (be_svcNs be) (be_svcName be)) = false
  end.
Definition external_name (src : Reads) (be : ingressBackend) : Prop :=
  be_svcName be ≠ "" ∧ ∃ svc, rd_Get src GVR_Service (be_svcNs be) (be_svcName be) = inr svc ∧
    EqualFold (NestedString svc ["spec"; "type"]) "ExternalName" = true.
Definition reports_of (severity : string) (l : list Diagnostic) : list Diagnostic := List.filter (λ d, d_Severity d =s? severity) l.
Lemma service_reports_spec src host be :
  (broken src be ∧ ¬ external_name src be ∧ ∃ d, service_reports src host be = [d] ∧ d_Severity d = "critical") ∨
  (external_name src be ∧ ¬ broken src be ∧ ∃ d, service_reports src host be = [d] ∧ d_Severity d = "warning") ∨
  (¬ broken src be ∧ ¬ external_name src be ∧ service_reports src host be = []).
Proof.
  clear. unfold service_reports, broken, external_name. case_bool_decide as E; [right; right; split_and!; [tauto|tauto|done]|].
  destruct (rd_Get _ _ _ _) as [e|svc].
  - left. split_and!; [done|done|intros (_ & ? & ? & _); discriminate|eauto].
  - destruct (EqualFold _ _) eqn:Ex.
    + right; left. split_and!; [done|eauto|intros (_ & ? & _); discriminate|eauto].
    + destruct (has_endpoints _) eqn:Ee; cbn [negb].
      * right; right. split_and!; [intros (_ & _ & ?); discriminate| |done]. intros (_ & ? & [= <-] & ?). congruence.
      * left. split_and!; [done|done|done|intros (_ & ? & [= <-] & ?); congruence|eauto].
Qed.
Lemma unclaimed claims host k : first_claim claims host = None → claimants_of claims host k = [].
Proof.
  clear. unfold first_claim, claimants_of. induction claims as [|c claims IH]; [done|]. cbn [List.find mbind list_bind].
  case_bool_decide; [discriminate|exact IH].
Qed.
(** A host of the run has a claim or is a seed. *)
Lemma hosts_of_claimed a ings h : h ∈ hosts_of a ings → is_Some (first_claim (claims_in a ings) h) ∨ h ∈ seed_hosts (dc_SeedTargets a).
Proof using All.
  unfold hosts_of, sort_strings. rewrite merge_sort_Permutation, elem_of_elements, elem_of_union, !elem_of_list_to_set, first_claim_host. tauto.
Qed.
Lemma unfiltered {A} (l : list A) : List.filter (λ _, true) l = l.
Proof. induction l as [|x l IH]; [done|]. cbn. by rewrite IH. Qed.

Definition chain_verdict (claims : list Claim) (src : Reads) (h : string) (be : option ingressBackend) (report : list Diagnostic) : Prop :=
  (reports_of "critical" report ≠ [] ↔ ∃ b, be = Some b ∧ broken src b) ∧
  (reports_of "warning" report ≠ [] ↔ doubly_claimed claims h ∨ ∃ b, be = Some b ∧ external_name src b) ∧
  Forall (λ d, d_Severity d = "critical" ∨ d_Severity d = "warning") report ∧ (length report ≤ 2)%nat.
Lemma k8s_reports_verdict (claims : list Claim) (src : Reads) (c : gmap string (gmap pathKey (list string))) (seeds : gset string) (h : string)
    (be : option ingressBackend) :
  (∀ k, default [] (default ∅ (c !! h) !! k) = claimants_of claims h k) →
  (be = None → h ∈ seeds ∧ ¬ doubly_claimed claims h) →
  chain_verdict claims src h be (k8s_reports range_paths src c seeds h be).
Proof using All.
  intros Hcl Hnone. unfold k8s_reports. destruct be as [be|].
  2: { destruct (Hnone eq_refl) as [Hs Hd]. rewrite bool_decide_eq_true_2 by done. unfold chain_verdict. cbn.
       split_and!; [|split; [done|]|constructor|lia]; [split; [done|]; intros (? & ? & _); discriminate|].
       intros [?|(? & ? & _)]; [done|discriminate]. }
  set (dup := match c !! h with Some m => _ | None => _ end).
  assert (Hd : (∃ d, dup = [d] ∧ d_Severity d = "warning" ∧ doubly_claimed claims h) ∨ (dup = [] ∧ ¬ doubly_claimed claims h)).
  { unfold dup. destruct (c !! h) as [m|]; [by apply duplicate_report_spec|right; split; [done|]].
    intros (k & c1 & c2 & H1 & _). rewrite <-(Hcl k) in H1. by apply elem_of_nil in H1. }
  assert (Hb : ∀ P : ingressBackend → Prop, (∃ b, Some be = Some b ∧ P b) ↔ P be) by naive_solver.
  unfold chain_verdict. rewrite !Hb. clearbody dup. unfold reports_of.
  destruct Hd as [(d & -> & Hs & Hd)|[-> Hd]];
    destruct (service_reports_spec src h be) as [(H1 & H2 & d' & -> & Hs')|[(H1 & H2 & d' & -> & Hs')|(H1 & H2 & ->)]];
    cbn [app List.filter length]; rewrite ?Forall_cons, ?Forall_nil, ?Hs, ?Hs', ?bool_decide_eq_true_2, ?bool_decide_eq_false_2 by done;
    split_and!; try lia; intuition discriminate.
Qed.

(** C17: the chain from a host to its pods, without Cloudflare: the reports
    come host by host, the hosts of the rules and the seeds in order and each
    once, and then one note that counts them.  A host has a critical report
    exactly when the first Ingress that claims it names a Service that is
    missing or has no ready endpoint, and a warning exactly when two
    Ingresses claim the same path of it or that Service has the type
    ExternalName; a seed without an Ingress has none.  The order in which Go
    visits its maps plays no part. *)
Theorem dns_chain a snap src ing ings (Hl : rd_List src GVR_Ingress "" = inr (ing :: ings)) (Hc : dc_Client a = None) :
  let claims := claims_in a (ing :: ings) in let hosts := hosts_of a (ing :: ings) in
  ∃ report, Run a snap src = (hosts ≫= report) ++ (if (0 <? length hosts)%nat then [unverified_diagnostic (length hosts)] else []) ∧
  ∀ h, h ∈ hosts → chain_verdict claims src h (backend_of claims h) (report h).
Proof using All.
  intros claims hosts. destruct (Run_hosts a snap src ing ings Hl) as (c & Hcl & E). rewrite Hc in E. cbn [host_reports fst snd] in E.
  rewrite unfiltered in E. eexists. split; [exact E|]. cbv beta. intros h Hh. apply k8s_reports_verdict; [apply Hcl|].
  destruct (hosts_of_claimed _ _ _ Hh) as [[cl Ef]|Hs]; unfold backend_of; fold claims.
  - fold claims in Ef. by rewrite Ef.
  - destruct (first_claim claims h) eqn:Ef; [done|]. intros _. split; [by apply elem_of_list_to_set|].
    intros (k & c1 & c2 & H1 & _). rewrite unclaimed in H1 by done. by apply elem_of_nil in H1.
Qed.

(** ** Cloudflare failing *)

Lemma add_records_miss h records cache : (∀ r, r ∈ records → ToLower (r_Name r) ≠ h) → foldl add_record cache records !! h = cache !! h.
Proof.
  clear. revert cache. induction records as [|r records IH]; intros cache Hr; [done|]. cbn [foldl]. rewrite IH by set_solver.
  unfold add_record. cbv zeta. rewrite lookup_insert_ne; [done|]. apply Hr. set_solver.
Qed.
Lemma add_zones_miss client h zones cache :
  (∀ z rs r, z ∈ zones → ListDNSRecords client (z_ID z) = inr rs → r ∈ rs → ToLower (r_Name r) ≠ h) →
  foldl (add_zone client) cache zones !! h = cache !! h.
Proof.
  clear. revert cache. induction zones as [|z zones IH]; intros cache Hz; [done|]. cbn [foldl]. rewrite IH by set_solver.
  unfold add_zone. destruct (ListDNSRecords client (z_ID z)) as [e|rs] eqn:E; [done|]. apply add_records_miss. intros r Hr. by eapply Hz; [left| |].
Qed.
Lemma host_reports_verified src c seeds cf lbIP h be : (host_reports range_paths src c seeds (Some cf) lbIP h be).2 = false.
Proof. unfold host_reports. destruct (checkCFLayer _ _ _ _) as [[d|] []]; done. Qed.
Lemma none_left {A} (p : A → bool) l : (∀ x, p x = false) → List.filter p l = [].
Proof. intros Hp. induction l as [|x l IH]; [done|]. cbn. by rewrite Hp. Qed.
Definition without_client (a : DNSChainDrift) : DNSChainDrift := mkDNSChainDrift None (dc_SeedTargets a) (dc_OptOutAnno a).

(** C33: what failures of Cloudflare do.  When the zones cannot be listed, a
    run is one without Cloudflare, with all reports on the cluster and the
    note.  But when only the records of a zone cannot be listed, each host
    they are for gets the single critical report that it has no DNS record,
    whatever is wrong with its Service goes unreported, and there is no
    note. *)
Theorem cloudflare_failure a client src ing ings (Hl : rd_List src GVR_Ingress "" = inr (ing :: ings)) (Hc : dc_Client a = Some client) :
  (∀ e, ListZones client = inl e → Run a false src = Run (without_client a) false src) ∧
  ∀ zones, ListZones client = inr zones → ∃ report, Run a false src = hosts_of a (ing :: ings) ≫= report ∧
    ∀ h, (∀ z rs r, z ∈ zones → ListDNSRecords client (z_ID z) = inr rs → r ∈ rs → ToLower (r_Name r) ≠ h) →
      d_Subject <$> report h = [subj "missing-cloudflare-record" h] ∧ d_Severity <$> report h = ["critical"].
Proof using All.
  split.
  - intros e Hz. unfold DNSChainDrift_Run. rewrite Hl, Hc. cbn [without_client dc_Client dc_SeedTargets dc_OptOutAnno].
    unfold buildCFRecordCache. by rewrite Hz.
  - intros zones Hz. destruct (Run_hosts a false src ing ings Hl) as (c & Hcl & E). rewrite Hc in E. unfold buildCFRecordCache in E. rewrite Hz in E.
    set (cache := foldl _ ∅ zones) in E. cbv zeta in E.
    rewrite (none_left _ (hosts_of a (ing :: ings))) in E by (intros h; apply host_reports_verified). rewrite app_nil_r in E.
    eexists. split; [exact E|]. cbv beta. intros h Hh. unfold host_reports, checkCFLayer.
    assert (Hm : cache !! h = None) by (unfold cache; by rewrite add_zones_miss, lookup_empty by done). by rewrite Hm.
Qed.
End hosts.

(** ** A concrete cluster *)

Definition sample_named (ns name : string) (fields : list (string * json)) : json :=
  JObj (("metadata", JObj [("name", JStr name); ("namespace", JStr ns)]) :: fields).
Definition ingress_for (ns name host path svc : string) : json :=
  sample_named ns name [("spec", JObj [("rules", JArr [JObj [("host", JStr host); ("http", JObj [("paths", JArr [JObj [
    ("path", JStr path); ("pathType", JStr "Prefix");
    ("backend", JObj [("service", JObj [("name", JStr svc); ("port", JObj [("number", JNum "80")])])])]])])]])])].
Definition dns_reads : Reads := {|
  rd_List := λ g _, inr (if decide (g = GVR_Ingress) then
      [ingress_for "shop" "web" "Shop.example.com" "/" "web"; ingress_for "shop" "api" "shop.example.com" "/api" "api";
       ingress_for "old" "web" "shop.example.com" "" "web"; ingress_for "pay" "gone" "pay.example.com" "/" "gone";
       ingress_for "shop" "cm-acme-http-solver-x" "acme.example.com" "/" "solver"; ingress_for "blog" "blog" "blog.example.com" "/" "blog"]
    else if decide (g = GVR_EndpointSlice) then
      [JObj [("metadata", JObj [("labels", JObj [("kubernetes.io/service-name", JStr "web")])]);
             ("endpoints", JArr [JObj [("addresses", JArr [JStr "10.0.0.1"])];
                                 JObj [("addresses", JArr [JStr "10.0.0.2"]); ("conditions", JObj [("ready", JBool false)])]])]]
    else []);
  rd_Get := λ g _ name, if decide (g = GVR_Service) then (if name =s? "gone" then inl "not found" else inr (JObj [])) else inl "not found";
|}.
Definition sample_dns (client : option CloudflareClient) : DNSChainDrift := mkDNSChainDrift client ["status.example.com"; "https://pay.example.com/"] "".
Definition no_records : CloudflareClient := mkCloudflare (inr [mkZone "z1" "example.com"]) (λ _, inl "rate limited").
Definition sample_url (u : string) : option string := if u =s? "https://pay.example.com/" then Some "pay.example.com" else None.
Definition sample_run (client : option CloudflareClient) : list Diagnostic :=
  @DNSChainDrift_Run sample_url map_to_list key_order (sample_dns client) false dns_reads.

Example sample_chain : (λ d, (d_Severity d, d_Subject d)) <$> sample_run None =
  [("critical", "DNSChainDrift/service-no-endpoints/blog/blog/blog.example.com");
   ("critical", "DNSChainDrift/ingress-orphan-service/pay/gone/pay.example.com");
   ("warning", "DNSChainDrift/duplicate-ingress-host/shop.example.com");
   ("info", "DNSChainDrift/external-dns-not-verified")].
Proof. vm_compute. reflexivity. Qed.
Example sample_rate_limited : d_Subject <$> sample_run (Some no_records) =
  ["DNSChainDrift/missing-cloudflare-record/blog.example.com"; "DNSChainDrift/missing-cloudflare-record/pay.example.com";
   "DNSChainDrift/missing-cloudflare-record/shop.example.com"; "DNSChainDrift/missing-cloudflare-record/status.example.com"].
Proof. vm_compute. reflexivity. Qed.

Definition dns_ingresses : list json := items_of (rd_List dns_reads GVR_Ingress "").
Lemma dns_chain_witness : let a := sample_dns None in let claims := claims_in a dns_ingresses in let hosts := hosts_of sample_url a dns_ingresses in
  ∃ report, sample_run None = (hosts ≫= report) ++ (if (0 <? length hosts)%nat then [unverified_diagnostic (length hosts)] else []) ∧
  ∀ h, h ∈ hosts → chain_verdict claims dns_reads h (backend_of claims h) (report h).
Proof. exact (@dns_chain sample_url map_to_list key_order (λ m, reflexivity _) (sample_dns None) false dns_reads _ _ eq_refl eq_refl). Defined.
Lemma cloudflare_failure_witness : let a := sample_dns (Some no_records) in
  (∀ e, ListZones no_records = inl e → sample_run (Some no_records) = sample_run None) ∧
  ∀ zones, ListZones no_records = inr zones → ∃ report, sample_run (Some no_records) = hosts_of sample_url a dns_ingresses ≫= report ∧
    ∀ h, (∀ z rs r, z ∈ zones → ListDNSRecords no_records (z_ID z) = inr rs → r ∈ rs → ToLower (r_Name r) ≠ h) →
      d_Subject <$> report h = [subj "missing-cloudflare-record" h] ∧ d_Severity <$> report h = ["critical"].
Proof.
  exact (@cloudflare_failure sample_url map_to_list key_order (λ m, reflexivity _) (sample_dns (Some no_records)) no_records dns_reads _ _ eq_refl eq_refl).
Defined.
