(* ===== verification/GitOps.v ===== *)
(** * What GitOps controllers report: internal/diagnose/gitops_drift.go

    The analyzer of Argo CD applications and Flux objects, and what the
    watcher (Watcher.v) makes of its reports. *)

From stdpp Require Import options.
From S2P Require Import Prelude GoString GoTime GoClock GoNum GoJson Unstructured Sha256 Types Cluster Snapshot Watcher.
Local Open Scope Z_scope.

(** ** Durations *)

(** [d.Round(m)], half away from zero, saturated. *)
Definition Round (d m : Duration) : Duration :=
  if m <=? 0 then d else
  let r := Z.rem d m in
  if d <? 0 then
    let r := - r in
    if 2 * r <? m then d + r else let d1 := d - m + r in if minDuration <=? d1 then d1 else minDuration
  else if 2 * r <? m then d - r
  else let d1 := d + m - r in if d1 <=? maxDuration then d1 else maxDuration.
Definition durationShort (d : Duration) : string :=
  let out := Duration_String (Round d Second) in
  let out := if HasSuffix out "m0s" then TrimSuffix out "0s" else out in
  if HasSuffix out "h0m" then TrimSuffix out "0m" else out.
Definition trimMessage (msg : string) : string :=
  let msg := TrimSpace msg in if (200 <? len msg)%nat then stake 197 msg +:+ "..." else msg.
Definition shortRev (rev : string) : string :=
  if rev =s? "" then "(unknown)" else if (10 <? len rev)%nat then stake 10 rev else rev.

Example durations : durationShort <$> [5 * Minute; Hour + 2 * Minute; 3 * Hour; 12 * Minute + 400 * Millisecond; 90 * Second + 600 * Millisecond] =
  ["5m"; "1h2m"; "3h"; "12m"; "1m31s"].
Proof. vm_compute. reflexivity. Qed.

(** ** The analyzer *)

Definition gvrArgoApplication : GroupVersionResource := mkGVR "argoproj.io" "v1alpha1" "applications".
Definition gvrFluxKustomization : GroupVersionResource := mkGVR "kustomize.toolkit.fluxcd.io" "v1" "kustomizations".
Definition gvrFluxHelmRelease : GroupVersionResource := mkGVR "helm.toolkit.fluxcd.io" "v2" "helmreleases".

Definition gitops_diagnostic (subject severity message remediation : string) : Diagnostic :=
  mkDiagnostic subject message remediation severity "GitOpsDrift" "" "" "" "" "" "".
(** The age of a time that may be missing. *)
Definition age_of (now : Time) (raw : string) : Duration :=
  let t := default zeroTime (ParseRFC3339 raw) in if negb (IsZero t) then Sub now t else 0.
Definition sync_diagnostic (ns name syncStatus revision : string) (age : Duration) : Diagnostic :=
  gitops_diagnostic ("Application/" +:+ ns +:+ "/" +:+ name) "warning"
    ("Argo Application " +:+ ns +:+ "/" +:+ name +:+ " out-of-sync (status=" +:+ syncStatus +:+ ", last reconciled " +:+ durationShort age +:+
     " ago, revision " +:+ shortRev revision +:+ ")")
    ("Inspect: `argocd app diff " +:+ name +:+ "` or `kubectl describe application -n " +:+ ns +:+ " " +:+ name +:+
     "`. If the divergence is intentional, gate this Application on `argocd.argoproj.io/sync-options: ApplyOutOfSync=true` or add `app.kubernetes.io/managed-by-out-of-sync` annotation. Otherwise: `argocd app sync "
     +:+ name +:+ "`.").
Definition health_diagnostic (ns name healthStatus : string) (age : Duration) : Diagnostic :=
  gitops_diagnostic ("Application/" +:+ ns +:+ "/" +:+ name) (if healthStatus =s? "Degraded" then "critical" else "warning")
    ("Argo Application " +:+ ns +:+ "/" +:+ name +:+ " health=" +:+ healthStatus +:+ " (last reconciled " +:+ durationShort age +:+ " ago)")
    ("Argo's health controller is reporting non-Healthy after a successful sync. Most common cause: workload-level CrashLoopBackOff / image-pull / probe failure. `kubectl get pods -n "
     +:+ ns +:+ " -l app.kubernetes.io/instance=" +:+ name +:+ "` and re-run srenix diagnose.").
Definition check_app (grace : Duration) (now : Time) (app : json) : list Diagnostic :=
  let ns := GetNamespace app in
  let name := GetName app in
  let syncStatus := NestedString app ["status"; "sync"; "status"] in
  let healthStatus := NestedString app ["status"; "health"; "status"] in
  let revision := NestedString app ["status"; "sync"; "revision"] in
  let age := age_of now (NestedString app ["status"; "reconciledAt"]) in
  (if (syncStatus ≠s? "") && (syncStatus ≠s? "Synced") && (grace <=? age) then [sync_diagnostic ns name syncStatus revision age] else []) ++
  (if (healthStatus ≠s? "") && (healthStatus ≠s? "Healthy") && (healthStatus ≠s? "Progressing") && (grace <=? age)
   then [health_diagnostic ns name healthStatus age] else []).
Definition checkArgoApplications (src : Reads) (grace : Duration) (now : Time) : list Diagnostic :=
  match rd_List src gvrArgoApplication "" with inl _ => [] | inr apps => apps ≫= check_app grace now end.

Definition flux_text (kind ns name status reason : string) (age : Duration) (msg : string) : string :=
  "Flux " +:+ kind +:+ " " +:+ ns +:+ "/" +:+ name +:+ " Ready=" +:+ status +:+ " (reason=" +:+ reason +:+ ", not reconciled for " +:+
  durationShort age +:+ "): " +:+ trimMessage msg.
Definition flux_diagnostic (u : json) (kind : string) (cond : json) (age : Duration) : Diagnostic :=
  let ns := GetNamespace u in
  let name := GetName u in
  let reason := NestedString cond ["reason"] in
  gitops_diagnostic (kind +:+ "/" +:+ ns +:+ "/" +:+ name) (if Contains reason "Failed" then "critical" else "warning")
    (flux_text kind ns name (NestedString cond ["status"]) reason age (NestedString cond ["message"]))
    ("Inspect: `kubectl describe " +:+ ToLower kind +:+ " -n " +:+ ns +:+ " " +:+ name +:+
     "` for the full controller stack. Force a reconcile: `flux reconcile " +:+ ToLower kind +:+ " -n " +:+ ns +:+ " " +:+ name +:+
     "`. If the source is broken, fix the Git source and the controller will retry automatically.").
(** From the Ready condition on. *)
Definition flux_ready (u : json) (kind : string) (grace : Duration) (now : Time) (cond : json) : list Diagnostic :=
  if NestedString cond ["status"] =s? "True" then [] else
  let age := age_of now (NestedString cond ["lastTransitionTime"]) in
  if age <? grace then [] else [flux_diagnostic u kind cond age].
Fixpoint walk_conditions (u : json) (kind : string) (grace : Duration) (now : Time) (conds : list json) : list Diagnostic :=
  match conds with
  | [] => []
  | cond :: conds =>
      if NestedString cond ["type"] ≠s? "Ready" then walk_conditions u kind grace now conds else flux_ready u kind grace now cond
  end.
Definition fluxReadyDiagnostic (u : json) (kind : string) (grace : Duration) (now : Time) : list Diagnostic :=
  walk_conditions u kind grace now (NestedSlice u ["status"; "conditions"]).
Definition checkFluxKustomizations (src : Reads) (grace : Duration) (now : Time) : list Diagnostic :=
  match rd_List src gvrFluxKustomization "" with inl _ => [] | inr ks => ks ≫= λ k, fluxReadyDiagnostic k "Kustomization" grace now end.
Definition checkFluxHelmReleases (src : Reads) (grace : Duration) (now : Time) : list Diagnostic :=
  match rd_List src gvrFluxHelmRelease "" with inl _ => [] | inr hrs => hrs ≫= λ hr, fluxReadyDiagnostic hr "HelmRelease" grace now end.
(** The clock is read before each check. *)
Definition GitOpsDrift_Run (GracePeriod : Duration) (now1 now2 now3 : Time) (src : Reads) : list Diagnostic :=
  let grace := if GracePeriod =? 0 then 10 * Minute else GracePeriod in
  checkArgoApplications src grace now1 ++ checkFluxKustomizations src grace now2 ++ checkFluxHelmReleases src grace now3.

(** ** Ages are written differently when they differ by a second *)

(** What follows digits up to another byte is determined. *)
Lemma digits_cancel a b c d r r' : sforallb is_digit a = true → sforallb is_digit b = true → is_digit c = false → is_digit d = false →
  a +:+ String c r = b +:+ String d r' → a = b ∧ c = d ∧ r = r'.
Proof.
  revert b. induction a as [|x a IH]; intros [|y b] Ha Hb Hc Hd E; cbn in *.
  - injection E as -> ->. done.
  - injection E as -> _. apply andb_prop in Hb as [Hb _]. congruence.
  - injection E as -> _. apply andb_prop in Ha as [Ha _]. congruence.
  - apply andb_prop in Ha as [_ Ha], Hb as [_ Hb]. injection E as -> E. destruct (IH b Ha Hb Hc Hd E) as (-> & -> & ->). done.
Qed.
Lemma Itoa_digits z : 0 ≤ z → sforallb is_digit (Itoa z) = true.
Proof. intros Hz. destruct z as [|p|p]; [done|by apply pretty_N_go_digits|lia]. Qed.

Lemma HasSuffix_split s suf : HasSuffix s suf = true → ∃ p, s = p +:+ suf.
Proof.
  unfold HasSuffix. intros [_ E]%andb_prop. apply bool_decide_eq_true in E. exists (stake (len s - len suf) s).
  rewrite <-(stake_sdrop (len s - len suf) s) at 1. by rewrite E.
Qed.
Lemma TrimSuffix_app s p : TrimSuffix (s +:+ p) p = s.
Proof.
  unfold TrimSuffix. rewrite (proj2 (prefix_spec _ _)) by (exists (srev s); apply srev_app).
  rewrite sapp_length. replace (len s + len p - len p)%nat with (len s) by lia. apply stake_app.
Qed.
(** The last byte. *)
Definition ends (c : ascii) (s : string) : Prop := ∃ p, s = p +:+ String c "".
Lemma ends_unique c d s : ends c s → ends d s → c = d.
Proof. intros [p ->] [q E]. apply (f_equal srev) in E. rewrite !srev_app in E. by injection E. Qed.
Lemma ends_app c s t : ends c t → ends c (s +:+ t).
Proof. intros [p ->]. exists (s +:+ p). by rewrite sapp_assoc. Qed.
(** What the shortening left out can be told from what it left. *)
Definition shortened (f out : string) : Prop :=
  (ends "s" f ∧ out = f) ∨ (ends "m" f ∧ out = f +:+ "0s") ∨ (ends "h" f ∧ out = f +:+ "0m0s").
Lemma shortened_unique f out out' : shortened f out → shortened f out' → out = out'.
Proof. intros [[H ->]|[[H ->]|[H ->]]] [[H' ->]|[[H' ->]|[H' ->]]]; try done; pose proof (ends_unique _ _ _ H H') as E; discriminate E. Qed.
Lemma shorten_spec out : ends "s" out →
  shortened (let out := if HasSuffix out "m0s" then TrimSuffix out "0s" else out in if HasSuffix out "h0m" then TrimSuffix out "0m" else out) out.
Proof.
  intros Hs. cbv zeta. destruct (HasSuffix out "m0s") eqn:Em.
  - apply HasSuffix_split in Em as [p ->]. change "m0s" with ("m" +:+ "0s"). rewrite <-sapp_assoc, TrimSuffix_app.
    destruct (HasSuffix (p +:+ "m") "h0m") eqn:Eh.
    + apply HasSuffix_split in Eh as [q E]. rewrite E. change "h0m" with ("h" +:+ "0m"). rewrite <-(sapp_assoc q), TrimSuffix_app.
      right; right. split; [by exists q|]. by rewrite !sapp_assoc.
    + right; left. split; [by exists p|done].
  - destruct (HasSuffix out "h0m") eqn:Eh; [|by left]. apply HasSuffix_split in Eh as [q ->].
    assert (He : ends "m" (q +:+ "h0m")) by (exists (q +:+ "h0"); by rewrite sapp_assoc).
    pose proof (ends_unique _ _ _ Hs He) as E. discriminate E.
Qed.

(** Hours, minutes and seconds, of a whole number of seconds. *)
Definition hms (n : Z) : string :=
  (if n / 60 =? 0 then "" else (if n / 3600 =? 0 then "" else Itoa (n / 3600) +:+ "h") +:+ Itoa (n / 60 mod 60) +:+ "m") +:+ Itoa (n mod 60) +:+ "s".
Lemma Duration_String_seconds n : 0 ≤ n → Duration_String (n * Second) = hms n.
Proof.
  intros Hn. unfold Duration_String. rewrite Z.abs_eq by (unfold Second; lia). rewrite (proj2 (Z.ltb_ge _ _)) by (unfold Second; lia).
  destruct (Z.eqb_spec (n * Second) 0) as [E|E].
  - assert (n = 0) as -> by (unfold Second in E; lia). reflexivity.
  - rewrite !(proj2 (Z.ltb_ge (n * Second) _)) by (unfold Second in *; lia). rewrite Z.div_mul, Z.mod_mul by (unfold Second; lia). cbv zeta.
    reflexivity.
Qed.
Lemma ends_hms n : ends "s" (hms n).
Proof. unfold hms. do 2 apply ends_app. by exists "". Qed.
Lemma hms_inj n m : 0 ≤ n → 0 ≤ m → hms n = hms m → n = m.
Proof.
  intros Hn Hm E. unfold hms in E.
  assert (Hd : ∀ z, 0 ≤ z → sforallb is_digit (Itoa z) = true) by apply Itoa_digits.
  assert (Hq : ∀ z k, 0 ≤ z → 0 < k → 0 ≤ z / k) by (intros; apply Z.div_pos; lia).
  assert (Hr : ∀ z, 0 ≤ z mod 60) by (intros; apply Z.mod_pos_bound; lia).
  assert (Hc : ∀ a b c d r r', 0 ≤ a → 0 ≤ b → is_digit c = false → is_digit d = false →
    Itoa a +:+ String c r = Itoa b +:+ String d r' → a = b ∧ c = d ∧ r = r').
  { intros a b c d r r' Ha Hb Hc Hd' H. apply digits_cancel in H as (H & ? & ?); auto. by apply (inj pretty) in H. }
  destruct (Z.eqb_spec (n / 60) 0), (Z.eqb_spec (m / 60) 0), (Z.eqb_spec (n / 3600) 0), (Z.eqb_spec (m / 3600) 0);
    rewrite ?sapp_assoc in E; cbn [String.append] in E; repeat (apply Hc in E as (? & Hx & E); [try discriminate Hx; clear Hx|auto with lia..]).
  all: pose proof (Z.div_mod n 60 ltac:(lia)); pose proof (Z.div_mod m 60 ltac:(lia)); pose proof (Z.div_mod (n / 60) 60 ltac:(lia));
    pose proof (Z.div_mod (m / 60) 60 ltac:(lia)); rewrite (Z.div_div n 60 60), (Z.div_div m 60 60) in * by lia;
    change (60 * 60) with 3600 in *; lia.
Qed.
Lemma Round_second d : 0 ≤ d → d ≤ maxDuration - Second → Round d Second = (d + 500000000) / Second * Second.
Proof.
  intros H0 Hm. unfold Round. rewrite (proj2 (Z.leb_gt Second 0)) by (unfold Second; lia). rewrite Z.rem_mod_nonneg by (unfold Second; lia).
  rewrite (proj2 (Z.ltb_ge d 0)) by lia. pose proof (Z.div_mod d Second ltac:(unfold Second; lia)) as Hd.
  pose proof (Z.mod_pos_bound d Second ltac:(unfold Second; lia)) as Hr. set (q := d / Second) in *. set (r := d mod Second) in *. cbv zeta.
  destruct (Z.ltb_spec (2 * r) Second) as [Hl|Hl].
  - replace ((d + 500000000) / Second) with q; [lia|]. apply Z.div_unique with (r + 500000000); unfold Second in *; lia.
  - rewrite (proj2 (Z.leb_le _ _)) by lia.
    replace ((d + 500000000) / Second) with (q + 1); [lia|]. apply Z.div_unique with (r - 500000000); unfold Second in *; lia.
Qed.
(** Ages a second apart are written differently. *)
Lemma durationShort_differs d d' : 0 ≤ d → d + Second ≤ d' → d' ≤ maxDuration - Second → durationShort d ≠ durationShort d'.
Proof.
  intros H0 Hlt Hm E. unfold durationShort in E. rewrite !Round_second in E by (unfold Second in *; lia).
  assert (Hp : ∀ x, 0 ≤ x → 0 ≤ (x + 500000000) / Second) by (intros; apply Z.div_pos; unfold Second; lia).
  rewrite !Duration_String_seconds in E by (apply Hp; unfold Second in *; lia).
  pose proof (shorten_spec _ (ends_hms ((d + 500000000) / Second))) as H1. pose proof (shorten_spec _ (ends_hms ((d' + 500000000) / Second))) as H2.
  cbv zeta in H1, H2, E. rewrite E in H1. pose proof (shortened_unique _ _ _ H1 H2) as Eh.
  apply hms_inj in Eh; [|apply Hp; unfold Second in *; lia..].
  assert ((d + 500000000) / Second + 1 ≤ (d' + 500000000) / Second); [|lia].
  rewrite <-(Z.div_add _ 1) by (unfold Second; lia). apply Z.div_le_mono; unfold Second in *; lia.
Qed.

(** ** What the watcher makes of it *)

(** The Ready condition, the first of that type, and its time. *)
Definition ready_condition (u : json) : option json :=
  List.find (λ c, NestedString c ["type"] =s? "Ready") (NestedSlice u ["status"; "conditions"]).
Definition not_ready_since (u : json) : Time :=
  match ready_condition u with Some cond => default zeroTime (ParseRFC3339 (NestedString cond ["lastTransitionTime"])) | None => zeroTime end.
Lemma flux_condition u kind grace now : fluxReadyDiagnostic u kind grace now =
  match ready_condition u with Some cond => flux_ready u kind grace now cond | None => [] end.
Proof.
  unfold fluxReadyDiagnostic, ready_condition. induction (NestedSlice u _) as [|c l IH]; [done|]. cbn [walk_conditions List.find].
  destruct (_ =s? _); [done|exact IH].
Qed.
Lemma flux_report u kind grace now d : 0 < grace → fluxReadyDiagnostic u kind grace now = [d] →
  ∃ cond, ready_condition u = Some cond ∧ d = flux_diagnostic u kind cond (Sub now (not_ready_since u)) ∧ grace ≤ Sub now (not_ready_since u).
Proof.
  intros Hg. rewrite flux_condition. unfold not_ready_since. destruct (ready_condition u) as [cond|]; [|discriminate]. unfold flux_ready.
  destruct (_ =s? _); [discriminate|]. cbv zeta. destruct (Z.ltb_spec (age_of now (NestedString cond ["lastTransitionTime"])) grace) as [|Hl]; [discriminate|].
  intros E. injection E as <-. exists cond. split; [done|]. revert Hl. unfold age_of. cbv zeta. destruct (negb _); [by split|lia].
Qed.
(** Two texts with one 64-bit fingerprint. *)
Definition fingerprint_collision : Prop := ∃ x y, x ≠ y ∧ stake 8 (Sum256 x) = stake 8 (Sum256 y).
Lemma hex_encode_inj s t : hex_encode s = hex_encode t → s = t.
Proof. intros E. apply (f_equal hex_decode) in E. rewrite !hex_decode_encode in E. by injection E. Qed.

(** An application that is out of sync and unhealthy gets two reports with
    one subject; of two such reports the watcher keeps the later one. *)
Theorem one_hint_kept results diags grace now app d1 d2 (Happ : check_app grace now app = [d1; d2]) :
  d_Subject d1 = d_Subject d2 ∧ d_Message d1 ≠ d_Message d2 ∧
  buildCurrentState results (diags ++ check_app grace now app) !! d_Subject d1 = Some (diagnostic_seen d2).
Proof.
  assert (H : ∃ ns name syncStatus revision health age, d1 = sync_diagnostic ns name syncStatus revision age ∧ d2 = health_diagnostic ns name health age).
  { unfold check_app in Happ. cbv zeta in Happ. destruct (_ && _ && _), (_ && _); try discriminate. injection Happ as <- <-. eauto 10. }
  destruct H as (ns & name & syncStatus & revision & health & age & -> & ->). rewrite Happ. split_and!; [done| |].
  - cbn [sync_diagnostic health_diagnostic gitops_diagnostic d_Message]. intros E. repeat apply sapp_inj_l in E. discriminate E.
  - unfold buildCurrentState. rewrite foldl_app. cbn [foldl]. by rewrite lookup_insert_eq.
Qed.

(** ** Concrete objects *)

Definition sample_flux : json :=
  JObj [("metadata", JObj [("name", JStr "web"); ("namespace", JStr "shop")]);
        ("status", JObj [("conditions", JArr [JObj [("type", JStr "Healthy"); ("status", JStr "True")];
          JObj [("type", JStr "Ready"); ("status", JStr "False"); ("reason", JStr "UpgradeFailed"); ("message", JStr "timed out");
                ("lastTransitionTime", JStr "2024-02-29T12:34:56Z")]])])].
Definition sample_now : Time := FromUnix (1709210096 + 11 * 60).
Definition sample_report (now : Time) : Diagnostic := flux_diagnostic sample_flux "HelmRelease" (default JNull (ready_condition sample_flux)) (Sub now (not_ready_since sample_flux)).
Example sample_texts : d_Message <$> (fluxReadyDiagnostic sample_flux "HelmRelease" (10 * Minute) sample_now ++
    fluxReadyDiagnostic sample_flux "HelmRelease" (10 * Minute) (sample_now + 5 * Minute + Second)) =
  ["Flux HelmRelease shop/web Ready=False (reason=UpgradeFailed, not reconciled for 11m): timed out";
   "Flux HelmRelease shop/web Ready=False (reason=UpgradeFailed, not reconciled for 16m1s): timed out"].
Proof. vm_compute. reflexivity. Qed.
Definition sample_app : json :=
  JObj [("metadata", JObj [("name", JStr "web"); ("namespace", JStr "argo")]);
        ("status", JObj [("sync", JObj [("status", JStr "OutOfSync"); ("revision", JStr "0123456789abcdef")]); ("health", JObj [("status", JStr "Degraded")]);
                         ("reconciledAt", JStr "2024-02-29T12:34:56Z")])].
Example sample_hints : d_Message <$> check_app (10 * Minute) sample_now sample_app =
  ["Argo Application argo/web out-of-sync (status=OutOfSync, last reconciled 11m ago, revision 0123456789)";
   "Argo Application argo/web health=Degraded (last reconciled 11m ago)"].
Proof. vm_compute. reflexivity. Qed.
