(* ===== verification/CertExpiry.v ===== *)
(** * Certificates that expire: internal/diagnose/cert_expiry.go

    The analyzer of cert-manager's Certificates, which follows one that is
    not ready to the failed request, order and challenge.  [None] is the
    panic of a nil dereference, which nothing in the program recovers. *)

From stdpp Require Import options.
From S2P Require Import Prelude GoString GoTime GoClock GoNum GoJson Unstructured Types Cluster Snapshot.
Local Open Scope Z_scope.

Definition GVR_Certificate : GroupVersionResource := mkGVR "cert-manager.io" "v1" "certificates".
Definition GVR_CertificateRequest : GroupVersionResource := mkGVR "cert-manager.io" "v1" "certificaterequests".
Definition GVR_CertManagerOrder : GroupVersionResource := mkGVR "acme.cert-manager.io" "v1" "orders".
Definition GVR_CertManagerChallenge : GroupVersionResource := mkGVR "acme.cert-manager.io" "v1" "challenges".
Definition defaultWarnWindow : Duration := 14 * 24 * Hour.

(** ** Root causes *)

(** [failing_externalsecrets.go]'s truncate. *)
Definition truncate_bytes (s : string) (n : nat) : string := if (len s <=? n)%nat then s else stake n s.
Fixpoint ready_of (conds : list json) : string * string :=
  match conds with
  | [] => ("", "")
  | cm :: conds => if NestedString cm ["type"] ≠s? "Ready" then ready_of conds else (NestedString cm ["status"], NestedString cm ["message"])
  end.
Definition certReadyCondition (cert : json) : string * string := ready_of (NestedSlice cert ["status"; "conditions"]).
Definition cr_failed (ft : string) (cm : json) : bool :=
  (NestedString cm ["type"] =s? "Ready") && (NestedString cm ["status"] =s? "False") && ((NestedString cm ["reason"] =s? "Failed") || (ft ≠s? "")).
Fixpoint first_failed (certName : string) (crs : list json) : string * string :=
  match crs with
  | [] => ("", "")
  | cr :: crs =>
      if default "" (lookup_str "cert-manager.io/certificate-name" (GetLabels cr)) ≠s? certName then first_failed certName crs
      else
        let ft := NestedString cr ["status"; "failureTime"] in
        match List.find (cr_failed ft) (NestedSlice cr ["status"; "conditions"]) with
        | Some cm => (GetName cr, NestedString cm ["message"])
        | None => first_failed certName crs
        end
  end.
Definition failedCertRequest (src : Reads) (ns certName : string) : string * string :=
  match rd_List src GVR_CertificateRequest ns with inl _ => ("", "") | inr crs => first_failed certName crs end.
Definition owned_by (name : string) (obj : json) : bool := existsb (λ ref, o_Name ref =s? name) (GetOwnerReferences obj).
Definition challenge_reason (src : Reads) (ns oName : string) : string :=
  match rd_List src GVR_CertManagerChallenge ns with
  | inl _ => ""
  | inr challenges =>
      match List.find (owned_by oName) challenges with Some ch => NestedString ch ["status"; "reason"] | None => "" end
  end.
Definition order_failed (order : json) : bool :=
  let state := NestedString order ["status"; "state"] in (state =s? "errored") || (state =s? "invalid").
Definition failedOrderChallenge (src : Reads) (ns crName : string) : string * string :=
  match rd_List src GVR_CertManagerOrder ns with
  | inl _ => ("", "")
  | inr orders =>
      match List.find (λ order, order_failed order && owned_by crName order) orders with
      | Some order => let oName := GetName order in (oName, challenge_reason src ns oName)
      | None => ("", "")
      end
  end.
(** The text before the first colon or blank, where there is some. *)
Fixpoint before_colon (s : string) : option string :=
  match s with
  | "" => None
  | String c s => if (ord c =? 58) || (ord c =? 32) then Some "" else String c <$> before_colon s
  end.
Definition extractACMEDomain (reason : string) : string :=
  let marker := "authorization error for " in
  match Index reason marker with
  | None => ""
  | Some idx =>
      let rest := sdrop (idx + len marker) reason in
      match before_colon rest with Some d => if d ≠s? "" then d else rest | None => rest end
  end.
Definition certNotReadyDetail (src : Reads) (ns name : string) : option (string * string) :=
  let cert := "Certificate `" +:+ ns +:+ "/" +:+ name +:+ "` is not Ready: " in
  let '(crName, crMsg) := failedCertRequest src ns name in
  if crMsg =s? "" then
    match rd_List src GVR_Certificate ns with
    | inl _ => None
    | inr certs =>
        let crMsg := match List.find (λ c, GetName c =s? name) certs with Some c => (certReadyCondition c).2 | None => crMsg end in
        Some (cert +:+ truncate_bytes crMsg 200 +:+ ". Check Issuer/ClusterIssuer status and cert-manager controller logs.",
              "kubectl describe certificate " +:+ name +:+ " -n " +:+ ns)
    end
  else
    let '(orderName, challengeReason) := failedOrderChallenge src ns crName in
    if challengeReason =s? "" then
      Some (cert +:+ truncate_bytes crMsg 200,
            "kubectl delete certificaterequest " +:+ crName +:+ " -n " +:+ ns +:+ "  # forces cert-manager to retry")
    else
      let shortReason := truncate_bytes challengeReason 220 in
      let deleteCmd :=
        if orderName ≠s? "" then "kubectl delete order " +:+ orderName +:+ " -n " +:+ ns +:+ "  # cert-manager will retry immediately"
        else "kubectl delete certificaterequest " +:+ crName +:+ " -n " +:+ ns in
      if Contains challengeReason "no valid A records" || Contains challengeReason "no valid AAAA records" then
        let domain := extractACMEDomain challengeReason in
        let domainHint := if domain ≠s? "" then " Add A/AAAA DNS record for *" +:+ domain +:+ "* → ingress IP, then: " else "" in
        Some (cert +:+ "ACME HTTP-01 challenge failed — " +:+ shortReason, domainHint +:+ deleteCmd)
      else Some (cert +:+ "ACME challenge failed — " +:+ shortReason, deleteCmd).

(** ** The run *)

(** [Format] prints the wall clock of the zone the time was written in. *)
Definition zone_of (raw : string) : Duration :=
  if HasSuffix raw "Z" then 0 else default 0 (parse_zone (sdrop (len raw - 6) raw)) * Second.
Definition FormatDate (t : Time) : string := let '(y, mo, d) := date t in pad 4 y +:+ "-" +:+ pad 2 mo +:+ "-" +:+ pad 2 d.
Definition cert_diagnostic (subject severity message remediation : string) : Diagnostic :=
  mkDiagnostic subject message remediation severity "" "" "" "" "" "" "".
(** [later] is the clock when the days left are computed; the quotient is the
    one of Go's floats for windows below 170 days. *)
Definition check_cert (src : Reads) (window : Duration) (now later : Time) (cert : json) : option (list Diagnostic) :=
  let ns := GetNamespace cert in
  let name := GetName cert in
  let subject := "Certificate/" +:+ ns +:+ "/" +:+ name in
  if (certReadyCondition cert).1 =s? "False" then
    '(msg, rem) ← certNotReadyDetail src ns name; Some [cert_diagnostic subject "critical" msg rem]
  else
    let notAfterRaw := NestedString cert ["status"; "notAfter"] in
    if notAfterRaw =s? "" then Some [] else
    match ParseRFC3339 notAfterRaw with
    | None => Some []
    | Some notAfter =>
        let local := notAfter + zone_of notAfterRaw in
        if After now notAfter then
          Some [cert_diagnostic subject "critical" ("Certificate `" +:+ ns +:+ "/" +:+ name +:+ "` EXPIRED at " +:+ FormatMinuteUTC local +:+
            ". Pods consuming this TLS secret will fail on next restart.") ""]
        else if Before notAfter (Add now window) then
          let daysLeft := Z.quot (Sub notAfter later) (24 * Hour) in
          Some [cert_diagnostic subject "warning" ("Certificate `" +:+ ns +:+ "/" +:+ name +:+ "` expires in " +:+ Itoa daysLeft +:+ " day(s) (" +:+
            FormatDate local +:+ "). cert-manager renewal may have stalled — check Issuer status.") ""]
        else Some []
    end.
(** The clock is read once more for each certificate that expires soon. *)
Fixpoint check_certs (src : Reads) (window : Duration) (now : Time) (clock : nat → Time) (i : nat) (certs : list json) (out : list Diagnostic)
    : option (list Diagnostic) :=
  match certs with
  | [] => Some out
  | cert :: certs => ds ← check_cert src window now (clock i) cert; check_certs src window now clock (S i) certs (out ++ ds)
  end.
Definition CertExpiry_Run (WarnWindow : Duration) (now : Time) (clock : nat → Time) (src : Reads) : option (list Diagnostic) :=
  match rd_List src GVR_Certificate "" with
  | inl _ => Some []
  | inr certs =>
      let window := if WarnWindow =? 0 then defaultWarnWindow else WarnWindow in
      check_certs src window now clock 0 certs []
  end.

(** ** When it ends, and how *)

(** A certificate that is not ready and has no failed request that says why. *)
Definition unexplained (src : Reads) (cert : json) : Prop :=
  (certReadyCondition cert).1 = "False" ∧ (failedCertRequest src (GetNamespace cert) (GetName cert)).2 = "".
Lemma check_cert_panics src window now later cert :
  check_cert src window now later cert = None ↔ unexplained src cert ∧ ∃ e, rd_List src GVR_Certificate (GetNamespace cert) = inl e.
Proof.
  unfold check_cert, unexplained, certNotReadyDetail. cbv zeta. case_bool_decide as Hr.
  - destruct (failedCertRequest src (GetNamespace cert) (GetName cert)) as [crName crMsg]. cbn [snd]. case_bool_decide as Hm.
    + destruct (rd_List _ _ _); cbn; [split; [eauto|done]|]. split; [discriminate|intros [_ [? ?]]; discriminate].
    + destruct (failedOrderChallenge _ _ _) as [o r]. split; [|tauto]. repeat case_match; discriminate.
  - split; [|tauto]. repeat case_match; discriminate.
Qed.
Lemma check_certs_panics src window now clock certs : ∀ i out, check_certs src window now clock i certs out = None ↔
  ∃ cert, cert ∈ certs ∧ unexplained src cert ∧ ∃ e, rd_List src GVR_Certificate (GetNamespace cert) = inl e.
Proof.
  induction certs as [|cert certs IH]; intros i out; cbn [check_certs]; [split; [discriminate|set_solver]|].
  destruct (check_cert src window now (clock i) cert) as [ds|] eqn:E; cbn [mbind option_bind].
  - rewrite IH. split; [intros (c & ? & ?); exists c; set_solver|]. intros (c & [->|Hc]%elem_of_cons & Hu); [|eauto].
    apply (check_cert_panics src window now (clock i)) in Hu. congruence.
  - split; [|done]. intros _. apply check_cert_panics in E. exists cert. set_solver.
Qed.

(** C29: the analyzer panics, and with it the process, exactly when the
    certificates of all namespaces can be listed, one of them is not ready
    without a failed request that has a message, and listing the
    certificates of its namespace once more fails; in every other case it
    returns its reports. *)
Theorem cert_expiry_panics WarnWindow now clock src : CertExpiry_Run WarnWindow now clock src = None ↔
  ∃ certs cert e, rd_List src GVR_Certificate "" = inr certs ∧ cert ∈ certs ∧ unexplained src cert ∧
    rd_List src GVR_Certificate (GetNamespace cert) = inl e.
Proof.
  unfold CertExpiry_Run. destruct (rd_List src GVR_Certificate "") as [e|certs].
  - split; [discriminate|]. intros (? & ? & ? & ? & _). discriminate.
  - cbv zeta. rewrite check_certs_panics. split; [intros (c & ? & ? & e & ?); eauto 10|intros (? & c & e & [= <-] & ? & ? & ?); eauto 10].
Qed.

(** *** Concrete certificates *)

Definition sample_cert (name ready notAfter : string) : json :=
  JObj [("metadata", JObj [("name", JStr name); ("namespace", JStr "shop")]);
        ("status", JObj [("conditions", JArr [JObj [("type", JStr "Ready"); ("status", JStr ready); ("message", JStr "issuing")]]); ("notAfter", JStr notAfter)])].
Definition owned_obj (name owner : string) (status : list (string * json)) : json :=
  JObj [("metadata", JObj [("name", JStr name); ("labels", JObj [("cert-manager.io/certificate-name", JStr owner)]);
                           ("ownerReferences", JArr [JObj [("name", JStr owner)]])]); ("status", JObj status)].
Definition cert_reads (namespaced : error + list json) : Reads := {|
  rd_List := λ g ns,
    if decide (g = GVR_Certificate) then
      (if ns =s? "" then inr [sample_cert "api" "False" ""; sample_cert "old" "True" "2024-02-29T12:34:56Z";
                              sample_cert "soon" "True" "2024-03-10T01:00:00+02:00"; sample_cert "web" "False" ""] else namespaced)
    else if decide (g = GVR_CertificateRequest) then
      inr [owned_obj "api-1" "api" [("conditions", JArr [JObj [("type", JStr "Ready"); ("status", JStr "False"); ("reason", JStr "Failed"); ("message", JStr "order failed")]])]]
    else if decide (g = GVR_CertManagerOrder) then inr [owned_obj "api-1-7" "api-1" [("state", JStr "invalid")]]
    else inr [owned_obj "api-1-7-2" "api-1-7" [("reason", JStr "acme: authorization error for api.example.com: 400 no valid A records found")]];
  rd_Get := λ _ _ _, inl "not found";
|}.
Definition cert_now : Time := FromUnix (1709210096 + 3600).
Example sample_reports : option_map (List.map (λ d, (d_Severity d, d_Message d))) (CertExpiry_Run 0 cert_now (λ _, cert_now) (cert_reads (inr []))) =
  Some [("critical", "Certificate `shop/api` is not Ready: ACME HTTP-01 challenge failed — acme: authorization error for api.example.com: 400 no valid A records found");
        ("critical", "Certificate `shop/old` EXPIRED at 2024-02-29 12:34 UTC. Pods consuming this TLS secret will fail on next restart.");
        ("warning", "Certificate `shop/soon` expires in 9 day(s) (2024-03-10). cert-manager renewal may have stalled — check Issuer status.");
        ("critical", "Certificate `shop/web` is not Ready: . Check Issuer/ClusterIssuer status and cert-manager controller logs.")].
Proof. vm_compute. reflexivity. Qed.
Example sample_panic : CertExpiry_Run 0 cert_now (λ _, cert_now) (cert_reads (inl "etcdserver: request timed out")) = None.
Proof. vm_compute. reflexivity. Qed.
